(* ===== verification/_CoqProject ===== *)
-Q . S2P
Prelude.v
RustStr.v
Json.v
Regex.v
Vault.v
Redact.v
Eval.v
Deanon.v
ToolGate.v
Sse.v
Matcher.v
Policy.v
Routing.v
ClientAuth.v
Budget.v
Spotlight.v
Schema.v
AuditTrail.v
Proxy.v
Admin.v
EvalReport.v
Anthropic.v
Config.v
Reload.v
RustFs.v
RustNet.v
ConsoleDb.v
ConsoleApi.v
AdminCli.v
ConsoleInv.v
ConsoleEdit.v
ConsoleViews.v
ConsoleBackends.v
ConsolePlay.v
ConsoleStart.v
Boot.v
Server.v
ServerReach.v
Stale.v
ConsoleServe.v
ConsoleTrail.v
ConsoleCsrf.v
ConsoleShape.v
ConsoleRuns.v
EditRuns.v
BackendRuns.v
PlayRuns.v
ServeRuns.v
InFlight.v
NodeRuns.v
RegexSyntax.v
RegexRef.v
Builtin.v
JsonText.v
GuardTests.v
ProxyTests.v
AuthTests.v
ConsoleTests.v
MatcherTests.v
