(* ===== verification/Prelude.v ===== *)
(** * nanoguard: a verification library of the guardrail proxy

    nanoguard is an HTTP proxy in front of LLM backends.  A request passes, in
    this order, client authentication, a keyword scan, PII rejection and
    masking, spotlighting of untrusted content, a token budget and model
    routing with failover; the answer passes, on the way back, the spend
    record, the audit log, an output filter, deanonymisation of what was
    masked, a gate on tool calls and a response schema, either on one JSON body
    or event by event on a server-sent stream.  Beside the proxy, in the same
    process, a web console manages users, tokens, budgets, backends and the
    configuration files, and reloads the proxy; two command-line tools reset
    passwords and score the recognizers.  This library models those parts as
    executable definitions and proves what each promises and what their
    composition in the handlers, the two servers and the boot guarantees.

    ** Files, in dependency order

    - [Prelude]: results and the [let?] notation, machine integers with their
      wrap-around, the state-threading loop [map_st], tactics, shared lemmas.
    - [RustStr]: [str] as a byte string: slicing, searching, UTF-8 and chars,
      trimming, splitting, replacing, and the Unicode tables as a class.
    - [Json]: [serde_json::Value] with in-place updates; the parser, the printer
      and the JSON Schema crate as classes.  [Regex]: the [regex] crate as the
      class [RegexEngine] with the documented laws [RegexLaws].
    - [Vault] ([src/guard/vault.rs]): [LocalVault], the [Vault] interface and its
      laws.  [Redact] ([src/proxy/redact.rs]): entity rules, the three
      placeholder styles, the walk over message bodies, action classes.
    - [Deanon] ([src/guard/deanonymize.rs], [src/guard/sse_deanon.rs]): both
      restoring strategies and the streaming state machine.
    - [ToolGate] ([src/guard/tool_gate.rs], [src/guard/sse_tool_gate.rs] and
      [apply_tool_gate] of [src/proxy/mod.rs]): decisions on tool calls, on a
      whole response and on streamed deltas.
    - [Sse] ([src/proxy/sse.rs]): splitting a byte stream into events, rewriting
      each, usage extraction.
    - [Matcher] ([src/matcher/mod.rs]): prompt normalisation, the aho-corasick and
      iword engines, the output filter.  [Policy] ([src/policy/mod.rs]): bundles,
      their merge into the matcher's configuration, the audit index.
    - [Routing] ([src/config/mod.rs] [pool], [src/backend/mod.rs] and the loop of
      the handlers): pool resolution, route chains, failover.
    - [ClientAuth] ([src/client_auth]): tokens, the table, the TTL/LRU cache, the
      verification middleware.  [Budget] ([src/budget]): the store interface and
      the SQLite tables.  [Spotlight] ([src/guard/spotlight.rs]), [Schema]
      ([src/guard/schema.rs]), [AuditTrail] ([src/audit/mod.rs]).
    - [Proxy] ([src/proxy/mod.rs], [src/app_state.rs]): the chat-completions
      handler over a world of an HTTP client, a budget store and an audit log,
      its streaming body, and the model list with the requests it sends to every
      backend.  [Admin] ([src/admin/mod.rs]): the
      admin endpoints.  [Anthropic] ([src/proxy/anthropic.rs]): the Messages
      endpoint.
    - [Config] ([src/config/mod.rs]): every section with its [Default], and where
      a process finds its configuration.  [Reload] ([src/reload.rs],
      [src/console/reload.rs], the start-up of [src/main.rs]): the assembly of
      the state from a configuration, start-up, reloads and their interleaving,
      the reload socket and the console's end of it.
    - [Eval], [EvalReport] ([src/bin/nanoguard-eval.rs]): the scoring of
      detections against a corpus, on doubles of [SpecFloat], and the report
      with the program around it.
    - [RustFs], [RustNet]: [std::path] on the text of a path, [std::fs] as a class
      with the laws of a tree without symbolic links ([SymlinkFreeFs]), socket
      addresses, and printed integers read back.
    - [ConsoleDb] ([src/console/db.rs], [src/console/auth.rs]): the users, sessions
      and attempts tables, cookies, CSRF tokens and the two extractors that
      admit a request.  [ConsoleApi] ([src/console/handlers.rs],
      [src/console/audit.rs]): login with its lockout, users and tokens.
      [ConsoleInv]: the invariant of the database, kept by each of them.
    - [ConsoleEdit] ([src/console/edit.rs] and its handlers): paths, validators,
      atomic writes, backups and reverts.  [ConsoleViews]: the audit and budget
      pages and the polling of reloads.  [ConsoleBackends]: backends and routing
      in the configuration file, as a TOML document behind an interface.
      [ConsolePlay]: playground, overview and configuration view.
    - [ConsoleStart], [ConsoleServe] ([src/console/mod.rs]): the console from its
      start, its table of routes as one function [serve], its pruning task.
    - [ConsoleTrail], [ConsoleCsrf], [ConsoleShape]: what every route leaves in the
      console's log, what becomes of the CSRF token, and the shape of every
      answer.
    - [AdminCli] ([src/bin/nanoguard-admin.rs]): the offline tool with the
      transaction and the terminal's settings.
    - [Boot], [Server] ([src/main.rs]): the start of the process, the race that
      ends it, and the proxy's routes with their layers as one step.
      [ServerReach]: runs of such steps with reloads, cache flushes, and the
      console's writes to the shared token and budget tables.
      [Stale]: lookups and revocations that race.
      [InFlight]: the streaming body as a generator a client polls, and
      overlapping requests on one budget.
    - [ConsoleRuns], [EditRuns], [BackendRuns], [PlayRuns], [ServeRuns],
      [NodeRuns]: concrete instances of the interfaces, runs of the theorems on
      them, and the runs that show a defect.
    - [RegexSyntax]: the syntax and the meaning of the patterns the repository
      ships, and [RegexMeaning], what an engine's matches have to do with that
      meaning.  [RegexRef]: a backtracking engine, proved sound and complete for
      it, which satisfies [RegexLaws] and [RegexMeaning].
    - [Builtin] ([default_inline_patterns] of [src/proxy/redact.rs]): what the
      built-in recognizers can and cannot match, and masking with them.
    - [JsonText]: a JSON reader and writer that instantiate the classes of [Json]
      and [AuditTrail], with their round trip.
    - [GuardTests], [ProxyTests], [AuthTests], [ConsoleTests], [MatcherTests]: the
      repository's unit tests as definitions, each the conjunction of its
      assertions, evaluated on the model with those instances.

    ** How code becomes definitions

    Structs are records, enums inductive types, each function one definition
    with the source's name (prefixed where two components share it).  Loops over
    [iter_mut] are [map_st]; [&mut] arguments are returned.  Handlers are in the
    monad [handler]: they go on, answer early, or panic, and their effects on the
    world persist in each case.  Indexing and slicing that can panic return
    [option].  [u32]/[u64] arithmetic wraps, since the release profile has no
    overflow checks.  HashMap iteration order is a parameter or quantified over.
    What is not in this repository (regex, aho-corasick and iword engines, the
    Unicode tables, serde_json, jsonschema, SHA-256, YAML, RFC 3339 dates, the
    HTTP client, SQLite's ordering, the disk) is a class or a section variable,
    with the documented behaviour a theorem needs as named laws; each file ends
    with concrete instances that satisfy them and runs of its theorems.

    ** What is proved

    - Composition: nothing is sent upstream unless every guard has passed, on
      both endpoints ([Proxy.chat_forwards_only_guarded],
      [Anthropic.messages_forwards_only_guarded]); what is sent is the masked and
      spotlighted body; blocked prompts are answered, audited and not charged;
      with output filtering on, a stream that passes the gate delivers exactly
      the filtered stream and a denied one is cut.
    - Reversible masking, with the exact strategy, on texts with no opening
      bracket and as long as no rule matches inside a placeholder written before
      it: masking and restoring is the identity on a text, on a chunked stream
      (placeholders of at most 64 bytes), and from a chat request to the
      client's reply ([Proxy.reversible_chat_roundtrip], spotlighting, tool gate
      and schemas off); the vault is injective.  With the recognizers as shipped
      and no dictionaries the condition on the rules holds
      ([Builtin.builtin_chat_roundtrip]) but for one pair, which is a defect
      ([Builtin.fine_grained_pat_order]); and a string message in which a
      reject-class recognizer's pattern occurs is never sent
      ([Builtin.builtin_pii_never_sent]).
    - Decisions: the tool gate, the scanner, the budget check, the token
      middleware, the pool resolver and the schema validator accept exactly what
      their specification says; the streaming gate agrees with the whole one on
      calls sent with a name and non-empty arguments ([ToolGate.stream_gate_run];
      [ToolGate.stream_gate_lenient] and [ToolGate.choices_share_indices] are
      where it does not).
    - Refinement: the token cache is invisible; the SSE filter and the
      deanonymiser do not depend on chunking; the audit log is append-only.
    - Reload: the live state is always one built in full from one
      configuration, whatever reloads interleave; the shared handles survive
      and only a flush event empties the token cache ([Reload.reload_reachable]);
      a reload is all or nothing; both ends of the socket agree; a bundle's
      block rule is enforced from file to answer, input scanning being on and
      not in shadow mode ([Reload.bundle_rule_blocks]).
    - The whole server: at any point of any run of requests taken one at a time,
      whatever the route, a backend is reached only with a live token, and for a
      chat or messages request with every guard passed; the model list, which
      asks every backend with its key, needs the token only
      ([ServerReach.server_always_guarded]).  A backend is never reached again
      with a revoked token ([ServerReach.revoked_never_served], console
      revocations being taken together with the flush they request); where a
      lookup and a revocation race, the revocation takes effect within a bounded
      time ([Stale.revocation_bounded]).
    - In flight: the polled generator is the stream ([InFlight.stream_generator]);
      overlapping requests overshoot a budget by a bounded amount
      ([InFlight.overspend_bounded]).
    - The console: nothing durable changes without a session, its CSRF token and
      the role the change needs ([ConsoleServe.changes_authorised]), and, when the
      log is open and its disk takes every write, nothing changes without a line
      in it saying who did it ([ConsoleTrail.changes_recorded]);
      every answer of a handler has one of two shapes ([ConsoleShape.replies_shaped]);
      its database, consistent when it is opened, is so in every reachable state
      ([ConsoleServe.console_reachable]); guesses are bounded between successful
      logins, CSRF tokens of all eighteen mutating routes are used once
      ([ConsoleCsrf.csrf_single_use]), sessions end when they must; on a tree
      without symbolic links edits are all or nothing, confined and undone by a
      revert ([EditRuns.symlink_escapes] is what a link allows); saving a
      backend or the routing changes that and nothing else; a console starts
      only with a sound secret ([ConsoleStart.console_starts_safely]).
    - The tools: an offline reset is all or nothing; the harness accounts for
      every detection and annotation.
    - Termination: the event loop of a push ([Sse.sse_push_terminates]).
    - Bounds: guesses per lockout, the stream buffer, the cache's freshness, request ids, [i64]
      columns.

    - Conformance: the model gives the answers the repository's own unit tests
      expect of the code ([GuardTests.guard_tests_pass] and its siblings).

    Theorems that show a defect rather than a guarantee are stated as such
    ([Proxy.content_parts_not_scanned], [Proxy.split_event_not_gated],
    [ClientAuth.revoke_lookup_race], [Reload.default_config_unguarded],
    [Reload.sighup_keeps_revoked_token], [ConsolePlay.config_view_public],
    [Boot.shutdown_cuts_request], [InFlight.abandoned_stream_free],
    [Proxy.usage_depends_on_chunking], [EditRuns.symlink_escapes] and others).

    ** Fuel

    Only three recursions of the program are not structural.  [Sse.drain] consumes at least two
    bytes per round, so the buffer's length is enough ([Sse.drain_fuel] shows
    that more changes nothing); [Routing.trim_slashes] removes one byte per
    round and gets the string's length; [ClientAuth.mint] is the three attempts
    of the source.  Of the instances, [RegexSyntax.parse_re] and the reader of
    [JsonText] take a multiple of the length of their input (the shipped patterns
    all parse, and [JsonText.json_read_write] shows that what was written is read
    back), and a repetition of [RegexRef] its minimum and the length of the text,
    since a further round that consumes nothing ends it.

    ** Not modelled

    Tracing output, wall-clock latency, axum's
    extraction of requests (a request arrives as its typed value, a path as the
    constructor of its route) and its own rejections, symbolic links (but for
    [EditRuns.symlink_escapes]), sockets and signal registration, TOML and YAML
    parsing.  SQLite is its tables: key conflicts are errors, other failures of
    the database appear only in the offline tool's transaction.  The console's
    static pages are an opaque body.  Requests are atomic except where
    interleaving is the subject: the token lookup against a revocation
    ([ClientAuth.lookup_read], [lookup_fill]), reloads ([Reload.sys_step]),
    budgets and streams ([InFlight]). *)

From Stdlib Require Export Ascii.
From stdpp Require Export prelude gmap strings list pretty sorting.

(** ** Machine integers

    Rust [u32]/[u64] values are [Z] with the wrap-around written out: the
    release profile of [Cargo.toml] does not turn overflow checks on, so [+]
    wraps. *)

Definition u32_max : Z := 4294967295.
Definition u64_max : Z := 18446744073709551615.
Definition u32_wrap (z : Z) : Z := (z mod 4294967296)%Z.
Definition u64_wrap (z : Z) : Z := (z mod 18446744073709551616)%Z.

Lemma u32_wrap_small z : (0 <= z <= u32_max)%Z -> u32_wrap z = z.
Proof. unfold u32_wrap, u32_max. intros. apply Z.mod_small. lia. Qed.

Lemma u64_wrap_small z : (0 <= z <= u64_max)%Z -> u64_wrap z = z.
Proof. unfold u64_wrap, u64_max. intros. apply Z.mod_small. lia. Qed.

Lemma u64_wrap_range z : (0 <= u64_wrap z <= u64_max)%Z.
Proof. unfold u64_wrap, u64_max. pose proof (Z.mod_pos_bound z 18446744073709551616). lia. Qed.

(** ** Results

    [anyhow::Result] / [rusqlite::Result] values. *)

Inductive result (E A : Type) : Type :=
| Ok (a : A)
| Err (e : E).
Arguments Ok {E A} _.
Arguments Err {E A} _.

Declare Scope guard_scope.
Delimit Scope guard_scope with guard.

Notation "'let?' x ':=' r 'in' k" :=
  (match r with Ok x => k | Err e => Err e end)
  (at level 10, x pattern, r at level 200, k at level 200)
  : guard_scope.
Open Scope guard_scope.

Definition is_ok {E A} (r : result E A) : bool :=
  match r with Ok _ => true | Err _ => false end.

(** ** Loops that thread a state

    [map_st f st l] is a [for x in l.iter_mut()] loop whose body rewrites the
    element and updates the enclosing mutable variables [st]. *)

Fixpoint map_st {S A B} (f : S -> A -> B * S) (st : S) (l : list A) : list B * S :=
  match l with
  | [] => ([], st)
  | x :: l' =>
      let '(y, st1) := f st x in
      let '(ys, st2) := map_st f st1 l' in
      (y :: ys, st2)
  end.

Section MapSt.
Context {S A B : Type}.
Implicit Types (f : S -> A -> B * S) (st : S).

Lemma map_st_app f st l1 l2 :
  map_st f st (l1 ++ l2) =
    let '(y1, st1) := map_st f st l1 in
    let '(y2, st2) := map_st f st1 l2 in (y1 ++ y2, st2).
Proof.
  revert st. induction l1 as [|x l1 IH]; intros st; simpl.
  - by destruct (map_st f st l2).
  - destruct (f st x) as [y st1]. rewrite IH.
    destruct (map_st f st1 l1) as [y1 st2]. by destruct (map_st f st2 l2).
Qed.

Lemma map_st_length f st l : length (map_st f st l).1 = length l.
Proof.
  revert st. induction l as [|x l IH]; intros st; simpl; [done|].
  destruct (f st x) as [y st1]. specialize (IH st1).
  destruct (map_st f st1 l). simpl in *. by f_equal.
Qed.

(** An invariant of the threaded state that every iteration keeps. *)
Lemma map_st_inv (P : S -> Prop) f st l :
  (forall st x, P st -> P (f st x).2) -> P st -> P (map_st f st l).2.
Proof.
  intros Hf. revert st. induction l as [|x l IH]; intros st Hst; simpl; [done|].
  specialize (Hf st x Hst). destruct (f st x) as [y st1]. specialize (IH st1 Hf).
  by destruct (map_st f st1 l).
Qed.

(** A reflexive transitive relation between successive states. *)
Lemma map_st_rel (R : S -> S -> Prop) f st l :
  (forall st, R st st) -> (forall a b c, R a b -> R b c -> R a c) ->
  (forall st x, R st (f st x).2) -> R st (map_st f st l).2.
Proof.
  intros Hr Ht Hf. revert st. induction l as [|x l IH]; intros st; simpl; [apply Hr|].
  specialize (Hf st x). destruct (f st x) as [y st1]. specialize (IH st1).
  destruct (map_st f st1 l) as [ys st2]. simpl in *. eauto.
Qed.
End MapSt.

(** ** Lists *)

Lemma find_app {A} (f : A -> bool) (l1 l2 : list A) :
  List.find f (l1 ++ l2) =
    match List.find f l1 with Some x => Some x | None => List.find f l2 end.
Proof. induction l1 as [|x l1 IH]; simpl; [done|]. by destruct (f x). Qed.

Lemma existsb_false_iff {A} (f : A -> bool) (l : list A) :
  existsb f l = false <-> forall x, In x l -> f x = false.
Proof.
  induction l as [|y l IH]; simpl; [naive_solver|].
  rewrite orb_false_iff, IH. split; [intros [? ?] ? [->|?]; auto|auto].
Qed.

(** ** Tactics *)

(** Split every boolean test and option match that the goal is stuck on. *)
Ltac case_match_all := repeat (case_match; simplify_eq/=).

(** Elements with the same key are the same element. *)
Lemma NoDup_map_inj {A B} (f : A -> B) (l : list A) (x y : A) :
  NoDup (map f l) -> In x l -> In y l -> f x = f y -> x = y.
Proof.
  induction l as [|z l IH]; simpl; [done|]. rewrite NoDup_cons. intros [Hni Hnd] [->|Hx] [->|Hy] E; auto.
  - destruct Hni. rewrite E. by apply list_elem_of_In, in_map.
  - destruct Hni. rewrite <-E. by apply list_elem_of_In, in_map.
Qed.

(** Decide a closed proposition by evaluation. *)
Ltac decide_now := refine (bool_decide_unpack _ _); vm_compute; exact I.

(** Turn boolean comparison hypotheses into propositions. *)
Ltac bool_to_prop :=
  repeat match goal with
  | H : (_ && _) = true |- _ => apply andb_true_iff in H; destruct H
  | H : (_ || _) = false |- _ => apply orb_false_iff in H; destruct H
  | H : negb _ = true |- _ => apply negb_true_iff in H
  | H : negb _ = false |- _ => apply negb_false_iff in H
  | H : Ascii.eqb _ _ = true |- _ => apply Ascii.eqb_eq in H
  | H : Ascii.eqb _ _ = false |- _ => apply Ascii.eqb_neq in H
  | H : String.eqb _ _ = true |- _ => apply String.eqb_eq in H
  | H : String.eqb _ _ = false |- _ => apply String.eqb_neq in H
  | H : (_ <=? _)%Z = true |- _ => apply Z.leb_le in H
  | H : (_ <=? _)%Z = false |- _ => apply Z.leb_gt in H
  | H : (_ <? _)%Z = true |- _ => apply Z.ltb_lt in H
  | H : (_ <? _)%Z = false |- _ => apply Z.ltb_ge in H
  | H : (_ =? _)%Z = true |- _ => apply Z.eqb_eq in H
  | H : (_ =? _)%Z = false |- _ => apply Z.eqb_neq in H
  end.

Create HintDb nanoguard.
#[export] Hint Resolve u32_wrap_small u64_wrap_small : nanoguard.
