(* ===== verification/RustStr.v ===== *)
(** * Rust strings

    A Rust [String]/[&str] and a [Vec<u8>]/[Bytes] buffer are both the byte
    sequence they hold ([String.string], one [ascii] per byte), so lengths,
    offsets and slices are byte-exact.  A Rust [char] is the string of its
    UTF-8 encoding, and [chars] splits a string into its chars.  This file
    models the [std] string functions the sources use: [strip_prefix],
    [strip_suffix], [find], [contains], [replace], [split], [lines], [trim],
    ASCII case folding, decimal parsing and [str::from_utf8]. *)

From S2P Require Import Prelude.

Open Scope string_scope.
Open Scope list_scope.

Global Arguments String.append : simpl nomatch.
Global Arguments String.append !_ _ : simpl nomatch.

(** ** Bytes *)

Definition byte (n : N) : ascii := ascii_of_N n.
Definition bval (c : ascii) : N := N_of_ascii c.

(** A string literal given by its bytes. *)
Definition bytes (l : list N) : string := String.string_of_list_ascii (map byte l).

Definition nl : ascii := byte 10.
Definition cr : ascii := byte 13.
Definition tab : ascii := byte 9.
Definition one (c : ascii) : string := String c "".

Definition is_ascii_lower (c : ascii) : bool := (97 <=? bval c)%N && (bval c <=? 122)%N.
Definition is_ascii_upper (c : ascii) : bool := (65 <=? bval c)%N && (bval c <=? 90)%N.
Definition is_ascii_digit (c : ascii) : bool := (48 <=? bval c)%N && (bval c <=? 57)%N.
Definition is_ascii_alphanumeric (c : ascii) : bool :=
  is_ascii_lower c || is_ascii_upper c || is_ascii_digit c.
Definition lower_byte (c : ascii) : ascii :=
  if is_ascii_upper c then byte (bval c + 32) else c.

Fixpoint smap (f : ascii -> ascii) (s : string) : string :=
  match s with "" => "" | String c s' => String (f c) (smap f s') end.
Fixpoint sall (p : ascii -> bool) (s : string) : bool :=
  match s with "" => true | String c s' => p c && sall p s' end.

Definition to_ascii_lowercase : string -> string := smap lower_byte.
Definition eq_ignore_ascii_case (a b : string) : bool :=
  String.eqb (to_ascii_lowercase a) (to_ascii_lowercase b).
Definition is_ascii (s : string) : bool := sall (fun c => (bval c <? 128)%N) s.

(** ** Slicing *)

Fixpoint stake (n : nat) (s : string) : string :=
  match n, s with
  | S n', String c s' => String c (stake n' s')
  | _, _ => ""
  end.
Fixpoint sdrop (n : nat) (s : string) : string :=
  match n, s with
  | S n', String _ s' => sdrop n' s'
  | _, _ => s
  end.
(** [s\[a..b\]]. *)
Definition slice (a b : nat) (s : string) : string := stake (b - a) (sdrop a s).
(** [s.replace_range(a..b, r)]. *)
Definition replace_range (a b : nat) (r s : string) : string :=
  stake a s +:+ r +:+ sdrop b s.

(** ** Prefixes, suffixes and searching *)

Fixpoint strip_prefix (p s : string) : option string :=
  match p, s with
  | "", _ => Some s
  | String a p', String b s' => if Ascii.eqb a b then strip_prefix p' s' else None
  | _, "" => None
  end.
Definition starts_with (p s : string) : bool :=
  match strip_prefix p s with Some _ => true | None => false end.

Fixpoint strip_suffix (p s : string) : option string :=
  if String.eqb s p then Some ""
  else match s with
       | "" => None
       | String c s' => match strip_suffix p s' with
                        | Some r => Some (String c r)
                        | None => None
                        end
       end.
Definition ends_with (p s : string) : bool :=
  match strip_suffix p s with Some _ => true | None => false end.

(** First byte offset at which [p] occurs. *)
Fixpoint find (p s : string) : option nat :=
  if starts_with p s then Some 0
  else match s with
       | "" => None
       | String _ s' => S <$> find p s'
       end.
Definition contains (p s : string) : bool :=
  match find p s with Some _ => true | None => false end.

(** First / last offset of a byte satisfying a test ([str::find]/[rfind] with
    a [char] or a char array, all of them ASCII in the sources). *)
Fixpoint find_byte (q : ascii -> bool) (s : string) : option nat :=
  match s with
  | "" => None
  | String c s' => if q c then Some 0 else S <$> find_byte q s'
  end.
Fixpoint rfind_byte (q : ascii -> bool) (s : string) : option nat :=
  match s with
  | "" => None
  | String c s' => match rfind_byte q s' with
                   | Some n => Some (S n)
                   | None => if q c then Some 0 else None
                   end
  end.
(** Last offset at which [p] occurs. *)
Fixpoint rfind (p s : string) : option nat :=
  match s with
  | "" => if starts_with p s then Some 0 else None
  | String _ s' => match rfind p s' with
                   | Some n => Some (S n)
                   | None => if starts_with p s then Some 0 else None
                   end
  end.

(** ** UTF-8 *)

(** [str::from_utf8] succeeds: the byte ranges of the Unicode standard, with
    [need] continuation bytes outstanding, the next one in [lo..=hi]. *)
Fixpoint utf8_go (need : nat) (lo hi : N) (s : string) : bool :=
  match s with
  | "" => match need with O => true | _ => false end
  | String c s' =>
      let n := bval c in
      match need with
      | O =>
          if (n <? 128)%N then utf8_go 0 0 0 s'
          else if ((194 <=? n) && (n <=? 223))%N then utf8_go 1 128 191 s'
          else if (n =? 224)%N then utf8_go 2 160 191 s'
          else if (n =? 237)%N then utf8_go 2 128 159 s'
          else if ((225 <=? n) && (n <=? 239))%N then utf8_go 2 128 191 s'
          else if (n =? 240)%N then utf8_go 3 144 191 s'
          else if ((241 <=? n) && (n <=? 243))%N then utf8_go 3 128 191 s'
          else if (n =? 244)%N then utf8_go 3 128 143 s'
          else false
      | S k => if ((lo <=? n) && (n <=? hi))%N then utf8_go k 128 191 s' else false
      end
  end.
Definition is_utf8 (s : string) : bool := utf8_go 0 0 0 s.

(** [String::from_utf8_lossy]: each maximal ill-formed piece becomes U+FFFD.
    [pend] holds the bytes of a char that still needs [need] more. *)
Definition replacement : string := bytes [239; 191; 189]%N.
Definition utf8_lead (n : N) : option (nat * N * N) :=
  if (n <? 128)%N then Some (0, 0%N, 0%N)
  else if ((194 <=? n) && (n <=? 223))%N then Some (1, 128%N, 191%N)
  else if (n =? 224)%N then Some (2, 160%N, 191%N)
  else if (n =? 237)%N then Some (2, 128%N, 159%N)
  else if ((225 <=? n) && (n <=? 239))%N then Some (2, 128%N, 191%N)
  else if (n =? 240)%N then Some (3, 144%N, 191%N)
  else if ((241 <=? n) && (n <=? 243))%N then Some (3, 128%N, 191%N)
  else if (n =? 244)%N then Some (3, 128%N, 143%N)
  else None.
Fixpoint lossy_go (pend : string) (need : nat) (lo hi : N) (s : string) : string :=
  match s with
  | "" => match need with O => "" | _ => replacement end
  | String c s' =>
      let start :=
        match utf8_lead (bval c) with
        | None => replacement +:+ lossy_go "" 0 0 0 s'
        | Some (O, _, _) => String c (lossy_go "" 0 0 0 s')
        | Some (k, lo', hi') => lossy_go (one c) k lo' hi' s'
        end in
      match need with
      | O => start
      | S k =>
          if ((lo <=? bval c) && (bval c <=? hi))%N then
            match k with
            | O => (pend +:+ one c) +:+ lossy_go "" 0 0 0 s'
            | _ => lossy_go (pend +:+ one c) k 128 191 s'
            end
          else replacement +:+ start
      end
  end.
Definition from_utf8_lossy (s : string) : string := lossy_go "" 0 0 0 s.

(** Continuation bytes that follow a leading byte. *)
Definition char_need (c : ascii) : nat :=
  let n := bval c in
  if (n <? 192)%N then 0 else if (n <? 224)%N then 1 else if (n <? 240)%N then 2 else 3.

Fixpoint chars_go (cur : string) (need : nat) (s : string) : list string :=
  match s with
  | "" => match need with O => [] | _ => [cur] end
  | String c s' =>
      match need with
      | O => match char_need c with
             | O => one c :: chars_go "" 0 s'
             | S k => chars_go (one c) (S k) s'
             end
      | S O => (cur +:+ one c) :: chars_go "" 0 s'
      | S (S k) => chars_go (cur +:+ one c) (S k) s'
      end
  end.
(** [s.chars()], each char as its UTF-8 encoding. *)
Definition chars (s : string) : list string := chars_go "" 0 s.

Definition sconcat (l : list string) : string := foldr String.append "" l.
(** [l.join(sep)]. *)
Definition join (sep : string) (l : list string) : string := String.concat sep l.

(** [char::is_whitespace] (Unicode [White_Space]). *)
Definition ws_chars : list string :=
  map bytes
    [[9];[10];[11];[12];[13];[32];[194;133];[194;160];[225;154;128];
     [226;128;128];[226;128;129];[226;128;130];[226;128;131];[226;128;132];
     [226;128;133];[226;128;134];[226;128;135];[226;128;136];[226;128;137];
     [226;128;138];[226;128;168];[226;128;169];[226;128;175];[226;129;159];
     [227;128;128]]%N.
Definition is_whitespace (ch : string) : bool := existsb (String.eqb ch) ws_chars.

Fixpoint drop_while {A} (p : A -> bool) (l : list A) : list A :=
  match l with
  | [] => []
  | x :: l' => if p x then drop_while p l' else l
  end.
Definition trim_start (s : string) : string := sconcat (drop_while is_whitespace (chars s)).
Definition trim_end (s : string) : string :=
  sconcat (rev (drop_while is_whitespace (rev (chars s)))).
Definition trim (s : string) : string :=
  sconcat (rev (drop_while is_whitespace (rev (drop_while is_whitespace (chars s))))).

(** ** Splitting *)

Fixpoint split_byte (b : ascii) (s : string) : list string :=
  match s with
  | "" => [""]
  | String c s' =>
      if Ascii.eqb c b then "" :: split_byte b s'
      else match split_byte b s' with
           | h :: t => String c h :: t
           | [] => [one c]
           end
  end.

(** [s.split(p)] for a non-empty pattern: non-overlapping, left to right;
    [skip] counts the bytes of a match still to be consumed. *)
Fixpoint split_str_go (p : string) (skip : nat) (cur : string) (s : string) : list string :=
  match s with
  | "" => [cur]
  | String c s' =>
      match skip with
      | S k => split_str_go p k cur s'
      | O => if starts_with p s then cur :: split_str_go p (pred (String.length p)) "" s'
             else split_str_go p 0 (cur +:+ one c) s'
      end
  end.
Definition split_str (p s : string) : list string := split_str_go p 0 "" s.

(** [s.lines()]: a line loses its ["\n"] and a ["\r"] before it; a final empty
    piece is not a line. *)
Fixpoint lines_of (pieces : list string) : list string :=
  match pieces with
  | [] => []
  | [l] => if String.eqb l "" then [] else [l]
  | l :: ls => default l (strip_suffix (one cr) l) :: lines_of ls
  end.
Definition lines (s : string) : list string := lines_of (split_byte nl s).

(** [s.rsplit_once(b)]: split at the last occurrence. *)
Definition rsplit_once (b : ascii) (s : string) : option (string * string) :=
  match rfind_byte (Ascii.eqb b) s with
  | Some n => Some (stake n s, sdrop (S n) s)
  | None => None
  end.

(** ** Replacing *)

Fixpoint replace_go (p r : string) (skip : nat) (s : string) : string :=
  match s with
  | "" => ""
  | String c s' =>
      match skip with
      | S k => replace_go p r k s'
      | O => if starts_with p s then r +:+ replace_go p r (pred (String.length p)) s'
             else String c (replace_go p r 0 s')
      end
  end.
(** [s.replace(p, r)]; an empty pattern matches before every char and at the
    end. *)
Definition replace (p r s : string) : string :=
  if String.eqb p "" then r +:+ sconcat (map (fun c => c +:+ r) (chars s))
  else replace_go p r 0 s.

(** ** Numbers *)

(** [std::num::IntErrorKind] and its text. *)
Inductive IntError := IntEmpty | InvalidDigit | PosOverflow | NegOverflow.
Definition int_error_text (e : IntError) : string :=
  match e with
  | IntEmpty => "cannot parse integer from empty string"
  | InvalidDigit => "invalid digit found in string"
  | PosOverflow => "number too large to fit in target type"
  | NegOverflow => "number too small to fit in target type"
  end.
(** The digits from the left: a byte that is no digit is seen before the
    overflow it would cause. *)
Fixpoint parse_digits (neg : bool) (lo hi acc : Z) (s : string) : result IntError Z :=
  match s with
  | "" => Ok acc
  | String c s' =>
      if is_ascii_digit c then
        let x := (Z.of_N (bval c) - 48)%Z in
        let n := (if neg then acc * 10 - x else acc * 10 + x)%Z in
        if (hi <? n)%Z then Err PosOverflow
        else if (n <? lo)%Z then Err NegOverflow
        else parse_digits neg lo hi n s'
      else Err InvalidDigit
  end.
(** [s.parse::<T>()] for the integer type with values [lo..=hi]. *)
Definition parse_int (lo hi : Z) (s : string) : result IntError Z :=
  match s with
  | "" => Err IntEmpty
  | "+" => Err InvalidDigit
  | "-" => Err InvalidDigit
  | String c s' =>
      if Ascii.eqb c "+" then parse_digits false lo hi 0 s'
      else if Ascii.eqb c "-" && (lo <? 0)%Z then parse_digits true lo hi 0 s'
      else parse_digits false lo hi 0 s
  end.
Definition parse_u32 (s : string) : option Z :=
  match parse_int 0 u32_max s with Ok n => Some n | Err _ => None end.

(** [format!("{}", n)] for an unsigned integer. *)
Definition show_Z (n : Z) : string := pretty n.

(** ** Columns *)

Definition char_count (s : string) : nat := length (chars s).
(** [{:<n}]. *)
Definition pad_right (n : nat) (s : string) : string := s +:+ sconcat (replicate (n - char_count s) " ").
(** [{:>n}]. *)
Definition pad_left (n : nat) (s : string) : string := sconcat (replicate (n - char_count s) " ") +:+ s.

(** ** Lemmas: append and length *)

Lemma sapp_assoc (a b c : string) : a +:+ (b +:+ c) = (a +:+ b) +:+ c.
Proof. induction a as [|x a IH]; simpl; [done|]. by rewrite IH. Qed.

Lemma sapp_nil_r (a : string) : a +:+ "" = a.
Proof. induction a as [|x a IH]; simpl; [done|]. by rewrite IH. Qed.

Lemma slen_app (a b : string) :
  String.length (a +:+ b) = String.length a + String.length b.
Proof. induction a as [|x a IH]; simpl; [done|]. by rewrite IH. Qed.

Lemma sapp_inj_l (a b c : string) : a +:+ b = a +:+ c -> b = c.
Proof. induction a; simpl; intros; simplify_eq; auto. Qed.

Lemma sapp_inj_r (a b c : string) : a +:+ c = b +:+ c -> a = b.
Proof.
  revert b. induction a as [|x a IH]; intros [|y b] H; simpl in *; try done.
  - apply (f_equal String.length) in H. simpl in H. rewrite slen_app in H. lia.
  - apply (f_equal String.length) in H. simpl in H. rewrite slen_app in H. lia.
  - injection H as -> H. by rewrite (IH _ H).
Qed.

Lemma sapp_cons (c : ascii) (a : string) : String c a = one c +:+ a.
Proof. done. Qed.

Lemma slen_0 (s : string) : String.length s = 0 -> s = "".
Proof. by destruct s. Qed.

(** Normal form for strings: appends nested to the right. *)
Ltac sapp := rewrite <-?sapp_assoc; simpl.

Lemma sconcat_cons (x : string) (l : list string) : sconcat (x :: l) = x +:+ sconcat l.
Proof. done. Qed.

Lemma sconcat_app (l1 l2 : list string) : sconcat (l1 ++ l2) = sconcat l1 +:+ sconcat l2.
Proof. induction l1 as [|x l1 IH]; simpl; [done|]. by rewrite IH, sapp_assoc. Qed.

(** ** Lemmas: slicing *)

Lemma stake_sdrop n s : stake n s +:+ sdrop n s = s.
Proof. revert s. induction n as [|n IH]; intros [|c s]; simpl; try done. by rewrite IH. Qed.

Lemma stake_app_len a b : stake (String.length a) (a +:+ b) = a.
Proof. induction a as [|c a IH]; simpl; [by destruct b|]. by rewrite IH. Qed.

Lemma sdrop_app_len a b : sdrop (String.length a) (a +:+ b) = b.
Proof. induction a as [|c a IH]; simpl; [by destruct b|]. done. Qed.

Lemma slen_stake n s : String.length (stake n s) = n `min` String.length s.
Proof. revert s. induction n as [|n IH]; intros [|c s]; simpl; try done. by rewrite IH. Qed.

Lemma slen_sdrop n s : String.length (sdrop n s) = String.length s - n.
Proof. revert s. induction n as [|n IH]; intros [|c s]; simpl; try done; auto. Qed.

Lemma sdrop_add n m s : sdrop n (sdrop m s) = sdrop (m + n) s.
Proof. revert s. induction m as [|m IH]; intros [|c s]; simpl; try done; auto. by destruct n. Qed.

Lemma sdrop_all n s : String.length s <= n -> sdrop n s = "".
Proof. intros H. apply slen_0. rewrite slen_sdrop. lia. Qed.

(** ** Lemmas: prefixes and suffixes *)

Lemma strip_prefix_Some p s r : strip_prefix p s = Some r <-> s = p +:+ r.
Proof.
  revert s. induction p as [|a p IH]; intros s; simpl; [naive_solver|].
  destruct s as [|b s]; simpl; [naive_solver|].
  destruct (Ascii.eqb_spec a b) as [->|Hne]; [|naive_solver].
  rewrite IH. naive_solver.
Qed.

Lemma strip_prefix_app p r : strip_prefix p (p +:+ r) = Some r.
Proof. by apply strip_prefix_Some. Qed.

Lemma starts_with_true p s : starts_with p s = true <-> exists r, s = p +:+ r.
Proof.
  unfold starts_with. destruct (strip_prefix p s) as [r|] eqn:E.
  - apply strip_prefix_Some in E. naive_solver.
  - split; [done|]. intros [r ->]. by rewrite strip_prefix_app in E.
Qed.

Lemma starts_with_app p r : starts_with p (p +:+ r) = true.
Proof. apply starts_with_true. eauto. Qed.

Lemma strip_suffix_Some p s r : strip_suffix p s = Some r <-> s = r +:+ p.
Proof.
  revert r. induction s as [|c s IH]; intros r; cbn [strip_suffix].
  - destruct (String.eqb_spec "" p) as [<-|Hne].
    + rewrite sapp_nil_r. naive_solver.
    + split; [done|]. destruct r; simpl; [done|discriminate].
  - destruct (String.eqb_spec (String c s) p) as [<-|Hne].
    + split; [naive_solver|]. intros H. f_equal. symmetry. apply slen_0.
      apply (f_equal String.length) in H. rewrite slen_app in H. simpl in H. lia.
    + destruct (strip_suffix p s) as [q|] eqn:E; split; intros H; simplify_eq.
      * simpl. f_equal. by apply IH.
      * destruct r as [|d r]; simpl in H; [done|]. injection H as -> H.
        f_equal. apply IH in H. congruence.
      * destruct r as [|d r]; simpl in H; [done|]. injection H as -> H.
        apply IH in H. congruence.
Qed.

Lemma ends_with_true p s : ends_with p s = true <-> exists r, s = r +:+ p.
Proof.
  unfold ends_with. destruct (strip_suffix p s) as [r|] eqn:E.
  - apply strip_suffix_Some in E. naive_solver.
  - split; [done|]. intros [r H]. apply strip_suffix_Some in H. congruence.
Qed.

Lemma find_Some p s n :
  find p s = Some n -> s = stake n s +:+ p +:+ sdrop (n + String.length p) s.
Proof.
  revert n. induction s as [|c s IH]; intros n; simpl.
  - destruct (starts_with p "") eqn:E; [|done]. intros [= <-].
    apply starts_with_true in E as [r Hr]. destruct p; simpl in *; [by destruct r|done].
  - destruct (starts_with p (String c s)) eqn:E.
    + intros [= <-]. apply starts_with_true in E as [r ->].
      simpl. by rewrite sdrop_app_len.
    + destruct (find p s) as [m|] eqn:F; [|done]. intros [= <-]. simpl.
      f_equal. by apply IH.
Qed.

Lemma contains_true p s : contains p s = true <-> exists l r, s = l +:+ p +:+ r.
Proof.
  unfold contains. split.
  - destruct (find p s) as [n|] eqn:E; [|done]. intros _.
    apply find_Some in E. eauto.
  - intros (l & r & ->). induction l as [|c l IH]; simpl.
    + destruct (p +:+ r) eqn:E; simpl; rewrite <-E, starts_with_app; done.
    + destruct (starts_with _ _); [done|]. destruct (find p _); [done|]. exact IH.
Qed.

Lemma contains_cons_false p c s :
  contains p (String c s) = false ->
  starts_with p (String c s) = false /\ contains p s = false.
Proof.
  unfold contains. simpl. destruct (starts_with p (String c s)); [done|].
  by destruct (find p s).
Qed.

(** ** Lemmas: replacing *)

Lemma replace_go_absent p r s : contains p s = false -> replace_go p r 0 s = s.
Proof.
  induction s as [|c s IH]; intros H; simpl; [done|].
  apply contains_cons_false in H as [-> H]. by rewrite IH.
Qed.

Lemma replace_go_skip p r k s : replace_go p r k s = replace_go p r 0 (sdrop k s).
Proof.
  revert s. induction k as [|k IH]; intros s; [by destruct s|].
  destruct s as [|c s]; simpl; [done|]. apply IH.
Qed.

Lemma replace_go_hit p r t :
  p <> "" -> replace_go p r 0 (p +:+ t) = r +:+ replace_go p r 0 t.
Proof.
  intros Hp. destruct p as [|c p]; [done|]. simpl.
  change (String c (p +:+ t)) with (String c p +:+ t). rewrite starts_with_app.
  f_equal. rewrite replace_go_skip. by rewrite sdrop_app_len.
Qed.

Lemma replace_absent p r s : p <> "" -> contains p s = false -> replace p r s = s.
Proof.
  intros Hp H. unfold replace. destruct (String.eqb_spec p ""); [done|].
  by apply replace_go_absent.
Qed.

Lemma replace_nonempty p r s : p <> "" -> replace p r s = replace_go p r 0 s.
Proof. intros Hp. unfold replace. by destruct (String.eqb_spec p ""). Qed.

(** ** Lemmas: chars and UTF-8 *)

Lemma sconcat_chars_go cur need s :
  sconcat (chars_go cur need s) = (match need with O => "" | _ => cur end) +:+ s.
Proof.
  revert cur need. induction s as [|c s IH]; intros cur need; simpl.
  - destruct need; simpl; [done|]. by rewrite sapp_nil_r.
  - destruct need as [|[|k]].
    + destruct (char_need c); simpl; rewrite IH; done.
    + simpl. rewrite IH. by sapp.
    + rewrite IH. by sapp.
Qed.

(** Splitting into chars loses nothing, whatever the bytes. *)
Lemma sconcat_chars s : sconcat (chars s) = s.
Proof. apply sconcat_chars_go. Qed.

Lemma utf8_go_0 lo hi s : utf8_go 0 lo hi s = is_utf8 s.
Proof. by destruct s. Qed.

Ltac split_if :=
  repeat match goal with
  | |- context [if ?b then _ else _] => destruct b eqn:?
  | H : context [if ?b then _ else _] |- _ => destruct b eqn:?
  end.

(** Bytes that complete [need] continuations split the rest independently. *)
Lemma chars_go_app need lo hi cur s1 s2 :
  utf8_go need lo hi s1 = true ->
  chars_go cur need (s1 +:+ s2) = chars_go cur need s1 ++ chars s2.
Proof.
  revert need lo hi cur. induction s1 as [|c s1 IH]; intros need lo hi cur H; simpl in *.
  { destruct need; [|done]. by destruct s2. }
  destruct need as [|k].
  - assert (Hn : exists lo hi, utf8_go (char_need c) lo hi s1 = true).
    { unfold char_need. revert H. split_if; intros H; bool_to_prop; try done;
        try (eexists _, _; exact H);
        repeat match goal with
        | H : (_ <? _)%N = true |- _ => apply N.ltb_lt in H
        | H : (_ <? _)%N = false |- _ => apply N.ltb_ge in H
        | H : (_ <=? _)%N = true |- _ => apply N.leb_le in H
        | H : (_ =? _)%N = true |- _ => apply N.eqb_eq in H
        end; lia. }
    destruct Hn as (lo' & hi' & Hn). destruct (char_need c) as [|m].
    + simpl. by rewrite (IH _ _ _ "" Hn).
    + by apply (IH _ _ _ _ Hn).
  - destruct ((lo <=? bval c) && (bval c <=? hi))%N; [|done].
    destruct k as [|k]; simpl; by rewrite (IH _ _ _ _ H).
Qed.

Lemma chars_app s1 s2 : is_utf8 s1 = true -> chars (s1 +:+ s2) = chars s1 ++ chars s2.
Proof. apply chars_go_app. Qed.

Lemma utf8_go_app need lo hi s1 s2 :
  utf8_go need lo hi s1 = true -> utf8_go need lo hi (s1 +:+ s2) = is_utf8 s2.
Proof.
  revert need lo hi. induction s1 as [|c s1 IH]; intros need lo hi H; simpl in *.
  - destruct need; [|done]. by rewrite utf8_go_0.
  - destruct need; [|split_if; eauto; done].
    revert H. split_if; intros H; eauto; done.
Qed.

Lemma is_utf8_app s1 s2 : is_utf8 s1 = true -> is_utf8 s2 = true -> is_utf8 (s1 +:+ s2) = true.
Proof. intros H1 H2. unfold is_utf8. by rewrite utf8_go_app. Qed.

(** An ASCII byte only occurs between chars. *)
Lemma utf8_go_split need lo hi a c s :
  (128 <= lo)%N \/ need = 0 -> (bval c < 128)%N ->
  utf8_go need lo hi (a +:+ String c s) = true -> utf8_go need lo hi a = true /\ is_utf8 s = true.
Proof.
  intros Hlo Hc. revert need lo hi Hlo. induction a as [|x a IH]; intros need lo hi Hlo H; simpl in *.
  - destruct need; [apply N.ltb_lt in Hc; rewrite Hc in H; by rewrite utf8_go_0 in H|].
    destruct Hlo as [Hlo|]; [|done].
    destruct (N.leb_spec lo (bval c)); [lia|done].
  - destruct need; [|split_if; [|done]; apply IH; [left; lia|done]].
    revert H. split_if; intros H; try done; apply IH; try done; (by right) || (left; lia).
Qed.

Lemma utf8_split a c s :
  (bval c < 128)%N -> is_utf8 (a +:+ String c s) = true -> is_utf8 a = true /\ is_utf8 s = true.
Proof. intros Hc. apply utf8_go_split; [by right|done]. Qed.

(** [from_utf8_lossy] is the identity on valid text. *)
Lemma lossy_go_valid pend need lo hi s :
  utf8_go need lo hi s = true ->
  lossy_go pend need lo hi s = (match need with O => "" | _ => pend end) +:+ s.
Proof.
  revert pend need lo hi. induction s as [|c s IH]; intros pend need lo hi H; simpl in *.
  - by destruct need.
  - destruct need as [|k].
    + unfold utf8_lead. revert H. split_if; intros H; try done; by rewrite (IH _ _ _ _ H).
    + destruct ((lo <=? bval c) && (bval c <=? hi))%N; [|done]. destruct k as [|k].
      * rewrite utf8_go_0 in H. rewrite (IH "" 0 0%N 0%N H). by sapp.
      * rewrite (IH _ _ _ _ H). by sapp.
Qed.

Lemma from_utf8_lossy_valid s : is_utf8 s = true -> from_utf8_lossy s = s.
Proof. apply lossy_go_valid. Qed.

Lemma sconcat_in ch l : In ch l -> exists x y, sconcat l = x +:+ ch +:+ y.
Proof.
  intros (l1 & l2 & ->)%in_split. exists (sconcat l1), (sconcat l2). by rewrite sconcat_app.
Qed.

(** ** Lemmas: bytes of a string *)

Lemma sall_app p a b : sall p (a +:+ b) = sall p a && sall p b.
Proof. induction a as [|c a IH]; simpl; [done|]. by rewrite IH, andb_assoc. Qed.

Lemma sall_chars p s : sall p s = true -> Forall (fun ch => sall p ch = true) (chars s).
Proof.
  intros Hs. apply List.Forall_forall. intros ch Hin. apply sconcat_in in Hin as (x & y & E).
  rewrite sconcat_chars in E. subst s. rewrite !sall_app in Hs. by bool_to_prop.
Qed.

Lemma smap_app f a b : smap f (a +:+ b) = smap f a +:+ smap f b.
Proof. induction a as [|c a IH]; simpl; [done|]. by rewrite IH. Qed.

Lemma slen_smap f s : String.length (smap f s) = String.length s.
Proof. induction s as [|c s IH]; simpl; [done|]. by rewrite IH. Qed.

(** A string with no [c] splits off uniquely after the last [c]. *)
Lemma last_byte_split c a1 d1 a2 d2 :
  sall (fun x => negb (Ascii.eqb x c)) d1 = true ->
  sall (fun x => negb (Ascii.eqb x c)) d2 = true ->
  a1 +:+ String c d1 = a2 +:+ String c d2 -> a1 = a2 /\ d1 = d2.
Proof.
  intros H1 H2. revert a2.
  induction a1 as [|x a1 IH]; intros [|y a2] H; simpl in *.
  - by injection H as ->.
  - injection H as _ ->. rewrite sall_app in H1. simpl in H1.
    by rewrite Ascii.eqb_refl, andb_false_r in H1.
  - injection H as _ <-. rewrite sall_app in H2. simpl in H2.
    by rewrite Ascii.eqb_refl, andb_false_r in H2.
  - injection H as -> H. by destruct (IH _ H) as [-> ->].
Qed.

Lemma pretty_N_go_digits x s :
  sall is_ascii_digit s = true -> sall is_ascii_digit (pretty_N_go x s) = true.
Proof.
  revert s. induction (N.lt_wf_0 x) as [x _ IH]; intros s Hs.
  assert (x = 0 ∨ 0 < x)%N as [->|Hx] by lia; [done|].
  rewrite pretty_N_go_step by done. apply IH; [by apply N.div_lt|].
  simpl. rewrite Hs, andb_true_r. unfold pretty_N_char. by repeat case_match.
Qed.

Lemma show_Z_digits n : (0 <= n)%Z -> sall is_ascii_digit (show_Z n) = true.
Proof.
  intros Hn. destruct n; [done| |lia]. unfold show_Z, pretty, pretty_Z, pretty, pretty_positive,
    pretty, pretty_N. case_decide; [done|]. by apply pretty_N_go_digits.
Qed.

Lemma show_Z_inj n m : show_Z n = show_Z m -> n = m.
Proof. apply pretty_Z_inj. Qed.

Lemma sall_impl (p q : ascii -> bool) s :
  (forall c, p c = true -> q c = true) -> sall p s = true -> sall q s = true.
Proof.
  intros Hpq. induction s as [|c s IH]; simpl; [done|]. intros H. bool_to_prop.
  by rewrite Hpq, IH.
Qed.

(** A byte test decided on all 256 bytes. *)
Lemma byte_forall (P : ascii -> bool) :
  forallb P (map ascii_of_nat (seq 0 256)) = true -> forall c, P c = true.
Proof.
  intros H c. rewrite forallb_forall in H. apply H.
  rewrite <-(ascii_nat_embedding c). apply in_map, in_seq.
  pose proof (nat_ascii_bounded c). lia.
Qed.

(** ** Lemmas: the chars of valid text *)

Definition high (c : ascii) : bool := (128 <=? bval c)%N.
(** A char is one ASCII byte or a sequence of high bytes. *)
Definition char_ok (ch : string) : Prop :=
  is_utf8 ch = true /\ ((exists c, ch = one c /\ (bval c < 128)%N) \/ (ch <> "" /\ sall high ch = true)).

Lemma utf8_lead_cases c s :
  is_utf8 (String c s) = true ->
  ((bval c < 128)%N /\ char_need c = 0 /\ is_utf8 s = true) \/
  exists k lo hi, char_need c = S k /\ (128 <= lo)%N /\ high c = true /\ utf8_go (S k) lo hi s = true /\
    forall r, is_utf8 (String c r) = utf8_go (S k) lo hi r.
Proof.
  unfold is_utf8, char_need, high. simpl. intros H.
  repeat match type of H with context [if ?b then _ else _] => destruct b eqn:? end; try done;
    repeat match goal with H : (_ && _)%bool = true |- _ => apply andb_prop in H as [? ?] end;
    repeat match goal with
    | H : (_ <? _)%N = true |- _ => apply N.ltb_lt in H
    | H : (_ <? _)%N = false |- _ => apply N.ltb_ge in H
    | H : (_ <=? _)%N = true |- _ => apply N.leb_le in H
    | H : (_ =? _)%N = true |- _ => apply N.eqb_eq in H
    end;
    repeat match goal with |- context [(bval c <? ?n)%N] => destruct (N.ltb_spec (bval c) n); try lia end;
    first [left; split_and!; by auto | right; eexists _, _, _; split_and!; [reflexivity| |by apply N.leb_le|exact H|done]; lia].
Qed.

Lemma chars_go_ok need lo hi cur s :
  utf8_go need lo hi s = true -> (128 <= lo)%N \/ need = 0 ->
  (need <> 0 -> cur <> "" /\ sall high cur = true /\
     forall r, utf8_go need lo hi r = true -> is_utf8 (cur +:+ r) = true) ->
  Forall char_ok (chars_go cur need s).
Proof.
  revert need lo hi cur. induction s as [|c s IH]; intros need lo hi cur H Hlo Hcur.
  { destruct need; simpl in *; [constructor|done]. }
  destruct need as [|k].
  - cbn [chars_go]. rewrite utf8_go_0 in H.
    destruct (utf8_lead_cases c s H) as [(Hc & -> & Hs)|(k & lo' & hi' & -> & Hlo' & Hhi & Hs & Heq)].
    + constructor; [|eapply (IH 0 0%N 0%N); [exact Hs|by right|done]].
      split; [|left; by exists c]. unfold is_utf8. simpl. by rewrite (proj2 (N.ltb_lt _ _) Hc).
    + eapply IH; [exact Hs|by left|]. intros _. split_and!; [done|simpl; by rewrite Hhi|].
      intros r Hr. change (is_utf8 (String c r) = true). by rewrite Heq.
  - destruct (Hcur ltac:(done)) as (Hne & Hhi & Hpend). destruct Hlo as [Hlo|]; [|done]. simpl in H.
    destruct ((lo <=? bval c) && (bval c <=? hi))%N eqn:E; [|done].
    assert (Hch : sall high (cur +:+ one c) = true).
    { rewrite sall_app, Hhi. simpl. apply andb_prop in E as [E _]. apply N.leb_le in E.
      unfold high. by rewrite (proj2 (N.leb_le 128 (bval c))) by lia. }
    assert (Hne' : cur +:+ one c <> "") by (by destruct cur).
    destruct k as [|k]; cbn [chars_go].
    + constructor; [|rewrite utf8_go_0 in H; eapply (IH 0 0%N 0%N); [exact H|by right|done]].
      split; [|by right]. apply Hpend. simpl. by rewrite E.
    + eapply IH; [exact H|left; lia|]. intros _. split_and!; [done..|]. intros r Hr.
      rewrite <-sapp_assoc. apply Hpend. simpl. by rewrite E.
Qed.

Lemma chars_ok s : is_utf8 s = true -> Forall char_ok (chars s).
Proof. intros H. eapply chars_go_ok; [exact H|by right|done]. Qed.

Lemma char_ok_nonempty ch : char_ok ch -> ch <> "".
Proof. intros [_ [(c & -> & _)|[Hne _]]]; done. Qed.

Lemma sconcat_utf8 l : Forall char_ok l -> is_utf8 (sconcat l) = true.
Proof. induction 1 as [|ch l [Hc _] _ IH]; [done|]. rewrite sconcat_cons. by apply is_utf8_app. Qed.

Lemma sconcat_nil l : Forall char_ok l -> sconcat l = "" -> l = [].
Proof.
  intros [|ch l' Hc _]; [done|]. rewrite sconcat_cons. intros E. apply char_ok_nonempty in Hc. by destruct ch.
Qed.

(** Valid text splits into its chars in one way only. *)
Lemma chars_sconcat l s : is_utf8 s = true -> chars s = l -> Forall (fun ch => chars ch = [ch] /\ char_ok ch) l.
Proof.
  revert s. induction l as [|ch l IH]; intros s Hs E; [constructor|].
  pose proof (chars_ok s Hs) as Hok. rewrite E in Hok. inversion Hok as [|? ? Hch Hl]; subst.
  assert (Es : s = ch +:+ sconcat l) by (rewrite <-(sconcat_chars s), E; apply sconcat_cons).
  assert (Ec : chars ch ++ chars (sconcat l) = ch :: l) by (rewrite <-E, Es; symmetry; apply chars_app; apply Hch).
  pose proof (chars_ok ch (proj1 Hch)) as Hcc. pose proof (sconcat_chars ch) as Hsc.
  destruct (chars ch) as [|x xs] eqn:Ecc; [by apply char_ok_nonempty in Hch|]. injection Ec as -> Ec.
  assert (xs = []) as ->.
  { apply sconcat_nil; [by inversion Hcc|]. rewrite sconcat_cons in Hsc. apply (f_equal String.length) in Hsc.
    rewrite slen_app in Hsc. apply slen_0. lia. }
  simpl in Ec. constructor; [done|]. eapply (IH (sconcat l)); [|done]. by apply sconcat_utf8.
Qed.

Lemma chars_of_chars l : Forall (fun ch => chars ch = [ch] /\ char_ok ch) l -> chars (sconcat l) = l.
Proof.
  induction 1 as [|ch l [Hc Hok] _ IH]; [done|]. rewrite sconcat_cons, chars_app by apply Hok. by rewrite Hc, IH.
Qed.

Lemma drop_while_suffix {A} (p : A -> bool) l : exists l', l = l' ++ drop_while p l.
Proof.
  induction l as [|x l [l' IH]]; simpl; [by exists []|]. destruct (p x); [|by exists []]. exists (x :: l'). simpl. by f_equal.
Qed.

Lemma drop_while_idem {A} (p : A -> bool) l : drop_while p (drop_while p l) = drop_while p l.
Proof. induction l as [|x l IH]; simpl; [done|]. destruct (p x) eqn:E; [done|]. simpl. by rewrite E. Qed.

(** Dropping at one end does not expose anything to drop at the other. *)
Lemma drop_while_rev {A} (p : A -> bool) l :
  drop_while p l = l -> drop_while p (rev (drop_while p (rev l))) = rev (drop_while p (rev l)).
Proof.
  intros Hl. destruct (drop_while_suffix p (rev l)) as [l' E]. set (m := drop_while p (rev l)) in *.
  assert (El : l = rev m ++ rev l') by (rewrite <-rev_app_distr, <-E; by rewrite rev_involutive).
  destruct (rev m) as [|x r] eqn:Em; [done|]. simpl. rewrite El in Hl. simpl in Hl. destruct (p x) eqn:Ep; [|done].
  generalize dependent (r ++ rev l'). intros y Hl. exfalso. destruct (drop_while_suffix p y) as [l2 E2].
  apply (f_equal length) in Hl, E2. rewrite length_app in E2. simpl in Hl. lia.
Qed.

Lemma trim_idem s : is_utf8 s = true -> trim (trim s) = trim s.
Proof.
  intros Hs. pose proof (chars_sconcat _ s Hs eq_refl) as Hg. unfold trim at 1. set (m := rev (drop_while is_whitespace
    (rev (drop_while is_whitespace (chars s))))).
  assert (Hm : Forall (fun ch => chars ch = [ch] /\ char_ok ch) m).
  { destruct (drop_while_suffix is_whitespace (chars s)) as [l1 E1].
    destruct (drop_while_suffix is_whitespace (rev (drop_while is_whitespace (chars s)))) as [l2 E2].
    rewrite E1 in Hg. apply Forall_app in Hg as [_ Hg]. apply Forall_rev in Hg. rewrite E2 in Hg.
    apply Forall_app in Hg as [_ Hg]. by apply Forall_rev. }
  change (trim s) with (sconcat m). rewrite (chars_of_chars m Hm). f_equal.
  assert (E1 : drop_while is_whitespace m = m) by (apply drop_while_rev, drop_while_idem). rewrite E1.
  assert (E2 : drop_while is_whitespace (rev m) = rev m) by (unfold m; rewrite rev_involutive; apply drop_while_idem).
  rewrite E2. apply rev_involutive.
Qed.

Lemma trim_utf8 s : is_utf8 s = true -> is_utf8 (trim s) = true.
Proof.
  intros Hs. unfold trim. apply sconcat_utf8. apply Forall_rev. pose proof (chars_ok s Hs) as Hg.
  destruct (drop_while_suffix is_whitespace (chars s)) as [l1 E1].
  destruct (drop_while_suffix is_whitespace (rev (drop_while is_whitespace (chars s)))) as [l2 E2].
  rewrite E1 in Hg. apply Forall_app in Hg as [_ Hg]. apply Forall_rev in Hg. rewrite E2 in Hg. by apply Forall_app in Hg as [_ Hg].
Qed.

(** ** Case mapping

    ASCII case mapping is written out; the Unicode tables of [std] and the
    NFKC tables of the [unicode-normalization] crate are the operations of the
    class [Unicode], used only on non-ASCII input. *)
Class Unicode := {
  uni_lower : string -> list string;
  uni_upper : string -> list string;
  uni_is_upper : string -> bool;
  uni_nfkc : string -> string;
}.

(** What is documented of the tables: lower-casing a char gives at least one
    char and no blank, and NFKC gives valid text. *)
Definition not_blank (c : ascii) : bool :=
  negb (Ascii.eqb c " ") && negb (Ascii.eqb c tab) && negb (Ascii.eqb c nl) && negb (Ascii.eqb c cr).
Class UnicodeLaws `{Unicode} := {
  uni_lower_plain ch :
    ch <> "" -> sall high ch = true ->
    uni_lower ch <> [] /\ Forall (fun l => l <> "" /\ sall not_blank l = true) (uni_lower ch);
  uni_nfkc_utf8 s : is_utf8 s = true -> is_utf8 (uni_nfkc s) = true;
}.

Section CaseMap.
Context `{Unicode}.
(** [char::is_uppercase], [char::to_lowercase], [str::to_uppercase]. *)
Definition char_is_uppercase (ch : string) : bool :=
  if is_ascii ch then sall is_ascii_upper ch else uni_is_upper ch.
Definition char_to_lowercase (ch : string) : list string :=
  if is_ascii ch then [to_ascii_lowercase ch] else uni_lower ch.
Definition upper_byte (c : ascii) : ascii :=
  if is_ascii_lower c then byte (bval c - 32) else c.
Definition char_to_uppercase (ch : string) : list string :=
  if is_ascii ch then [smap upper_byte ch] else uni_upper ch.
Definition str_to_uppercase (s : string) : string :=
  sconcat (concat (map char_to_uppercase (chars s))).
End CaseMap.

(** ** Open brackets

    After reading [s], is the last bracket seen a ["\["]?  Shared by the
    deanonymizer's reasoning and by the output filter. *)
Fixpoint open_after (open : bool) (s : string) : bool :=
  match s with
  | "" => open
  | String c s' =>
      open_after (if Ascii.eqb c "[" then true else if Ascii.eqb c "]" then false else open) s'
  end.
Definition open_bracket (s : string) : bool := open_after false s.

Definition not_open (c : ascii) : bool := negb (Ascii.eqb c "[").
Definition no_bracket (c : ascii) : bool := negb (Ascii.eqb c "[") && negb (Ascii.eqb c "]").

Lemma open_after_app o a b : open_after o (a +:+ b) = open_after (open_after o a) b.
Proof. revert o. induction a as [|c a IH]; intros o; simpl; [done|]. apply IH. Qed.

Lemma open_after_plain o s : sall no_bracket s = true -> open_after o s = o.
Proof.
  revert o. induction s as [|c s IH]; intros o H; simpl in *; [done|].
  unfold no_bracket in H at 1. bool_to_prop.
  destruct (Ascii.eqb_spec c "["), (Ascii.eqb_spec c "]"); try done. by apply IH.
Qed.

(** ** Lemmas: splitting an append *)

(** A string with no [c] ends at the first [c]. *)
Lemma first_byte_split c a1 d1 a2 d2 :
  sall (fun x => negb (Ascii.eqb x c)) a1 = true ->
  sall (fun x => negb (Ascii.eqb x c)) a2 = true ->
  a1 +:+ String c d1 = a2 +:+ String c d2 -> a1 = a2 /\ d1 = d2.
Proof.
  revert a2. induction a1 as [|x a1 IH]; intros [|y a2] H1 H2 H; simpl in *.
  - by injection H as ->.
  - injection H as -> _. by rewrite Ascii.eqb_refl in H2.
  - injection H as -> _. by rewrite Ascii.eqb_refl in H1.
  - injection H as -> H. bool_to_prop. by destruct (IH a2) as [-> ->].
Qed.

(** Two ways to cut the same string: one cut is inside the other's prefix. *)
Lemma sapp_cases a b c d :
  a +:+ b = c +:+ d -> (exists r, a = c +:+ r /\ d = r +:+ b) \/ (exists r, r <> "" /\ c = a +:+ r).
Proof.
  revert c. induction a as [|x a IH]; intros [|y c] H; simpl in *.
  - left. exists "". by split.
  - right. exists (String y c). by split.
  - left. exists (String x a). by rewrite <-H.
  - injection H as -> H. destruct (IH _ H) as [(r & -> & ->)|(r & Hr & ->)]; eauto.
Qed.

Lemma stake_app_le n a b : n <= String.length a -> stake n (a +:+ b) = stake n a.
Proof. revert a. induction n as [|n IH]; intros [|c a] H; simpl in *; try done; [lia|]. by rewrite IH by lia. Qed.

Lemma sdrop_app_ge n a b : n <= String.length a -> sdrop n (a +:+ b) = sdrop n a +:+ b.
Proof. revert a. induction n as [|n IH]; intros [|c a] H; simpl in *; try done; [lia|]. by rewrite IH by lia. Qed.

Lemma stake_stake n m s : n <= m -> stake n (stake m s) = stake n s.
Proof. revert m s. induction n as [|n IH]; intros [|m] [|c s] H; simpl; try done; [lia|]. by rewrite IH by lia. Qed.

(** A slice only depends on the bytes before its end. *)
Lemma slice_stake a b n s : b <= n -> slice a b (stake n s) = slice a b s.
Proof.
  unfold slice. revert b n s. induction a as [|a IH]; intros b n s H; simpl.
  - destruct n, s; simpl; try done; rewrite ?Nat.sub_0_r; [by destruct b; [|lia]|].
    destruct b; simpl; [done|]. by rewrite stake_stake by lia.
  - destruct n, s; simpl; try done; [by replace (b - S a) with 0 by lia|].
    destruct b; simpl; [done|]. apply IH. lia.
Qed.

(** [s] cut at the ends of a range. *)
Lemma slice_cut a b s : a <= b -> s = stake a s +:+ slice a b s +:+ sdrop b s.
Proof.
  intros H. unfold slice. rewrite <-(stake_sdrop a s) at 1. f_equal.
  rewrite <-(stake_sdrop (b - a) (sdrop a s)) at 1. by rewrite sdrop_add, Nat.add_comm, Nat.sub_add.
Qed.
