(* ===== verification/Json.v ===== *)
(** * JSON values

    [serde_json::Value] as the sources use it.  [Map<String, Value>] is the
    crate's default ordered map (the [preserve_order] feature is off), so an
    object is an association list kept in key order.  Parsing and printing are
    the crate's: they are the operations of the class [Serde]. *)

From S2P Require Import Prelude RustStr.

Inductive number : Type :=
| PosInt (n : Z)
| NegInt (n : Z)
| Float (bits : Z).

Inductive value : Type :=
| Null
| Bool (b : bool)
| Num (n : number)
| Str (s : string)
| Arr (l : list value)
| Obj (m : list (string * value)).

(** Induction through the nested lists. *)
Section ValueInd.
Variable P : value -> Prop.
Hypothesis (HNull : P Null) (HBool : forall b, P (Bool b)) (HNum : forall n, P (Num n))
  (HStr : forall s, P (Str s)) (HArr : forall l, Forall P l -> P (Arr l))
  (HObj : forall m, Forall (fun kv => P kv.2) m -> P (Obj m)).

Fixpoint value_ind' (v : value) : P v :=
  match v with
  | Null => HNull
  | Bool b => HBool b
  | Num n => HNum n
  | Str s => HStr s
  | Arr l => HArr l ((fix go l : Forall P l :=
      match l with [] => Forall_nil_2 _ | x :: l' => Forall_cons_2 _ _ _ (value_ind' x) (go l') end) l)
  | Obj m => HObj m ((fix go m : Forall (fun kv => P kv.2) m :=
      match m with
      | [] => Forall_nil_2 _
      | kv :: m' => Forall_cons_2 _ kv m' (value_ind' kv.2) (go m')
      end) m)
  end.
End ValueInd.

(** ** Maps *)

Fixpoint map_get (k : string) (m : list (string * value)) : option value :=
  match m with
  | [] => None
  | (k', v) :: m' => if String.eqb k k' then Some v else map_get k m'
  end.

Fixpoint map_insert (k : string) (v : value) (m : list (string * value)) : list (string * value) :=
  match m with
  | [] => [(k, v)]
  | (k', v') :: m' =>
      match String.compare k k' with
      | Eq => (k, v) :: m'
      | Lt => (k, v) :: m
      | Gt => (k', v') :: map_insert k v m'
      end
  end.

(** ** Accessors *)

(** [v.get("k")]. *)
Definition get (k : string) (v : value) : option value :=
  match v with Obj m => map_get k m | _ => None end.
Definition as_str (v : value) : option string :=
  match v with Str s => Some s | _ => None end.
Definition as_array (v : value) : option (list value) :=
  match v with Arr l => Some l | _ => None end.
Definition as_u64 (v : value) : option Z :=
  match v with Num (PosInt n) => Some n | _ => None end.

Definition get_str (k : string) (v : value) : option string := get k v ≫= as_str.
Definition get_arr (k : string) (v : value) : option (list value) := get k v ≫= as_array.
(** [v.get("k1").and_then(|x| x.get("k2"))]. *)
Definition get2 (k1 k2 : string) (v : value) : option value := get k1 v ≫= get k2.

(** [json!({k1: v1, ...})]. *)
Definition obj (l : list (string * value)) : value :=
  Obj (foldl (fun m kv => map_insert kv.1 kv.2 m) [] l).

(** [v\["k"\] = x]: inserts into an object, turns [null] into an object, and
    panics ([None]) on any other value. *)
Definition index_set (k : string) (x : value) (v : value) : option value :=
  match v with
  | Obj m => Some (Obj (map_insert k x m))
  | Null => Some (Obj [(k, x)])
  | _ => None
  end.

(** ** In-place updates

    [if let Some(x) = v.get_mut("k") { body(x) }] and
    [if let Some(xs) = v.as_array_mut() { for x in xs { body(x) } }], where the
    body also updates the enclosing variables [st]. *)

Fixpoint map_mut {S} (k : string) (f : S -> value -> value * S) (st : S)
    (m : list (string * value)) : list (string * value) * S :=
  match m with
  | [] => ([], st)
  | (k', v) :: m' =>
      if String.eqb k k' then let '(v', st') := f st v in ((k', v') :: m', st')
      else let '(m'', st') := map_mut k f st m' in ((k', v) :: m'', st')
  end.
Definition field_mut {S} (k : string) (f : S -> value -> value * S) (st : S) (v : value) : value * S :=
  match v with
  | Obj m => let '(m', st') := map_mut k f st m in (Obj m', st')
  | _ => (v, st)
  end.
Definition elems_mut {S} (f : S -> value -> value * S) (st : S) (v : value) : value * S :=
  match v with
  | Arr l => let '(l', st') := map_st f st l in (Arr l', st')
  | _ => (v, st)
  end.

(** The same without enclosing variables. *)
Definition with_field (k : string) (f : value -> value) (v : value) : value :=
  (field_mut k (fun _ x => (f x, tt)) tt v).1.
Definition with_elems (f : value -> value) (v : value) : value :=
  match v with Arr l => Arr (map f l) | _ => v end.

(** ** The parser and printer of the [serde_json] crate

    [from_str] gives the value or the error's display text; [to_json] is
    [Value]'s [Display]. *)
Class Serde := {
  from_str : string -> result string value;
  to_json : value -> string;
}.

(** ** The [jsonschema] crate

    A compiled validator and the errors it reports on an instance: each with
    its instance path and its message, both as displayed. *)
Class JsonSchema := {
  validator : Type;
  validator_for : value -> result string validator;
  iter_errors : validator -> value -> list (string * string);
}.

(** ** Lemmas *)

Lemma map_get_insert_eq k v m : map_get k (map_insert k v m) = Some v.
Proof.
  induction m as [|[k' v'] m IH]; simpl; [by rewrite String.eqb_refl|].
  destruct (String.compare k k') eqn:E; simpl; rewrite ?String.eqb_refl; try done.
  destruct (String.eqb_spec k k') as [->|]; [|done].
  pose proof (String.compare_antisym k' k') as H. rewrite E in H. done.
Qed.

Lemma map_get_insert_ne k k' v m : k' <> k -> map_get k' (map_insert k v m) = map_get k' m.
Proof.
  intros Hne. induction m as [|[k1 v1] m IH]; simpl.
  - by destruct (String.eqb_spec k' k).
  - destruct (String.compare k k1) eqn:E; simpl.
    + apply String.compare_eq_iff in E as ->. by destruct (String.eqb_spec k' k1).
    + by destruct (String.eqb_spec k' k).
    + by rewrite IH.
Qed.

Section MapMut.
Context {S : Type}.
Implicit Types (f : S -> value -> value * S) (st : S).

Lemma map_mut_absent k f st m : map_get k m = None -> map_mut k f st m = (m, st).
Proof.
  induction m as [|[k' v] m IH]; simpl; [done|].
  destruct (String.eqb k k'); [done|]. intros H. by rewrite (IH H).
Qed.

Lemma map_mut_get k f st m v :
  map_get k m = Some v ->
  map_get k (map_mut k f st m).1 = Some (f st v).1 /\ (map_mut k f st m).2 = (f st v).2.
Proof.
  induction m as [|[k' v'] m IH]; simpl; [done|].
  destruct (String.eqb k k') eqn:E.
  - intros [= ->]. destruct (f st v) as [w st'] eqn:F. simpl. by rewrite E.
  - intros H. specialize (IH H). destruct (map_mut k f st m) as [m'' st'].
    simpl in *. by rewrite E.
Qed.

Lemma map_mut_get_ne k k' f st m : k' <> k -> map_get k' (map_mut k f st m).1 = map_get k' m.
Proof.
  intros Hne. induction m as [|[k1 v1] m IH]; simpl; [done|].
  destruct (String.eqb_spec k k1) as [<-|Hk].
  - destruct (f st v1) as [w st']. simpl. by destruct (String.eqb_spec k' k).
  - destruct (map_mut k f st m) as [m'' st']. simpl in *. by rewrite IH.
Qed.

Lemma field_mut_absent k f st v : get k v = None -> field_mut k f st v = (v, st).
Proof. destruct v; simpl; try done. intros H. by rewrite map_mut_absent. Qed.

Lemma field_mut_get k f st v x :
  get k v = Some x ->
  get k (field_mut k f st v).1 = Some (f st x).1 /\ (field_mut k f st v).2 = (f st x).2.
Proof.
  destruct v; simpl; try done. intros H.
  pose proof (map_mut_get k f st m x H). by destruct (map_mut k f st m).
Qed.

Lemma field_mut_get_ne k k' f st v : k' <> k -> get k' (field_mut k f st v).1 = get k' v.
Proof.
  intros Hne. destruct v; simpl; try done.
  pose proof (map_mut_get_ne k k' f st m Hne). by destruct (map_mut k f st m).
Qed.

(** A body that changes neither the value nor the state is no change. *)
Lemma field_mut_id k f st v :
  (forall x, get k v = Some x -> f st x = (x, st)) -> field_mut k f st v = (v, st).
Proof.
  destruct v; simpl; try done. intros H.
  assert (map_mut k f st m = (m, st)) as ->; [|done].
  induction m as [|[k' v] m IH]; simpl in *; [done|].
  destruct (String.eqb k k'); [by rewrite H|]. by rewrite IH.
Qed.

Lemma elems_mut_id f st v :
  (forall l x, as_array v = Some l -> In x l -> f st x = (x, st)) -> elems_mut f st v = (v, st).
Proof.
  destruct v as [| | | |l|]; simpl; try done. intros H.
  assert (map_st f st l = (l, st)) as ->; [|done].
  specialize (H l). revert H. induction l as [|x l IH]; intros H; simpl; [done|].
  rewrite (H x eq_refl); [|by left]. rewrite IH; [done|]. intros y _ Hy. apply H; [done|by right].
Qed.

(** The state invariant of a nested update. *)
Lemma field_mut_inv (P : S -> Prop) k f st v :
  (forall st x, P st -> P (f st x).2) -> P st -> P (field_mut k f st v).2.
Proof.
  intros Hf Hst. destruct v; simpl; try done.
  assert (P (map_mut k f st m).2); [|by destruct (map_mut k f st m)].
  induction m as [|[k' v] m IH]; simpl; [done|].
  destruct (String.eqb k k').
  - specialize (Hf st v Hst). by destruct (f st v).
  - by destruct (map_mut k f st m).
Qed.

Lemma elems_mut_inv (P : S -> Prop) f st v :
  (forall st x, P st -> P (f st x).2) -> P st -> P (elems_mut f st v).2.
Proof.
  intros Hf Hst. destruct v as [| | | |l|]; simpl; try done.
  pose proof (map_st_inv P f st l Hf Hst). by destruct (map_st f st l).
Qed.
End MapMut.

Lemma with_field_get k f v : get k (with_field k f v) = f <$> get k v.
Proof.
  unfold with_field. destruct (get k v) as [x|] eqn:E.
  - by destruct (field_mut_get k (fun _ x => (f x, tt)) tt v x E) as [-> _].
  - by rewrite field_mut_absent.
Qed.

Lemma with_field_get_ne k k' f v : k' <> k -> get k' (with_field k f v) = get k' v.
Proof. apply field_mut_get_ne. Qed.

Lemma with_field_absent k f v : get k v = None -> with_field k f v = v.
Proof. intros E. unfold with_field. by rewrite field_mut_absent. Qed.

#[export] Hint Resolve map_get_insert_eq map_get_insert_ne : nanoguard.
