(* ===== verification/Regex.v ===== *)
(** * The regex engine

    The [regex] crate, as the sources use it: compile a pattern, test, iterate
    over the matches, replace them all.  [RegexLaws] states the documented
    behaviour the redactor depends on. *)

From S2P Require Import Prelude RustStr.

Class RegexEngine := {
  regex : Type;
  (** [RegexBuilder::new(p).case_insensitive(ci).build()]. *)
  regex_build : bool -> string -> result string regex;
  is_match : regex -> string -> bool;
  (** [find_iter]: byte ranges [(start, end)]. *)
  find_iter : regex -> string -> list (nat * nat);
  replace_all : regex -> string -> string -> string;
}.

(** Ranges from left to right, without overlap, between [lo] and [len]. *)
Fixpoint spans_ok (lo len : nat) (l : list (nat * nat)) : Prop :=
  match l with
  | [] => True
  | (a, b) :: l' => lo <= a /\ a <= b /\ b <= len /\ spans_ok b len l'
  end.

(** Substitute a fixed text for every range, right to left. *)
Definition splice_const (r : string) (spans : list (nat * nat)) (s : string) : string :=
  foldr (fun ab out => replace_range ab.1 ab.2 r out) s spans.

Class RegexLaws `{RegexEngine} := {
  find_iter_ok r s : spans_ok 0 (String.length s) (find_iter r s);
  is_match_find r s : is_match r s = true <-> find_iter r s <> [];
  replace_all_nomatch r s rep : find_iter r s = [] -> replace_all r s rep = s;
  (** A replacement with no [$] group reference is inserted literally. *)
  replace_all_literal r s rep :
    sall (fun c => negb (Ascii.eqb c "$")) rep = true ->
    replace_all r s rep = splice_const rep (find_iter r s) s;
}.

Lemma spans_ok_weaken lo lo' len l : lo' <= lo -> spans_ok lo len l -> spans_ok lo' len l.
Proof. destruct l as [|[a b] l]; simpl; [done|]. intros ? (?&?&?&?). split_and!; auto; lia. Qed.

(** ** A literal-search engine

    Regexes that are plain literals, found left to right without overlap: an
    instance that satisfies the laws, used to exhibit concrete runs. *)

Fixpoint lit_find (p : string) (skip at_ : nat) (s : string) : list (nat * nat) :=
  match s with
  | "" => []
  | String c s' =>
      match skip with
      | S k => lit_find p k (S at_) s'
      | O => if starts_with p s
             then (at_, at_ + String.length p) :: lit_find p (pred (String.length p)) (S at_) s'
             else lit_find p 0 (S at_) s'
      end
  end.

Definition lit_iter (p s : string) : list (nat * nat) :=
  if String.eqb p "" then [] else lit_find p 0 0 s.

#[local] Instance literal_engine : RegexEngine := {|
  regex := string;
  regex_build _ p := Ok p;
  is_match p s := match lit_iter p s with [] => false | _ => true end;
  find_iter := lit_iter;
  replace_all p s rep := splice_const rep (lit_iter p s) s;
|}.

Lemma lit_find_ok p s skip at_ :
  p <> "" -> spans_ok (at_ + skip) (at_ + String.length s) (lit_find p skip at_ s).
Proof.
  intros Hp. revert skip at_. induction s as [|c s IH]; intros skip at_; simpl; [done|].
  destruct skip as [|k].
  - destruct (starts_with p (String c s)) eqn:E; simpl.
    + apply starts_with_true in E as [r Hr].
      apply (f_equal String.length) in Hr. rewrite slen_app in Hr. simpl in Hr.
      specialize (IH (pred (String.length p)) (S at_)).
      assert (String.length p <> 0) by (destruct p; simpl; [done|lia]).
      split_and!; [lia..|].
      replace (at_ + S (String.length s)) with (S at_ + String.length s) by lia.
      eapply spans_ok_weaken; [|exact IH]. lia.
    + specialize (IH 0 (S at_)).
      replace (at_ + S (String.length s)) with (S at_ + String.length s) by lia.
      eapply spans_ok_weaken; [|exact IH]. lia.
  - specialize (IH k (S at_)).
    replace (at_ + S (String.length s)) with (S at_ + String.length s) by lia.
    eapply spans_ok_weaken; [|exact IH]. lia.
Qed.

Lemma literal_laws : RegexLaws.
Proof.
  split; simpl.
  - intros r s. unfold lit_iter. destruct (String.eqb_spec r ""); [done|].
    by apply (lit_find_ok r s 0 0).
  - intros r s. destruct (lit_iter r s); split; congruence.
  - intros r s rep ->. done.
  - done.
Qed.
