(* ===== verification/Vault.v ===== *)
(** * The per-request PII vault ([src/guard/vault.rs])

    [LocalVault] hands out one placeholder per (entity, value) pair and keeps
    the placeholder-to-original table the output deanonymizer reads.  The class
    [VaultLaws] is what the redactor relies on; [LocalVault] discharges it. *)

From S2P Require Import Prelude RustStr.

(** ** Definitions *)

Inductive PlaceholderTemplate := LlmGuard | Indexed.
#[export] Instance PlaceholderTemplate_eq_dec : EqDecision PlaceholderTemplate.
Proof. solve_decision. Defined.

(** [HashMap]s as finite maps; a [u32] counter is a [Z]. *)
Record LocalVault := mkVault {
  entries : gmap string string;
  seen : gmap (string * string) Z;
  next : gmap string Z;
  style : PlaceholderTemplate;
}.

Definition with_style (st : PlaceholderTemplate) : LocalVault :=
  {| entries := ∅; seen := ∅; next := ∅; style := st |}.
Definition new_vault : LocalVault := with_style LlmGuard.

Definition format_template (st : PlaceholderTemplate) (entity : string) (idx : Z) : string :=
  match st with
  | LlmGuard => "[REDACTED_" +:+ entity +:+ "_" +:+ show_Z idx +:+ "]"
  | Indexed => "[" +:+ entity +:+ "_" +:+ show_Z idx +:+ "]"
  end.
Definition format_placeholder (v : LocalVault) (entity : string) (idx : Z) : string :=
  format_template (style v) entity idx.

(** The index for (entity, original): the one already assigned, or the next
    free one of that entity, counted with [u32] wrap-around. *)
Definition assign_index (v : LocalVault) (entity_type original : string) : Z * LocalVault :=
  match seen v !! (entity_type, original) with
  | Some i => (i, v)
  | None =>
      let counter := u32_wrap (default 0%Z (next v !! entity_type) + 1) in
      (counter,
       {| entries := entries v;
          seen := <[(entity_type, original) := counter]> (seen v);
          next := <[entity_type := counter]> (next v);
          style := style v |})
  end.

Definition store (v : LocalVault) (entity_type original : string) : string * LocalVault :=
  let '(idx, v1) := assign_index v entity_type original in
  let placeholder := format_placeholder v1 entity_type idx in
  let entries' := match entries v1 !! placeholder with
                  | Some _ => entries v1
                  | None => <[placeholder := original]> (entries v1)
                  end in
  (placeholder,
   {| entries := entries'; seen := seen v1; next := next v1; style := style v1 |}).

Definition vault_get (v : LocalVault) (placeholder : string) : option string :=
  entries v !! placeholder.
(** [entries()]: the table in the map's own order; callers may not rely on it. *)
Definition vault_entries (v : LocalVault) : list (string * string) := map_to_list (entries v).
Definition vault_len (v : LocalVault) : nat := size (entries v).
Definition vault_is_empty (v : LocalVault) : bool := Nat.eqb (vault_len v) 0.

(** ** The interface the redactor and the deanonymizer use *)

Class Vault (V : Type) := {
  v_store : V -> string -> string -> string * V;
  v_get : V -> string -> option string;
  v_entries : V -> list (string * string);
}.

(** [v_wf v n]: [v] is a state of the vault after at most [n] [store] calls. *)
Class VaultLaws (V : Type) `{Vault V} := {
  v_wf : V -> Z -> Prop;
  v_store_wf v n e o :
    v_wf v n -> (n < u32_max)%Z -> v_wf (v_store v e o).2 (n + 1);
  v_store_get v n e o :
    v_wf v n -> (n < u32_max)%Z ->
    v_get (v_store v e o).2 (v_store v e o).1 = Some o;
  v_store_mono v n e o p x :
    v_wf v n -> (n < u32_max)%Z ->
    v_get v p = Some x -> v_get (v_store v e o).2 p = Some x;
  v_get_entries v p o : v_get v p = Some o <-> (p, o) ∈ v_entries v;
}.

#[export] Instance local_vault : Vault LocalVault :=
  {| v_store := store; v_get := vault_get; v_entries := vault_entries |}.

(** ** Well-formedness *)

Record vault_wf (v : LocalVault) (n : Z) : Prop := {
  wf_range e o i : seen v !! (e, o) = Some i -> (1 <= i <= default 0 (next v !! e))%Z;
  wf_next e : (0 <= default 0 (next v !! e) <= n)%Z;
  wf_inj e o1 o2 i : seen v !! (e, o1) = Some i -> seen v !! (e, o2) = Some i -> o1 = o2;
  wf_entries p o :
    entries v !! p = Some o <-> exists e i, seen v !! (e, o) = Some i /\ p = format_placeholder v e i;
}.

(** ** Lemmas *)

Lemma digit_not (c d : ascii) : is_ascii_digit d = false -> is_ascii_digit c = true -> c <> d.
Proof. intros Hd Hc ->. congruence. Qed.

Lemma show_Z_no_underscore n :
  (0 <= n)%Z -> sall (fun x => negb (Ascii.eqb x "_")) (show_Z n) = true.
Proof.
  intros Hn. eapply sall_impl; [|by apply show_Z_digits]. intros c Hc.
  apply negb_true_iff, Ascii.eqb_neq. by apply digit_not.
Qed.

(** Distinct (entity, index) pairs print as distinct placeholders. *)
Lemma format_template_inj st e1 i1 e2 i2 :
  (0 <= i1)%Z -> (0 <= i2)%Z ->
  format_template st e1 i1 = format_template st e2 i2 -> e1 = e2 /\ i1 = i2.
Proof.
  intros H1 H2 H.
  assert (e1 +:+ "_" +:+ show_Z i1 = e2 +:+ "_" +:+ show_Z i2) as E.
  { apply (sapp_inj_r _ _ "]"). rewrite <-!sapp_assoc.
    destruct st; unfold format_template in H; by apply sapp_inj_l in H. }
  apply last_byte_split in E as [-> E]; auto using show_Z_no_underscore.
  by apply show_Z_inj in E.
Qed.

Lemma vault_wf_new st n : (0 <= n)%Z -> vault_wf (with_style st) n.
Proof.
  intros Hn. split; simpl; intros.
  - by rewrite lookup_empty in *.
  - rewrite lookup_empty. simpl. lia.
  - by rewrite lookup_empty in *.
  - rewrite lookup_empty. split; [done|]. intros (e & i & H & _). by rewrite lookup_empty in H.
Qed.

Lemma vault_wf_weaken v n m : vault_wf v n -> (n <= m)%Z -> vault_wf v m.
Proof. intros [H1 H2 H3 H4] Hle. split; auto. intros e. specialize (H2 e). lia. Qed.

Section Store.
Context (v : LocalVault) (n : Z) (Hwf : vault_wf v n) (Hn : (n < u32_max)%Z).

(** What a [store] call leaves behind, in one statement. *)
Lemma store_seen e o :
  exists i v1,
    assign_index v e o = (i, v1) /\ seen v1 !! (e, o) = Some i /\ style v1 = style v /\
    entries v1 = entries v /\ (forall k j, seen v !! k = Some j -> seen v1 !! k = Some j) /\
    (forall k j, seen v1 !! k = Some j -> k = (e, o) \/ seen v !! k = Some j) /\
    (seen v !! (e, o) = None -> i = default 0 (next v !! e) + 1)%Z /\
    (forall e', default 0 (next v !! e') <= default 0 (next v1 !! e') <= n + 1)%Z /\
    (1 <= i <= default 0 (next v1 !! e))%Z.
Proof.
  unfold assign_index. destruct (seen v !! (e, o)) as [i|] eqn:E.
  - exists i, v. repeat split; auto; try done; try lia; try apply (wf_range v n Hwf _ _ _ E).
    pose proof (wf_next v n Hwf e'). lia.
  - pose proof (wf_next v n Hwf e) as Hnx.
    rewrite u32_wrap_small by (unfold u32_max in *; lia).
    eexists _, _. split; [reflexivity|]. simpl.
    rewrite lookup_insert_eq. repeat split; auto; try lia.
    + intros k j Hk. rewrite lookup_insert_ne; [done|]. intros <-. congruence.
    + intros k j. rewrite lookup_insert. case_decide; naive_solver.
    + rewrite lookup_insert. case_decide; simplify_eq/=; lia.
    + pose proof (wf_next v n Hwf e'). rewrite lookup_insert. case_decide; simplify_eq/=; lia.
    + rewrite lookup_insert_eq. simpl. lia.
Qed.

(** A fresh index is above every index assigned before. *)
Lemma store_inj e o i v1 e' o1 o2 j :
  assign_index v e o = (i, v1) ->
  seen v1 !! (e', o1) = Some j -> seen v1 !! (e', o2) = Some j -> o1 = o2.
Proof.
  intros Ha H1 H2. destruct (store_seen e o) as (i' & v1' & Ha' & _ & _ & _ & _ & Hback & Hfresh & _ & _).
  rewrite Ha in Ha'. simplify_eq.
  destruct (seen v !! (e, o)) as [i0|] eqn:E.
  { unfold assign_index in Ha. rewrite E in Ha. injection Ha as <- <-. by apply (wf_inj v n Hwf e' o1 o2 j). }
  specialize (Hfresh eq_refl).
  assert (Hold : forall x, seen v1' !! (e', x) = Some j -> (e', x) <> (e, o) -> seen v !! (e', x) = Some j).
  { intros x Hx Hne. by destruct (Hback _ _ Hx) as [?|?]. }
  assert (Hnew : seen v1' !! (e, o) = Some i').
  { unfold assign_index in Ha. rewrite E in Ha. injection Ha as <- <-. apply lookup_insert_eq. }
  destruct (decide ((e', o1) = (e, o))) as [Heq1|Hne1], (decide ((e', o2) = (e, o))) as [Heq2|Hne2].
  - congruence.
  - injection Heq1 as -> ->. pose proof (wf_range _ _ Hwf _ _ _ (Hold _ H2 Hne2)).
    rewrite H1 in Hnew. simplify_eq. lia.
  - injection Heq2 as -> ->. pose proof (wf_range _ _ Hwf _ _ _ (Hold _ H1 Hne1)).
    rewrite H2 in Hnew. simplify_eq. lia.
  - eapply (wf_inj _ _ Hwf); eauto.
Qed.

Lemma format_seen_inj v1 e1 o1 i1 e2 o2 i2 :
  (forall e o i, seen v1 !! (e, o) = Some i -> (1 <= i)%Z) ->
  seen v1 !! (e1, o1) = Some i1 -> seen v1 !! (e2, o2) = Some i2 ->
  format_placeholder v1 e1 i1 = format_placeholder v1 e2 i2 -> e1 = e2 /\ i1 = i2.
Proof.
  intros Hpos H1 H2 H. apply Hpos in H1, H2. apply format_template_inj in H; [done|lia..].
Qed.
End Store.

Section StoreLaws.
Context (v : LocalVault) (n : Z) (Hwf : vault_wf v n) (Hn : (n < u32_max)%Z).

(** The shape of a [store] call: the placeholder printed for the assigned
    index, and the table extended at it. *)
Lemma store_spec e o :
  exists i, (store v e o).1 = format_template (style v) e i /\
    seen (store v e o).2 !! (e, o) = Some i /\
    style (store v e o).2 = style v /\
    (forall k j, seen v !! k = Some j -> seen (store v e o).2 !! k = Some j) /\
    entries (store v e o).2 = <[(store v e o).1 := o]> (entries v).
Proof.
  destruct (store_seen v n Hwf Hn e o) as (i & v1 & Ha & Hs & Hst & He & Hmono & Hback & Hfresh & Hnx & Hi).
  unfold store. rewrite Ha. simpl. exists i.
  unfold format_placeholder. rewrite Hst, He.
  repeat split; auto.
  destruct (entries v !! format_template (style v) e i) as [o'|] eqn:E; [|done].
  rewrite insert_id; [done|]. rewrite E. f_equal.
  apply (wf_entries v n Hwf) in E as (e' & i' & Hs' & Hf).
  pose proof (wf_range v n Hwf _ _ _ Hs') as Hr.
  apply format_template_inj in Hf as [-> ->]; [|lia..].
  eapply (store_inj v n Hwf Hn); [exact Ha|by apply Hmono|done].
Qed.

Lemma store_wf e o : vault_wf (store v e o).2 (n + 1).
Proof.
  destruct (store_spec e o) as (j & Hp & Hsj & Hstyle & Hm & Hent).
  destruct (store_seen v n Hwf Hn e o) as (i & v1 & Ha & Hs & Hst & He & Hmono & Hback & Hfresh & Hnx & Hi).
  assert (seen (store v e o).2 = seen v1 /\ next (store v e o).2 = next v1) as [Es En].
  { unfold store. rewrite Ha. done. }
  assert (Hrange : forall e' o' i', seen v1 !! (e', o') = Some i' ->
    (1 <= i' <= default 0 (next v1 !! e'))%Z).
  { intros e' o' i' H'. destruct (Hback _ _ H') as [Heq|Hold].
    - injection Heq as -> ->. congruence.
    - pose proof (wf_range v n Hwf _ _ _ Hold). specialize (Hnx e'). lia. }
  split.
  - intros e' o' i'. rewrite Es, En. apply Hrange.
  - intros e'. rewrite En. pose proof (wf_next v n Hwf e'). specialize (Hnx e'). lia.
  - intros e' o1 o2 i'. rewrite Es. by apply (store_inj v n Hwf Hn e o i).
  - intros p x. rewrite Hent. unfold format_placeholder. rewrite Hstyle, lookup_insert.
    rewrite Hp. case_decide as Hd.
    + subst p. split; [intros [= <-]; eauto|]. intros (e' & i' & Hs' & Hf). f_equal.
      rewrite Es in Hs', Hsj. pose proof (Hrange _ _ _ Hs'). pose proof (Hrange _ _ _ Hsj).
      apply format_template_inj in Hf as [-> ->]; [|lia..].
      symmetry. eapply (store_inj v n Hwf Hn); eauto.
    + rewrite (wf_entries v n Hwf). unfold format_placeholder. split.
      * intros (e' & i' & Hs' & ->). eauto.
      * intros (e' & i' & Hs' & ->). rewrite Es in Hs'.
        destruct (Hback _ _ Hs') as [Heq|Hold]; [|eauto].
        injection Heq as -> ->. rewrite Es in Hsj. congruence.
Qed.

Lemma store_get e o : vault_get (store v e o).2 (store v e o).1 = Some o.
Proof.
  destruct (store_spec e o) as (j & _ & _ & _ & _ & Hent).
  unfold vault_get. rewrite Hent. apply lookup_insert_eq.
Qed.

Lemma store_mono e o p x : vault_get v p = Some x -> vault_get (store v e o).2 p = Some x.
Proof.
  destruct (store_spec e o) as (j & Hp & Hsj & Hstyle & Hm & Hent). unfold vault_get.
  intros H. apply (wf_entries _ _ (store_wf e o)).
  apply (wf_entries v n Hwf) in H as (e' & i' & Hs' & ->).
  exists e', i'. split; [auto|]. unfold format_placeholder. by rewrite Hstyle.
Qed.
End StoreLaws.

#[export] Instance local_vault_laws : VaultLaws LocalVault.
Proof.
  refine {| v_wf := vault_wf |}.
  - intros. by apply store_wf.
  - intros. by eapply store_get.
  - intros. by eapply store_mono.
  - intros v p o. simpl. unfold vault_get, vault_entries. by rewrite elem_of_map_to_list.
Defined.

(** ** Vaults below the counter limit

    [vault_ok v]: well-formed, with as many indices in use at most as distinct
    pairs stored.  Stores keep it as long as the pairs fit in [u32]. *)

Definition vault_ok (v : LocalVault) : Prop := vault_wf v (Z.of_nat (size (seen v))).

Lemma store_size_mono v e o : size (seen v) <= size (seen (store v e o).2).
Proof.
  unfold store, assign_index. destruct (seen v !! (e, o)) eqn:E; simpl; [done|].
  rewrite map_size_insert_None by done. lia.
Qed.

Lemma store_again v n e o i :
  vault_wf v n -> seen v !! (e, o) = Some i -> store v e o = (format_template (style v) e i, v).
Proof.
  intros Hwf E. unfold store, assign_index. rewrite E. unfold format_placeholder.
  assert (entries v !! format_template (style v) e i = Some o) as ->.
  { apply (wf_entries v n Hwf). eauto. }
  by destruct v.
Qed.

Lemma store_ok v e o :
  vault_ok v -> (Z.of_nat (size (seen (store v e o).2)) <= u32_max)%Z ->
  vault_ok (store v e o).2 /\
  vault_get (store v e o).2 (store v e o).1 = Some o /\
  (forall q x, vault_get v q = Some x -> vault_get (store v e o).2 q = Some x) /\
  (exists i, (store v e o).1 = format_template (style v) e i /\ (1 <= i)%Z) /\
  style (store v e o).2 = style v /\
  (forall e' o' i, seen (store v e o).2 !! (e', o') = Some i -> e' = e \/ seen v !! (e', o') = Some i).
Proof.
  intros Hok Hsz. unfold vault_ok in *. destruct (seen v !! (e, o)) as [i|] eqn:E.
  - rewrite (store_again _ _ _ _ _ Hok E). simpl. pose proof (wf_range _ _ Hok _ _ _ E).
    split_and!; auto.
    + unfold vault_get. apply (wf_entries _ _ Hok). eauto.
    + exists i. split; [done|lia].
  - assert (size (seen (store v e o).2) = S (size (seen v))) as Hs.
    { unfold store, assign_index. rewrite E. simpl. by rewrite map_size_insert_None. }
    rewrite Hs in Hsz |- *.
    assert (Hn : (Z.of_nat (size (seen v)) < u32_max)%Z) by lia.
    pose proof (store_wf v _ Hok Hn e o) as Hwf'.
    destruct (store_spec v _ Hok Hn e o) as (i & Hp & Hsi & Hst & _ & _).
    pose proof (wf_range _ _ Hwf' _ _ _ Hsi).
    split_and!; auto.
    + eapply vault_wf_weaken; [exact Hwf'|lia].
    + by eapply store_get.
    + intros. by eapply store_mono.
    + exists i. split; [done|lia].
    + intros e' o' j. unfold store, assign_index. rewrite E. simpl. rewrite lookup_insert.
      case_decide; [naive_solver|auto].
Qed.

Lemma vault_ok_new st : vault_ok (with_style st).
Proof. by apply vault_wf_new. Qed.

(** ** Sequences of [store] calls *)

Definition store_all (v : LocalVault) (ops : list (string * string)) : list string * LocalVault :=
  map_st (fun v eo => store v eo.1 eo.2) v ops.

(** After a run of stores every pair stored has the index its placeholder
    shows, and nothing stored before is lost. *)
Lemma store_all_spec v n ops :
  vault_wf v n -> (n + Z.of_nat (length ops) <= u32_max)%Z ->
  let '(ps, v') := store_all v ops in
  vault_wf v' (n + Z.of_nat (length ops)) /\ style v' = style v /\
  (forall k j, seen v !! k = Some j -> seen v' !! k = Some j) /\
  Forall2 (fun eo p => exists i, seen v' !! eo = Some i /\ p = format_template (style v) eo.1 i) ops ps.
Proof.
  revert v n. induction ops as [|[e o] ops IH]; intros v n Hwf Hlen; simpl.
  { rewrite Z.add_0_r. split_and!; auto. }
  simpl in Hlen. assert (Hn : (n < u32_max)%Z) by lia.
  destruct (store_spec v n Hwf Hn e o) as (i & Hp & Hs & Hst & Hm & _).
  specialize (IH _ (n + 1)%Z (store_wf v n Hwf Hn e o)).
  unfold store_all in *. simpl. destruct (store v e o) as [p v1]. simpl in *.
  destruct (map_st _ v1 ops) as [ps v2].
  destruct IH as (Hwf2 & Hst2 & Hm2 & Hall); [lia|]. simpl.
  split; [eapply vault_wf_weaken; [exact Hwf2|lia]|].
  split; [congruence|]. split; [auto|]. constructor.
  - exists i. auto.
  - by rewrite Hst in Hall.
Qed.

(** ** Properties *)

(** Every prompt value is recoverable: over any run of [store] calls on a fresh vault (below the
    [u32] counter limit), two calls return the same placeholder exactly when
    they stored the same (entity, value) pair, and every placeholder returned
    still resolves to its own value at the end. *)
Theorem vault_store_roundtrip st ops ps v :
  store_all (with_style st) ops = (ps, v) ->
  (Z.of_nat (length ops) <= u32_max)%Z ->
  (forall i j eo1 eo2 p1 p2,
      ops !! i = Some eo1 -> ops !! j = Some eo2 ->
      ps !! i = Some p1 -> ps !! j = Some p2 -> (p1 = p2 <-> eo1 = eo2)) /\
  (forall i e o p, ops !! i = Some (e, o) -> ps !! i = Some p -> vault_get v p = Some o).
Proof.
  intros Hrun Hlen. pose proof (store_all_spec (with_style st) 0 ops (vault_wf_new st 0 ltac:(lia))) as H.
  rewrite Hrun in H. destruct H as (Hwf & Hst & _ & Hall); [simpl; lia|]. simpl in Hst.
  split.
  - intros i j [e1 o1] [e2 o2] p1 p2 Hi Hj Hp1 Hp2.
    destruct (Forall2_lookup_lr _ _ _ _ _ _ Hall Hi Hp1) as (k1 & Hk1 & ->).
    destruct (Forall2_lookup_lr _ _ _ _ _ _ Hall Hj Hp2) as (k2 & Hk2 & ->).
    pose proof (wf_range _ _ Hwf _ _ _ Hk1). pose proof (wf_range _ _ Hwf _ _ _ Hk2). simpl.
    split; [|intros [= -> ->]; congruence].
    intros Hf. apply format_template_inj in Hf as [-> ->]; [|lia..]. f_equal.
    by eapply (wf_inj _ _ Hwf).
  - intros i e o p Hi Hp. destruct (Forall2_lookup_lr _ _ _ _ _ _ Hall Hi Hp) as (k & Hk & ->).
    unfold vault_get. apply (wf_entries _ _ Hwf). exists e, k. split; [done|].
    unfold format_placeholder. by rewrite Hst.
Qed.

Definition demo_ops : list (string * string) :=
  [("EMAIL", "alice@x.com"); ("SSN", "123-45-6789"); ("EMAIL", "bob@y.com"); ("EMAIL", "alice@x.com")].

Lemma vault_store_roundtrip_witness :
  let r := store_all (with_style LlmGuard) demo_ops in
  r.1 = ["[REDACTED_EMAIL_1]"; "[REDACTED_SSN_1]"; "[REDACTED_EMAIL_2]"; "[REDACTED_EMAIL_1]"] /\
  vault_get r.2 "[REDACTED_EMAIL_2]" = Some "bob@y.com".
Proof.
  split; [vm_compute; reflexivity|].
  refine (proj2 (vault_store_roundtrip LlmGuard demo_ops _ _ (surjective_pairing _) _) 2 "EMAIL" _ _ eq_refl _).
  - vm_compute. discriminate.
  - vm_compute. reflexivity.
Defined.
