(* ===== verification/Redact.v ===== *)
(** * The PII redactor ([src/proxy/redact.rs])

    Rules are (entity, regex) pairs applied in declaration order; matches are
    replaced by bare, indexed or vault-backed placeholders.  The regex engine
    is the class [RegexEngine]; the vault is the class [Vault]. *)

From S2P Require Import Prelude RustStr Json Regex Vault.

Module PlaceholderStyle.
Inductive t := Bare | Indexed | LlmGuard.
Definition parse_name (s : string) : t :=
  let l := to_ascii_lowercase s in
  if String.eqb l "indexed" then Indexed
  else if String.eqb l "llm_guard" || String.eqb l "llmguard" then LlmGuard
  else Bare.
End PlaceholderStyle.

Inductive PiiAction := Mask | Reject | Log.

Record ActionPartition := mkPartition {
  ap_mask : gset string;
  ap_reject : gset string;
  ap_log : gset string;
}.

(** [partition_by_action]: one pass over the known entities. *)
Definition partition_step (overrides : gmap string PiiAction) (default_action : PiiAction)
    (p : ActionPartition) (entity : string) : ActionPartition :=
  match default default_action (overrides !! entity) with
  | Mask => mkPartition ({[entity]} ∪ ap_mask p) (ap_reject p) (ap_log p)
  | Reject => mkPartition (ap_mask p) ({[entity]} ∪ ap_reject p) (ap_log p)
  | Log => mkPartition (ap_mask p) (ap_reject p) ({[entity]} ∪ ap_log p)
  end.
Definition partition_by_action (all_entities : gset string) (overrides : gmap string PiiAction)
    (default_action : PiiAction) : ActionPartition :=
  foldl (partition_step overrides default_action) (mkPartition ∅ ∅ ∅) (elements all_entities).

(** ** The per-text indexer of the non-vault styles *)

Record Indexer := mkIndexer {
  ix_style : PlaceholderStyle.t;
  ix_seen : gmap (string * string) Z;
  ix_next : gmap string Z;
}.
Definition indexer_new (st : PlaceholderStyle.t) : Indexer := mkIndexer st ∅ ∅.
Definition indexer_placeholder (ix : Indexer) (entity value : string) : string * Indexer :=
  let '(idx, ix') :=
    match ix_seen ix !! (entity, value) with
    | Some i => (i, ix)
    | None =>
        let assigned := u32_wrap (default 0%Z (ix_next ix !! entity) + 1) in
        (assigned, mkIndexer (ix_style ix) (<[(entity, value) := assigned]> (ix_seen ix))
                     (<[entity := assigned]> (ix_next ix)))
    end in
  (match ix_style ix' with
   | PlaceholderStyle.Indexed => "[" +:+ entity +:+ "_" +:+ show_Z idx +:+ "]"
   | PlaceholderStyle.LlmGuard => "[REDACTED_" +:+ entity +:+ "_" +:+ show_Z idx +:+ "]"
   | PlaceholderStyle.Bare => "[" +:+ entity +:+ "]"
   end, ix').

Section Redactor.
Context `{RegexEngine}.

Record RedactRule := mkRule {
  rr_entity : string;
  rr_placeholder : string;
  rr_regex : regex;
}.
Record Redactor := mkRedactor {
  rd_rules : list RedactRule;
  rd_style : PlaceholderStyle.t;
}.
Record RedactMatch := mkMatch {
  rm_entity : string;
  rm_start : nat;
  rm_end : nat;
  rm_matched_text : string;
}.

Definition compile (entity pattern : string) : result string RedactRule :=
  let? re := regex_build false pattern in
  Ok {| rr_entity := entity; rr_placeholder := "[" +:+ entity +:+ "]"; rr_regex := re |}.

(** One line of a [/pattern/<TAB>entity] file, at zero-based index [idx]. *)
Definition load_redactor_line `{Unicode} (rules : list RedactRule) (idx : nat) (raw_line : string)
    : list RedactRule :=
  let line := trim raw_line in
  if String.eqb line "" || starts_with "#" line then rules
  else
    let cols := split_byte tab line in
    match cols with
    | [] => rules
    | pattern_field :: rest =>
        match strip_prefix "/" pattern_field ≫= rsplit_once "/" with
        | None => rules
        | Some (stripped, _) =>
            if String.eqb stripped "" then rules
            else
              let entity_label := trim (default "" (head rest)) in
              let entity :=
                if String.eqb entity_label "" || (match parse_u32 entity_label with Some _ => true | None => false end)
                then "PII_" +:+ show_Z (Z.of_nat idx + 1)
                else str_to_uppercase entity_label in
              match compile entity stripped with
              | Ok rule => rules ++ [rule]
              | Err _ => rules
              end
        end
    end.
Fixpoint load_redactor_lines `{Unicode} (rules : list RedactRule) (idx : nat) (ls : list string)
    : list RedactRule :=
  match ls with
  | [] => rules
  | l :: ls' => load_redactor_lines (load_redactor_line rules idx l) (S idx) ls'
  end.
(** [read_file path] is [std::fs::read_to_string]. *)
Definition load_redactor_file `{Unicode} (read_file : string -> result string string)
    (path : string) (rules : list RedactRule) : result string (list RedactRule) :=
  let? content := read_file path in
  Ok (load_redactor_lines rules 0 (lines content)).

Fixpoint compile_all (rules : list RedactRule) (inline : list (string * string))
    : result string (list RedactRule) :=
  match inline with
  | [] => Ok rules
  | (entity, pattern) :: rest =>
      let? rule := compile entity pattern in compile_all (rules ++ [rule]) rest
  end.
Fixpoint load_all `{Unicode} (read_file : string -> result string string)
    (rules : list RedactRule) (paths : list string) : result string (list RedactRule) :=
  match paths with
  | [] => Ok rules
  | path :: rest =>
      let? rules' := load_redactor_file read_file path rules in load_all read_file rules' rest
  end.
Definition build_with_style `{Unicode} (read_file : string -> result string string)
    (inline : list (string * string)) (dict_paths : list string) (st : PlaceholderStyle.t)
    : result string Redactor :=
  let? rules := compile_all [] inline in
  let? rules' := load_all read_file rules dict_paths in
  Ok {| rd_rules := rules'; rd_style := st |}.

Definition contains_pii (r : Redactor) (text : string) : bool :=
  existsb (fun rule => is_match (rr_regex rule) text) (rd_rules r).
Definition contains_pii_in (r : Redactor) (text : string) (entities : gset string) : bool :=
  existsb (fun rule => bool_decide (rr_entity rule ∈ entities) && is_match (rr_regex rule) text) (rd_rules r).
Definition entity_names (r : Redactor) : gset string := list_to_set (map rr_entity (rd_rules r)).
Definition find_matches (r : Redactor) (text : string) : list RedactMatch :=
  concat (map (fun rule =>
    map (fun ab => mkMatch (rr_entity rule) ab.1 ab.2 (slice ab.1 ab.2 text))
        (find_iter (rr_regex rule) text)) (rd_rules r)).

(** Replace every match of one rule, right to left, asking [ph] for each
    placeholder in turn. *)
Definition collect_matches (re : regex) (out : string) : list (nat * nat * string) :=
  map (fun ab => (ab.1, ab.2, slice ab.1 ab.2 out)) (find_iter re out).
Fixpoint replace_each {S} (ph : S -> string -> string * S) (st : S) (out : string)
    (ms : list (nat * nat * string)) : string * S :=
  match ms with
  | [] => (out, st)
  | (start, end_, value) :: ms' =>
      let '(placeholder, st') := ph st value in
      replace_each ph st' (replace_range start end_ placeholder out) ms'
  end.
Definition redact_rule {S} (ph : S -> string -> string -> string * S) (st : S) (out : string)
    (rule : RedactRule) : string * S :=
  replace_each (fun st v => ph st (rr_entity rule) v) st out (rev (collect_matches (rr_regex rule) out)).
(** The rule loop, over the rules [keep] selects. *)
Definition redact_rules {S} (ph : S -> string -> string -> string * S) (keep : RedactRule -> bool)
    (st : S) (text : string) (rules : list RedactRule) : string * S :=
  foldl (fun os rule => if keep rule then redact_rule ph os.2 os.1 rule else os) (text, st) rules.
Definition redact_rules_bare (keep : RedactRule -> bool) (text : string) (rules : list RedactRule) : string :=
  foldl (fun out rule => if keep rule then replace_all (rr_regex rule) out (rr_placeholder rule) else out)
    text rules.

Definition in_set (entities : gset string) (rule : RedactRule) : bool :=
  bool_decide (rr_entity rule ∈ entities).

Definition redact_text_in (r : Redactor) (text : string) (entities : gset string) : string :=
  match rd_style r with
  | PlaceholderStyle.Bare => redact_rules_bare (in_set entities) text (rd_rules r)
  | st => (redact_rules indexer_placeholder (in_set entities) (indexer_new st) text (rd_rules r)).1
  end.
Definition redact_text_bare (r : Redactor) (text : string) : string :=
  redact_rules_bare (fun _ => true) text (rd_rules r).
Definition redact_text_indexed (r : Redactor) (text : string) : string :=
  (redact_rules indexer_placeholder (fun _ => true) (indexer_new (rd_style r)) text (rd_rules r)).1.
Definition redact_text (r : Redactor) (text : string) : string :=
  match rd_style r with
  | PlaceholderStyle.Bare => redact_text_bare r text
  | PlaceholderStyle.Indexed | PlaceholderStyle.LlmGuard => redact_text_indexed r text
  end.
Definition redact_text_with_vault `{Vault V} (r : Redactor) (text : string) (entities : gset string)
    (vault : V) : string * V :=
  redact_rules v_store (in_set entities) vault text (rd_rules r).

(** ** Request bodies *)

(** Rewrite one text; the flag records whether it changed. *)
Definition redact_str {S} (f : S -> string -> string * S) (st : S * bool) (v : value)
    : value * (S * bool) :=
  match as_str v with
  | Some text =>
      let '(redacted, s') := f st.1 text in
      if String.eqb redacted text then (v, (s', st.2)) else (Str redacted, (s', true))
  | None => (v, st)
  end.
(** [content]: a string, or an array of parts each with a [text]. *)
Definition walk_content {S} (f : S -> string -> string * S) (st : S * bool) (content : value)
    : value * (S * bool) :=
  match content with
  | Str _ => redact_str f st content
  | Arr _ => elems_mut (field_mut "text" (redact_str f)) st content
  | _ => (content, st)
  end.
Definition walk_messages {S} (f : S -> string -> string * S) (st : S * bool) (body : value)
    : value * (S * bool) :=
  field_mut "messages" (elems_mut (field_mut "content" (walk_content f))) st body.

Definition redact_messages_in (r : Redactor) (body : value) (entities : gset string) : value * bool :=
  let '(body', (_, changed)) :=
    walk_messages (fun _ t => (redact_text_in r t entities, tt)) (tt, false) body in (body', changed).
Definition redact_messages_with_vault `{Vault V} (r : Redactor) (body : value) (entities : gset string)
    (vault : V) : value * V * bool :=
  let '(body', (vault', changed)) :=
    walk_messages (fun v t => redact_text_with_vault r t entities v) (vault, false) body in
  (body', vault', changed).
Definition redact_messages (r : Redactor) (body : value) : value * bool :=
  let '(body', (_, changed)) := walk_messages (fun _ t => (redact_text r t, tt)) (tt, false) body in
  (body', changed).

End Redactor.

(** [default_inline_patterns]: the built-in entities, in precedence order. *)
Definition default_inline_patterns : list (string * string) :=
  [("EMAIL", "\b[A-Za-z0-9._%+\-]+@[A-Za-z0-9.\-]+\.[A-Za-z]{2,}\b");
   ("SSN", "\b\d{3}-\d{2}-\d{4}\b");
   ("CARD", "\b\d{4}[- ]?\d{4}[- ]?\d{4}[- ]?\d{4}\b");
   ("AWS_ACCESS_KEY_ID", "\bAKIA[0-9A-Z]{16}\b");
   ("GITHUB_PAT", "\bghp_[A-Za-z0-9]{36}\b");
   ("GITHUB_FINE_GRAINED_PAT", "\bgithub_pat_[A-Za-z0-9_]{82}\b");
   ("OPENAI_KEY", "\bsk-[A-Za-z0-9]{20,}\b");
   ("ANTHROPIC_KEY", "\bsk-ant-[A-Za-z0-9_\-]{80,}\b");
   ("STRIPE_KEY", "\b(?:sk|rk)_live_[A-Za-z0-9]{20,}\b");
   ("GOOGLE_API_KEY", "\bAIza[0-9A-Za-z_\-]{35}\b");
   ("JWT", "\beyJ[A-Za-z0-9_\-]+\.[A-Za-z0-9_\-]+\.[A-Za-z0-9_\-]+\b");
   ("SLACK_TOKEN", "\bxox[abpors]-[A-Za-z0-9-]{10,}\b");
   ("TOKEN", "\b[A-Za-z0-9_\-]{32,}\b")].

(** ** Lemmas *)

Lemma partition_fold overrides d l p e :
  let p' := foldl (partition_step overrides d) p l in
  let act := default d (overrides !! e) in
  (e ∈ ap_mask p' <-> e ∈ ap_mask p \/ (e ∈ l /\ act = Mask)) /\
  (e ∈ ap_reject p' <-> e ∈ ap_reject p \/ (e ∈ l /\ act = Reject)) /\
  (e ∈ ap_log p' <-> e ∈ ap_log p \/ (e ∈ l /\ act = Log)).
Proof.
  simpl. revert p. induction l as [|x l IH]; intros p; simpl; [set_solver|].
  destruct (IH (partition_step overrides d p x)) as (-> & -> & ->).
  unfold partition_step. destruct (decide (e = x)) as [->|Hne];
    destruct (default d (overrides !! x)) eqn:E; simpl; set_solver.
Qed.

Section RedactorLemmas.
Context `{RegexLaws}.

Lemma no_match_collect re s : is_match re s = false -> find_iter re s = [].
Proof.
  intros Hm. destruct (find_iter re s) eqn:E; [done|].
  assert (is_match re s = true) by (apply is_match_find; congruence). congruence.
Qed.

Lemma redact_rules_clean {S} (ph : S -> string -> string -> string * S) keep st text rules :
  existsb (fun r => keep r && is_match (rr_regex r) text) rules = false ->
  redact_rules ph keep st text rules = (text, st).
Proof.
  unfold redact_rules. induction rules as [|r rules IH]; simpl; [done|].
  rewrite orb_false_iff. intros [Hr Hrs]. destruct (keep r); simpl in Hr; [|by apply IH].
  unfold redact_rule, collect_matches. rewrite no_match_collect by done. by apply IH.
Qed.

Lemma redact_rules_bare_clean keep text rules :
  existsb (fun r => keep r && is_match (rr_regex r) text) rules = false ->
  redact_rules_bare keep text rules = text.
Proof.
  unfold redact_rules_bare. induction rules as [|r rules IH]; simpl; [done|].
  rewrite orb_false_iff. intros [Hr Hrs]. destruct (keep r); simpl in Hr; [|by apply IH].
  rewrite replace_all_nomatch by (by apply no_match_collect). by apply IH.
Qed.

(** Text with no match of a selected rule is left alone, in every style. *)
Lemma redact_text_in_clean r text ents :
  contains_pii_in r text ents = false -> redact_text_in r text ents = text.
Proof.
  intros Hc. unfold redact_text_in. destruct (rd_style r).
  - by apply redact_rules_bare_clean.
  - by rewrite redact_rules_clean.
  - by rewrite redact_rules_clean.
Qed.

Lemma redact_text_with_vault_clean `{Vault V} r text ents (v : V) :
  contains_pii_in r text ents = false -> redact_text_with_vault r text ents v = (text, v).
Proof. intros Hc. by apply redact_rules_clean. Qed.
End RedactorLemmas.

Section Walk.
Context {S : Type} (f : S -> string -> string * S).

(** Which texts of a body the walk visits, in order. *)
Definition content_texts (content : value) : list string :=
  match content with
  | Str s => [s]
  | Arr parts => omap (get_str "text") parts
  | _ => []
  end.
Definition message_texts (msg : value) : list string :=
  match get "content" msg with Some c => content_texts c | None => [] end.
Definition body_texts (body : value) : list string :=
  match get_arr "messages" body with Some msgs => concat (map message_texts msgs) | None => [] end.

Lemma redact_str_clean st v :
  (forall t, as_str v = Some t -> f st.1 t = (t, st.1)) -> redact_str f st v = (v, st).
Proof.
  unfold redact_str. destruct (as_str v) as [t|] eqn:E; [|done].
  intros Hf. rewrite (Hf t eq_refl), String.eqb_refl. by destruct st.
Qed.

Lemma walk_content_clean st c :
  (forall t, In t (content_texts c) -> f st.1 t = (t, st.1)) -> walk_content f st c = (c, st).
Proof.
  destruct c as [| | |s|parts|]; simpl; try done; intros Hf.
  - apply redact_str_clean. simpl. intros t [= <-]. apply Hf. by left.
  - change (elems_mut (field_mut "text" (redact_str f)) st (Arr parts) = (Arr parts, st)).
    apply elems_mut_id. intros l x [= <-] Hin. apply field_mut_id. intros y Hy.
    apply redact_str_clean. intros t Ht. apply Hf, list_elem_of_In, list_elem_of_omap.
    exists x. split; [by apply list_elem_of_In|]. unfold get_str. by rewrite Hy.
Qed.

(** A body none of whose texts the rewriting changes comes back as it was. *)
Lemma walk_messages_clean st body :
  (forall t, In t (body_texts body) -> f st.1 t = (t, st.1)) -> walk_messages f st body = (body, st).
Proof.
  intros Hf. apply field_mut_id. intros msgs Hm. apply elems_mut_id. intros l x Hl Hin.
  apply field_mut_id. intros c Hc. apply walk_content_clean. intros t Ht. apply Hf.
  unfold body_texts, get_arr. rewrite Hm. simpl. rewrite Hl.
  apply in_concat. exists (message_texts x). split; [by apply in_map|].
  unfold message_texts. by rewrite Hc.
Qed.

(** [h] rewrites exactly the texts that [texts] lists, in that order. *)
Definition visits (h : S * bool -> value -> value * (S * bool)) (texts : value -> list string) : Prop :=
  forall st x, texts (h st x).1 = (map_st f st.1 (texts x)).1 /\ (h st x).2.1 = (map_st f st.1 (texts x)).2.

Definition str_texts (v : value) : list string := match as_str v with Some t => [t] | None => [] end.
Definition field_texts (k : string) (texts : value -> list string) (v : value) : list string :=
  match get k v with Some x => texts x | None => [] end.
Definition elem_texts (texts : value -> list string) (v : value) : list string :=
  match v with Arr l => concat (map texts l) | _ => [] end.

Lemma visits_str : visits (redact_str f) str_texts.
Proof.
  intros st v. unfold redact_str, str_texts. destruct (as_str v) as [t|] eqn:E; [|simpl; by rewrite E].
  simpl. destruct (f st.1 t) as [t' s'] eqn:F. destruct (String.eqb_spec t' t) as [->|Hn]; simpl; by rewrite ?E.
Qed.
Lemma visits_field k h texts : visits h texts -> visits (field_mut k h) (field_texts k texts).
Proof.
  intros Hh st v. unfold field_texts. destruct (get k v) as [x|] eqn:E.
  - destruct (field_mut_get k h st v x E) as [-> ->]. apply Hh.
  - rewrite field_mut_absent by done. simpl. by rewrite E.
Qed.
Lemma visits_elems h texts : visits h texts -> visits (elems_mut h) (elem_texts texts).
Proof.
  intros Hh st v. destruct v as [| | | |l|]; simpl; try done.
  revert st. induction l as [|x l IH]; intros st; simpl; [done|].
  rewrite map_st_app. destruct (Hh st x) as [H1 H2]. destruct (h st x) as [y st1]. simpl in H1, H2.
  specialize (IH st1). destruct (map_st h st1 l) as [l' st2]. simpl in *.
  destruct (map_st f st.1 (texts x)) as [t1 s1]. simpl in *. subst s1.
  destruct (map_st f st1.1 (concat (map texts l))) as [t2 s2]. simpl in *.
  destruct IH as [IH1 IH2]. by rewrite H1, IH1.
Qed.
Lemma content_texts_elems parts :
  content_texts (Arr parts) = elem_texts (field_texts "text" str_texts) (Arr parts).
Proof.
  cbn [content_texts elem_texts]. induction parts as [|p parts IH]; [done|].
  cbn [omap list_omap map concat]. rewrite <-IH. unfold field_texts, str_texts.
  change (get_str "text" p) with (get "text" p ≫= as_str).
  destruct (get "text" p) as [x|]; [|done]. simpl. by destruct (as_str x).
Qed.
Lemma visits_content : visits (walk_content f) content_texts.
Proof.
  intros st c. destruct c as [| | |s|parts|]; try done.
  - pose proof (visits_str st (Str s)) as [H1 H2]. change (walk_content f st (Str s)) with (redact_str f st (Str s)).
    change (content_texts (Str s)) with (str_texts (Str s)). rewrite <-H1, <-H2. split; [|done].
    unfold redact_str. simpl. destruct (f st.1 s) as [t' s']. by destruct (String.eqb t' s).
  - change (walk_content f st (Arr parts)) with (elems_mut (field_mut "text" (redact_str f)) st (Arr parts)).
    rewrite content_texts_elems. pose proof (visits_elems _ _ (visits_field "text" _ _ visits_str) st (Arr parts)) as [H1 H2].
    rewrite <-H1, <-H2. split; [|done]. simpl. destruct (map_st _ st parts) as [l' st']. apply content_texts_elems.
Qed.
Lemma body_texts_levels body :
  body_texts body = field_texts "messages" (elem_texts (field_texts "content" content_texts)) body.
Proof.
  unfold body_texts, field_texts, get_arr. destruct (get "messages" body) as [x|]; simpl; [|done]. by destruct x.
Qed.
(** Masking a body is masking its texts in order, one state threaded through. *)
Lemma visits_messages : visits (walk_messages f) body_texts.
Proof.
  intros st body. rewrite !body_texts_levels.
  apply visits_field, visits_elems, visits_field, visits_content.
Qed.

Lemma map_st_Forall2 {A B} (g : S -> A -> B * S) (R : A -> B -> Prop) (st : S) l :
  (forall st x, R x (g st x).1) -> Forall2 R l (map_st g st l).1.
Proof.
  intros Hg. revert st. induction l as [|x l IH]; intros st; simpl; [constructor|].
  specialize (Hg st x). destruct (g st x) as [y st1]. specialize (IH st1).
  destruct (map_st g st1 l). by constructor.
Qed.
End Walk.

(** ** Properties *)

(** [partition_by_action] sorts the known entities by their action: an entity
    is in a bucket exactly when it is known and its action, the per-entity
    override or else the default, is that bucket's.  So the buckets cover the
    known entities, are pairwise disjoint, and hold nothing else. *)
Theorem partition_by_action_spec all overrides d e :
  let p := partition_by_action all overrides d in
  let act := default d (overrides !! e) in
  (e ∈ ap_mask p <-> e ∈ all /\ act = Mask) /\
  (e ∈ ap_reject p <-> e ∈ all /\ act = Reject) /\
  (e ∈ ap_log p <-> e ∈ all /\ act = Log).
Proof.
  unfold partition_by_action.
  pose proof (partition_fold overrides d (elements all) (mkPartition ∅ ∅ ∅) e) as H.
  simpl in *. destruct H as (-> & -> & ->). rewrite elem_of_elements. set_solver.
Qed.

(** Redacting a request body touches only message text: fields other than
    [messages] keep their value, the messages stay the same in number and
    order, each keeps every field but its [content]; and when no message text
    contains an entity of the set, the body is unchanged and the call reports
    [false]. *)
Theorem redact_messages_in_frame `{RegexLaws} r body ents :
  let res := redact_messages_in r body ents in
  (forall k, k <> "messages" -> get k res.1 = get k body) /\
  (forall msgs, get_arr "messages" body = Some msgs ->
     exists msgs', get_arr "messages" res.1 = Some msgs' /\
       Forall2 (fun m m' => forall k, k <> "content" -> get k m' = get k m) msgs msgs') /\
  ((forall t, In t (body_texts body) -> contains_pii_in r t ents = false) -> res = (body, false)).
Proof.
  unfold redact_messages_in. set (f := fun (_ : unit) t => (redact_text_in r t ents, tt)).
  destruct (walk_messages f (tt, false) body) as [body' [u ch]] eqn:E. simpl.
  assert (Hb : body' = (walk_messages f (tt, false) body).1) by (by rewrite E).
  split_and!.
  - intros k Hk. rewrite Hb. by apply field_mut_get_ne.
  - intros msgs. unfold get_arr. destruct (get "messages" body) as [mv|] eqn:Hm; [|done]. simpl.
    destruct mv as [| | | |l|] eqn:Hmv; try done. intros [= <-].
    destruct (field_mut_get "messages" (elems_mut (field_mut "content" (walk_content f)))
                (tt, false) body (Arr l)) as [Hg _]; [done|].
    rewrite Hb. unfold walk_messages. rewrite Hg. simpl.
    pose proof (map_st_Forall2 (field_mut "content" (walk_content f))
      (fun m m' => forall k, k <> "content" -> get k m' = get k m) (tt, false) l) as HF.
    destruct (map_st _ (tt, false) l) as [l' st'] eqn:El. simpl in *.
    exists l'. split; [done|]. apply HF. intros st x k Hk. by apply field_mut_get_ne.
  - intros Hclean. rewrite walk_messages_clean in E; [by injection E as <- <- <-|].
    intros t Ht. unfold f. by rewrite redact_text_in_clean by auto.
Qed.

(** A rule set over the literal engine, and two bodies, for concrete runs. *)
Definition demo_redactor : @Redactor literal_engine :=
  {| rd_rules := [{| rr_entity := "SSN"; rr_placeholder := "[SSN]"; rr_regex := "123-45-6789" : @regex literal_engine |}];
     rd_style := PlaceholderStyle.Bare |}.
Definition demo_clean_body : value :=
  obj [("model", Str "m"); ("messages", Arr [obj [("role", Str "user"); ("content", Str "hello")]])].

Lemma redact_messages_in_frame_witness :
  redact_messages_in demo_redactor demo_clean_body {["SSN"]} = (demo_clean_body, false).
Proof.
  refine (proj2 (proj2 (@redact_messages_in_frame literal_engine literal_laws
    demo_redactor demo_clean_body {["SSN"]})) _).
  intros t Ht. change (In t ["hello"]) in Ht. destruct Ht as [<-|[]]. reflexivity.
Defined.
