(* ===== verification/Eval.v ===== *)
(** * The recognizer evaluation tool ([src/bin/nanoguard-eval.rs])

    A corpus of annotated texts is scored against the redactor's matches: true
    and false positives and misses per entity, a report, and an exit status for
    continuous integration.  Ratios are IEEE 754 doubles. *)

From Stdlib Require Import SpecFloat.
From S2P Require Import Prelude RustStr Regex Redact.

(** ** Doubles *)

(** [as f64] of an unsigned integer, and the operations used. *)
Definition f64 : Type := spec_float.
Definition f64_of (n : Z) : f64 := binary_normalize 53 1024 n 0 false.
Definition f64_add (x y : f64) : f64 := SFadd 53 1024 x y.
Definition f64_mul (x y : f64) : f64 := SFmul 53 1024 x y.
Definition f64_div (x y : f64) : f64 := SFdiv 53 1024 x y.
Definition f64_eqb (x y : f64) : bool := SFeqb x y.

(** ** Data *)

Record Annotation := mkAnnotation { an_entity : string; an_start : nat; an_end : nat }.
Record GoldRecord := mkGold { gr_id : option string; gr_text : string; gr_annotations : list Annotation }.
Inductive MatchMode := Strict | Lenient.
Definition mode_parse_name (s : string) : MatchMode := if String.eqb s "strict" then Strict else Lenient.
Definition mode_name (m : MatchMode) : string := match m with Strict => "strict" | Lenient => "lenient" end.

Record EntityCounts := mkCounts { ec_tp : Z; ec_fp : Z; ec_fn : Z }.
Definition no_counts : EntityCounts := mkCounts 0 0 0.
Definition precision (c : EntityCounts) : f64 :=
  let denom := (ec_tp c + ec_fp c)%Z in if Z.eqb denom 0 then f64_of 0 else f64_div (f64_of (ec_tp c)) (f64_of denom).
Definition recall (c : EntityCounts) : f64 :=
  let denom := (ec_tp c + ec_fn c)%Z in if Z.eqb denom 0 then f64_of 0 else f64_div (f64_of (ec_tp c)) (f64_of denom).
Definition f1 (c : EntityCounts) : f64 :=
  let p := precision c in
  let r := recall c in
  if f64_eqb (f64_add p r) (f64_of 0) then f64_of 0
  else f64_div (f64_mul (f64_mul (f64_of 2) p) r) (f64_add p r).

Record MatchExample := mkMatchExample {
  me_id : option string; me_text : string; me_entity : string; me_match : string; me_start : nat; me_end : nat }.
Record MissExample := mkMissExample {
  ms_id : option string; ms_text : string; ms_entity : string; ms_expected : string; ms_start : nat; ms_end : nat }.

(** ** Arguments *)

Record EvalArgs := mkEvalArgs {
  ea_gold : string; ea_dicts : list string; ea_json_out : option string; ea_match_mode : MatchMode; ea_max_examples : nat }.
Definition args_default : EvalArgs := mkEvalArgs "" [] None Lenient 5.
Inductive ArgResult := Parsed (a : EvalArgs) | Help | ArgError (message : string).
Fixpoint parse_args (args : list string) (a : EvalArgs) : ArgResult :=
  match args with
  | [] => if String.eqb (ea_gold a) "" then ArgError "--gold <path> is required" else Parsed a
  | x :: rest =>
      if String.eqb x "--gold" then
        match rest with
        | v :: rest' => parse_args rest' (mkEvalArgs v (ea_dicts a) (ea_json_out a) (ea_match_mode a) (ea_max_examples a))
        | [] => ArgError "--gold requires a path"
        end
      else if String.eqb x "--dict" then
        match rest with
        | v :: rest' => parse_args rest' (mkEvalArgs (ea_gold a) (ea_dicts a ++ [v]) (ea_json_out a) (ea_match_mode a) (ea_max_examples a))
        | [] => ArgError "--dict requires a path"
        end
      else if String.eqb x "--json" then
        match rest with
        | v :: rest' => parse_args rest' (mkEvalArgs (ea_gold a) (ea_dicts a) (Some v) (ea_match_mode a) (ea_max_examples a))
        | [] => ArgError "--json requires a path"
        end
      else if String.eqb x "--match" then
        match rest with
        | v :: rest' => parse_args rest' (mkEvalArgs (ea_gold a) (ea_dicts a) (ea_json_out a) (mode_parse_name v) (ea_max_examples a))
        | [] => ArgError "--match requires strict|lenient"
        end
      else if String.eqb x "--max-examples" then
        match rest with
        | v :: rest' =>
            match parse_int 0 u64_max v with
            | Ok n => parse_args rest' (mkEvalArgs (ea_gold a) (ea_dicts a) (ea_json_out a) (ea_match_mode a) (Z.to_nat n))
            | Err _ => ArgError "--max-examples is not a number"
            end
        | [] => ArgError "--max-examples requires a number"
        end
      else if String.eqb x "-h" || String.eqb x "--help" then Help
      else ArgError ("unknown argument: " +:+ x)
  end.

(** The corpus: one record per line that is not blank. *)
Section Corpus.
Context `{Unicode} (record_of : string -> result string GoldRecord).
Fixpoint load_lines (i : nat) (ls : list string) : result string (list GoldRecord) :=
  match ls with
  | [] => Ok []
  | l :: ls' =>
      if negb (is_utf8 l) then Err ("reading corpus line " +:+ show_Z (Z.of_nat i + 1))
      else if String.eqb (trim l) "" then load_lines (S i) ls'
      else match record_of l with
      | Err _ => Err ("parsing JSONL line " +:+ show_Z (Z.of_nat i + 1))
      | Ok r => let? rs := load_lines (S i) ls' in Ok (r :: rs)
      end
  end.
Definition load_corpus (content : string) : result string (list GoldRecord) := load_lines 0 (lines content).
End Corpus.

(** ** Scoring *)

Section Score.
Context `{RegexEngine}.

Definition matches_overlap (detected : RedactMatch) (gold : Annotation) (mode : MatchMode) : bool :=
  if negb (String.eqb (rm_entity detected) (an_entity gold)) then false
  else match mode with
  | Strict => Nat.eqb (rm_start detected) (an_start gold) && Nat.eqb (rm_end detected) (an_end gold)
  | Lenient => Nat.ltb (rm_start detected) (an_end gold) && Nat.ltb (an_start gold) (rm_end detected)
  end.

(** The running totals. *)
Record Tally := mkTally {
  ta_totals : EntityCounts;
  ta_by_entity : gmap string EntityCounts;
  ta_fps : list MatchExample;
  ta_fns : list MissExample;
  ta_annotations : nat;
}.
Definition no_tally : Tally := mkTally no_counts ∅ [] [] 0.
Definition add_tp (c : EntityCounts) : EntityCounts := mkCounts (ec_tp c + 1) (ec_fp c) (ec_fn c).
Definition add_fp (c : EntityCounts) : EntityCounts := mkCounts (ec_tp c) (ec_fp c + 1) (ec_fn c).
Definition add_fn (c : EntityCounts) : EntityCounts := mkCounts (ec_tp c) (ec_fp c) (ec_fn c + 1).
(** [entry(entity).or_default()] and the total, bumped. *)
Definition tally_bump (add : EntityCounts -> EntityCounts) (entity : string) (t : Tally) : Tally :=
  mkTally (add (ta_totals t)) (<[entity := add (default no_counts (ta_by_entity t !! entity))]> (ta_by_entity t))
    (ta_fps t) (ta_fns t) (ta_annotations t).

(** The first annotation not yet matched that the detection hits. *)
Fixpoint claim (mode : MatchMode) (d : RedactMatch) (golds : list (Annotation * bool))
    : option (Annotation * list (Annotation * bool)) :=
  match golds with
  | [] => None
  | (g, hit) :: rest =>
      if negb hit && matches_overlap d g mode then Some (g, (g, true) :: rest)
      else match claim mode d rest with Some (g', rest') => Some (g', (g, hit) :: rest') | None => None end
  end.
Fixpoint hits (mode : MatchMode) (ds : list RedactMatch) (golds : list (Annotation * bool)) (t : Tally)
    : list (RedactMatch * bool) * list (Annotation * bool) * Tally :=
  match ds with
  | [] => ([], golds, t)
  | d :: ds' =>
      match claim mode d golds with
      | Some (g, golds') => let '(flags, gs, t') := hits mode ds' golds' (tally_bump add_tp (an_entity g) t) in ((d, true) :: flags, gs, t')
      | None => let '(flags, gs, t') := hits mode ds' golds t in ((d, false) :: flags, gs, t')
      end
  end.
Definition add_false_positive (max : nat) (rec : GoldRecord) (t : Tally) (x : RedactMatch * bool) : Tally :=
  let '(d, hit) := x in
  if hit then t
  else
    let t1 := tally_bump add_fp (rm_entity d) t in
    if Nat.ltb (length (ta_fps t1)) max
    then mkTally (ta_totals t1) (ta_by_entity t1)
           (ta_fps t1 ++ [mkMatchExample (gr_id rec) (gr_text rec) (rm_entity d) (rm_matched_text d) (rm_start d) (rm_end d)])
           (ta_fns t1) (ta_annotations t1)
    else t1.
(** The byte at a place inside the text starts a character. *)
Definition is_char_boundary (s : string) (i : nat) : bool :=
  Nat.eqb i 0 || match String.get i s with
                 | Some c => negb ((128 <=? bval c) && (bval c <? 192))%N
                 | None => Nat.eqb i (String.length s)
                 end.
(** [text.get(start..end)] *)
Definition get_range (text : string) (a b : nat) : option string :=
  if Nat.leb a b && Nat.leb b (String.length text) && is_char_boundary text a && is_char_boundary text b
  then Some (slice a b text) else None.
Definition add_miss (max : nat) (rec : GoldRecord) (t : Tally) (x : Annotation * bool) : Tally :=
  let '(g, hit) := x in
  if hit then t
  else
    let t1 := tally_bump add_fn (an_entity g) t in
    if Nat.ltb (length (ta_fns t1)) max
    then mkTally (ta_totals t1) (ta_by_entity t1) (ta_fps t1)
           (ta_fns t1 ++ [mkMissExample (gr_id rec) (gr_text rec) (an_entity g)
                            (default "?" (get_range (gr_text rec) (an_start g) (an_end g))) (an_start g) (an_end g)])
           (ta_annotations t1)
    else t1.
Definition score_record (redactor : Redactor) (mode : MatchMode) (max : nat) (t : Tally) (rec : GoldRecord) : Tally :=
  let t0 := mkTally (ta_totals t) (ta_by_entity t) (ta_fps t) (ta_fns t) (ta_annotations t + length (gr_annotations rec)) in
  let '(flags, golds, t1) := hits mode (find_matches redactor (gr_text rec)) (map (fun g => (g, false)) (gr_annotations rec)) t0 in
  foldl (add_miss max rec) (foldl (add_false_positive max rec) t1 flags) golds.
Definition score (redactor : Redactor) (mode : MatchMode) (max : nat) (corpus : list GoldRecord) : Tally :=
  foldl (score_record redactor mode max) no_tally corpus.

(** The exit status: 2 when an annotated entity has an F1 of zero. *)
Definition exit_status (t : Tally) : Z :=
  if existsb (fun c => (0 <? ec_tp c + ec_fn c)%Z && f64_eqb (f1 c) (f64_of 0)) (map snd (map_to_list (ta_by_entity t))) then 2 else 0.

(** The report shows the first eighty bytes of a text; slicing inside a
    character panics. *)
Definition eval_truncate (s : string) (n : nat) : option string :=
  if Nat.leb (String.length s) n then Some s
  else if is_char_boundary s n then Some (stake n s +:+ "…") else None.
Definition fp_line (debug : string -> string) (e : MatchExample) : option string :=
  text ← eval_truncate (me_text e) 80;
  Some ("  [" +:+ default "?" (me_id e) +:+ "] " +:+ debug text +:+ " matched as " +:+ me_entity e +:+ " → " +:+
        one (byte 34) +:+ me_match e +:+ one (byte 34)).
Definition fn_line (debug : string -> string) (e : MissExample) : string :=
  "  [" +:+ default "?" (ms_id e) +:+ "] missed " +:+ ms_entity e +:+ " (" +:+ show_Z (Z.of_nat (ms_start e)) +:+ ".." +:+
  show_Z (Z.of_nat (ms_end e)) +:+ "): " +:+ debug (ms_expected e).
(** The examples of the report, or the panic. *)
Definition print_examples (debug : string -> string) (t : Tally) : option (list string) :=
  fps ← mapM (fp_line debug) (ta_fps t);
  Some ((if Nat.eqb (length fps) 0 then [] else "" :: "Top false positives:" :: fps) ++
        (if Nat.eqb (length (ta_fns t)) 0 then [] else "" :: "Top false negatives:" :: map (fn_line debug) (ta_fns t))).
End Score.

(** ** Properties *)

Section EvalProps.
Context `{RegexEngine}.

(** The counts of an entity, and what a tally holds of it. *)
Definition counts_of (e : string) (t : Tally) : EntityCounts := default no_counts (ta_by_entity t !! e).
Definition tp_of (o : option string) (t : Tally) : Z := ec_tp (match o with Some e => counts_of e t | None => ta_totals t end).
Definition fp_of (o : option string) (t : Tally) : Z := ec_fp (match o with Some e => counts_of e t | None => ta_totals t end).
Definition fn_of (o : option string) (t : Tally) : Z := ec_fn (match o with Some e => counts_of e t | None => ta_totals t end).
(** Whether an item counts: those of an entity, or all. *)
Definition in_scope (o : option string) (entity : string) : bool := match o with Some e => String.eqb entity e | None => true end.
Definition b2z (b : bool) : Z := if b then 1 else 0.

Lemma bump_counts add o entity t (f : EntityCounts -> Z) k :
  (forall c, f (add c) = (f c + k)%Z) ->
  f (match o with Some e => counts_of e (tally_bump add entity t) | None => ta_totals (tally_bump add entity t) end) =
  (f (match o with Some e => counts_of e t | None => ta_totals t end) + k * b2z (in_scope o entity))%Z.
Proof.
  intros Hf. destruct o as [e|]; simpl; [|rewrite Hf; lia]. unfold counts_of. simpl.
  destruct (String.eqb_spec entity e) as [->|Hne]; simpl; [rewrite lookup_insert_eq|rewrite lookup_insert_ne by done]; simpl;
    [rewrite Hf|]; lia.
Qed.

(** How many items are in scope, and how many of them were not matched. *)
Definition total {A} (entity : A -> string) (o : option string) (l : list A) : Z :=
  foldr (fun x n => (b2z (in_scope o (entity x)) + n)%Z) 0%Z l.
Definition missed {A} (entity : A -> string) (o : option string) (l : list (A * bool)) : Z :=
  foldr (fun x n => (b2z (negb x.2 && in_scope o (entity x.1)) + n)%Z) 0%Z l.

Lemma missed_fresh {A} (entity : A -> string) o l : missed entity o (map (fun x => (x, false)) l) = total entity o l.
Proof. induction l as [|x l IH]; simpl; [done|]. by rewrite IH. Qed.

Lemma claim_spec mode d golds g golds' :
  claim mode d golds = Some (g, golds') ->
  an_entity g = rm_entity d /\ map fst golds' = map fst golds /\
  (forall o, missed an_entity o golds' = missed an_entity o golds - b2z (in_scope o (an_entity g)))%Z /\
  (forall x, In (x, false) golds' -> In (x, false) golds).
Proof.
  revert golds'. induction golds as [|[g0 hit] golds IH]; simpl; [done|]. intros golds'.
  destruct (negb hit && matches_overlap d g0 mode) eqn:E.
  - intros [= <- <-]. apply andb_prop in E as [Eh E]. apply negb_true_iff in Eh as ->. unfold matches_overlap in E.
    destruct (String.eqb_spec (rm_entity d) (an_entity g0)) as [He|]; [|done]. split; [done|]. split; [done|].
    split; [intros o; simpl; lia|]. intros x [?|?]; [congruence|by right].
  - destruct (claim mode d golds) as [[g' rest']|]; [|done]. intros [= <- <-].
    destruct (IH rest' eq_refl) as (He & Hm & Hs & Hi). split; [done|]. split; [simpl; by rewrite Hm|].
    split; [intros o; simpl; rewrite Hs; lia|]. intros x [Hx|Hx]; [by left|right; auto].
Qed.
Lemma claim_None mode d golds x : claim mode d golds = None -> In (x, false) golds -> matches_overlap d x mode = false.
Proof.
  induction golds as [|[g hit] golds IH]; simpl; [done|]. destruct (negb hit && matches_overlap d g mode) eqn:E; [done|].
  destruct (claim mode d golds) as [[]|]; [done|]. intros _ [[= -> ->]|Hx]; [done|]. by apply IH.
Qed.

(** What scoring the detections of a record does. *)
Record scored (mode : MatchMode) (ds : list RedactMatch) (golds : list (Annotation * bool)) (t : Tally)
    (flags : list (RedactMatch * bool)) (gs : list (Annotation * bool)) (t' : Tally) : Prop := {
  sc_flags : map fst flags = ds;
  sc_golds : map fst gs = map fst golds;
  sc_detected o : (tp_of o t' + missed rm_entity o flags = tp_of o t + total rm_entity o ds)%Z;
  sc_annotated o : (tp_of o t' + missed an_entity o gs = tp_of o t + missed an_entity o golds)%Z;
  sc_rest o : fp_of o t' = fp_of o t /\ fn_of o t' = fn_of o t;
  sc_examples : ta_fps t' = ta_fps t /\ ta_fns t' = ta_fns t /\ ta_annotations t' = ta_annotations t;
  sc_still x : In (x, false) gs -> In (x, false) golds;
  sc_maximal d g : In (d, false) flags -> In (g, false) gs -> matches_overlap d g mode = false;
}.

Lemma hits_scored mode ds golds t flags gs t' : hits mode ds golds t = (flags, gs, t') -> scored mode ds golds t flags gs t'.
Proof.
  revert golds t flags gs t'. induction ds as [|d ds IH]; simpl; intros golds t flags gs t'.
  { intros [= <- <- <-]. by split; try (intros; simpl; lia). }
  destruct (claim mode d golds) as [[g golds']|] eqn:Ec.
  - destruct (hits mode ds golds' _) as [[fl gs1] t1] eqn:Eh. intros [= <- <- <-]. apply IH in Eh as [H1 H2 H3 H4 H5 H6 H7 H8].
    apply claim_spec in Ec as (He & Hm & Hs & Hi).
    assert (Ht : forall o, tp_of o (tally_bump add_tp (an_entity g) t) = (tp_of o t + b2z (in_scope o (an_entity g)))%Z)
      by (intros o; unfold tp_of; rewrite (bump_counts add_tp o _ t ec_tp 1); [lia|done]).
    split; simpl.
    + by rewrite H1.
    + by rewrite H2, Hm.
    + intros o. specialize (H3 o). rewrite Ht, He in H3. lia.
    + intros o. specialize (H4 o). rewrite Ht, Hs in H4. lia.
    + intros o. destruct (H5 o) as [-> ->]. unfold fp_of, fn_of.
      rewrite (bump_counts add_tp o _ t ec_fp 0), (bump_counts add_tp o _ t ec_fn 0); [lia|intros c; simpl; lia..].
    + done.
    + auto.
    + intros d0 g0 [?|Hd] Hg; [congruence|]. by apply H8.
  - destruct (hits mode ds golds t) as [[fl gs1] t1] eqn:Eh. intros [= <- <- <-]. apply IH in Eh as [H1 H2 H3 H4 H5 H6 H7 H8].
    split; simpl; try done.
    + by rewrite H1.
    + intros o. specialize (H3 o). lia.
    + intros d0 g0 [[= <-]|Hd] Hg; [|by apply H8]. apply (claim_None mode d golds); auto.
Qed.

(** Recording what was not matched: [add] counts it, [keep] its example. *)
Lemma fold_fps max rec flags t :
  let t' := foldl (add_false_positive max rec) t flags in
  (forall o, tp_of o t' = tp_of o t /\ fn_of o t' = fn_of o t /\ fp_of o t' = fp_of o t + missed rm_entity o flags)%Z /\
  ta_fns t' = ta_fns t /\ ta_annotations t' = ta_annotations t /\ (length (ta_fps t) <= max -> length (ta_fps t') <= max).
Proof.
  revert t. induction flags as [|[d hit] flags IH]; intros t; simpl; [split; [intros o; lia|done]|].
  destruct hit; simpl; [apply IH|]. set (t1 := if Nat.ltb _ _ then _ else _).
  assert (H1 : (forall o, tp_of o t1 = tp_of o t /\ fn_of o t1 = fn_of o t /\
      fp_of o t1 = fp_of o t + b2z (in_scope o (rm_entity d)))%Z /\
    ta_fns t1 = ta_fns t /\ ta_annotations t1 = ta_annotations t /\ (length (ta_fps t) <= max -> length (ta_fps t1) <= max)).
  { split; [|unfold t1; destruct (Nat.ltb_spec (length (ta_fps t)) max); simpl; rewrite ?length_app; simpl; repeat split; lia].
    intros o. assert (Hc : forall f, f (match o with Some e => counts_of e t1 | None => ta_totals t1 end) =
      f (match o with Some e => counts_of e (tally_bump add_fp (rm_entity d) t) | None => ta_totals (tally_bump add_fp (rm_entity d) t) end) :> Z)
      by (intros f; unfold t1; by destruct (Nat.ltb _ _)).
    unfold tp_of, fn_of, fp_of. rewrite !Hc, (bump_counts add_fp o _ t ec_tp 0), (bump_counts add_fp o _ t ec_fn 0),
      (bump_counts add_fp o _ t ec_fp 1); [lia|intros c; simpl; lia..]. }
  clearbody t1. destruct H1 as (Ho & Hn & Ha & Hl). destruct (IH t1) as (Ho' & Hn' & Ha' & Hl').
  split; [|split; [congruence|split; [congruence|auto]]].
  intros o. destruct (Ho o) as (E1 & E2 & E3), (Ho' o) as (E4 & E5 & E6). lia.
Qed.

Lemma fold_fns max rec gs t :
  let t' := foldl (add_miss max rec) t gs in
  (forall o, tp_of o t' = tp_of o t /\ fp_of o t' = fp_of o t /\ fn_of o t' = fn_of o t + missed an_entity o gs)%Z /\
  ta_fps t' = ta_fps t /\ ta_annotations t' = ta_annotations t /\ (length (ta_fns t) <= max -> length (ta_fns t') <= max).
Proof.
  revert t. induction gs as [|[g hit] gs IH]; intros t; simpl; [split; [intros o; lia|done]|].
  destruct hit; simpl; [apply IH|]. set (t1 := if Nat.ltb _ _ then _ else _).
  assert (H1 : (forall o, tp_of o t1 = tp_of o t /\ fp_of o t1 = fp_of o t /\
      fn_of o t1 = fn_of o t + b2z (in_scope o (an_entity g)))%Z /\
    ta_fps t1 = ta_fps t /\ ta_annotations t1 = ta_annotations t /\ (length (ta_fns t) <= max -> length (ta_fns t1) <= max)).
  { split; [|unfold t1; destruct (Nat.ltb_spec (length (ta_fns t)) max); simpl; rewrite ?length_app; simpl; repeat split; lia].
    intros o. assert (Hc : forall f, f (match o with Some e => counts_of e t1 | None => ta_totals t1 end) =
      f (match o with Some e => counts_of e (tally_bump add_fn (an_entity g) t) | None => ta_totals (tally_bump add_fn (an_entity g) t) end) :> Z)
      by (intros f; unfold t1; by destruct (Nat.ltb _ _)).
    unfold tp_of, fn_of, fp_of. rewrite !Hc, (bump_counts add_fn o _ t ec_tp 0), (bump_counts add_fn o _ t ec_fp 0),
      (bump_counts add_fn o _ t ec_fn 1); [lia|intros c; simpl; lia..]. }
  clearbody t1. destruct H1 as (Ho & Hn & Ha & Hl). destruct (IH t1) as (Ho' & Hn' & Ha' & Hl').
  split; [|split; [congruence|split; [congruence|auto]]].
  intros o. destruct (Ho o) as (E1 & E2 & E3), (Ho' o) as (E4 & E5 & E6). lia.
Qed.

(** What the corpus holds. *)
Definition detections (redactor : Redactor) (o : option string) (corpus : list GoldRecord) : Z :=
  foldr (fun rec n => (total rm_entity o (find_matches redactor (gr_text rec)) + n)%Z) 0%Z corpus.
Definition annotations (o : option string) (corpus : list GoldRecord) : Z :=
  foldr (fun rec n => (total an_entity o (gr_annotations rec) + n)%Z) 0%Z corpus.

Lemma score_fold redactor mode max corpus t :
  length (ta_fps t) <= max -> length (ta_fns t) <= max ->
  let t' := foldl (score_record redactor mode max) t corpus in
  (forall o, tp_of o t' + fp_of o t' = tp_of o t + fp_of o t + detections redactor o corpus /\
             tp_of o t' + fn_of o t' = tp_of o t + fn_of o t + annotations o corpus)%Z /\
  Z.of_nat (ta_annotations t') = (Z.of_nat (ta_annotations t) + annotations None corpus)%Z /\
  length (ta_fps t') <= max /\ length (ta_fns t') <= max.
Proof.
  revert t. induction corpus as [|rec corpus IH]; intros t Hp Hn; simpl; [split; [intros o; lia|lia]|].
  assert (Hlen : forall l, total an_entity None l = Z.of_nat (length l)) by (unfold total; clear; induction l as [|x l IHl]; simpl in *; lia).
  set (t1 := score_record redactor mode max t rec).
  assert (H1 : (forall o, tp_of o t1 + fp_of o t1 = tp_of o t + fp_of o t + total rm_entity o (find_matches redactor (gr_text rec)) /\
      tp_of o t1 + fn_of o t1 = tp_of o t + fn_of o t + total an_entity o (gr_annotations rec))%Z /\
    ta_annotations t1 = ta_annotations t + length (gr_annotations rec) /\ length (ta_fps t1) <= max /\ length (ta_fns t1) <= max).
  { unfold t1, score_record. set (t0 := mkTally _ _ _ _ _). destruct (hits _ _ _ _) as [[flags gs] t2] eqn:Eh. apply hits_scored in Eh as [_ _ H3 H4 H5 (E1 & E2 & E3) _ _].
    destruct (fold_fps max rec flags t2) as (Fo & F1 & F2 & F3). destruct (fold_fns max rec gs (foldl (add_false_positive max rec) t2 flags)) as (Go & G1 & G2 & G3).
    split.
    - intros o. specialize (H3 o). specialize (H4 o). destruct (H5 o) as [A1 A2], (Fo o) as (B1 & B2 & B3), (Go o) as (C1 & C2 & C3).
      rewrite missed_fresh in H4.
      assert (D : tp_of o t0 = tp_of o t /\ fp_of o t0 = fp_of o t /\ fn_of o t0 = fn_of o t) by (by destruct o). lia.
    - rewrite G2, F2, E3. split; [done|]. rewrite G1. split; [apply F3; by rewrite E1|]. apply G3. by rewrite F1, E2. }
  clearbody t1. destruct H1 as (Ho & Ha & Hp1 & Hn1). destruct (IH t1 Hp1 Hn1) as (Ho' & Ha' & Hl').
  split; [|split; [rewrite Ha', Ha, Hlen; lia|done]]. intros o. destruct (Ho o), (Ho' o). lia.
Qed.

(** C40: The report accounts for everything.  For each entity and in total, true and
    false positives together are exactly the redactor's detections, and true
    positives and misses together exactly the annotations, each counted once;
    the reported number of annotations is theirs; and no more examples are kept
    than asked for. *)
Theorem eval_accounts redactor mode max corpus o :
  let t := score redactor mode max corpus in
  (tp_of o t + fp_of o t = detections redactor o corpus /\ tp_of o t + fn_of o t = annotations o corpus)%Z /\
  Z.of_nat (ta_annotations t) = annotations None corpus /\ length (ta_fps t) <= max /\ length (ta_fns t) <= max.
Proof.
  destruct (score_fold redactor mode max corpus no_tally) as (Ho & Ha & Hl); [simpl; lia..|]. unfold score. cbv zeta.
  split; [|split; [rewrite Ha; simpl; lia|done]]. destruct (Ho o) as [-> ->].
  assert (Hz : tp_of o no_tally = 0%Z /\ fp_of o no_tally = 0%Z /\ fn_of o no_tally = 0%Z) by (by destruct o).
  destruct Hz as (-> & -> & ->). lia.
Qed.

(** Nothing is missed that could have been matched: in either mode no false
    positive of a record matches an annotation that the same record reports as
    missed. *)
Theorem eval_maximal mode ds golds t flags gs t' d g :
  hits mode ds (map (fun x => (x, false)) golds) t = (flags, gs, t') ->
  In (d, false) flags -> In (g, false) gs -> matches_overlap d g mode = false.
Proof. intros Eh. apply hits_scored in Eh as [_ _ _ _ _ _ _ Hm]. apply Hm. Qed.
End EvalProps.

(** ** Runs *)

#[local] Existing Instance literal_engine.

Definition word_rule (entity word : string) : list RedactRule :=
  match compile entity word with Ok r => [r] | Err _ => [] end.
Definition demo_eval_redactor : Redactor := mkRedactor (word_rule "NAME" "alice" ++ word_rule "CITY" "rome") PlaceholderStyle.Bare.
Definition demo_corpus : list GoldRecord :=
  [mkGold (Some "1") "alice in rome" [mkAnnotation "NAME" 0 5; mkAnnotation "CITY" 9 13];
   mkGold None "bob and alice" [mkAnnotation "NAME" 0 3]].
Example eval_run :
  let t := score demo_eval_redactor Strict 5 demo_corpus in
  ta_totals t = mkCounts 2 1 1 /\ ta_by_entity t !! "NAME" = Some (mkCounts 1 1 1) /\ exit_status t = 0%Z /\
  map me_match (ta_fps t) = ["alice"] /\ map ms_expected (ta_fns t) = ["bob"] /\
  exit_status (score demo_eval_redactor Strict 5 [mkGold None "bob" [mkAnnotation "NAME" 0 3]]) = 2%Z /\
  f1 (mkCounts 1 1 1) = f64_div (f64_of 1) (f64_of 2).
Proof. vm_compute. done. Qed.

Lemma eval_maximal_witness : matches_overlap (mkMatch "NAME" 8 13 "alice") (mkAnnotation "NAME" 0 3) Strict = false.
Proof.
  destruct (hits Strict (find_matches demo_eval_redactor "bob and alice") (map (fun x => (x, false)) [mkAnnotation "NAME" 0 3])
    no_tally) as [[flags gs] t'] eqn:E.
  apply (eval_maximal _ _ _ _ _ _ _ _ _ E); vm_compute in E; injection E as <- <- <-; by left.
Defined.

(** A text whose eightieth byte lies inside a character ends the report with a
    panic, after the counts and before the rest of the report and its file. *)
Theorem report_panics :
  let text := sconcat (replicate 79 "x") +:+ "é alice" in
  let t := score demo_eval_redactor Strict 5 [mkGold None text []] in
  ec_fp (ta_totals t) = 1%Z /\ print_examples (fun s => s) t = None.
Proof. vm_compute. done. Qed.

(** Lenient matching is greedy: two detections that could each be paired with an
    annotation are scored as one hit, one false positive and one miss. *)
Theorem lenient_undercounts :
  let a := mkMatch "N" 0 9 "" in
  let b := mkMatch "N" 0 4 "" in
  let golds := [mkAnnotation "N" 0 3; mkAnnotation "N" 6 9] in
  matches_overlap a (mkAnnotation "N" 6 9) Lenient = true /\ matches_overlap b (mkAnnotation "N" 0 3) Lenient = true /\
  ec_tp (ta_totals (hits Lenient [a; b] (map (fun g => (g, false)) golds) no_tally).2) = 1%Z.
Proof. vm_compute. done. Qed.
