(* ===== verification/Deanon.v ===== *)
(** * Deanonymization ([src/guard/deanonymize.rs], [src/guard/sse_deanon.rs])

    The strategies that put the vault's originals back into response text, and
    the streaming state machine that finds placeholders across chunk
    boundaries.  The main results connect them to the redactor: what was
    redacted with a vault is restored exactly, whole or streamed, in any order
    of the vault's entries and over any chunking of the stream. *)

From S2P Require Import Prelude RustStr Json Regex Vault Redact.

(** ** Strategies *)

Inductive MatchingStrategy := Exact | CaseInsensitive.

Definition exact_restore (output : string) (entries : list (string * string)) : string :=
  foldl (fun out po => if contains po.1 out then replace po.1 po.2 out else out) output entries.

(** The sliding window over the bytes of [s]: [drop] bytes of a match and
    [copy] bytes of a multi-byte char are still to be passed over. *)
Fixpoint ci_go (needle original : string) (drop copy : nat) (s : string) : string :=
  match s with
  | "" => ""
  | String c s' =>
      match drop, copy with
      | S k, _ => ci_go needle original k copy s'
      | O, S k => String c (ci_go needle original 0 k s')
      | O, O =>
          if Nat.leb (String.length needle) (String.length s)
             && eq_ignore_ascii_case (stake (String.length needle) s) needle
          then original +:+ ci_go needle original (pred (String.length needle)) 0 s'
          else String c (ci_go needle original 0 (char_need c) s')
      end
  end.
Definition case_insensitive_restore (output : string) (entries : list (string * string)) : string :=
  foldl (fun out po => if String.eqb po.1 "" then out else ci_go po.1 po.2 0 0 out) output entries.

Definition strategy_restore (strategy : MatchingStrategy) : string -> list (string * string) -> string :=
  match strategy with Exact => exact_restore | CaseInsensitive => case_insensitive_restore end.

Definition strategy_from_name (name : string) : MatchingStrategy :=
  let n := to_ascii_lowercase name in
  if String.eqb n "case_insensitive" || String.eqb n "case-insensitive" then CaseInsensitive else Exact.

(** [restore]: run a strategy against a vault. *)
Definition restore (strategy : MatchingStrategy) (vault : LocalVault) (output : string) : string :=
  if vault_is_empty vault then output else strategy_restore strategy output (vault_entries vault).

(** ** The streaming state machine *)

Definition MAX_PLACEHOLDER_LEN : nat := 64.
#[local] Arguments Nat.leb : simpl never.

Inductive State := Normal | InPlaceholder.

Record DeanonymizeStream := mkDeanon {
  ds_state : State;
  ds_pending : string;
  ds_entries : list (string * string);
  ds_strategy : MatchingStrategy;
}.
Definition deanon_new (entries : list (string * string)) (strategy : MatchingStrategy) : DeanonymizeStream :=
  {| ds_state := Normal; ds_pending := ""; ds_entries := entries; ds_strategy := strategy |}.

(** One iteration of [push]: the state, the pending buffer, and what the char
    lets out. *)
Definition push_char (entries : list (string * string)) (strategy : MatchingStrategy)
    (st : State * string) (ch : string) : string * (State * string) :=
  match st.1 with
  | Normal => if String.eqb ch "[" then ("", (InPlaceholder, ch)) else (ch, (Normal, st.2))
  | InPlaceholder =>
      let pending := st.2 +:+ ch in
      if String.eqb ch "]" then (strategy_restore strategy pending entries, (Normal, ""))
      else if Nat.leb MAX_PLACEHOLDER_LEN (String.length pending) then (pending, (Normal, ""))
      else ("", (InPlaceholder, pending))
  end.
Definition push (d : DeanonymizeStream) (text : string) : string * DeanonymizeStream :=
  match ds_entries d with
  | [] => (text, d)
  | _ =>
      let '(out, (st, p)) :=
        map_st (push_char (ds_entries d) (ds_strategy d)) (ds_state d, ds_pending d) (chars text) in
      (sconcat out, {| ds_state := st; ds_pending := p; ds_entries := ds_entries d; ds_strategy := ds_strategy d |})
  end.
Definition flush (d : DeanonymizeStream) : string * DeanonymizeStream :=
  (ds_pending d, {| ds_state := Normal; ds_pending := ""; ds_entries := ds_entries d; ds_strategy := ds_strategy d |}).

(** A whole stream: push every chunk, then flush. *)
Fixpoint push_all (d : DeanonymizeStream) (chunks : list string) : string * DeanonymizeStream :=
  match chunks with
  | [] => ("", d)
  | c :: cs => let '(o1, d1) := push d c in let '(o2, d2) := push_all d1 cs in (o1 +:+ o2, d2)
  end.
Definition stream_output (d : DeanonymizeStream) (chunks : list string) : string :=
  let '(o, d') := push_all d chunks in o +:+ (flush d').1.

(** ** Lemmas: the state machine *)

Lemma push_entries d c : ds_entries (push d c).2 = ds_entries d /\ ds_strategy (push d c).2 = ds_strategy d.
Proof.
  unfold push. destruct (ds_entries d) as [|e es] eqn:E; [done|].
  destruct (map_st _ _ _) as [out [st p]]. done.
Qed.

(** Pushing two texts is pushing their concatenation. *)
Lemma push_app d a b :
  is_utf8 a = true ->
  push d (a +:+ b) =
    let '(o1, d1) := push d a in let '(o2, d2) := push d1 b in (o1 +:+ o2, d2).
Proof.
  intros Ha. unfold push. destruct (ds_entries d) as [|e es] eqn:E; [by rewrite E|].
  rewrite chars_app, map_st_app by done.
  destruct (map_st _ _ (chars a)) as [o1 [st1 p1]]. simpl.
  destruct (map_st _ _ (chars b)) as [o2 [st2 p2]]. simpl. by rewrite sconcat_app.
Qed.

Lemma push_all_concat d chunks :
  Forall (fun c => is_utf8 c = true) chunks ->
  push_all d chunks = push d (sconcat chunks).
Proof.
  intros Hall. revert d. induction Hall as [|c cs Hc _ IH]; intros d; simpl.
  - unfold push. destruct (ds_entries d) eqn:E; [done|]. simpl. rewrite <-E. by destruct d.
  - rewrite push_app by done. destruct (push d c) as [o1 d1]. by rewrite IH.
Qed.

(** The buffer never outgrows the bail-out length. *)
Definition pending_ok (st : State * string) : Prop :=
  match st.1 with Normal => st.2 = "" | InPlaceholder => String.length st.2 < MAX_PLACEHOLDER_LEN end.

Lemma push_char_ok es strat st ch : pending_ok st -> pending_ok (push_char es strat st ch).2.
Proof.
  destruct st as [[] p]; unfold push_char, pending_ok; simpl; intros Hp.
  - destruct (String.eqb_spec ch "[") as [->|]; simpl; [unfold MAX_PLACEHOLDER_LEN; simpl; lia|done].
  - destruct (String.eqb ch "]"); [done|].
    destruct (Nat.leb MAX_PLACEHOLDER_LEN (String.length (p +:+ ch))) eqn:E; simpl; [done|].
    by apply Nat.leb_gt in E.
Qed.

(** When the strategy changes no piece of the text, what comes out is what
    went in. *)
Lemma push_char_conserve es strat st ch :
  strategy_restore strat (st.2 +:+ ch) es = st.2 +:+ ch -> pending_ok st ->
  (push_char es strat st ch).1 +:+ (push_char es strat st ch).2.2 = st.2 +:+ ch.
Proof.
  intros Hid. destruct st as [[] p]; unfold push_char, pending_ok; simpl in *.
  - intros ->. destruct (String.eqb ch "["); simpl; [done|]. apply sapp_nil_r.
  - intros _. destruct (String.eqb ch "]"); simpl; [by rewrite Hid, sapp_nil_r|].
    destruct (Nat.leb _ _); simpl; [apply sapp_nil_r|done].
Qed.

Lemma push_chars_conserve es strat pre st l :
  (forall x s y, pre +:+ st.2 +:+ sconcat l = x +:+ s +:+ y -> strategy_restore strat s es = s) ->
  pending_ok st ->
  sconcat (map_st (push_char es strat) st l).1 +:+ (map_st (push_char es strat) st l).2.2
    = st.2 +:+ sconcat l.
Proof.
  revert pre st. induction l as [|ch l IH]; intros pre st Hid Hst; simpl.
  - by rewrite sapp_nil_r.
  - assert (Hr : strategy_restore strat (st.2 +:+ ch) es = st.2 +:+ ch).
    { apply (Hid pre _ (sconcat l)). simpl. by rewrite <-sapp_assoc. }
    pose proof (push_char_conserve es strat st ch Hr Hst) as Hc.
    pose proof (push_char_ok es strat st ch Hst) as Hok.
    destruct (push_char es strat st ch) as [y st1]. simpl in Hc, Hok.
    specialize (IH (pre +:+ y) st1). destruct (map_st _ st1 l) as [ys st2]. simpl in *.
    rewrite <-sapp_assoc, IH, sapp_assoc, Hc, <-sapp_assoc; [done| |done].
    intros x s z E. apply (Hid x s z). rewrite <-E. rewrite (sapp_assoc st.2), <-Hc. by rewrite <-!sapp_assoc.
Qed.

(** A text whose every piece [strategy_restore] keeps: no entry occurs in it. *)
Lemma exact_restore_absent s es :
  (forall p o, (p, o) ∈ es -> contains p s = false) -> exact_restore s es = s.
Proof.
  induction es as [|[p o] es IH]; intros Hab; simpl; [done|].
  rewrite (Hab p o) by (by left). apply IH. intros q x Hq. apply (Hab q x). by right.
Qed.

(** ** Redacted text

    [redacted E t out]: [out] is [t] with some pieces [o] written as the
    placeholder [p] of an entry [(p, o)] of [E]. *)

Definition ph_shape (p : string) : Prop :=
  exists body, p = "[" +:+ body +:+ "]" /\ sall no_bracket body = true.

Inductive redacted (E : list (string * string)) : string -> string -> Prop :=
| redacted_nil : redacted E "" ""
| redacted_char c t out : not_open c = true -> redacted E t out -> redacted E (String c t) (String c out)
| redacted_ph p o t out : ph_shape p -> (p, o) ∈ E -> redacted E t out -> redacted E (o +:+ t) (p +:+ out).

Lemma redacted_text E a t out :
  sall not_open a = true -> redacted E t out -> redacted E (a +:+ t) (a +:+ out).
Proof.
  intros Ha Hr. induction a as [|c a IH]; simpl in *; [done|]. bool_to_prop.
  constructor; auto.
Qed.

Lemma redacted_refl E t : sall not_open t = true -> redacted E t t.
Proof.
  intros Ht. rewrite <-(sapp_nil_r t). apply redacted_text; [done|constructor].
Qed.

Lemma redacted_mono E E' t out : (forall po, po ∈ E -> po ∈ E') -> redacted E t out -> redacted E' t out.
Proof. intros HE. induction 1; constructor; auto. Qed.

Lemma redacted_app E t1 o1 t2 o2 :
  redacted E t1 o1 -> redacted E t2 o2 -> redacted E (t1 +:+ t2) (o1 +:+ o2).
Proof.
  intros H1 H2. induction H1; simpl; [done|by constructor|].
  rewrite <-!sapp_assoc. by constructor.
Qed.

Lemma ph_shape_nonempty p : ph_shape p -> p <> "".
Proof. by intros (b & -> & _). Qed.

Lemma no_bracket_parts s :
  sall no_bracket s = true ->
  sall not_open s = true /\ sall (fun x => negb (Ascii.eqb x "]")) s = true.
Proof.
  intros H. split; eapply sall_impl; try exact H; unfold no_bracket, not_open; intros c Hc; bool_to_prop;
    apply negb_true_iff; by apply Ascii.eqb_neq.
Qed.

Lemma redacted_empty E t out : redacted E t out -> out = "" -> t = "".
Proof.
  induction 1 as [| |p o t out (b & -> & _)]; simpl; done.
Qed.

(** A proper non-empty prefix of a placeholder leaves its bracket open. *)
Lemma ph_prefix_open p x r :
  ph_shape p -> p = x +:+ r -> x <> "" -> r <> "" -> open_bracket x = true.
Proof.
  intros (b & -> & Hb) H Hx Hr. destruct x as [|c x]; [done|]. simpl in H.
  injection H as <- H. unfold open_bracket. simpl. symmetry in H.
  apply sapp_cases in H as [(q & -> & Hq)|(q & _ & ->)].
  - destruct q; [|destruct q, r; done]. rewrite sapp_nil_r. by apply open_after_plain.
  - rewrite sall_app in Hb. bool_to_prop. by apply open_after_plain.
Qed.

(** A piece of [out] that starts outside any placeholder and holds no ["\["]
    is a piece of [t]. *)
Lemma redacted_split E t out x m y :
  redacted E t out -> out = x +:+ m +:+ y -> open_bracket x = false -> sall not_open m = true ->
  exists tx ty, t = tx +:+ m +:+ ty /\ redacted E tx x /\ redacted E ty y.
Proof.
  intros Hr. revert x m. induction Hr as [|c t out Hc Hr IH|p o t out Hs Hin Hr IH]; intros x m Hout Hx Hm.
  - destruct x, m, y; try done. exists "", "". split_and!; done || constructor.
  - destruct x as [|c' x]; simpl in Hout.
    + destruct m as [|c' m]; simpl in Hout.
      * exists "", (String c t). simpl in *. subst y. split_and!; [done|constructor|by constructor].
      * injection Hout as -> Hout. simpl in Hm. bool_to_prop.
        destruct (IH "" m) as (tx & ty & -> & Hx0 & Hy); [done..|].
        apply redacted_empty in Hx0 as ->; [|done]. exists "", ty.
        split_and!; [done|constructor|done].
    + injection Hout as -> Hout. destruct (IH x m) as (tx & ty & -> & Hx' & Hy); [done| |done|].
      { unfold open_bracket in *. simpl in Hx. unfold not_open in Hc. bool_to_prop.
        destruct (Ascii.eqb_spec c' "["); [done|]. by destruct (Ascii.eqb c' "]"). }
      exists (String c' tx), ty. split_and!; [done|by constructor|done].
  - symmetry in Hout. pose proof Hout as Hcut. apply sapp_cases in Hcut as [(r & -> & ->)|(r & Hne & Hp)].
    + destruct (IH r m) as (tx & ty & -> & Hx' & Hy); [done| |done|].
      { destruct Hs as (b & -> & Hb). unfold open_bracket in *.
        rewrite <-!sapp_assoc in Hx. simpl in Hx.
        by rewrite open_after_app, (open_after_plain _ b) in Hx. }
      exists (o +:+ tx), ty. split_and!; [by rewrite sapp_assoc|by constructor|done].
    + destruct x as [|c x].
      * simpl in Hout. destruct m as [|c m].
        { exists "", (o +:+ t). simpl in *. subst y. split_and!; [done|constructor|by constructor]. }
        destruct Hs as (b & -> & _). by injection Hout as -> _.
      * by rewrite (ph_prefix_open p (String c x) r) in Hx.
Qed.

(** ** Lemmas: restoring *)

Lemma ph_shape_head p : ph_shape p -> exists b, p = String "[" b.
Proof. intros (b & -> & _). by exists (b +:+ "]"). Qed.

(** Text without ["\["] is passed over by a search for a placeholder. *)
Lemma replace_go_plain p o a s :
  ph_shape p -> sall not_open a = true -> replace_go p o 0 (a +:+ s) = a +:+ replace_go p o 0 s.
Proof.
  intros Hp Ha. destruct (ph_shape_head p Hp) as [b ->].
  induction a as [|c a IH]; [done|]. simpl in Ha. bool_to_prop. cbn [String.append replace_go].
  destruct (starts_with _ _) eqn:E; [|by rewrite IH].
  apply starts_with_true in E as [r Hr]. injection Hr as -> _. done.
Qed.

(** No placeholder is a prefix of text that begins with another one. *)
Lemma ph_prefix_unique p q r s : ph_shape p -> ph_shape q -> q +:+ s = p +:+ r -> p = q.
Proof.
  intros (b & -> & Hb) (b' & -> & Hb') H. apply no_bracket_parts in Hb as [_ Hb], Hb' as [_ Hb'].
  simpl in H. injection H as H. rewrite <-!sapp_assoc in H. simpl in H.
  by apply first_byte_split in H as [-> _].
Qed.

Lemma replace_go_other p q o s :
  ph_shape p -> ph_shape q -> p <> q -> replace_go p o 0 (q +:+ s) = q +:+ replace_go p o 0 s.
Proof.
  intros Hp Hq Hne. pose proof Hq as (b & -> & Hb). apply no_bracket_parts in Hb as [Hb _].
  change (("[" +:+ b +:+ "]") +:+ s) with (String "[" ((b +:+ "]") +:+ s)).
  cbn [replace_go]. destruct (starts_with _ _) eqn:E.
  - apply starts_with_true in E as [r Hr]. by destruct Hne; apply (ph_prefix_unique p _ r s).
  - rewrite replace_go_plain; [done..|]. by rewrite sall_app, Hb.
Qed.

(** Restoring one entry leaves only the placeholders of the others. *)
Lemma restore_step R R' p o t out :
  ph_shape p -> (forall o', (p, o') ∈ R -> o' = o) ->
  (forall po, po ∈ R -> po.1 <> p -> po ∈ R') ->
  sall not_open t = true -> redacted R t out -> redacted R' t (replace_go p o 0 out).
Proof.
  intros Hp Hfun Hrest Ht Hr. induction Hr as [|c t out Hc Hr IH|q x t out Hq Hin Hr IH].
  - constructor.
  - simpl in Ht. bool_to_prop. rewrite (sapp_cons c out), replace_go_plain; [|done|simpl; by rewrite Hc].
    constructor; auto.
  - rewrite sall_app in Ht. bool_to_prop. destruct (decide (p = q)) as [<-|Hne].
    + rewrite replace_go_hit by (by apply ph_shape_nonempty). rewrite (Hfun x Hin) in *.
      apply redacted_text; auto.
    + rewrite replace_go_other by done. constructor; auto.
Qed.

Lemma redacted_done t out : redacted [] t out -> out = t.
Proof. induction 1 as [|c t out _ _ ->|p o t out _ Hin]; [done..|by apply not_elem_of_nil in Hin]. Qed.

(** Restoring every entry, in the order given, gives the text back. *)
Lemma exact_restore_redacted es t out :
  Forall (fun po => ph_shape po.1) es -> NoDup es.*1 -> sall not_open t = true ->
  redacted es t out -> exact_restore out es = t.
Proof.
  intros Hsh Hnd Ht. revert out. induction es as [|[p o] es IH]; intros out Hr; simpl.
  { by apply redacted_done. }
  inversion_clear Hsh as [|? ? Hp Hsh']. apply NoDup_cons in Hnd as [Hni Hnd]. simpl in *.
  assert ((if contains p out then replace p o out else out) = replace_go p o 0 out) as ->.
  { destruct (contains p out) eqn:E.
    - apply replace_nonempty. by apply ph_shape_nonempty.
    - by rewrite replace_go_absent. }
  apply IH; auto. eapply restore_step; [done| | |done|exact Hr].
  - intros o' [[=]|Hin]%elem_of_cons; [done|]. destruct Hni. apply list_elem_of_fmap. by exists (p, o').
  - intros po [->|Hin]%elem_of_cons Hne; [done|done].
Qed.

(** ** Redacting with a vault *)

Lemma format_ph_shape st e i :
  sall no_bracket e = true -> (0 <= i)%Z -> ph_shape (format_template st e i).
Proof.
  intros He Hi.
  assert (Hd : sall no_bracket (show_Z i) = true).
  { eapply sall_impl; [|by apply show_Z_digits]. intros c Hc. unfold no_bracket.
    apply andb_true_iff. split; apply negb_true_iff, Ascii.eqb_neq; by apply digit_not. }
  destruct st; [exists ("REDACTED_" +:+ e +:+ "_" +:+ show_Z i)|exists (e +:+ "_" +:+ show_Z i)];
    (split; [simpl; by rewrite <-!sapp_assoc|]);
    rewrite ?sall_app, He; cbn [sall String.append]; rewrite Hd; reflexivity.
Qed.

Definition vault_shaped (v : LocalVault) : Prop :=
  vault_ok v /\ forall p o, vault_get v p = Some o -> ph_shape p.

Lemma vault_shaped_new st : vault_shaped (with_style st).
Proof. split; [apply vault_ok_new|]. intros p o H. unfold vault_get in H. simpl in H. by rewrite lookup_empty in H. Qed.

Lemma store_shaped v e o :
  vault_shaped v -> sall no_bracket e = true -> (Z.of_nat (size (seen (store v e o).2)) <= u32_max)%Z ->
  vault_shaped (store v e o).2 /\ (store v e o).1 ∈ (vault_entries (store v e o).2).*1 /\
  ((store v e o).1, o) ∈ vault_entries (store v e o).2 /\ ph_shape (store v e o).1 /\
  (forall po, po ∈ vault_entries v -> po ∈ vault_entries (store v e o).2).
Proof.
  intros [Hok Hsh] He Hsz. destruct (store_ok v e o Hok Hsz) as (Hok' & Hget & Hmono & (i & Hp & Hi) & Hst & Hback).
  assert (Hin : ((store v e o).1, o) ∈ vault_entries (store v e o).2) by (by apply elem_of_map_to_list).
  split_and!; auto.
  - split; [done|]. intros p x Hx. apply (wf_entries _ _ Hok') in Hx as (e' & j & Hs & ->).
    unfold format_placeholder. rewrite Hst. pose proof (wf_range _ _ Hok' _ _ _ Hs).
    destruct (Hback _ _ _ Hs) as [->|Hold]; [apply format_ph_shape; [done|lia]|].
    apply (Hsh _ x), (wf_entries _ _ Hok). eauto.
  - apply list_elem_of_fmap. by exists ((store v e o).1, o).
  - rewrite Hp. apply format_ph_shape; [done|lia].
  - intros [p x] Hx. apply elem_of_map_to_list, Hmono. by apply elem_of_map_to_list in Hx.
Qed.

(** The state a redaction run goes through, on the text [t]. *)
Definition red_inv (t : string) (os : string * LocalVault) : Prop :=
  vault_shaped os.2 /\ redacted (vault_entries os.2) t os.1.

Definition span_safe (s : string) (ab : nat * nat) : bool :=
  negb (open_bracket (stake ab.1 s)) && sall not_open (slice ab.1 ab.2 s).

Lemma spans_ok_snoc lo len l a b :
  spans_ok lo len (l ++ [(a, b)]) -> spans_ok lo a l /\ a <= b /\ b <= len.
Proof.
  revert lo. induction l as [|[x y] l IH]; intros lo; simpl; [naive_solver lia|].
  intros (H1 & H2 & H3 & H4). destruct (IH _ H4) as (H5 & H6 & H7).
  assert (y <= a); [|naive_solver lia]. clear -H4.
  revert y H4. induction l as [|[u w] l IH]; intros y; simpl; [lia|].
  intros (? & ? & ? & H). specialize (IH _ H). lia.
Qed.

Section Redaction.
Context `{RegexLaws}.

Notation step e := (fun st v => store st e v).

Lemma replace_each_size e v cur ms : size (seen v) <= size (seen (replace_each (step e) v cur ms).2).
Proof.
  revert v cur. induction ms as [|[[a b] x] ms IH]; intros v cur; simpl; [done|].
  pose proof (store_size_mono v e x). destruct (store v e x) as [p v1]. simpl in *.
  specialize (IH v1 (replace_range a b p cur)). lia.
Qed.

(** Replacing the last match of a rule. *)
Lemma replace_one t cur v e a b :
  red_inv t (cur, v) -> sall no_bracket e = true -> a <= b -> b <= String.length cur ->
  span_safe cur (a, b) = true ->
  (Z.of_nat (size (seen (store v e (slice a b cur)).2)) <= u32_max)%Z ->
  red_inv t (replace_range a b (store v e (slice a b cur)).1 cur, (store v e (slice a b cur)).2).
Proof.
  intros [Hv Hr] He Hab Hb Hs Hsz. unfold span_safe in Hs. simpl in Hs. bool_to_prop.
  destruct (store_shaped v e (slice a b cur) Hv He Hsz) as (Hv' & _ & Hin & Hp & Hmono).
  split; [done|]. simpl. unfold replace_range.
  destruct (redacted_split _ _ _ (stake a cur) (slice a b cur) (sdrop b cur) Hr) as (tx & ty & -> & Hx & Hy);
    [by apply slice_cut|done..|].
  apply redacted_app; [by eapply redacted_mono|]. constructor; [done|done|by eapply redacted_mono].
Qed.

Lemma replace_each_inv t out e l lo L v cur :
  sall no_bracket e = true -> spans_ok lo L l -> L <= String.length cur -> L <= String.length out ->
  stake L cur = stake L out -> Forall (fun ab => span_safe out ab = true) l ->
  red_inv t (cur, v) ->
  let res := replace_each (step e) v cur (rev (map (fun ab => (ab.1, ab.2, slice ab.1 ab.2 out)) l)) in
  (Z.of_nat (size (seen res.2)) <= u32_max)%Z -> red_inv t res.
Proof.
  intros He. revert L v cur. induction l as [|[a b] l IH] using rev_ind;
    intros L v cur Hsp HL HLo Heq Hsafe Hinv; [done|].
  apply spans_ok_snoc in Hsp as (Hsp & Hab & HbL). apply Forall_app in Hsafe as [Hsafe Hs].
  rewrite Forall_singleton in Hs. rewrite map_app, rev_app_distr. cbn -[replace_range slice].
  assert (Hslice : slice a b out = slice a b cur).
  { rewrite <-(slice_stake a b L out), <-Heq by done. by rewrite slice_stake. }
  assert (Hstake : stake a out = stake a cur).
  { rewrite <-(stake_stake a L out), <-Heq by lia. by rewrite stake_stake by lia. }
  rewrite Hslice. unfold span_safe in Hs. cbn [fst snd] in Hs. rewrite Hslice, Hstake in Hs.
  pose proof (replace_one t cur v e a b Hinv He Hab ltac:(lia) Hs) as Hone.
  destruct (store v e (slice a b cur)) as [p v1] eqn:Est. intros Hsz. cbn [fst snd] in *.
  apply (IH a); [done| |lia| |done| |done].
  - unfold replace_range. rewrite slen_app, slen_stake. lia.
  - unfold replace_range. rewrite stake_app_le by (rewrite slen_stake; lia).
    rewrite stake_stake by lia. done.
  - apply Hone. etransitivity; [|exact Hsz]. apply Nat2Z.inj_le, replace_each_size.
Qed.

(** The checks along a run of the rules: no match starts inside a
    placeholder already written, or holds a ["\["]. *)
Fixpoint rules_safe (keep : RedactRule -> bool) (rules : list RedactRule) (os : string * LocalVault) : bool :=
  match rules with
  | [] => true
  | rule :: rest =>
      if keep rule
      then forallb (span_safe os.1) (find_iter (rr_regex rule) os.1) &&
           sall no_bracket (rr_entity rule) && rules_safe keep rest (redact_rule store os.2 os.1 rule)
      else rules_safe keep rest os
  end.

Lemma redact_rules_cons keep rule rules v out :
  redact_rules store keep v out (rule :: rules) =
  if keep rule
  then redact_rules store keep (redact_rule store v out rule).2 (redact_rule store v out rule).1 rules
  else redact_rules store keep v out rules.
Proof. unfold redact_rules. simpl. by destruct (keep rule), (redact_rule store v out rule). Qed.

Lemma redact_rules_size keep rules v out :
  size (seen v) <= size (seen (redact_rules store keep v out rules).2).
Proof.
  revert v out. induction rules as [|r rules IH]; intros v out; [done|]. rewrite redact_rules_cons.
  destruct (keep r); [|apply IH]. etransitivity; [|apply IH]. apply replace_each_size.
Qed.

Lemma redact_rules_inv keep rules t v out :
  let res := redact_rules store keep v out rules in
  rules_safe keep rules (out, v) = true -> (Z.of_nat (size (seen res.2)) <= u32_max)%Z ->
  red_inv t (out, v) -> red_inv t res.
Proof.
  revert v out. induction rules as [|r rules IH]; intros v out; [done|].
  rewrite redact_rules_cons. cbn [rules_safe fst snd]. destruct (keep r); [|by apply IH].
  intros Hsafe Hsz Hinv. bool_to_prop. rewrite (surjective_pairing (redact_rule store v out r)) in *.
  apply IH; [done|done|]. rewrite <-surjective_pairing. unfold redact_rule, collect_matches.
  eapply (replace_each_inv t out _ _ 0 (String.length out)); eauto using find_iter_ok.
  - by apply List.Forall_forall, forallb_forall.
  - etransitivity; [|exact Hsz]. apply Nat2Z.inj_le, redact_rules_size.
Qed.

(** Entries survive everything stored later. *)
Definition vault_le (v v' : LocalVault) : Prop := forall q x, vault_get v q = Some x -> vault_get v' q = Some x.

Lemma replace_each_le e v cur ms :
  vault_ok v -> (Z.of_nat (size (seen (replace_each (step e) v cur ms).2)) <= u32_max)%Z ->
  vault_ok (replace_each (step e) v cur ms).2 /\ vault_le v (replace_each (step e) v cur ms).2.
Proof.
  revert v cur. induction ms as [|[[a b] x] ms IH]; intros v cur Hok; simpl; [by unfold vault_le|].
  pose proof (store_ok v e x Hok) as Hs. destruct (store v e x) as [p v1]. simpl in *. intros Hsz.
  destruct Hs as (Hok1 & _ & Hle & _).
  { etransitivity; [|exact Hsz]. apply Nat2Z.inj_le, replace_each_size. }
  destruct (IH v1 _ Hok1 Hsz) as [Hok2 Hle2]. split; [done|]. intros q y Hq. auto.
Qed.
Lemma redact_rules_le keep rules v out :
  vault_ok v -> (Z.of_nat (size (seen (redact_rules store keep v out rules).2)) <= u32_max)%Z ->
  vault_ok (redact_rules store keep v out rules).2 /\ vault_le v (redact_rules store keep v out rules).2.
Proof.
  revert v out. induction rules as [|r rules IH]; intros v out Hok; [by unfold vault_le|].
  rewrite redact_rules_cons. destruct (keep r); [|by apply IH]. intros Hsz.
  destruct (replace_each_le (rr_entity r) v out (rev (collect_matches (rr_regex r) out)) Hok) as [Hok1 Hle1].
  { etransitivity; [|exact Hsz]. apply Nat2Z.inj_le, redact_rules_size. }
  destruct (IH _ _ Hok1 Hsz) as [Hok2 Hle2]. split; [done|]. intros q x Hq. by apply Hle2, Hle1.
Qed.

(** The texts of a conversation, masked in turn with one vault. *)
Definition mask_texts (r : Redactor) (ents : gset string) (v : LocalVault) (ts : list string)
    : list string * LocalVault := map_st (fun v t => redact_text_with_vault r t ents v) v ts.
Fixpoint texts_safe (r : Redactor) (ents : gset string) (v : LocalVault) (ts : list string) : bool :=
  match ts with
  | [] => true
  | t :: ts' => sall not_open t && rules_safe (in_set ents) (rd_rules r) (t, v) &&
                texts_safe r ents (redact_text_with_vault r t ents v).2 ts'
  end.

Lemma mask_texts_size r ents v ts : size (seen v) <= size (seen (mask_texts r ents v ts).2).
Proof.
  revert v. induction ts as [|t ts IH]; intros v; simpl; [done|]. unfold mask_texts in *. simpl.
  pose proof (redact_rules_size (in_set ents) (rd_rules r) v t) as Hs.
  change (redact_rules store (in_set ents) v t (rd_rules r)) with (redact_text_with_vault r t ents v) in Hs.
  destruct (redact_text_with_vault r t ents v) as [o v1]. specialize (IH v1).
  destruct (map_st _ v1 ts) as [os v2]. simpl in *. lia.
Qed.
Lemma redacted_le v v' t out : vault_le v v' -> redacted (vault_entries v) t out -> redacted (vault_entries v') t out.
Proof.
  intros Hle. apply redacted_mono. intros [p o] Hin. apply elem_of_map_to_list, Hle.
  by apply elem_of_map_to_list in Hin.
Qed.
Lemma mask_texts_inv r ents v ts :
  vault_shaped v -> texts_safe r ents v ts = true ->
  (Z.of_nat (size (seen (mask_texts r ents v ts).2)) <= u32_max)%Z ->
  vault_shaped (mask_texts r ents v ts).2 /\ vault_le v (mask_texts r ents v ts).2 /\
  Forall2 (redacted (vault_entries (mask_texts r ents v ts).2)) ts (mask_texts r ents v ts).1.
Proof.
  revert v. induction ts as [|t ts IH]; intros v Hv; simpl.
  { intros _ _. split_and!; [done|by unfold vault_le|constructor]. }
  intros Hsafe. bool_to_prop. pose proof (mask_texts_size r ents (redact_text_with_vault r t ents v).2 ts) as Hsize.
  unfold mask_texts in *. simpl.
  pose proof (redact_rules_inv (in_set ents) (rd_rules r) t v t) as Hinv.
  pose proof (redact_rules_le (in_set ents) (rd_rules r) v t (proj1 Hv)) as Hle.
  change (redact_rules store (in_set ents) v t (rd_rules r)) with (redact_text_with_vault r t ents v) in Hinv, Hle.
  destruct (redact_text_with_vault r t ents v) as [o v1]. cbn [fst snd] in *. specialize (IH v1).
  destruct (map_st _ v1 ts) as [os v2]. cbn [fst snd] in *. intros Hsz.
  assert (Hsz1 : (Z.of_nat (size (seen v1)) <= u32_max)%Z) by lia.
  destruct Hinv as [Hv1 Hr]; [done|done|split; [done|by apply redacted_refl]|].
  destruct (Hle Hsz1) as [_ Hle1]. destruct IH as (Hv2 & Hle2 & HF); [done..|].
  split_and!; [done| |].
  - intros q x Hq. by apply Hle2, Hle1.
  - constructor; [|done]. by eapply redacted_le.
Qed.
End Redaction.

(** ** Lemmas: the stream over redacted text *)

Lemma ph_head_ascii p : ph_shape p -> exists b, p = String "[" b /\ sall not_open b = true.
Proof.
  intros (b & -> & Hb). exists (b +:+ "]"). split; [done|].
  apply no_bracket_parts in Hb as [Hb _]. by rewrite sall_app, Hb.
Qed.

(** Redacted text is plain text up to the first placeholder. *)
Lemma redacted_segment E t out :
  redacted E t out ->
  (out = t /\ sall not_open t = true) \/
  exists a p o t' out', sall not_open a = true /\ ph_shape p /\ (p, o) ∈ E /\
    t = a +:+ o +:+ t' /\ out = a +:+ p +:+ out' /\ redacted E t' out'.
Proof.
  induction 1 as [|c t out Hc Hr [[-> Ht]|(a & p & o & t' & out' & Ha & Hp & Hin & -> & -> & Hr')]|p o t out Hp Hin Hr _].
  - by left.
  - left. simpl. by rewrite Hc.
  - right. exists (String c a), p, o, t', out'. simpl. rewrite Hc. by split_and!.
  - right. exists "", p, o, t, out. by split_and!.
Qed.

Section StreamRedacted.
Context (es : list (string * string)).
Hypothesis (Hshape : Forall (fun po => ph_shape po.1) es) (Hnd : NoDup es.*1).

Lemma push_plain a l :
  Forall (fun ch => sall not_open ch = true) l -> a = sconcat l ->
  sconcat (map_st (push_char es Exact) (Normal, "") l).1 = a /\
  (map_st (push_char es Exact) (Normal, "") l).2 = (Normal, "").
Proof.
  intros Hall ->. induction Hall as [|ch l Hch Hall IH]; simpl; [done|].
  unfold push_char at 1 3. simpl. destruct (String.eqb_spec ch "[") as [->|]; [done|].
  destruct (map_st _ _ l) as [ys st]. simpl in *. by destruct IH as [-> ->].
Qed.

Lemma push_inside q l :
  Forall (fun ch => sall no_bracket ch = true) l ->
  String.length q + String.length (sconcat l) < MAX_PLACEHOLDER_LEN ->
  sconcat (map_st (push_char es Exact) (InPlaceholder, q) l).1 = "" /\
  (map_st (push_char es Exact) (InPlaceholder, q) l).2 = (InPlaceholder, q +:+ sconcat l).
Proof.
  intros Hall. revert q. induction Hall as [|ch l Hch Hall IH]; intros q Hlen; simpl.
  { by rewrite sapp_nil_r. }
  simpl in Hlen. rewrite slen_app in Hlen. unfold push_char at 1 3. simpl.
  destruct (String.eqb_spec ch "]") as [->|]; [done|].
  rewrite (proj2 (Nat.leb_gt _ _)) by (rewrite slen_app; lia).
  destruct (IH (q +:+ ch)) as [H1 H2]; [rewrite slen_app; lia|].
  destruct (map_st _ _ l) as [ys st]. simpl in *. by rewrite H1, H2, sapp_assoc.
Qed.

(** One whole placeholder: its original comes out when the bracket closes. *)
Lemma push_placeholder p o :
  ph_shape p -> (p, o) ∈ es -> sall not_open o = true -> is_utf8 p = true ->
  String.length p <= MAX_PLACEHOLDER_LEN ->
  sconcat (map_st (push_char es Exact) (Normal, "") (chars p)).1 = o /\
  (map_st (push_char es Exact) (Normal, "") (chars p)).2 = (Normal, "").
Proof.
  intros Hp Hin Ho Hu Hlen. pose proof Hp as (b & -> & Hb).
  assert (Hub : is_utf8 b = true).
  { change (is_utf8 ("" +:+ String "[" (b +:+ "]")) = true) in Hu.
    apply utf8_split in Hu as [_ Hu]; [|done]. by apply (utf8_split b "]" "") in Hu as [Hu _]. }
  assert (Hch : chars ("[" +:+ b +:+ "]") = "[" :: chars b ++ ["]"]).
  { rewrite (chars_app "[") by done. by rewrite chars_app. }
  rewrite Hch. cbn [map_st]. change (push_char es Exact (Normal, "") "[") with ("", (InPlaceholder, "[")).
  cbv beta iota. rewrite map_st_app.
  assert (String.length "[" + String.length (sconcat (chars b)) < MAX_PLACEHOLDER_LEN).
  { rewrite sconcat_chars. rewrite !slen_app in Hlen. simpl in *. lia. }
  destruct (push_inside "[" (chars b)) as [H1 H2]; [by apply sall_chars|done|].
  destruct (map_st _ (InPlaceholder, "[") (chars b)) as [ys st]. simpl in H1, H2. subst st.
  rewrite sconcat_chars. cbn [map_st]. unfold push_char. cbn [fst snd].
  change (String.eqb "]" "]") with true. cbn [fst snd]. split; [|done].
  rewrite sconcat_cons, sconcat_app, H1, sconcat_cons. cbn [sconcat foldr].
  rewrite sapp_nil_r. cbn [String.append strategy_restore]. rewrite <-(sapp_nil_r o).
  apply exact_restore_redacted; [done..|by rewrite sapp_nil_r|].
  change (String "[" (b +:+ "]")) with ("[" +:+ b +:+ "]").
  rewrite <-(sapp_nil_r ("[" +:+ b +:+ "]")). constructor; [done..|constructor].
Qed.

Lemma map_st_push_app a b st :
  is_utf8 a = true ->
  let r1 := map_st (push_char es Exact) st (chars a) in
  let r2 := map_st (push_char es Exact) r1.2 (chars b) in
  map_st (push_char es Exact) st (chars (a +:+ b)) = (r1.1 ++ r2.1, r2.2).
Proof.
  intros Ha. simpl. rewrite chars_app, map_st_app by done.
  destruct (map_st _ st (chars a)) as [o1 st1]. simpl. by destruct (map_st _ st1 (chars b)).
Qed.

Lemma push_redacted n t out :
  String.length out <= n -> redacted es t out -> is_utf8 out = true -> sall not_open t = true ->
  Forall (fun po => String.length po.1 <= MAX_PLACEHOLDER_LEN) es ->
  sconcat (map_st (push_char es Exact) (Normal, "") (chars out)).1 = t /\
  (map_st (push_char es Exact) (Normal, "") (chars out)).2 = (Normal, "").
Proof.
  revert t out. induction n as [|n IH]; intros t out Hn Hr Hu Ht Hlen.
  { assert (out = "") as -> by (apply slen_0; lia). by rewrite (redacted_empty _ _ _ Hr). }
  destruct (redacted_segment _ _ _ Hr) as [[-> _]|(a & p & o & t' & out' & Ha & Hp & Hin & -> & -> & Hr')].
  { apply push_plain; [by apply sall_chars|by rewrite sconcat_chars]. }
  rewrite !sall_app in Ht. bool_to_prop. rewrite !slen_app in Hn.
  pose proof Hp as (b & Eb & Hb).
  assert (is_utf8 a = true /\ is_utf8 p = true /\ is_utf8 out' = true) as (Hua & Hup & Huo).
  { rewrite Eb in Hu |- *. simpl in Hu. apply utf8_split in Hu as [Hua Hu]; [|done].
    rewrite <-sapp_assoc in Hu. apply (utf8_split b "]") in Hu as [Hub Huo]; [|done].
    split_and!; [done| |done]. apply (is_utf8_app "["); [done|]. by apply is_utf8_app. }
  destruct (push_plain a (chars a)) as [Ha1 Ha2]; [by apply sall_chars|by rewrite sconcat_chars|].
  rewrite List.Forall_forall in Hlen.
  destruct (push_placeholder p o) as [Hp1 Hp2]; [done..| |].
  { apply (Hlen (p, o)). by apply list_elem_of_In. }
  destruct (IH t' out') as [Ho1 Ho2]; [|done|done|done|by apply List.Forall_forall|].
  { rewrite Eb in Hn. simpl in Hn. lia. }
  rewrite map_st_push_app, Ha2, map_st_push_app, Hp2 by done. cbn [fst snd].
  by rewrite !sconcat_app, Ha1, Hp1, Ho1.
Qed.
End StreamRedacted.

(** ** Properties *)

Section RoundTrip.
Context `{RegexLaws}.

(** What a redaction run over a fresh vault leaves behind. *)
Lemma redact_fresh r text ents st es :
  let res := redact_text_with_vault r text ents (with_style st) in
  sall not_open text = true ->
  rules_safe (in_set ents) (rd_rules r) (text, with_style st) = true ->
  (Z.of_nat (size (seen res.2)) <= u32_max)%Z ->
  es ≡ₚ vault_entries res.2 ->
  Forall (fun po => ph_shape po.1) es /\ NoDup es.*1 /\ redacted es text res.1.
Proof.
  intros res Ht Hsafe Hsz Hes.
  assert (Hinv : red_inv text res).
  { apply redact_rules_inv; [done|done|]. split; [apply vault_shaped_new|by apply redacted_refl]. }
  destruct Hinv as [[_ Hsh] Hr]. split_and!.
  - rewrite Hes. apply Forall_forall. intros [p o] Hin. apply (Hsh p o).
    by apply elem_of_map_to_list in Hin.
  - rewrite Hes. apply NoDup_fst_map_to_list.
  - eapply redacted_mono; [|exact Hr]. intros po. by rewrite Hes.
Qed.

(** C3: Mask then restore is the identity, under three conditions.  A text with no ["\["] of its own,
    redacted with a fresh vault, comes back byte for byte from the exact
    strategy, whatever order the vault's hash map yields its entries in, as
    long as no rule matches inside a placeholder that an earlier rule wrote
    ([rules_safe], checked along the run) and the [u32] counters suffice. *)
Theorem redact_restore_roundtrip r text ents st es :
  let res := redact_text_with_vault r text ents (with_style st) in
  sall not_open text = true ->
  rules_safe (in_set ents) (rd_rules r) (text, with_style st) = true ->
  (Z.of_nat (size (seen res.2)) <= u32_max)%Z ->
  es ≡ₚ vault_entries res.2 ->
  exact_restore res.1 es = text /\ restore Exact res.2 res.1 = text.
Proof.
  intros res Ht Hsafe Hsz Hes. split.
  - destruct (redact_fresh r text ents st es Ht Hsafe Hsz Hes) as (Hs & Hn & Hr).
    by apply exact_restore_redacted.
  - destruct (redact_fresh r text ents st _ Ht Hsafe Hsz (reflexivity _)) as (Hs & Hn & Hr).
    fold res in Hr, Hs, Hn. unfold restore. destruct (vault_is_empty res.2) eqn:E.
    + unfold vault_is_empty, vault_len in E. apply Nat.eqb_eq, map_size_empty_inv in E.
      unfold vault_entries in Hr. rewrite E, map_to_list_empty in Hr. by apply redacted_done.
    + by apply exact_restore_redacted.
Qed.

(** C4: Mask, then restore as a stream: a text with no ["\["] of its own,
    redacted with a fresh vault, the result cut into any UTF-8 chunks and pushed
    through the streaming deanonymizer with the exact strategy, comes back, as
    long as no rule matches inside a placeholder an earlier rule wrote
    ([rules_safe]), the [u32] counters suffice and every placeholder fits the
    64-byte buffer ([MAX_PLACEHOLDER_LEN]); the vault's hash order is
    arbitrary. *)
Theorem redact_stream_roundtrip r text ents st es chunks :
  let res := redact_text_with_vault r text ents (with_style st) in
  sall not_open text = true ->
  rules_safe (in_set ents) (rd_rules r) (text, with_style st) = true ->
  (Z.of_nat (size (seen res.2)) <= u32_max)%Z ->
  es ≡ₚ vault_entries res.2 ->
  Forall (fun po => String.length po.1 <= MAX_PLACEHOLDER_LEN) es ->
  Forall (fun c => is_utf8 c = true) chunks -> sconcat chunks = res.1 ->
  stream_output (deanon_new es Exact) chunks = text.
Proof.
  intros res Ht Hsafe Hsz Hes Hlen Hchunks Hc.
  destruct (redact_fresh r text ents st es Ht Hsafe Hsz Hes) as (Hs & Hn & Hr). fold res in Hr.
  unfold stream_output. rewrite push_all_concat, Hc by done.
  assert (Hu : is_utf8 res.1 = true).
  { rewrite <-Hc. clear -Hchunks. induction Hchunks; [done|]. simpl. by apply is_utf8_app. }
  unfold push. simpl. destruct es as [|e es'].
  { simpl. rewrite sapp_nil_r. by apply redacted_done. }
  destruct (push_redacted _ Hs Hn (String.length res.1) text res.1) as [H1 H2]; [done..|].
  destruct (map_st _ _ (chars res.1)) as [out st']. simpl in H1, H2. subst. simpl.
  by rewrite sapp_nil_r.
Qed.
End RoundTrip.

(** The chunking of a stream does not matter: any split of the text into UTF-8
    chunks produces the output of one push of the whole, and between pushes
    the machine buffers fewer than 64 bytes, none of them outside a bracket. *)
Theorem deanon_stream_chunking es strat chunks :
  Forall (fun c => is_utf8 c = true) chunks ->
  let d := deanon_new es strat in
  stream_output d chunks = stream_output d [sconcat chunks] /\
  String.length (ds_pending (push_all d chunks).2) < MAX_PLACEHOLDER_LEN /\
  (ds_state (push_all d chunks).2 = Normal -> ds_pending (push_all d chunks).2 = "").
Proof.
  intros Hu d. split.
  - unfold stream_output. rewrite push_all_concat by done. simpl.
    destruct (push d (sconcat chunks)) as [o d']. simpl. by rewrite sapp_nil_r.
  - rewrite push_all_concat by done. unfold push, d. cbn [ds_entries ds_strategy ds_state ds_pending deanon_new].
    destruct es as [|e es']; [unfold MAX_PLACEHOLDER_LEN; simpl; split; [lia|done]|].
    assert (Hok : pending_ok (map_st (push_char (e :: es') strat) (Normal, "") (chars (sconcat chunks))).2).
    { apply map_st_inv; [|done]. intros. by apply push_char_ok. }
    destruct (map_st _ _ _) as [out [[] q]]; unfold pending_ok in Hok; simpl in *; [|done].
    subst q. unfold MAX_PLACEHOLDER_LEN. simpl. split; [lia|done].
Qed.

(** The stream loses and invents nothing: when no placeholder of the vault
    occurs in the text, every byte pushed comes out, in order, brackets and
    unfinished brackets included. *)
Theorem deanon_stream_transparent es chunks :
  Forall (fun c => is_utf8 c = true) chunks ->
  (forall p o, (p, o) ∈ es -> contains p (sconcat chunks) = false) ->
  stream_output (deanon_new es Exact) chunks = sconcat chunks.
Proof.
  intros Hu Hab. unfold stream_output. rewrite push_all_concat by done.
  unfold push. simpl. destruct es as [|e es'] eqn:Ees; [simpl; by rewrite sapp_nil_r|].
  rewrite <-Ees in *.
  pose proof (push_chars_conserve es Exact "" (Normal, "") (chars (sconcat chunks))) as H.
  rewrite sconcat_chars in H. specialize (H).
  destruct (map_st _ _ _) as [out [st q]]. simpl in *. apply H; [|done].
  intros x s y E. apply exact_restore_absent. intros p o Hin. specialize (Hab p o Hin).
  destruct (contains p s) eqn:C; [|done]. apply contains_true in C as (l & z & ->).
  rewrite E in Hab. assert (contains p (x +:+ (l +:+ p +:+ z) +:+ y) = true) as Hc; [|congruence].
  apply contains_true. exists (x +:+ l), (z +:+ y). by rewrite <-!sapp_assoc.
Qed.

(** Nested placeholders defeat the round trip: with a second rule that matches
    inside what the first wrote, one vault restores its own masked text under
    one order of its entries and not under another, so [rules_safe] is needed
    and the result depends on the hash map's iteration order. *)
Theorem nested_placeholder_order :
  exists (r : @Redactor literal_engine) text ents es1 es2,
    let res := redact_text_with_vault (H := literal_engine) r text ents (with_style LlmGuard) in
    sall not_open text = true /\
    es1 ≡ₚ vault_entries res.2 /\ es2 ≡ₚ vault_entries res.2 /\
    exact_restore res.1 es1 = text /\ exact_restore res.1 es2 <> text.
Proof.
  exists {| rd_rules := [{| rr_entity := "PAT"; rr_placeholder := "[PAT]"; rr_regex := "ghp" : @regex literal_engine |};
                         {| rr_entity := "T"; rr_placeholder := "[T]"; rr_regex := "REDACTED_PAT" : @regex literal_engine |}];
            rd_style := PlaceholderStyle.LlmGuard |}, "key ghp", {["PAT"; "T"]},
    [("[REDACTED_T_1]", "REDACTED_PAT"); ("[REDACTED_PAT_1]", "ghp")],
    [("[REDACTED_PAT_1]", "ghp"); ("[REDACTED_T_1]", "REDACTED_PAT")].
  match goal with |- let res := ?t in _ => set (res := t) end.
  assert (Hp : [("[REDACTED_T_1]", "REDACTED_PAT"); ("[REDACTED_PAT_1]", "ghp")] ≡ₚ vault_entries res.2).
  { decide_now. }
  split_and!; [reflexivity|exact Hp|by rewrite Permutation_swap|reflexivity|].
  vm_compute. discriminate.
Qed.

(** ** Concrete runs *)

Definition demo_vault_redactor : @Redactor literal_engine :=
  {| rd_rules := [{| rr_entity := "SSN"; rr_placeholder := "[SSN]"; rr_regex := "123-45-6789" : @regex literal_engine |};
                  {| rr_entity := "EMAIL"; rr_placeholder := "[EMAIL]"; rr_regex := "a@b.co" : @regex literal_engine |}];
     rd_style := PlaceholderStyle.LlmGuard |}.
Definition demo_text : string := "mail a@b.co, ssn 123-45-6789; again a@b.co.".
Definition demo_entries : list (string * string) :=
  [("[REDACTED_EMAIL_1]", "a@b.co"); ("[REDACTED_SSN_1]", "123-45-6789")].

Lemma redact_restore_roundtrip_witness :
  exact_restore "mail [REDACTED_EMAIL_1], ssn [REDACTED_SSN_1]; again [REDACTED_EMAIL_1]." demo_entries = demo_text.
Proof.
  refine (proj1 (@redact_restore_roundtrip literal_engine literal_laws demo_vault_redactor demo_text
    {["SSN"; "EMAIL"]} LlmGuard demo_entries _ _ _ _)).
  - reflexivity.
  - vm_compute. reflexivity.
  - vm_compute. discriminate.
  - decide_now.
Defined.

Lemma redact_stream_roundtrip_witness :
  stream_output (deanon_new demo_entries Exact)
    ["mail [REDA"; "CTED_EMAIL_1], ssn ["; "REDACTED_SSN_1]; again [REDACTED_EMAIL_1"; "]."] = demo_text.
Proof.
  refine (@redact_stream_roundtrip literal_engine literal_laws demo_vault_redactor demo_text
    {["SSN"; "EMAIL"]} LlmGuard demo_entries _ _ _ _ _ _ _ _).
  - reflexivity.
  - vm_compute. reflexivity.
  - vm_compute. discriminate.
  - decide_now.
  - decide_now.
  - decide_now.
  - vm_compute. reflexivity.
Defined.

Lemma deanon_stream_chunking_witness :
  stream_output (deanon_new demo_entries CaseInsensitive) ["a ["; "redacted_ssn_1"; "] b"] = "a 123-45-6789 b".
Proof.
  rewrite (proj1 (deanon_stream_chunking demo_entries CaseInsensitive ["a ["; "redacted_ssn_1"; "] b"]
    ltac:(decide_now))).
  vm_compute. reflexivity.
Defined.

Lemma deanon_stream_transparent_witness :
  stream_output (deanon_new demo_entries Exact) ["x [note] y"; " [REDACTED_"] = "x [note] y [REDACTED_".
Proof.
  refine (deanon_stream_transparent demo_entries ["x [note] y"; " [REDACTED_"] _ _).
  - decide_now.
  - intros p o Hin. unfold demo_entries in Hin.
    repeat (apply elem_of_cons in Hin as [Hin|Hin]; [injection Hin as -> ->; reflexivity|]).
    by apply not_elem_of_nil in Hin.
Defined.
