(* ===== verification/ToolGate.v ===== *)
(** * The tool gate ([src/guard/tool_gate.rs], [src/guard/sse_tool_gate.rs],
    [apply_tool_gate] of [src/proxy/mod.rs])

    The decision on one tool call, its application to a whole response, and
    the streaming accumulator that reassembles calls from deltas before it
    asks for the decision. *)

From S2P Require Import Prelude RustStr Json Regex Redact.

(** ** Patterns and decisions *)

(** [Pattern::matches]. *)
Definition matches (raw name : string) : bool :=
  match strip_suffix "*" raw with
  | Some prefix => starts_with prefix name
  | None => match strip_prefix "*" raw with
            | Some suffix => ends_with suffix name
            | None => String.eqb raw name
            end
  end.

Inductive ToolDecision :=
| Allow
| Deny (reason : string)
| Sanitize (redacted_args : value).

Definition is_deny (d : ToolDecision) : bool := match d with Deny _ => true | _ => false end.

Section Gate.
Context `{RegexEngine} `{Serde} `{JsonSchema}.

Record ToolGate := mkToolGate {
  tg_allow : option (list string);
  tg_deny : list string;
  tg_schemas : gmap string validator;
  tg_redactor : Redactor;
  tg_reject_entities : gset string;
  tg_mask_entities : gset string;
}.

Fixpoint mask_strings_in_value (redactor : Redactor) (entities : gset string) (v : value) : value :=
  match v with
  | Str s => Str (redact_text_in redactor s entities)
  | Arr items => Arr (map (mask_strings_in_value redactor entities) items)
  | Obj m => Obj (map (fun kv => (kv.1, mask_strings_in_value redactor entities kv.2)) m)
  | _ => v
  end.

Definition is_empty_set (s : gset string) : bool := bool_decide (s = ∅).

Definition evaluate (g : ToolGate) (name args_json_str : string) : ToolDecision :=
  if existsb (fun p => matches p name) (tg_deny g)
  then Deny ("tool `" +:+ name +:+ "` is on the deny list")
  else if (match tg_allow g with
           | Some allow => negb (existsb (fun p => matches p name) allow)
           | None => false
           end)
  then Deny ("tool `" +:+ name +:+ "` is not on the allow list")
  else match from_str args_json_str with
  | Err e => Deny ("tool `" +:+ name +:+ "` arguments are not valid JSON: " +:+ e)
  | Ok args =>
      let errors := match tg_schemas g !! name with
                    | Some schema => map (fun pe => pe.1 +:+ ": " +:+ pe.2) (iter_errors schema args)
                    | None => []
                    end in
      match errors with
      | _ :: _ => Deny ("tool `" +:+ name +:+ "` arguments failed schema: " +:+ join "; " errors)
      | [] =>
          if negb (is_empty_set (tg_reject_entities g))
             && contains_pii_in (tg_redactor g) args_json_str (tg_reject_entities g)
          then Deny ("tool `" +:+ name +:+ "` arguments contain rejected entity")
          else if negb (is_empty_set (tg_mask_entities g))
                  && contains_pii_in (tg_redactor g) args_json_str (tg_mask_entities g)
          then Sanitize (mask_strings_in_value (tg_redactor g) (tg_mask_entities g) args)
          else Allow
      end
  end.

Definition evaluate_openai_tool_call (g : ToolGate) (tc : value) : ToolDecision :=
  match get "function" tc with
  | None => Deny "tool call missing function field"
  | Some func =>
      match get_str "name" func with
      | None => Deny "tool call missing function.name"
      | Some name => evaluate g name (default "{}" (get_str "arguments" func))
      end
  end.

Definition evaluate_anthropic_tool_use (g : ToolGate) (tu : value) : ToolDecision :=
  match get_str "name" tu with
  | None => Deny "tool_use missing name"
  | Some name => evaluate g name (to_json (default (Obj []) (get "input" tu)))
  end.

(** ** A whole response: [apply_tool_gate] *)

(** One pass of the drain loop: what is kept and what is reported denied. *)
Definition gate_call (g : ToolGate) (kd : list value * list value) (tc : value) : list value * list value :=
  match evaluate_openai_tool_call g tc with
  | Allow => (kd.1 ++ [tc], kd.2)
  | Sanitize redacted_args =>
      (kd.1 ++ [with_field "function" (fun func =>
                  match func with
                  | Obj m => Obj (map_insert "arguments" (Str (to_json redacted_args)) m)
                  | _ => func
                  end) tc], kd.2)
  | Deny reason =>
      let name := default "?" (get "function" tc ≫= get_str "name") in
      (kd.1, kd.2 ++ [obj [("name", Str name); ("reason", Str reason)]])
  end.
Definition gate_message (g : ToolGate) (msg : value) : value :=
  match get_arr "tool_calls" msg with
  | None => msg
  | Some tool_calls =>
      let '(kept, denials) := foldl (gate_call g) ([], []) tool_calls in
      let msg' := with_field "tool_calls" (fun _ => Arr kept) msg in
      match denials with
      | [] => msg'
      | _ => match msg' with
             | Obj m => Obj (map_insert "nanoguard_denied_tools" (Arr denials) m)
             | _ => msg'
             end
      end
  end.
Definition apply_tool_gate (g : ToolGate) (resp : value) : value :=
  with_field "choices" (with_elems (with_field "message" (gate_message g))) resp.

(** ** Streaming: [StreamingToolGate] *)

Record PartialToolCall := mkPartial {
  pt_id : option string;
  pt_name : option string;
  pt_arguments : string;
}.
Definition partial_default : PartialToolCall := mkPartial None None "".

Definition merge_delta (p : PartialToolCall) (delta_tc : value) : PartialToolCall :=
  {| pt_id := match get_str "id" delta_tc with Some id => Some id | None => pt_id p end;
     pt_name := match get "function" delta_tc ≫= get_str "name" with
                | Some name => Some name | None => pt_name p end;
     pt_arguments := match get "function" delta_tc ≫= get_str "arguments" with
                     | Some args => pt_arguments p +:+ args | None => pt_arguments p end |}.

Definition into_openai_value (p : PartialToolCall) : option value :=
  name ← pt_name p;
  Some (obj [("id", Str (default "" (pt_id p)));
             ("type", Str "function");
             ("function", obj [("name", Str name);
                               ("arguments", Str (if String.eqb (pt_arguments p) "" then "{}" else pt_arguments p))])]).

Record StreamingToolGate := mkStreamGate {
  sg_gate : ToolGate;
  sg_partials : gmap Z PartialToolCall;
  sg_denied : list string;
}.
Definition stream_gate_new (g : ToolGate) : StreamingToolGate := mkStreamGate g ∅ [].

Inductive StreamGateOutcome := StreamAllow | StreamDeny (reasons : list string).

Definition delta_index (delta_tc : value) : Z := default 0%Z (get "index" delta_tc ≫= as_u64).
Definition merge_into (ps : gmap Z PartialToolCall) (delta_tc : value) : gmap Z PartialToolCall :=
  let idx := delta_index delta_tc in
  <[idx := merge_delta (default partial_default (ps !! idx)) delta_tc]> ps.

(** [for idx in indices]: take each partial out, and judge the complete ones. *)
Definition judge_index (g : ToolGate) (pr : gmap Z PartialToolCall * list string) (idx : Z)
    : gmap Z PartialToolCall * list string :=
  let partial := default partial_default (pr.1 !! idx) in
  (delete idx pr.1,
   match into_openai_value partial with
   | None => pr.2
   | Some tc_value =>
       match evaluate_openai_tool_call g tc_value with
       | Deny reason => pr.2 ++ [reason]
       | _ => pr.2
       end
   end).
Definition sorted_indices (ps : gmap Z PartialToolCall) : list Z :=
  merge_sort Z.le (elements (dom ps)).
Definition evaluate_collected (s : StreamingToolGate) : StreamGateOutcome * StreamingToolGate :=
  let '(ps, reasons) := foldl (judge_index (sg_gate s)) (sg_partials s, []) (sorted_indices (sg_partials s)) in
  match reasons with
  | [] => (StreamAllow, mkStreamGate (sg_gate s) ps (sg_denied s))
  | _ => (StreamDeny reasons, mkStreamGate (sg_gate s) ps (sg_denied s ++ reasons))
  end.

Definition choice_deltas (choice : value) : list value :=
  default [] (get "delta" choice ≫= get_arr "tool_calls").
Definition choice_finishes (choice : value) : bool :=
  match get_str "finish_reason" choice with Some f => String.eqb f "tool_calls" | None => false end.

Fixpoint observe_choices (s : StreamingToolGate) (choices : list value) : StreamGateOutcome * StreamingToolGate :=
  match choices with
  | [] => (StreamAllow, s)
  | choice :: rest =>
      let s1 := mkStreamGate (sg_gate s) (foldl merge_into (sg_partials s) (choice_deltas choice)) (sg_denied s) in
      if choice_finishes choice then evaluate_collected s1 else observe_choices s1 rest
  end.
Definition observe (s : StreamingToolGate) (event : value) : StreamGateOutcome * StreamingToolGate :=
  match get_arr "choices" event with
  | Some choices => observe_choices s choices
  | None => (StreamAllow, s)
  end.

Definition deny_event (reasons : list string) : string :=
  let payload := obj [("error", obj [("type", Str "tool_call_denied");
    ("message", Str "nanoguard tool gate denied one or more tool calls");
    ("reasons", Arr (map Str reasons))])] in
  "data: " +:+ to_json payload +:+ bytes [10; 10]%N +:+ "data: [DONE]" +:+ bytes [10; 10]%N.

End Gate.

(** ** Lemmas *)

Section GateLemmas.
Context `{RegexEngine} `{Serde} `{JsonSchema}.
Implicit Types (g : ToolGate).

(** The name check, the schema check and the two scans, as one predicate
    each. *)
Definition name_permitted g (name : string) : bool :=
  negb (existsb (fun p => matches p name) (tg_deny g)) &&
  match tg_allow g with Some allow => existsb (fun p => matches p name) allow | None => true end.
Definition schema_accepts g (name : string) (args : value) : bool :=
  match tg_schemas g !! name with
  | Some schema => match iter_errors schema args with [] => true | _ => false end
  | None => true
  end.

Lemma contains_pii_in_empty r text : contains_pii_in r text ∅ = false.
Proof.
  unfold contains_pii_in. apply existsb_false_iff. intros rule _.
  by rewrite bool_decide_eq_false_2 by set_solver.
Qed.

Lemma scan_guard r text ents :
  negb (is_empty_set ents) && contains_pii_in r text ents = contains_pii_in r text ents.
Proof.
  unfold is_empty_set. case_bool_decide as E; [|done]. subst. by rewrite contains_pii_in_empty.
Qed.

(** The decision with its reason left out. *)
Lemma evaluate_cases g name raw :
  evaluate g name raw =
    if name_permitted g name then
      match from_str raw with
      | Err e => Deny ("tool `" +:+ name +:+ "` arguments are not valid JSON: " +:+ e)
      | Ok args =>
          if schema_accepts g name args then
            if contains_pii_in (tg_redactor g) raw (tg_reject_entities g)
            then Deny ("tool `" +:+ name +:+ "` arguments contain rejected entity")
            else if contains_pii_in (tg_redactor g) raw (tg_mask_entities g)
            then Sanitize (mask_strings_in_value (tg_redactor g) (tg_mask_entities g) args)
            else Allow
          else evaluate g name raw
      end
    else evaluate g name raw.
Proof.
  unfold evaluate, name_permitted, schema_accepts. rewrite !scan_guard.
  destruct (existsb _ (tg_deny g)); [done|].
  destruct (tg_allow g) as [allow|]; [destruct (existsb _ allow); simpl; [|done]|]; simpl;
    (destruct (from_str raw) as [args|e]; [|done]);
    (destruct (tg_schemas g !! name) as [sc|]; [|done]); by destruct (iter_errors sc args).
Qed.

Lemma evaluate_not_permitted g name raw : name_permitted g name = false -> is_deny (evaluate g name raw) = true.
Proof.
  unfold name_permitted, evaluate. destruct (existsb _ (tg_deny g)); [done|]. simpl.
  destruct (tg_allow g); [|done]. by intros ->.
Qed.

Lemma evaluate_schema_fails g name raw args :
  name_permitted g name = true -> from_str raw = Ok args -> schema_accepts g name args = false ->
  is_deny (evaluate g name raw) = true.
Proof.
  unfold name_permitted, schema_accepts, evaluate. intros Hn -> Hs.
  destruct (existsb _ (tg_deny g)); [done|]. simpl in Hn.
  destruct (tg_allow g) as [allow|]; [rewrite Hn; simpl|];
    (destruct (tg_schemas g !! name) as [sc|]; [|done]); by destruct (iter_errors sc args).
Qed.

Lemma deny_no_clean d (clean : value -> Prop) (masked : bool) (f : value -> value) :
  is_deny d = true -> (forall a, ~ clean a) ->
  (d = Allow <-> (exists a, clean a) /\ masked = false) /\
  (forall m, d = Sanitize m <-> exists a, clean a /\ masked = true /\ m = f a) /\
  (is_deny d = true <-> ~ exists a, clean a).
Proof. intros Hd Hc. destruct d; try done. split_and!; [|intros m|]; split; naive_solver. Qed.
End GateLemmas.

(** ** Properties *)

(** Wildcards: a trailing [*] matches exactly the names with that prefix;
    otherwise a leading [*] matches exactly the names with that suffix;
    otherwise a pattern matches only itself. *)
Theorem pattern_matches_spec name :
  (forall prefix, matches (prefix +:+ "*") name = true <-> exists rest, name = prefix +:+ rest) /\
  (forall suffix, ends_with "*" ("*" +:+ suffix) = false ->
     (matches ("*" +:+ suffix) name = true <-> exists rest, name = rest +:+ suffix)) /\
  (forall raw, starts_with "*" raw = false -> ends_with "*" raw = false ->
     (matches raw name = true <-> raw = name)).
Proof.
  unfold matches. split_and!.
  - intros prefix. rewrite (proj2 (strip_suffix_Some "*" (prefix +:+ "*") prefix)) by done.
    apply starts_with_true.
  - intros suffix He. unfold ends_with in He. destruct (strip_suffix _ _); [done|].
    rewrite strip_prefix_app. apply ends_with_true.
  - intros raw Hs He. unfold ends_with, starts_with in *.
    destruct (strip_suffix "*" raw); [done|]. destruct (strip_prefix "*" raw); [done|].
    apply String.eqb_eq.
Qed.

Lemma pattern_matches_spec_witness :
  matches "delete_*" "delete_user" = true /\ matches "*_admin" "user_admin" = true /\
  matches "send_email" "send" = false.
Proof.
  destruct (pattern_matches_spec "user_admin") as (_ & H & _).
  split; [|split]; [reflexivity| |reflexivity].
  apply (H "_admin"); [reflexivity|]. exists "user". reflexivity.
Defined.

Section GateSpec.
Context `{RegexEngine} `{Serde} `{JsonSchema}.
Implicit Types (g : ToolGate).

(** The decision on one call, completely: it is allowed exactly when its
    name is permitted (no deny pattern, and an allow pattern in closed
    mode), its arguments parse, satisfy the tool's schema if it has one, and
    hold neither a rejected nor a masked entity; it is sanitized exactly
    when the same holds but a masked entity occurs, and then with every
    string leaf masked; and it is denied in every other case. *)
Theorem evaluate_decision g name raw :
  let clean args := name_permitted g name = true /\ from_str raw = Ok args /\
    schema_accepts g name args = true /\
    contains_pii_in (tg_redactor g) raw (tg_reject_entities g) = false in
  let masked := contains_pii_in (tg_redactor g) raw (tg_mask_entities g) in
  (evaluate g name raw = Allow <-> (exists args, clean args) /\ masked = false) /\
  (forall m, evaluate g name raw = Sanitize m <->
     exists args, clean args /\ masked = true /\
       m = mask_strings_in_value (tg_redactor g) (tg_mask_entities g) args) /\
  (is_deny (evaluate g name raw) = true <-> ~ exists args, clean args).
Proof.
  simpl. destruct (name_permitted g name) eqn:Hn.
  2: { apply deny_no_clean; [by apply evaluate_not_permitted|]. by intros a (? & _). }
  destruct (from_str raw) as [args|e] eqn:Hp.
  2: { apply deny_no_clean; [by rewrite evaluate_cases, Hn, Hp|]. by intros a (_ & ? & _). }
  destruct (schema_accepts g name args) eqn:Hs.
  2: { apply deny_no_clean; [by eapply evaluate_schema_fails|]. intros a (_ & [= ->] & ? & _). congruence. }
  destruct (contains_pii_in _ _ (tg_reject_entities g)) eqn:Hr.
  { apply deny_no_clean; [by rewrite evaluate_cases, Hn, Hp, Hs, Hr|]. by intros a (_ & _ & _ & ?). }
  rewrite evaluate_cases, Hn, Hp, Hs, Hr.
  destruct (contains_pii_in _ _ (tg_mask_entities g)); simpl; split_and!; naive_solver.
Qed.

(** Both wire shapes end in the same decision, and no call on the deny list
    gets through either of them, whatever the allow list, the schemas and
    the arguments are. *)
Theorem deny_list_wins g name p tc tu :
  In p (tg_deny g) -> matches p name = true ->
  (get "function" tc ≫= get_str "name") = Some name -> get_str "name" tu = Some name ->
  evaluate_openai_tool_call g tc = Deny ("tool `" +:+ name +:+ "` is on the deny list") /\
  evaluate_anthropic_tool_use g tu = Deny ("tool `" +:+ name +:+ "` is on the deny list").
Proof.
  intros Hin Hm Htc Htu.
  assert (Hd : existsb (fun p => matches p name) (tg_deny g) = true) by (apply existsb_exists; eauto).
  unfold evaluate_openai_tool_call, evaluate_anthropic_tool_use. rewrite Htu.
  destruct (get "function" tc) as [f|]; [|done]. simpl in Htc. rewrite Htc.
  unfold evaluate. by rewrite Hd.
Qed.
End GateSpec.

(** ** Whole responses *)

Section Response.
Context `{RegexEngine} `{Serde} `{JsonSchema}.
Implicit Types (g : ToolGate).

(** What becomes of one call: the call that stays, and the report. *)
Definition set_arguments (args : value) (tc : value) : value :=
  with_field "function" (fun func =>
    match func with Obj m => Obj (map_insert "arguments" (Str (to_json args)) m) | _ => func end) tc.
Definition keep_call g (tc : value) : option value :=
  match evaluate_openai_tool_call g tc with
  | Allow => Some tc
  | Sanitize args => Some (set_arguments args tc)
  | Deny _ => None
  end.
Definition denial g (tc : value) : option value :=
  match evaluate_openai_tool_call g tc with
  | Deny reason => Some (obj [("name", Str (default "?" (get "function" tc ≫= get_str "name"))); ("reason", Str reason)])
  | _ => None
  end.

Lemma gate_calls_spec g kd calls :
  foldl (gate_call g) kd calls = (kd.1 ++ omap (keep_call g) calls, kd.2 ++ omap (denial g) calls).
Proof.
  revert kd. induction calls as [|tc calls IH]; intros [k d]; simpl; [by rewrite !app_nil_r|].
  rewrite IH. unfold gate_call, keep_call, denial.
  destruct (evaluate_openai_tool_call g tc); simpl; by rewrite <-!(assoc_L (++)).
Qed.

(** A sanitized call carries the masked arguments. *)
Lemma set_arguments_get args tc :
  (get "function" tc ≫= get_str "name") <> None ->
  (get "function" (set_arguments args tc) ≫= get_str "arguments") = Some (to_json args).
Proof.
  unfold set_arguments. rewrite with_field_get. destruct (get "function" tc) as [f|]; [|done].
  simpl. unfold get_str. destruct f; try done. simpl. by rewrite map_get_insert_eq.
Qed.

Lemma gate_message_spec g msg calls :
  get_arr "tool_calls" msg = Some calls ->
  get_arr "tool_calls" (gate_message g msg) = Some (omap (keep_call g) calls) /\
  get "nanoguard_denied_tools" (gate_message g msg) =
    match omap (denial g) calls with [] => get "nanoguard_denied_tools" msg | ds => Some (Arr ds) end /\
  (forall k, k <> "tool_calls" -> k <> "nanoguard_denied_tools" -> get k (gate_message g msg) = get k msg).
Proof.
  intros Hc. unfold gate_message. rewrite Hc, gate_calls_spec. simpl.
  set (msg' := with_field "tool_calls" _ msg).
  assert (Ht : get "tool_calls" msg' = Some (Arr (omap (keep_call g) calls))).
  { unfold msg'. rewrite with_field_get. unfold get_arr in Hc. by destruct (get "tool_calls" msg). }
  assert (Hk : forall k, k <> "tool_calls" -> get k msg' = get k msg).
  { intros k Hk. by apply with_field_get_ne. }
  destruct (omap (denial g) calls) as [|d ds].
  - unfold get_arr. rewrite Ht. split_and!; auto.
  - destruct msg' as [| | | | |m] eqn:Em; try done. unfold get_arr. simpl in *.
    rewrite map_get_insert_eq, map_get_insert_ne, Ht by done.
    split_and!; auto. intros k Hk1 Hk2. rewrite map_get_insert_ne by done. auto.
Qed.

(** How a gated choice relates to the original one. *)
Definition gated g (c c' : value) : Prop :=
  (forall k, k <> "message" -> get k c' = get k c) /\
  match get "message" c with
  | None => c' = c
  | Some msg => exists msg', get "message" c' = Some msg' /\
      match get_arr "tool_calls" msg with
      | None => msg' = msg
      | Some calls =>
          get_arr "tool_calls" msg' = Some (omap (keep_call g) calls) /\
          get "nanoguard_denied_tools" msg' =
            match omap (denial g) calls with [] => get "nanoguard_denied_tools" msg | ds => Some (Arr ds) end /\
          (forall k, k <> "tool_calls" -> k <> "nanoguard_denied_tools" -> get k msg' = get k msg)
      end
  end.

(** The tool gate on a response: in every choice the surviving calls are the
    ones not denied, in order, an allowed call verbatim and a sanitized one
    with its arguments replaced by the masked JSON; each denied call is
    reported under [nanoguard_denied_tools]; nothing else in the response
    changes.  In particular no denied call reaches the client. *)
Theorem apply_tool_gate_spec g resp choices :
  get_arr "choices" resp = Some choices ->
  (forall k, k <> "choices" -> get k (apply_tool_gate g resp) = get k resp) /\
  (exists choices', get_arr "choices" (apply_tool_gate g resp) = Some choices' /\
     Forall2 (gated g) choices choices') /\
  (forall calls tc', In tc' (omap (keep_call g) calls) ->
     exists tc, In tc calls /\ is_deny (evaluate_openai_tool_call g tc) = false /\
       match evaluate_openai_tool_call g tc with
       | Sanitize args => (get "function" tc' ≫= get_str "arguments") = Some (to_json args)
       | _ => tc' = tc
       end).
Proof.
  intros Hc. split_and!.
  - intros k Hk. by apply with_field_get_ne.
  - unfold get_arr in *. unfold apply_tool_gate. rewrite with_field_get.
    destruct (get "choices" resp) as [[| | | |l|]|]; try done. injection Hc as ->. simpl.
    eexists. split; [done|]. apply Forall2_fmap_r, Forall_Forall2_diag, Forall_forall. intros c _. split.
    + intros k Hk. by apply with_field_get_ne.
    + destruct (get "message" c) as [msg|] eqn:Em; [|by apply with_field_absent].
      exists (gate_message g msg). split; [by rewrite with_field_get, Em|].
      destruct (get_arr "tool_calls" msg) as [calls|] eqn:Et; [by apply gate_message_spec|].
      unfold gate_message. by rewrite Et.
  - intros calls tc' (tc & Hin & Hk)%list_elem_of_In%list_elem_of_omap.
    exists tc. split; [by apply list_elem_of_In|]. unfold keep_call in Hk.
    destruct (evaluate_openai_tool_call g tc) eqn:Ee; simplify_eq; [done|split; [done|]].
    apply set_arguments_get. unfold evaluate_openai_tool_call in Ee.
    destruct (get "function" tc) as [f|]; [|done]. simpl. by destruct (get_str "name" f).
Qed.

(** ** Masking a JSON value *)

Fixpoint strings_of (v : value) : list string :=
  match v with
  | Str s => [s]
  | Arr items => concat (map strings_of items)
  | Obj m => concat (map (fun kv => strings_of kv.2) m)
  | _ => []
  end.
(** The value with its string leaves blanked: the shape and the keys. *)
Fixpoint shape_of (v : value) : value :=
  match v with
  | Str _ => Str ""
  | Arr items => Arr (map shape_of items)
  | Obj m => Obj (map (fun kv => (kv.1, shape_of kv.2)) m)
  | _ => v
  end.

(** Masking tool arguments changes string leaves only: every leaf is
    replaced by its redaction, in place, and the structure, the object keys,
    the numbers, booleans and nulls are kept. *)
Theorem mask_strings_in_value_spec r ents v :
  shape_of (mask_strings_in_value r ents v) = shape_of v /\
  strings_of (mask_strings_in_value r ents v) = map (fun s => redact_text_in r s ents) (strings_of v).
Proof.
  induction v as [| | | |l IH|m IH] using value_ind'; simpl; try done.
  - split; [f_equal|]; (induction IH as [|x l [Hx1 Hx2] _ IHl]; simpl; [done|]); rewrite ?map_app; congruence.
  - split; [f_equal|]; (induction IH as [|[k x] l [Hx1 Hx2] _ IHl]; simpl in *; [done|]);
      rewrite ?map_app; congruence.
Qed.
End Response.

(** ** Streaming *)

Section Stream.
Context `{RegexEngine} `{Serde} `{JsonSchema}.
Implicit Types (g : ToolGate) (ps : gmap Z PartialToolCall).

(** What one event contributes: the deltas of its choices, up to and
    including the first choice that finishes with [tool_calls]. *)
Fixpoint observed_choices (cs : list value) : list value :=
  match cs with
  | [] => []
  | c :: cs' => c :: (if choice_finishes c then [] else observed_choices cs')
  end.
Definition event_choices (event : value) : list value := default [] (get_arr "choices" event).
Definition event_deltas (event : value) : list value :=
  concat (map choice_deltas (observed_choices (event_choices event))).
Definition event_finishes (event : value) : bool := existsb choice_finishes (event_choices event).

Definition delta_name (d : value) : option string := get "function" d ≫= get_str "name".
Definition delta_args (d : value) : option string := get "function" d ≫= get_str "arguments".

(** The call that the deltas [l] of one index add up to, as the upstream would
    have sent it in a whole response: the last name given, and the fragments of
    its arguments joined, each field present when some delta gave it. *)
Definition whole_call (l : list value) : value :=
  obj [("function", obj ((match last (omap delta_name l) with Some n => [("name", Str n)] | None => [] end) ++
                         (match omap delta_args l with [] => [] | fs => [("arguments", Str (sconcat fs))] end)))].
(** The deltas give a name, and arguments that are not the empty text, if any. *)
Definition well_sent (l : list value) : bool :=
  match last (omap delta_name l) with Some _ => true | None => false end &&
  match omap delta_args l with [] => true | fs => negb (String.eqb (sconcat fs) "") end.
Definition deltas_of (ds : list value) (i : Z) : list value := filter (fun d => delta_index d = i) ds.
(** The reasons the whole-response gate reports for a message with these calls. *)
Definition whole_reasons g (calls : list value) : list string :=
  omap (get_str "reason") (default [] (get_arr "nanoguard_denied_tools" (gate_message g (obj [("tool_calls", Arr calls)])))).

Lemma merge_deltas p l :
  pt_arguments (foldl merge_delta p l) = pt_arguments p +:+ sconcat (omap delta_args l) /\
  pt_name (foldl merge_delta p l) =
    match last (omap delta_name l) with Some n => Some n | None => pt_name p end.
Proof.
  revert p. induction l as [|d l IH]; intros p; simpl; [by rewrite sapp_nil_r|].
  destruct (IH (merge_delta p d)) as [-> ->]. unfold merge_delta, delta_args, delta_name. simpl.
  split.
  - destruct (get "function" d ≫= get_str "arguments"); simpl; [by sapp|done].
  - destruct (get "function" d ≫= get_str "name") as [n|]; simpl; [|done].
    fold delta_name. by rewrite last_cons; destruct (last _).
Qed.

Lemma merge_into_lookup ps ds i :
  foldl merge_into ps ds !! i =
    match filter (fun d => delta_index d = i) ds with
    | [] => ps !! i
    | l => Some (foldl merge_delta (default partial_default (ps !! i)) l)
    end.
Proof.
  revert ps. induction ds as [|d ds IH]; intros ps; simpl; [done|].
  rewrite IH, filter_cons. unfold merge_into. rewrite lookup_insert.
  destruct (decide (delta_index d = i)) as [<-|]; [|done]. by destruct (filter _ ds).
Qed.

(** The judging loop over distinct indices. *)
Definition partial_verdict g ps (i : Z) : option string :=
  match into_openai_value (default partial_default (ps !! i)) with
  | None => None
  | Some tc => match evaluate_openai_tool_call g tc with Deny r => Some r | _ => None end
  end.
Lemma judge_indices g l : NoDup l -> forall ps rs,
  (forall k, (foldl (judge_index g) (ps, rs) l).1 !! k = if decide (k ∈ l) then None else ps !! k) /\
  (foldl (judge_index g) (ps, rs) l).2 = rs ++ omap (partial_verdict g ps) l.
Proof.
  induction 1 as [|i l Hni _ IH]; intros ps rs; simpl.
  { split; [done|by rewrite app_nil_r]. }
  unfold judge_index at 2 4. simpl.
  edestruct IH as [Hk Hr]. split.
  - intros k. rewrite Hk, lookup_delete. repeat case_decide; set_solver.
  - rewrite Hr.
    assert (omap (partial_verdict g (delete i ps)) l = omap (partial_verdict g ps) l) as ->.
    { apply list_omap_ext, Forall_Forall2_diag, Forall_forall. intros j Hj. unfold partial_verdict.
      rewrite lookup_delete_ne; [done|]. by intros ->. }
    unfold partial_verdict at 2. destruct (into_openai_value _) as [tc|]; [|done].
    destruct (evaluate_openai_tool_call g tc); simpl; by rewrite <-?(assoc_L (++)).
Qed.

Lemma sorted_indices_spec ps :
  StronglySorted Z.le (sorted_indices ps) /\ NoDup (sorted_indices ps) /\
  forall i, i ∈ sorted_indices ps <-> is_Some (ps !! i).
Proof.
  unfold sorted_indices. split_and!.
  - apply StronglySorted_merge_sort; apply _.
  - rewrite merge_sort_Permutation. apply NoDup_elements.
  - intros i. rewrite merge_sort_Permutation, elem_of_elements, elem_of_dom. done.
Qed.

Lemma evaluate_collected_spec s :
  let reasons := omap (partial_verdict (sg_gate s) (sg_partials s)) (sorted_indices (sg_partials s)) in
  (evaluate_collected s).1 = match reasons with [] => StreamAllow | rs => StreamDeny rs end /\
  sg_partials (evaluate_collected s).2 = ∅ /\
  sg_denied (evaluate_collected s).2 = sg_denied s ++ reasons.
Proof.
  destruct (sorted_indices_spec (sg_partials s)) as (_ & Hnd & Hin).
  destruct (judge_indices (sg_gate s) _ Hnd (sg_partials s) []) as [Hk Hr]. simpl in Hr.
  unfold evaluate_collected. destruct (foldl _ _ _) as [ps rs]. simpl in *. subst rs.
  assert (ps = ∅) as ->.
  { apply map_empty. intros k. rewrite Hk. case_decide as Hd; [done|].
    apply eq_None_not_Some. by rewrite <-Hin. }
  destruct (omap _ _); simpl; [by rewrite app_nil_r|done].
Qed.

Lemma observe_choices_spec s cs :
  let ps := foldl merge_into (sg_partials s) (concat (map choice_deltas (observed_choices cs))) in
  let s' := mkStreamGate (sg_gate s) ps (sg_denied s) in
  observe_choices s cs = if existsb choice_finishes cs then evaluate_collected s' else (StreamAllow, s').
Proof.
  revert s. induction cs as [|c cs IH]; intros s; simpl; [by destruct s|].
  destruct (choice_finishes c); simpl; [by rewrite app_nil_r|]. rewrite IH. simpl. by rewrite foldl_app.
Qed.

Lemma observe_spec s event :
  let s' := mkStreamGate (sg_gate s) (foldl merge_into (sg_partials s) (event_deltas event)) (sg_denied s) in
  observe s event = if event_finishes event then evaluate_collected s' else (StreamAllow, s').
Proof.
  unfold observe, event_deltas, event_finishes, event_choices.
  destruct (get_arr "choices" event) as [cs|]; simpl; [apply observe_choices_spec|by destruct s].
Qed.

Lemma observe_prefix g evs :
  Forall (fun e => event_finishes e = false) evs ->
  foldl (fun s e => (observe s e).2) (stream_gate_new g) evs =
    mkStreamGate g (foldl merge_into ∅ (concat (map event_deltas evs))) [].
Proof.
  induction evs as [|e evs IH] using rev_ind; intros Hall; [done|].
  apply Forall_app in Hall as [Hall He]. rewrite Forall_singleton in He.
  rewrite foldl_app, IH by done. simpl. rewrite observe_spec, He. simpl.
  by rewrite map_app, concat_app, foldl_app; simpl; rewrite app_nil_r.
Qed.

(** The accumulator after the deltas [ds]. *)
Lemma partials_lookup ds i :
  foldl merge_into ∅ ds !! i =
    match filter (fun d => delta_index d = i) ds with
    | [] => None | l => Some (foldl merge_delta partial_default l) end.
Proof. by rewrite merge_into_lookup, lookup_empty. Qed.

Lemma partials_indices ds i : i ∈ sorted_indices (foldl merge_into ∅ ds) <-> i ∈ map delta_index ds.
Proof.
  destruct (sorted_indices_spec (foldl merge_into ∅ ds)) as (_ & _ & Hin).
  rewrite Hin, partials_lookup. change (map delta_index ds) with (delta_index <$> ds).
  rewrite list_elem_of_fmap. split.
  - destruct (filter _ ds) as [|d l] eqn:E; [by intros [? ?]|intros _].
    assert (d ∈ filter (fun d => delta_index d = i) ds) as Hd by (rewrite E; by left).
    apply list_elem_of_filter in Hd as [? ?]. eauto.
  - intros (d & -> & Hd). destruct (filter _ ds) eqn:E; [|eauto].
    assert (d ∈ filter (fun d' => delta_index d' = delta_index d) ds) as Hf by (by apply list_elem_of_filter).
    rewrite E in Hf. by apply not_elem_of_nil in Hf.
Qed.

Definition deny_reason (d : ToolDecision) : option string := match d with Deny r => Some r | _ => None end.
Lemma whole_reasons_spec g calls : whole_reasons g calls = omap (fun tc => deny_reason (evaluate_openai_tool_call g tc)) calls.
Proof.
  unfold whole_reasons. destruct (gate_message_spec g (obj [("tool_calls", Arr calls)]) calls eq_refl) as (_ & Hd & _).
  unfold get_arr. rewrite Hd. transitivity (omap (get_str "reason") (omap (denial g) calls)).
  { by destruct (omap (denial g) calls). }
  clear Hd. induction calls as [|tc calls IH]; [done|]. cbn [omap list_omap]. unfold denial at 1.
  destruct (evaluate_openai_tool_call g tc); cbn [deny_reason]; first [exact IH|cbn [omap list_omap]; by rewrite <-IH].
Qed.

(** On deltas that are well sent, the judged partial and the whole call get the
    same decision. *)
Lemma well_sent_verdict g l :
  well_sent l = true ->
  match into_openai_value (foldl merge_delta partial_default l) with
  | None => None
  | Some tc => deny_reason (evaluate_openai_tool_call g tc)
  end = deny_reason (evaluate_openai_tool_call g (whole_call l)).
Proof.
  unfold well_sent, into_openai_value, whole_call. destruct (merge_deltas partial_default l) as [-> ->].
  destruct (last (omap delta_name l)) as [n|]; [|done].
  destruct (omap delta_args l) as [|a fs]; [done|].
  cbn [andb pt_arguments partial_default String.append]. destruct (String.eqb (sconcat (a :: fs)) "") eqn:E; [done|].
  intros _. done.
Qed.
Lemma partials_verdicts g ds (l : list Z) :
  Forall (fun i => i ∈ map delta_index ds /\ well_sent (deltas_of ds i) = true) l ->
  omap (partial_verdict g (foldl merge_into ∅ ds)) l = whole_reasons g (map (fun i => whole_call (deltas_of ds i)) l).
Proof.
  rewrite whole_reasons_spec. induction 1 as [|i l [Hin Hw] _ IH]; [done|].
  cbn [map omap list_omap]. rewrite <-well_sent_verdict by done.
  unfold partial_verdict at 1. rewrite partials_lookup. fold (deltas_of ds i).
  destruct (deltas_of ds i) as [|d l'] eqn:E; [done|]. cbn [default from_option id].
  destruct (into_openai_value _) as [tc|]; [|exact IH]. unfold deny_reason at 1.
  by destruct (evaluate_openai_tool_call g tc); rewrite IH.
Qed.

(** C35: The streaming gate decides like the whole-response gate on reassembled
    calls, when every call is sent with a name and with arguments that are not
    the empty text.  Over any events before the finishing one, nothing is
    denied; when the finishing event arrives, the deltas seen so far are
    grouped by index alone (whichever choice they belong to), in index order,
    the name of each call being the last one sent and its arguments the
    concatenation of the fragments, however they were cut and interleaved; the
    stream is denied with exactly the reasons that gate reports for a message
    with those calls, and the accumulator is empty again. *)
Theorem stream_gate_run g evs fin :
  Forall (fun e => event_finishes e = false) evs -> event_finishes fin = true ->
  let s := foldl (fun s e => (observe s e).2) (stream_gate_new g) evs in
  let ds := concat (map event_deltas (evs ++ [fin])) in
  Forall (fun i => well_sent (deltas_of ds i) = true) (map delta_index ds) ->
  (forall pre e post, evs = pre ++ e :: post ->
     (observe (foldl (fun s e => (observe s e).2) (stream_gate_new g) pre) e).1 = StreamAllow) /\
  exists indices, StronglySorted Z.le indices /\ NoDup indices /\
    (forall i, i ∈ indices <-> i ∈ map delta_index ds) /\
    let reasons := whole_reasons g (map (fun i => whole_call (deltas_of ds i)) indices) in
    (observe s fin).1 = match reasons with [] => StreamAllow | rs => StreamDeny rs end /\
    sg_partials (observe s fin).2 = ∅ /\ sg_denied (observe s fin).2 = reasons.
Proof.
  intros Hev Hfin s ds Hws. split.
  { intros pre e post ->. apply Forall_app in Hev as [_ Hev]. inversion_clear Hev as [|? ? He _].
    by rewrite observe_spec, He. }
  unfold s. rewrite observe_prefix by done. rewrite observe_spec, Hfin. simpl.
  rewrite <-foldl_app.
  assert (concat (map event_deltas evs) ++ event_deltas fin = ds) as ->.
  { unfold ds. rewrite map_app, concat_app. simpl. by rewrite app_nil_r. }
  destruct (sorted_indices_spec (foldl merge_into ∅ ds)) as (Hs & Hnd & _).
  destruct (evaluate_collected_spec (mkStreamGate g (foldl merge_into ∅ ds) [])) as (Ho & Hp & Hd).
  assert (Hall : Forall (fun i => i ∈ map delta_index ds /\ well_sent (deltas_of ds i) = true)
    (sorted_indices (foldl merge_into ∅ ds))).
  { apply Forall_forall. intros i Hi%partials_indices. split; [done|]. rewrite Forall_forall in Hws. by apply Hws. }
  simpl in *. rewrite partials_verdicts in Ho, Hd by exact Hall.
  exists (sorted_indices (foldl merge_into ∅ ds)). split_and!; auto using partials_indices.
Qed.
End Stream.

(** ** Concrete runs *)

(** A parser for the two argument texts of the runs, and no schemas. *)
#[local] Instance demo_serde : Serde := {|
  from_str s := if String.eqb s "{}" then Ok (Obj [])
                else if String.eqb s "{id:7}" then Ok (obj [("id", Num (PosInt 7))])
                else Err "expected value at line 1 column 1";
  to_json _ := "{}";
|}.
#[local] Instance demo_schema : JsonSchema :=
  {| validator := unit; validator_for _ := Ok tt; iter_errors _ _ := [] |}.
Definition demo_gate : @ToolGate literal_engine demo_schema :=
  mkToolGate None ["delete_*"] ∅ demo_redactor ∅ ∅.
Definition demo_call (name args : string) : value :=
  obj [("function", obj [("name", Str name); ("arguments", Str args)])].

Lemma deny_list_wins_witness :
  evaluate_openai_tool_call demo_gate (demo_call "delete_user" "{}") =
    Deny "tool `delete_user` is on the deny list".
Proof.
  refine (proj1 (deny_list_wins demo_gate "delete_user" "delete_*" (demo_call "delete_user" "{}")
    (obj [("name", Str "delete_user")]) _ _ _ _)); try reflexivity. by left.
Defined.

Definition demo_response : value :=
  obj [("choices", Arr [obj [("message",
    obj [("tool_calls", Arr [demo_call "delete_user" "{}"; demo_call "search" "{id:7}"])])]])].
Lemma apply_tool_gate_spec_witness :
  exists choices', get_arr "choices" (apply_tool_gate demo_gate demo_response) = Some choices' /\
    Forall2 (gated demo_gate) (event_choices demo_response) choices'.
Proof.
  refine (proj1 (proj2 (apply_tool_gate_spec demo_gate demo_response (event_choices demo_response) _))).
  reflexivity.
Defined.

Definition demo_delta (i : Z) (fields : list (string * value)) : value :=
  obj [("choices", Arr [obj [("delta", obj [("tool_calls",
    Arr [obj [("index", Num (PosInt i)); ("function", obj fields)]])])]])].
Definition demo_finish : value := obj [("choices", Arr [obj [("finish_reason", Str "tool_calls")]])].
Definition demo_deltas : list value :=
  [demo_delta 1 [("name", Str "search")]; demo_delta 0 [("name", Str "delete_user"); ("arguments", Str "{i")];
   demo_delta 1 [("arguments", Str "{}")]; demo_delta 0 [("arguments", Str "d:7}")]].
Lemma stream_gate_run_witness :
  sg_partials (observe (foldl (fun s e => (observe s e).2) (stream_gate_new demo_gate) demo_deltas) demo_finish).2 = ∅ /\
  (observe (foldl (fun s e => (observe s e).2) (stream_gate_new demo_gate) demo_deltas) demo_finish).1 =
    StreamDeny ["tool `delete_user` is on the deny list"].
Proof.
  split; [|vm_compute; reflexivity].
  destruct (stream_gate_run demo_gate demo_deltas demo_finish) as (_ & l & _ & _ & _ & _ & H & _).
  - decide_now.
  - reflexivity.
  - vm_compute. repeat constructor.
  - exact H.
Defined.

(** Where the two gates differ.  A call sent without a name, or with an empty
    argument text, passes the streaming gate and is denied by the whole-response
    gate. *)
Definition stream_verdict (evs : list value) : StreamGateOutcome :=
  (observe (foldl (fun s e => (observe s e).2) (stream_gate_new demo_gate) evs) demo_finish).1.
Theorem stream_gate_lenient :
  (stream_verdict [demo_delta 0 [("arguments", Str "{}")]] = StreamAllow /\
   whole_reasons demo_gate [whole_call (event_deltas (demo_delta 0 [("arguments", Str "{}")]))] =
     ["tool call missing function.name"]) /\
  (stream_verdict [demo_delta 0 [("name", Str "search"); ("arguments", Str "")]] = StreamAllow /\
   whole_reasons demo_gate [whole_call (event_deltas (demo_delta 0 [("name", Str "search"); ("arguments", Str "")]))] =
     ["tool `search` arguments are not valid JSON: expected value at line 1 column 1"]).
Proof. vm_compute. done. Qed.

(** The accumulator is keyed by the call's index and not by the choice: with two
    choices, a denied call of the first hides behind the name of the second
    choice's call of the same index, where the whole-response gate denies it. *)
Definition choice_delta (i : Z) (name : string) : value :=
  obj [("index", Num (PosInt i)); ("delta", obj [("tool_calls",
    Arr [obj [("index", Num (PosInt 0)); ("function", obj [("name", Str name)])]])])].
Theorem choices_share_indices :
  stream_verdict [obj [("choices", Arr [choice_delta 0 "delete_user"; choice_delta 1 "search"])]] = StreamAllow /\
  whole_reasons demo_gate (map (fun d => whole_call [d]) (choice_deltas (choice_delta 0 "delete_user"))) =
    ["tool `delete_user` is on the deny list"] /\
  whole_reasons demo_gate (map (fun d => whole_call [d]) (choice_deltas (choice_delta 1 "search"))) = [].
Proof. vm_compute. done. Qed.
