(* ===== verification/Sse.v ===== *)
(** * The SSE filter ([src/proxy/sse.rs])

    [SseFilter] buffers the bytes of an upstream stream, cuts them into events
    at blank lines, and rewrites [choices[].delta.content] of each event
    through a transform.  The transform is a closure that may own state (the
    streaming deanonymizer), so it is a state-passing function here. *)

From S2P Require Import Prelude RustStr Json.

Definition crlf2 : string := bytes [13; 10; 13; 10]%N.
Definition lf2 : string := bytes [10; 10]%N.

(** ** Event boundaries *)

(** [find_event_end]: the split point and the bytes to consume, from offset [i]. *)
Fixpoint find_event_end_from (i : nat) (buf : string) : option (nat * nat) :=
  match buf with
  | String a (String b _ as rest) =>
      if Ascii.eqb a nl && Ascii.eqb b nl then Some (i, i + 2)
      else if starts_with crlf2 buf then Some (i, i + 4)
      else find_event_end_from (S i) rest
  | _ => None
  end.
Definition find_event_end (buf : string) : option (nat * nat) := find_event_end_from 0 buf.

Definition with_terminator (raw : string) : string := raw +:+ lf2.

Section Filter.
Context `{Serde} {T : Type} (transform : T -> string -> string * T).

(** ** One event *)

(** [filter_delta_content]: rewrite every [choices[].delta.content] string; the
    flag tells whether any changed. *)
Definition filter_content (st : T * bool) (content : value) : value * (T * bool) :=
  match as_str content with
  | None => (content, st)
  | Some text =>
      let '(filtered, t') := transform st.1 text in
      if String.eqb filtered text then (content, (t', st.2)) else (Str filtered, (t', true))
  end.
Definition filter_delta_content (t : T) (val : value) : value * (T * bool) :=
  field_mut "choices" (elems_mut (field_mut "delta" (field_mut "content" filter_content))) (t, false) val.

(** One iteration of the line loop of [process_event]. *)
Definition process_line (st : T * bool) (line : string) : string * (T * bool) :=
  let stripped := strip_suffix (one cr) line in
  let work := default line stripped in
  match strip_prefix "data:" work with
  | None => (line, st)
  | Some p =>
      let payload := trim_start p in
      if String.eqb payload "[DONE]" || String.eqb payload "" then (line, st)
      else match from_str payload with
           | Err _ => (line, st)
           | Ok val =>
               let '(val', (t', ch)) := filter_delta_content st.1 val in
               ("data: " +:+ to_json val' +:+ (match stripped with Some _ => one cr | None => "" end),
                (t', st.2 || ch))
           end
  end.
Definition process_event (t : T) (raw : string) : string * T :=
  if negb (is_utf8 raw) then (with_terminator raw, t)
  else if contains "[DONE]" raw || negb (contains "data:" raw) then (with_terminator raw, t)
  else
    let '(ls, (t', changed)) := map_st process_line (t, false) (split_byte nl raw) in
    ((if changed then join (one nl) ls else raw) +:+ lf2, t').

(** ** The filter *)

Record SseFilter := mkSse { sse_buffer : string; sse_state : T }.

(** [while let Some(end) = find_event_end(..)]: each round consumes at least
    two bytes, so the buffer's length is enough fuel. *)
Fixpoint drain (fuel : nat) (f : SseFilter) : string * SseFilter :=
  match fuel with
  | O => ("", f)
  | S fuel' =>
      match find_event_end (sse_buffer f) with
      | None => ("", f)
      | Some (split, consumed) =>
          let '(processed, t') := process_event (sse_state f) (stake split (sse_buffer f)) in
          let '(out, f') := drain fuel' (mkSse (sdrop consumed (sse_buffer f)) t') in
          (processed +:+ out, f')
      end
  end.
Definition sse_push (f : SseFilter) (chunk : string) : string * SseFilter :=
  let buf := sse_buffer f +:+ chunk in
  drain (String.length buf) (mkSse buf (sse_state f)).
Definition sse_flush (f : SseFilter) : string * SseFilter := (sse_buffer f, mkSse "" (sse_state f)).

Fixpoint sse_push_all (f : SseFilter) (chunks : list string) : string * SseFilter :=
  match chunks with
  | [] => ("", f)
  | c :: cs => let '(o1, f1) := sse_push f c in let '(o2, f2) := sse_push_all f1 cs in (o1 +:+ o2, f2)
  end.
Definition sse_output (t : T) (chunks : list string) : string :=
  let '(o, f) := sse_push_all (mkSse "" t) chunks in o +:+ (sse_flush f).1.
End Filter.
Arguments mkSse {T} _ _.
Arguments sse_buffer {T} _.
Arguments sse_state {T} _.

(** ** Usage *)

Section Usage.
Context `{Serde}.
Definition usage_of_line (line : string) : option (Z * Z * string) :=
  let line := default line (strip_suffix (one cr) line) in
  p ← strip_prefix "data:" line;
  let payload := trim_start p in
  if String.eqb payload "[DONE]" || String.eqb payload "" then None
  else match from_str payload with
       | Err _ => None
       | Ok val =>
           usage ← get "usage" val;
           prompt ← get "prompt_tokens" usage ≫= as_u64;
           completion ← get "completion_tokens" usage ≫= as_u64;
           Some (prompt, completion, default "unknown" (get_str "model" val))
       end.
Fixpoint first_some {A B} (f : A -> option B) (l : list A) : option B :=
  match l with [] => None | x :: l' => match f x with Some y => Some y | None => first_some f l' end end.
Definition try_extract_usage (raw : string) : option (Z * Z * string) :=
  if negb (is_utf8 raw) then None
  else if negb (contains "data:" raw) then None
  else first_some usage_of_line (split_byte nl raw).
End Usage.

(** ** Lemmas: boundaries *)

(** Where an event ends: [rest] begins with a terminator. *)
Definition at_terminator (sp co : nat) (s : string) : Prop :=
  (co = sp + 2 /\ exists rest, sdrop sp s = lf2 +:+ rest) \/
  (co = sp + 4 /\ exists rest, sdrop sp s = crlf2 +:+ rest).

Lemma find_event_end_shift i s :
  find_event_end_from i s = (fun ab => (i + ab.1, i + ab.2)) <$> find_event_end s.
Proof.
  unfold find_event_end. replace i with (i + 0) at 1 by lia. generalize 0 as k.
  induction s as [|a [|b s] IH]; intros k; try done.
  cbn [find_event_end_from]. destruct (Ascii.eqb a nl && Ascii.eqb b nl); [simpl; f_equal; f_equal; lia|].
  destruct (starts_with crlf2 _); [simpl; f_equal; f_equal; lia|].
  specialize (IH (S k)). rewrite Nat.add_succ_r in IH. exact IH.
Qed.

Lemma find_event_end_cons a b s :
  find_event_end (String a (String b s)) =
    if Ascii.eqb a nl && Ascii.eqb b nl then Some (0, 2)
    else if starts_with crlf2 (String a (String b s)) then Some (0, 4)
    else (fun ab => (S ab.1, S ab.2)) <$> find_event_end (String b s).
Proof.
  unfold find_event_end at 1. cbn [find_event_end_from].
  destruct (_ && _); [done|]. destruct (starts_with crlf2 _); [done|].
  exact (find_event_end_shift 1 (String b s)).
Qed.

Lemma find_event_end_Some s sp co :
  find_event_end s = Some (sp, co) -> at_terminator sp co s /\ sp < co /\ co <= String.length s.
Proof.
  revert sp co. induction s as [|a [|b s] IH]; intros sp co; try done.
  rewrite find_event_end_cons. destruct (Ascii.eqb a nl && Ascii.eqb b nl) eqn:E.
  { intros [= <- <-]. destruct (Ascii.eqb_spec a nl) as [->|], (Ascii.eqb_spec b nl) as [->|]; try done.
    split_and!; simpl; [|lia..]. left. split; [done|]. by exists s. }
  destruct (starts_with crlf2 (String a (String b s))) eqn:E2.
  { intros [= <- <-]. apply starts_with_true in E2 as [r Hr]. rewrite Hr.
    split_and!; simpl; [|lia..]. right. split; [done|]. by exists r. }
  destruct (find_event_end (String b s)) as [[sp' co']|] eqn:E3; [|done].
  intros [= <- <-]. destruct (IH _ _ eq_refl) as ([[Hc Hr]|[Hc Hr]] & H1 & H2);
    (split_and!; [|simpl in *; lia..]); [left|right]; (split; [lia|exact Hr]).
Qed.

(** More input does not move the first boundary. *)
Lemma find_event_end_app s t sp co :
  find_event_end s = Some (sp, co) -> find_event_end (s +:+ t) = Some (sp, co).
Proof.
  revert sp co. induction s as [|a [|b s] IH]; intros sp co; try done.
  cbn [String.append]. rewrite !find_event_end_cons.
  destruct (Ascii.eqb a nl && Ascii.eqb b nl) eqn:E; [done|].
  destruct (starts_with crlf2 (String a (String b s))) eqn:E2.
  { intros [= <- <-]. apply starts_with_true in E2 as [r Hr].
    assert (String a (String b (s +:+ t)) = crlf2 +:+ (r +:+ t)) as ->.
    { change (String a (String b s) +:+ t = crlf2 +:+ (r +:+ t)). by rewrite Hr, sapp_assoc. }
    by rewrite starts_with_app. }
  destruct (find_event_end (String b s)) as [[sp' co']|] eqn:E3; [|done]. intros [= <- <-].
  specialize (IH _ _ eq_refl). cbn [String.append] in IH. rewrite IH.
  destruct (starts_with crlf2 (String a (String b (s +:+ t)))) eqn:E4; [|done].
  exfalso. apply starts_with_true in E4 as [r Hr].
  (* A boundary inside the four bytes CR LF CR LF would be at the second LF. *)
  apply find_event_end_Some in E3 as (Hat & Hlt & Hle).
  destruct s as [|c [|d s]].
  - simpl in Hle. destruct Hat as [[-> _]|[-> _]]; lia.
  - simpl in Hle. injection Hr as -> -> -> _.
    destruct Hat as [[-> [r' Hr']]|[-> _]]; [|lia]. assert (sp' = 0) as -> by lia. done.
  - change (String a (String b (String c (String d (s +:+ t)))) = crlf2 +:+ r) in Hr.
    injection Hr as -> -> -> -> _. done.
Qed.

(** ** Lemmas: draining *)

(** The input cut at its event boundaries: each event with its terminator, and
    the unterminated rest. *)
Inductive cut : string -> list (string * string) -> string -> Prop :=
| cut_rest s : find_event_end s = None -> cut s [] s
| cut_event raw term s evs rest :
    term = lf2 \/ term = crlf2 ->
    find_event_end (raw +:+ term +:+ s) = Some (String.length raw, String.length raw + String.length term) ->
    cut s evs rest -> cut (raw +:+ term +:+ s) ((raw, term) :: evs) rest.

Lemma boundary_cut s sp co :
  find_event_end s = Some (sp, co) ->
  exists term, (term = lf2 \/ term = crlf2) /\ s = stake sp s +:+ term +:+ sdrop co s /\
    String.length (stake sp s) = sp /\ co = sp + String.length term.
Proof.
  intros E. apply find_event_end_Some in E as (Hat & Hlt & Hle).
  assert (Hl : String.length (stake sp s) = sp) by (rewrite slen_stake; lia).
  destruct Hat as [[-> [r Hr]]|[-> [r Hr]]]; [exists lf2|exists crlf2]; (split_and!; [by auto| |done|done]);
    rewrite <-(stake_sdrop sp s) at 1; f_equal; rewrite Hr; f_equal;
    by rewrite <-(sdrop_add _ sp), Hr.
Qed.

Section Drain.
Context `{Serde} {T : Type} (transform : T -> string -> string * T).
Notation drain := (drain transform).
Notation process := (process_event transform).

(** Fuel beyond the buffer's length changes nothing. *)
Lemma drain_fuel n m f :
  String.length (sse_buffer f) <= n -> String.length (sse_buffer f) <= m -> drain n f = drain m f.
Proof.
  revert m f. induction n as [|n IH]; intros [|m] f Hn Hm; simpl; try done.
  - by rewrite (slen_0 (sse_buffer f)) by lia.
  - by rewrite (slen_0 (sse_buffer f)) by lia.
  - destruct (find_event_end (sse_buffer f)) as [[sp co]|] eqn:E; [|done].
    apply find_event_end_Some in E as (_ & Hlt & Hle).
    destruct (process (sse_state f) _) as [o t']. rewrite (IH m); [done|..]; simpl; rewrite slen_sdrop; lia.
Qed.

Definition drain_all (f : SseFilter) : string * SseFilter := drain (String.length (sse_buffer f)) f.

Lemma drain_all_eq f :
  drain_all f =
    match find_event_end (sse_buffer f) with
    | None => ("", f)
    | Some (sp, co) =>
        let '(o, t') := process (sse_state f) (stake sp (sse_buffer f)) in
        let '(out, f') := drain_all (mkSse (sdrop co (sse_buffer f)) t') in (o +:+ out, f')
    end.
Proof.
  unfold drain_all. rewrite (drain_fuel _ (S (String.length (sse_buffer f)))) by lia. simpl.
  destruct (find_event_end (sse_buffer f)) as [[sp co]|] eqn:E; [|done].
  apply find_event_end_Some in E as (_ & Hlt & Hle).
  destruct (process (sse_state f) _) as [o t'].
  rewrite (drain_fuel _ (String.length (sdrop co (sse_buffer f)))); [done|..]; simpl; rewrite ?slen_sdrop; lia.
Qed.

(** Draining in two steps is draining once. *)
Lemma drain_all_app n a b t :
  String.length a <= n ->
  drain_all (mkSse (a +:+ b) t) =
    let '(o1, f1) := drain_all (mkSse a t) in
    let '(o2, f2) := drain_all (mkSse (sse_buffer f1 +:+ b) (sse_state f1)) in (o1 +:+ o2, f2).
Proof.
  revert a t. induction n as [|n IH]; intros a t Hn.
  { rewrite (slen_0 a) by lia. rewrite (drain_all_eq (mkSse "" t)). simpl.
    by destruct (drain_all (mkSse b t)). }
  rewrite (drain_all_eq (mkSse a t)). cbn [sse_buffer sse_state].
  destruct (find_event_end a) as [[sp co]|] eqn:E; cbn [sse_buffer sse_state].
  2: { by destruct (drain_all (mkSse (a +:+ b) t)). }
  rewrite drain_all_eq. cbn [sse_buffer sse_state]. rewrite (find_event_end_app _ _ _ _ E).
  apply find_event_end_Some in E as (_ & Hlt & Hle).
  rewrite stake_app_le, sdrop_app_ge by lia. destruct (process t (stake sp a)) as [o t'].
  rewrite IH by (rewrite slen_sdrop; lia).
  destruct (drain_all (mkSse (sdrop co a) t')) as [o1 f1].
  destruct (drain_all (mkSse (sse_buffer f1 +:+ b) (sse_state f1))) as [o2 f2]. by sapp.
Qed.

Lemma drain_all_cut n s t :
  String.length s <= n ->
  exists evs rest, cut s evs rest /\
    drain_all (mkSse s t) =
      (sconcat (map_st process t (map fst evs)).1, mkSse rest (map_st process t (map fst evs)).2).
Proof.
  revert s t. induction n as [|n IH]; intros s t Hn.
  { rewrite (slen_0 s) by lia. exists [], "". by split; [constructor|]. }
  rewrite drain_all_eq. simpl. destruct (find_event_end s) as [[sp co]|] eqn:E.
  2: { exists [], s. by split; [constructor|]. }
  destruct (boundary_cut _ _ _ E) as (term & Ht & Hs & Hsp & ->).
  pose proof (find_event_end_Some _ _ _ E) as (_ & Hlt & Hle).
  destruct (process t (stake sp s)) as [o t'] eqn:Ep.
  destruct (IH (sdrop (sp + String.length term) s) t') as (evs & rest & Hcut & Hd); [rewrite slen_sdrop; lia|].
  rewrite Hd. exists ((stake sp s, term) :: evs), rest. split.
  - rewrite Hs at 1. constructor; [done| |done]. rewrite <-Hs, E, Hsp. done.
  - simpl. rewrite Ep. by destruct (map_st process t' (map fst evs)).
Qed.

Lemma sse_push_all_concat f chunks :
  find_event_end (sse_buffer f) = None ->
  sse_push_all transform f chunks = drain_all (mkSse (sse_buffer f +:+ sconcat chunks) (sse_state f)).
Proof.
  revert f. induction chunks as [|c cs IH]; intros f Hf; simpl.
  - rewrite sapp_nil_r, drain_all_eq. simpl. rewrite Hf. by destruct f.
  - change (sse_push transform f c) with (drain_all (mkSse (sse_buffer f +:+ c) (sse_state f))).
    rewrite (sapp_assoc (sse_buffer f) c (sconcat cs)).
    rewrite (drain_all_app (String.length (sse_buffer f +:+ c)) (sse_buffer f +:+ c)) by done.
    destruct (drain_all_cut (String.length (sse_buffer f +:+ c)) (sse_buffer f +:+ c) (sse_state f))
      as (evs & rest & Hcut & Hd); [done|].
    rewrite Hd. cbv beta iota. rewrite IH; [done|]. simpl. clear -Hcut. by induction Hcut.
Qed.

(** C39: What the filter does to a stream: the input, however it was cut into
    chunks, splits at its blank lines into events and an unterminated rest;
    the output is every event processed once, in order, the transform's
    state threaded through, followed by the rest verbatim. *)
Theorem sse_output_events t chunks :
  exists evs rest, cut (sconcat chunks) evs rest /\
    sse_output transform t chunks = sconcat (map_st process t (map fst evs)).1 +:+ rest /\
    sse_output transform t chunks = sse_output transform t [sconcat chunks] /\
    find_event_end (sse_buffer (sse_push_all transform (mkSse "" t) chunks).2) = None.
Proof.
  unfold sse_output. rewrite !sse_push_all_concat by done. simpl. rewrite sapp_nil_r.
  destruct (drain_all_cut (String.length (sconcat chunks)) (sconcat chunks) t) as (evs & rest & Hcut & Hd); [done|].
  exists evs, rest. rewrite Hd. split_and!; [done..|]. simpl. clear -Hcut. by induction Hcut.
Qed.

(** C37: The loop of a push ends.  Within as many rounds as the buffer has bytes it
    reaches its exit, with no complete event left; more rounds give the same;
    and it handles at most one event for every two bytes. *)
Theorem sse_push_terminates f chunk :
  let buf := sse_buffer f +:+ chunk in
  find_event_end (sse_buffer (sse_push transform f chunk).2) = None /\
  (forall n, drain (String.length buf + n) (mkSse buf (sse_state f)) = sse_push transform f chunk) /\
  exists evs, cut buf evs (sse_buffer (sse_push transform f chunk).2) /\ 2 * length evs <= String.length buf.
Proof.
  intros buf. change (sse_push transform f chunk) with (drain_all (mkSse buf (sse_state f))).
  destruct (drain_all_cut (String.length buf) buf (sse_state f)) as (evs & rest & Hcut & Hd); [done|].
  split; [rewrite Hd; clear -Hcut; by induction Hcut|]. split; [intros n; apply drain_fuel; simpl; lia|].
  exists evs. rewrite Hd. split; [done|]. clear -Hcut. induction Hcut as [|raw term s evs rest Ht _ _ IH]; simpl; [lia|].
  rewrite !slen_app. destruct Ht as [-> | ->]; simpl; lia.
Qed.

(** ** The rewrite of one event *)

(** An invariant of the transform's state holds along a stream. *)
Section StateInv.
Context (P : T -> Prop) (HP : forall t x, P t -> P (transform t x).2).

Lemma filter_delta_content_inv t val : P t -> P (filter_delta_content transform t val).2.1.
Proof using HP.
  intros Ht. unfold filter_delta_content. apply (field_mut_inv (fun st => P st.1)); [|done]. intros st x Hst.
  apply (elems_mut_inv (fun st => P st.1)); [|done]. intros st' x' Hst'.
  apply (field_mut_inv (fun st => P st.1)); [|done]. intros st2 x2 Hst2.
  apply (field_mut_inv (fun st => P st.1)); [|done]. intros st3 x3 Hst3.
  unfold filter_content. destruct (as_str x3) as [text|]; [|done].
  specialize (HP st3.1 text Hst3). destruct (transform st3.1 text) as [y t']. by destruct (String.eqb y text).
Qed.
Lemma process_event_inv t raw : P t -> P (process t raw).2.
Proof using HP.
  intros Ht. unfold process_event. destruct (is_utf8 raw); [|done].
  destruct (contains "[DONE]" raw || _); [done|]. simpl.
  assert (Hi : P (map_st (process_line transform) (t, false) (split_byte nl raw)).2.1).
  { apply (map_st_inv (fun st => P st.1)); [|done]. intros st line Hst. unfold process_line.
    destruct (strip_prefix _ _); [|done]. destruct (_ || _); [done|].
    destruct (from_str _) as [val|]; [|done]. pose proof (filter_delta_content_inv st.1 val Hst) as Hf.
    by destruct (filter_delta_content transform st.1 val) as [v' [t' ch]]. }
  by destruct (map_st _ _ _) as [ls [t' ch]].
Qed.
Lemma sse_push_inv f chunk : P (sse_state f) -> P (sse_state (sse_push transform f chunk).2).
Proof using HP.
  intros Hf. unfold sse_push.
  assert (Hd : forall n f, P (sse_state f) -> P (sse_state (drain n f).2)).
  { intros n. induction n as [|n IH]; intros g Hg; simpl; [done|].
    destruct (find_event_end (sse_buffer g)) as [[sp co]|]; [|done].
    pose proof (process_event_inv (sse_state g) (stake sp (sse_buffer g)) Hg) as Hp.
    destruct (process _ _) as [o t']. simpl in Hp.
    specialize (IH (mkSse (sdrop co (sse_buffer g)) t') Hp). by destruct (drain n _). }
  by apply Hd.
Qed.
End StateInv.

Lemma filter_delta_content_id t val :
  (forall t x, (transform t x).1 = x) -> (filter_delta_content transform t val).2.2 = false.
Proof.
  intros Hid. unfold filter_delta_content.
  apply (field_mut_inv (fun st => st.2 = false)); [|done]. intros st x Hst.
  apply elems_mut_inv; [|done]. intros st' x' Hst'.
  apply field_mut_inv; [|done]. intros st2 x2 Hst2.
  apply field_mut_inv; [|done]. intros st3 x3 Hst3.
  unfold filter_content. destruct (as_str x3) as [text|]; [|done].
  specialize (Hid st3.1 text). destruct (transform st3.1 text) as [y t']. simpl in Hid. subst y.
  by rewrite String.eqb_refl.
Qed.

Lemma process_event_id t raw :
  (forall t x, (transform t x).1 = x) -> (process t raw).1 = raw +:+ lf2.
Proof.
  intros Hid. unfold process_event. destruct (is_utf8 raw); [|done].
  destruct (contains "[DONE]" raw || _); [done|]. simpl.
  assert (Hch : (map_st (process_line transform) (t, false) (split_byte nl raw)).2.2 = false).
  { apply (map_st_inv (fun st => st.2 = false)); [|done]. intros st line Hst. unfold process_line.
    destruct (strip_prefix _ _); [|done]. destruct (_ || _); [done|].
    destruct (from_str _) as [val|]; [|done].
    pose proof (filter_delta_content_id st.1 val Hid) as Hf.
    destruct (filter_delta_content transform st.1 val) as [v' [t' ch]]. simpl in *. by rewrite Hst, Hf. }
  destruct (map_st _ _ _) as [ls [t' ch]]. simpl in *. by rewrite Hch.
Qed.

Lemma cut_identity evs s rest t :
  (forall t x, (transform t x).1 = x) -> contains crlf2 s = false -> cut s evs rest ->
  sconcat (map_st process t (map fst evs)).1 +:+ rest = s.
Proof.
  intros Hid Hnc Hcut. revert t Hnc. induction Hcut as [s _|raw term s evs rest Hterm _ _ IH]; intros t Hnc; [done|].
  assert (contains crlf2 s = false /\ term = lf2) as [Hs ->].
  { split.
    - apply not_true_iff_false. intros (l & r & ->)%contains_true. apply not_true_iff_false in Hnc. destruct Hnc.
      apply contains_true. exists (raw +:+ term +:+ l), r. by rewrite <-!sapp_assoc.
    - destruct Hterm as [->| ->]; [done|]. apply not_true_iff_false in Hnc. destruct Hnc.
      apply contains_true. by exists raw, s. }
  cbn [map map_st fst]. pose proof (process_event_id t raw Hid) as Hp.
  destruct (process t raw) as [o t']. simpl in Hp. subst o. specialize (IH t' Hs).
  destruct (map_st process t' (map fst evs)) as [os t'']. simpl in *.
  rewrite <-!sapp_assoc. simpl. by rewrite IH.
Qed.

(** Fail-open is lossless: with a transform that changes no text, a stream
    whose blank lines are LF-only comes out byte for byte, events that are
    not UTF-8 or not JSON and an unterminated tail included. *)
Theorem sse_identity_lossless t chunks :
  (forall t x, (transform t x).1 = x) -> contains crlf2 (sconcat chunks) = false ->
  sse_output transform t chunks = sconcat chunks.
Proof.
  intros Hid Hnc. unfold sse_output. rewrite sse_push_all_concat by done. simpl.
  destruct (drain_all_cut (String.length (sconcat chunks)) (sconcat chunks) t) as (evs & rest & Hcut & Hd); [done|].
  rewrite Hd. simpl. by apply cut_identity.
Qed.
End Drain.

(** ** Concrete runs *)

#[local] Instance demo_sse_serde : Serde := {| from_str _ := Err "expected value"; to_json _ := "null" |}.
Lemma sse_identity_lossless_witness :
  sse_output (fun (t : unit) s => (s, t)) tt ["data: {x"; "}" +:+ one nl; one nl +:+ "data: tail"] =
  "data: {x}" +:+ lf2 +:+ "data: tail".
Proof.
  refine (sse_identity_lossless (fun (t : unit) s => (s, t)) tt
    ["data: {x"; "}" +:+ one nl; one nl +:+ "data: tail"] _ _); reflexivity.
Defined.
