(* ===== verification/Matcher.v ===== *)
(** * Keyword matching ([src/matcher/mod.rs])

    Normalisation of input text, the two input scanners behind one interface,
    the dictionary loader, and the output filter that masks keyword ranges in
    responses.  The Aho-Corasick automaton and the iword dictionary are
    crates: classes [AhoCorasick] and [Iword] hold their operations. *)

From S2P Require Import Prelude RustStr Regex.

Inductive InputVerdict :=
| Blocked (rule : string)
| Alert (rule : string)
| Flagged (rule : string)
| Clean.
#[export] Instance InputVerdict_eq_dec : EqDecision InputVerdict.
Proof. solve_decision. Defined.

Record NormalizeConfig := mkNormalize {
  nc_nfkc : bool;
  nc_zero_width : bool;
  nc_separators : bool;
  nc_leet : bool;
}.
Definition normalize_default : NormalizeConfig := mkNormalize true true false false.

Record KeywordConfig := mkKeyword {
  kc_engine : string;
  kc_dict_paths : list string;
  kc_inline_block : list string;
  kc_inline_alert : list string;
  kc_inline_flag : list string;
  kc_normalize : NormalizeConfig;
}.

(** ** Normalisation *)

(** U+200B, U+200C, U+200D, U+2060 and U+FEFF in UTF-8. *)
Definition zero_width_chars : list string :=
  [bytes [226; 128; 139]; bytes [226; 128; 140]; bytes [226; 128; 141]; bytes [226; 129; 160];
   bytes [239; 187; 191]]%N.
Definition is_zero_width (ch : string) : bool := existsb (String.eqb ch) zero_width_chars.

Definition leet_byte (c : ascii) : ascii :=
  if Ascii.eqb c "0" then "o"
  else if Ascii.eqb c "1" || Ascii.eqb c "|" then "i"
  else if Ascii.eqb c "3" then "e"
  else if Ascii.eqb c "4" || Ascii.eqb c "@" then "a"
  else if Ascii.eqb c "5" || Ascii.eqb c "$" then "s"
  else if Ascii.eqb c "7" then "t"
  else if Ascii.eqb c "8" then "b"
  else c.
Definition leet_fold (ch : string) : string :=
  match ch with String c "" => one (leet_byte c) | _ => ch end.

Definition is_separator (ch : string) : bool :=
  existsb (String.eqb ch) ["-"; "."; "_"; "*"; "~"].

Section Normalize.
Context `{Unicode}.

(** One iteration of the loop of [base_normalize]. *)
Definition norm_step (opts : NormalizeConfig) (st : string * bool) (ch : string) : string * bool :=
  let '(out, prev_space) := st in
  if nc_zero_width opts && is_zero_width ch then st
  else
    let ch := if nc_leet opts then leet_fold ch else ch in
    if String.eqb ch (one nl) || String.eqb ch (one cr) || String.eqb ch (one tab)
    then if prev_space then st else (out +:+ " ", true)
    else if char_is_uppercase ch then (out +:+ sconcat (char_to_lowercase ch), false)
    else if String.eqb ch " " then if prev_space then st else (out +:+ " ", true)
    else (out +:+ ch, false).
Definition base_normalize (opts : NormalizeConfig) (text : string) : string :=
  let out := (foldl (norm_step opts) ("", true) (chars text)).1 in
  match strip_suffix " " out with Some o => o | None => out end.

Definition is_alnum_char (ch : string) : bool :=
  match ch with String c "" => is_ascii_alphanumeric c | _ => false end.

(** The inner loop of [collapse_separators]: the letters of the run after its
    first one. *)
Fixpoint run_letters (rest : list string) : list string :=
  match rest with
  | s :: a :: rest' => if is_separator s && is_alnum_char a then a :: run_letters rest' else []
  | _ => []
  end.
(** The outer loop; [skip] chars were consumed by a collapsed run. *)
Fixpoint collapse_go (skip : nat) (cs : list string) : list string :=
  match cs with
  | [] => []
  | c :: rest =>
      match skip with
      | S k => collapse_go k rest
      | O =>
          let letters := c :: run_letters rest in
          if is_alnum_char c && Nat.ltb 3 (length letters)
          then letters ++ collapse_go (2 * length (run_letters rest)) rest
          else c :: collapse_go 0 rest
      end
  end.
Definition collapse_separators (text : string) : string := sconcat (collapse_go 0 (chars text)).

Definition normalize_with (opts : NormalizeConfig) (text : string) : string :=
  let stage1 := if nc_nfkc opts && negb (is_ascii text) then uni_nfkc text else text in
  let stage2 := base_normalize opts stage1 in
  if nc_separators opts then collapse_separators stage2 else stage2.
End Normalize.

(** ** Scanners *)

(** The [aho-corasick] crate: an automaton for a list of patterns, and the
    index of the pattern of the leftmost-first match. *)
Class AhoCorasick := {
  ac : Type;
  ac_build : list string -> result string ac;
  ac_find : ac -> string -> option nat;
}.
Class AhoCorasickLaws `{AhoCorasick} := {
  ac_find_Some pats a text i :
    ac_build pats = Ok a -> ac_find a text = Some i -> exists p, pats !! i = Some p /\ contains p text = true;
  ac_find_None pats a text :
    ac_build pats = Ok a -> ac_find a text = None -> Forall (fun p => contains p text = false) pats;
}.

(** The [iword] crate. *)
Class Iword := {
  iw_builder : Type;
  iw_dict : Type;
  iw_new : iw_builder;
  iw_add_many : iw_builder -> list string -> Z -> iw_builder;
  iw_load_file : iw_builder -> string -> result string iw_builder;
  iw_build : iw_builder -> iw_dict;
  key_block : Z;
  key_alert : Z;
  key_flag : Z;
  (** [scan_key(..)] in [FORBID] mode, each match as its extracted text. *)
  iw_scan_key : iw_dict -> string -> Z -> list string;
  (** [classify(..)]: the key and the score printed with one decimal. *)
  iw_classify : iw_dict -> string -> option (Z * string);
  (** [scan(..)]: the (position, length) of each match. *)
  iw_scan : iw_dict -> string -> list (nat * nat);
}.

(** [trait InputScanner]; [None] is a panic. *)
Record InputScanner := mkScanner {
  check : string -> option InputVerdict;
  engine_name : string;
}.

Section Scanners.
Context `{Unicode} `{RegexEngine} `{AhoCorasick} `{Iword}.

Definition iword_check (dict : iw_dict) (norm : string) : option InputVerdict :=
  match iw_scan_key dict norm key_block with
  | m :: _ => Some (Blocked m)
  | [] =>
      match iw_scan_key dict norm key_alert with
      | m :: _ => Some (Alert m)
      | [] =>
          match iw_classify dict norm with
          | Some (k, score) => Some (if Z.eqb k key_flag then Flagged ("score=" +:+ score) else Clean)
          | None => Some Clean
          end
      end
  end.
Definition add_some (b : iw_builder) (words : list string) (k : Z) : iw_builder :=
  match words with [] => b | _ => iw_add_many b words k end.
Fixpoint load_files (b : iw_builder) (paths : list string) : result string iw_builder :=
  match paths with
  | [] => Ok b
  | p :: ps => let? b' := iw_load_file b p in load_files b' ps
  end.
Definition iword_build (cfg : KeywordConfig) : result string InputScanner :=
  let b := add_some iw_new (kc_inline_block cfg) key_block in
  let b := add_some b (kc_inline_alert cfg) key_alert in
  let b := add_some b (kc_inline_flag cfg) key_flag in
  let? b := load_files b (kc_dict_paths cfg) in
  Ok {| check := iword_check (iw_build b); engine_name := "iword-rs" |}.

Record RegexRule := mkRegexRule { rx_pattern : string; rx_regex : regex }.
Record RuleBuckets := mkBuckets {
  block_literals : list string;
  alert_literals : list string;
  flag_literals : list string;
  block_regex : list RegexRule;
  alert_regex : list RegexRule;
  flag_regex : list RegexRule;
}.
Record AcScanner := mkAc {
  ac_block : option ac;
  ac_block_words : list string;
  ac_block_regex : list RegexRule;
  ac_alert : option ac;
  ac_alert_words : list string;
  ac_alert_regex : list RegexRule;
  ac_flag : option ac;
  ac_flag_words : list string;
  ac_flag_regex : list RegexRule;
}.

Inductive RuleTarget := TBlock | TAlert | TFlag.

Definition parse_regex_pattern (pattern : string) : option string :=
  p ← strip_prefix "/" pattern ≫= strip_suffix "/";
  if String.eqb p "" then None else Some p.

Definition push_regex (target : RuleTarget) (rule : RegexRule) (r : RuleBuckets) : RuleBuckets :=
  match target with
  | TBlock => mkBuckets (block_literals r) (alert_literals r) (flag_literals r)
                (block_regex r ++ [rule]) (alert_regex r) (flag_regex r)
  | TAlert => mkBuckets (block_literals r) (alert_literals r) (flag_literals r)
                (block_regex r) (alert_regex r ++ [rule]) (flag_regex r)
  | TFlag => mkBuckets (block_literals r) (alert_literals r) (flag_literals r)
                (block_regex r) (alert_regex r) (flag_regex r ++ [rule])
  end.
Definition push_literal (target : RuleTarget) (literal : string) (r : RuleBuckets) : RuleBuckets :=
  match target with
  | TBlock => mkBuckets (block_literals r ++ [literal]) (alert_literals r) (flag_literals r)
                (block_regex r) (alert_regex r) (flag_regex r)
  | TAlert => mkBuckets (block_literals r) (alert_literals r ++ [literal]) (flag_literals r)
                (block_regex r) (alert_regex r) (flag_regex r)
  | TFlag => mkBuckets (block_literals r) (alert_literals r) (flag_literals r ++ [literal])
                (block_regex r) (alert_regex r) (flag_regex r)
  end.

(** One line of a dictionary file; [at_] is [path:line]. *)
Definition load_dict_line (opts : NormalizeConfig) (at_ : string) (raw_line : string) (rules : RuleBuckets)
    : result string RuleBuckets :=
  let line := trim raw_line in
  if String.eqb line "" || starts_with "#" line then Ok rules
  else
    let cols := map trim (split_byte tab line) in
    match cols with
    | [] => Ok rules
    | pattern :: rest =>
        if String.eqb pattern "" then Ok rules
        else
          match rest with
          | [] => Err (at_ +:+ ": missing key")
          | key :: _ =>
              match parse_u32 key with
              | None => Err (at_ +:+ ": invalid key `" +:+ key +:+ "`")
              | Some k =>
                  let? target :=
                    (if Z.eqb k 0 then Ok TBlock else if Z.eqb k 1 then Ok TAlert
                     else if Z.eqb k 2 then Ok TFlag
                     else Err (at_ +:+ ": unsupported key `" +:+ show_Z k +:+ "`")) in
                  match parse_regex_pattern pattern with
                  | Some regex_pattern =>
                      match regex_build true regex_pattern with
                      | Err _ => Err (at_ +:+ ": invalid regex `" +:+ regex_pattern +:+ "`")
                      | Ok re => Ok (push_regex target (mkRegexRule regex_pattern re) rules)
                      end
                  | None => Ok (push_literal target (normalize_with opts pattern) rules)
                  end
              end
          end
    end.
Fixpoint load_dict_lines (opts : NormalizeConfig) (path : string) (idx : nat) (ls : list string)
    (rules : RuleBuckets) : result string RuleBuckets :=
  match ls with
  | [] => Ok rules
  | l :: ls' =>
      let? rules' := load_dict_line opts (path +:+ ":" +:+ show_Z (Z.of_nat idx + 1)) l rules in
      load_dict_lines opts path (S idx) ls' rules'
  end.
Definition load_ac_dict_file (read_file : string -> result string string) (opts : NormalizeConfig)
    (path : string) (rules : RuleBuckets) : result string RuleBuckets :=
  let? content := read_file path in load_dict_lines opts path 0 (lines content) rules.

Fixpoint load_dict_files (read_file : string -> result string string) (opts : NormalizeConfig)
    (paths : list string) (rules : RuleBuckets) : result string RuleBuckets :=
  match paths with
  | [] => Ok rules
  | p :: ps =>
      match load_ac_dict_file read_file opts p rules with
      | Err _ => Err ("loading dictionary file " +:+ p)
      | Ok rules' => load_dict_files read_file opts ps rules'
      end
  end.
Definition build_opt (pats : list string) : result string (option ac) :=
  match pats with [] => Ok None | _ => let? a := ac_build pats in Ok (Some a) end.
Definition ac_scanner_build (read_file : string -> result string string) (cfg : KeywordConfig)
    : result string AcScanner :=
  let opts := kc_normalize cfg in
  let rules0 := mkBuckets (map (normalize_with opts) (kc_inline_block cfg))
    (map (normalize_with opts) (kc_inline_alert cfg)) (map (normalize_with opts) (kc_inline_flag cfg)) [] [] [] in
  let? rules := load_dict_files read_file opts (kc_dict_paths cfg) rules0 in
  let? b := build_opt (block_literals rules) in
  let? a := build_opt (alert_literals rules) in
  let? f := build_opt (flag_literals rules) in
  Ok (mkAc b (block_literals rules) (block_regex rules) a (alert_literals rules) (alert_regex rules)
           f (flag_literals rules) (flag_regex rules)).

(** One severity level: the automaton's word, else the first regex that
    matches.  [Some None] is no match, [None] an index out of range. *)
Definition level_hit (a : option ac) (words : list string) (rules : list RegexRule) (norm : string)
    : option (option string) :=
  match a ≫= (fun a => ac_find a norm) with
  | Some i => w ← words !! i; Some (Some w)
  | None => Some (rx_pattern <$> List.find (fun r => is_match (rx_regex r) norm) rules)
  end.
Definition ac_check (s : AcScanner) (norm : string) : option InputVerdict :=
  b ← level_hit (ac_block s) (ac_block_words s) (ac_block_regex s) norm;
  match b with
  | Some rule => Some (Blocked rule)
  | None =>
      a ← level_hit (ac_alert s) (ac_alert_words s) (ac_alert_regex s) norm;
      match a with
      | Some rule => Some (Alert rule)
      | None =>
          f ← level_hit (ac_flag s) (ac_flag_words s) (ac_flag_regex s) norm;
          match f with Some rule => Some (Flagged rule) | None => Some Clean end
      end
  end.

(** ** [Matchers] *)

Record Matchers := mkMatchers {
  mt_input : InputScanner;
  mt_output : iw_dict;
  mt_normalize : NormalizeConfig;
}.
Definition output_dictionary : iw_dict :=
  iw_build (iw_add_many (iw_add_many iw_new ["ssn"; "social security"; "credit card"] key_block)
                        ["I cannot"; "As an AI"; "I'm not able"] key_flag).
Definition build_with_engine (read_file : string -> result string string) (cfg : KeywordConfig)
    (engine : string) : result string Matchers :=
  let? input :=
    (if String.eqb engine "aho-corasick" then
       let? s := ac_scanner_build read_file cfg in
       Ok {| check := ac_check s; engine_name := "aho-corasick" |}
     else if String.eqb engine "iword-rs" then iword_build cfg
     else Err ("unknown keyword engine `" +:+ engine +:+ "` (expected `iword-rs` or `aho-corasick`)")) in
  Ok {| mt_input := input; mt_output := output_dictionary; mt_normalize := kc_normalize cfg |}.
Definition matchers_build (read_file : string -> result string string) (cfg : KeywordConfig)
    : result string Matchers := build_with_engine read_file cfg (kc_engine cfg).

Definition check_input (m : Matchers) (text : string) : option InputVerdict :=
  check (mt_input m) (normalize_with (mt_normalize m) text).
Definition check_input_with_shadow (m : Matchers) (text : string) (shadow : bool) : option InputVerdict :=
  v ← check_input m text;
  Some (if shadow then match v with Blocked rule => Flagged ("shadow_block:" +:+ rule) | _ => v end else v).

(** ** The output filter *)

Fixpoint lower_map (idx : nat) (cs : list string) : string * list nat :=
  match cs with
  | [] => ("", [])
  | ch :: cs' =>
      let piece := match char_to_lowercase ch with [] => ch | lcs => sconcat lcs end in
      let '(lowered, map_) := lower_map (idx + String.length ch) cs' in
      (piece +:+ lowered, repeat idx (String.length piece) ++ map_)
  end.
Definition lower_with_byte_map (text : string) : string * list nat :=
  let '(lowered, map_) := lower_map 0 (chars text) in (lowered, map_ ++ [String.length text]).

(** [is_inside_brackets]: scan back from [pos]. *)
Fixpoint is_inside_brackets (bytes_ : string) (i : nat) : bool :=
  match i with
  | O => false
  | S j => match String.get j bytes_ with
           | Some c => if Ascii.eqb c "[" then true else if Ascii.eqb c "]" then false
                       else is_inside_brackets bytes_ j
           | None => is_inside_brackets bytes_ j
           end
  end.

Fixpoint stars (n : nat) : string := match n with O => "" | S n' => String "*" (stars n') end.
(** [buf[start..end].fill(b'*')]; [None] is the slice index panic. *)
Definition fill_stars (start end_ : nat) (buf : string) : option string :=
  if Nat.leb start end_ && Nat.leb end_ (String.length buf)
  then Some (stake start buf +:+ stars (end_ - start) +:+ sdrop end_ buf) else None.
Fixpoint mask_matches (text : string) (map_ : list nat) (buf : string) (ms : list (nat * nat)) : option string :=
  match ms with
  | [] => Some buf
  | (position, length_) :: ms' =>
      start ← map_ !! position;
      end_ ← map_ !! (position + length_);
      if is_inside_brackets text start then mask_matches text map_ buf ms'
      else buf' ← fill_stars start end_ buf; mask_matches text map_ buf' ms'
  end.
Definition filter_output (m : Matchers) (text : string) : option string :=
  let '(lowered, map_) := lower_with_byte_map text in
  match iw_scan (mt_output m) lowered with
  | [] => Some text
  | ms => from_utf8_lossy <$> mask_matches text map_ text ms
  end.
End Scanners.

(** ** Lemmas: normalisation *)

(** After [s], was the last byte a space ([p] if [s] is empty)? *)
Fixpoint last_sp (p : bool) (s : string) : bool :=
  match s with "" => p | String c s' => last_sp (Ascii.eqb c " ") s' end.
(** Blanks are single spaces, none where a space came before ([p]). *)
Fixpoint sp_ok (p : bool) (s : string) : bool :=
  match s with
  | "" => true
  | String c s' =>
      if Ascii.eqb c " " then negb p && sp_ok true s' else not_blank c && sp_ok false s'
  end.

Lemma last_sp_app p a b : last_sp p (a +:+ b) = last_sp (last_sp p a) b.
Proof. revert p. induction a as [|c a IH]; intros p; simpl; [done|]. apply IH. Qed.

Lemma sp_ok_app p a b : sp_ok p (a +:+ b) = sp_ok p a && sp_ok (last_sp p a) b.
Proof.
  revert p. induction a as [|c a IH]; intros p; simpl; [done|]. rewrite !IH.
  destruct (Ascii.eqb c " "); by rewrite andb_assoc.
Qed.

Lemma sp_ok_plain p s : sall not_blank s = true -> sp_ok p s = true.
Proof.
  revert p. induction s as [|c s IH]; intros p H; simpl in *; [done|]. apply andb_prop in H as [Hc Hs].
  destruct (Ascii.eqb c " ") eqn:E; [unfold not_blank in Hc; by rewrite E in Hc|].
  by rewrite Hc, IH.
Qed.

Lemma last_sp_plain p s : s <> "" -> sall not_blank s = true -> last_sp p s = false.
Proof.
  revert p. induction s as [|c s IH]; intros p Hne H; simpl in *; [done|]. apply andb_prop in H as [Hc Hs].
  assert (Ascii.eqb c " " = false) as ->.
  { unfold not_blank in Hc. by destruct (Ascii.eqb c " "). }
  destruct s; [done|]. by apply IH.
Qed.

Lemma high_not_blank s : sall high s = true -> sall not_blank s = true.
Proof.
  apply sall_impl. intros c Hc.
  assert (implb (high c) (not_blank c) = true) as Hi; [|by rewrite Hc in Hi].
  apply (byte_forall (fun c => implb (high c) (not_blank c))). vm_compute. reflexivity.
Qed.

Lemma ends_space s : ends_with " " s = last_sp false s.
Proof.
  apply eq_true_iff_eq. rewrite ends_with_true. split.
  - intros [r ->]. by rewrite last_sp_app.
  - revert s. assert (forall s p, last_sp p s = true -> (p = true /\ s = "") \/ exists r, s = r +:+ " ") as H.
    { induction s as [|c s IH]; intros p Hp; simpl in *; [by left|].
      right. destruct (IH _ Hp) as [[Hc ->]|[r ->]].
      - apply Ascii.eqb_eq in Hc as ->. by exists "".
      - by exists (String c r). }
    intros s Hs. destruct (H s false Hs) as [[? _]|?]; done.
Qed.

Lemma strip_space out :
  sp_ok true out = true ->
  let o := match strip_suffix " " out with Some o => o | None => out end in
  sp_ok true o = true /\ ends_with " " o = false.
Proof.
  intros Hsp. destruct (strip_suffix " " out) as [o|] eqn:E; simpl.
  - apply strip_suffix_Some in E as ->. rewrite sp_ok_app in Hsp. apply andb_prop in Hsp as [Ho Hs].
    split; [done|]. rewrite ends_space. simpl in Hs.
    destruct o as [|c o]; [done|]. simpl in *. by destruct (last_sp (Ascii.eqb c " ") o).
  - split; [done|]. unfold ends_with. by rewrite E.
Qed.

Definition norm_inv (st : string * bool) : Prop := sp_ok true st.1 = true /\ st.2 = last_sp true st.1.

Section NormalizeLemmas.
Context `{UnicodeLaws}.

Lemma norm_push out w prev :
  norm_inv (out, prev) -> w <> "" -> sall not_blank w = true -> norm_inv (out +:+ w, false).
Proof.
  intros [Hs Hp] Hne Hw. split; simpl in *.
  - by rewrite sp_ok_app, Hs, sp_ok_plain.
  - by rewrite last_sp_app, last_sp_plain.
Qed.

Lemma norm_space out prev :
  norm_inv (out, prev) -> norm_inv (if prev then (out, prev) else (out +:+ " ", true)).
Proof.
  intros [Hs Hp]. destruct prev; [done|]. split; simpl in *.
  - by rewrite sp_ok_app, Hs, <-Hp.
  - by rewrite last_sp_app.
Qed.

Lemma lower_plain ch :
  char_ok ch -> char_is_uppercase ch = true ->
  sconcat (char_to_lowercase ch) <> "" /\ sall not_blank (sconcat (char_to_lowercase ch)) = true.
Proof.
  unfold char_is_uppercase, char_to_lowercase. intros (_ & [(c & -> & Hc)|[Hne Hh]]).
  - assert (is_ascii (one c) = true) as ->.
    { unfold is_ascii. simpl. by rewrite (proj2 (N.ltb_lt _ _) Hc). }
    simpl. rewrite andb_true_r. intros Hu. split; [done|]. rewrite andb_true_r.
    assert (implb (is_ascii_upper c) (not_blank (lower_byte c)) = true) as Hi; [|by rewrite Hu in Hi].
    apply (byte_forall (fun c => implb (is_ascii_upper c) (not_blank (lower_byte c)))). vm_compute. reflexivity.
  - assert (is_ascii ch = false) as ->.
    { destruct ch as [|c ch]; [done|]. unfold is_ascii. simpl in *. apply andb_prop in Hh as [Hh _].
      unfold high in Hh. apply N.leb_le in Hh. by rewrite (proj2 (N.ltb_ge _ _) Hh). }
    intros _. destruct (uni_lower_plain ch Hne Hh) as [Hl HF].
    destruct (uni_lower ch) as [|l ls]; [done|]. inversion_clear HF as [|? ? [Hl1 Hl2] HF']. simpl. split.
    + by destruct l.
    + rewrite sall_app, Hl2. clear -HF'. induction HF' as [|x xs [_ Hx] _ IH]; simpl; [done|].
      by rewrite sall_app, Hx.
Qed.

Lemma leet_ok ch : char_ok ch -> char_ok (leet_fold ch).
Proof.
  intros Hok. pose proof Hok as (_ & [(c & -> & Hc)|[Hne Hh]]).
  - simpl. assert (implb (bval c <? 128)%N (bval (leet_byte c) <? 128)%N = true) as Hi.
    { apply (byte_forall (fun c => implb (bval c <? 128)%N (bval (leet_byte c) <? 128)%N)). vm_compute. reflexivity. }
    rewrite (proj2 (N.ltb_lt _ _) Hc) in Hi. simpl in Hi. split; [unfold is_utf8; simpl; by rewrite Hi|].
    left. eexists. split; [done|]. by apply N.ltb_lt.
  - destruct ch as [|c [|d ch]]; [done| |done]. exfalso.
    destruct Hok as [Hu _]. unfold is_utf8 in Hu. simpl in *. rewrite andb_true_r in Hh. unfold high in Hh.
    apply N.leb_le, N.ltb_ge in Hh. rewrite Hh in Hu. revert Hu. split_if; done.
Qed.

Lemma norm_step_inv opts st ch : char_ok ch -> norm_inv st -> norm_inv (norm_step opts st ch).
Proof.
  destruct st as [out prev]. intros Hch Hinv. unfold norm_step. destruct (_ && is_zero_width ch); [done|].
  assert (Hok : char_ok (if nc_leet opts then leet_fold ch else ch)).
  { destruct (nc_leet opts); [by apply leet_ok|done]. }
  revert Hok. generalize (if nc_leet opts then leet_fold ch else ch) as x. clear ch Hch. intros ch Hch.
  destruct (_ || _ || _) eqn:Ebl; [by apply norm_space|].
  destruct (char_is_uppercase ch) eqn:Eup.
  { destruct (lower_plain ch Hch Eup). by eapply norm_push. }
  destruct (String.eqb ch " ") eqn:Esp; [by apply norm_space|].
  eapply norm_push; [done|by destruct Hch as (_ & [(c & -> & _)|[? _]])|].
  destruct Hch as (_ & [(c & -> & _)|[_ Hh]]); [|by apply high_not_blank].
  simpl in *. unfold not_blank. rewrite !andb_true_r.
  destruct (Ascii.eqb c " "), (Ascii.eqb c tab), (Ascii.eqb c nl), (Ascii.eqb c cr); done.
Qed.

Lemma norm_fold_inv opts cs st :
  Forall char_ok cs -> norm_inv st -> norm_inv (foldl (norm_step opts) st cs).
Proof.
  intros Hcs. revert st. induction Hcs as [|ch cs Hch _ IH]; intros st Hst; simpl; [done|].
  by apply IH, norm_step_inv.
Qed.

(** Whitespace tricks are neutralised: whatever the options, normalised text
    holds no tab, CR or LF, no leading, trailing or doubled space. *)
Theorem base_normalize_blanks opts text :
  is_utf8 text = true ->
  sp_ok true (base_normalize opts text) = true /\ ends_with " " (base_normalize opts text) = false.
Proof.
  intros Hu. unfold base_normalize. apply strip_space.
  apply norm_fold_inv; [by apply chars_ok|done].
Qed.
End NormalizeLemmas.

(** ** Lemmas: separators *)

Lemma collapse_go_drop k cs : collapse_go k cs = collapse_go 0 (drop k cs).
Proof. revert k. induction cs as [|c cs IH]; intros [|k]; simpl; try done. Qed.

Lemma run_letters_keep cs :
  List.filter (fun ch => negb (is_separator ch)) (run_letters cs) =
  List.filter (fun ch => negb (is_separator ch)) (take (2 * length (run_letters cs)) cs).
Proof.
  assert (forall n cs, length cs <= n ->
    List.filter (fun ch => negb (is_separator ch)) (run_letters cs) =
    List.filter (fun ch => negb (is_separator ch)) (take (2 * length (run_letters cs)) cs)) as H;
    [|by apply (H (length cs))].
  clear cs. induction n as [|n IH]; intros [|s [|a cs]] Hn; simpl in Hn; try done; [lia..|].
  cbn [run_letters]. destruct (is_separator s && is_alnum_char a) eqn:E; [|done].
  apply andb_prop in E as [Es _]. cbn [length]. rewrite Nat.mul_succ_r, Nat.add_comm.
  cbn [Nat.add take List.filter]. rewrite Es. cbn [negb]. rewrite (IH cs) by lia. done.
Qed.

(** Collapsing removes separators and nothing else: every other char is kept,
    in order; and text without separators is left alone. *)
Theorem collapse_separators_only cs :
  List.filter (fun ch => negb (is_separator ch)) (collapse_go 0 cs) =
    List.filter (fun ch => negb (is_separator ch)) cs /\
  (existsb is_separator cs = false -> collapse_go 0 cs = cs).
Proof.
  assert (forall n cs, length cs <= n ->
    List.filter (fun ch => negb (is_separator ch)) (collapse_go 0 cs) =
    List.filter (fun ch => negb (is_separator ch)) cs) as H.
  { induction n as [|n IH]; intros [|c cs'] Hn; simpl in Hn; try done; [lia|]. cbn [collapse_go].
    destruct (is_alnum_char c && _).
    - rewrite collapse_go_drop, List.filter_app, IH by (rewrite length_drop; lia). cbn [List.filter].
      assert (forall l : list string, l = run_letters cs' ->
        List.filter (fun ch => negb (is_separator ch)) l ++
        List.filter (fun ch => negb (is_separator ch)) (drop (2 * length l) cs') =
        List.filter (fun ch => negb (is_separator ch)) cs') as E.
      { intros l ->. by rewrite run_letters_keep, <-List.filter_app, take_drop. }
      destruct (negb (is_separator c)); cbn [app]; by rewrite E.
    - cbn [List.filter]. by rewrite (IH cs') by lia. }
  split; [by apply (H (length cs))|]. clear H.
  induction cs as [|c cs IH]; simpl; [done|]. rewrite orb_false_iff. intros [Hc Hcs].
  assert (run_letters cs = []) as ->.
  { destruct cs as [|s [|a cs]]; try done. simpl in *. by destruct (is_separator s). }
  cbn [length Nat.ltb]. rewrite andb_false_r. by rewrite IH.
Qed.

(** ** Lemmas: normal forms of ASCII text *)

(** Bytes that normalisation keeps as they are. *)
Definition norm_byte (opts : NormalizeConfig) (c : ascii) : bool :=
  (bval c <? 128)%N && negb (is_ascii_upper c) && (if nc_leet opts then Ascii.eqb (leet_byte c) c else true).

Lemma chars_ascii_cons c s : (bval c <? 128)%N = true -> chars (String c s) = one c :: chars s.
Proof.
  intros Hc. unfold chars. simpl. assert (char_need c = 0) as ->; [|done].
  unfold char_need. apply N.ltb_lt in Hc. by rewrite (proj2 (N.ltb_lt _ _)) by lia.
Qed.

Section NormalForms.
Context `{Unicode}.

Lemma char_is_uppercase_one c : (bval c <? 128)%N = true -> char_is_uppercase (one c) = is_ascii_upper c.
Proof. intros Hc. unfold char_is_uppercase, is_ascii. simpl. rewrite Hc. simpl. apply andb_true_r. Qed.

Lemma not_zero_width c : is_zero_width (one c) = false.
Proof.
  apply negb_true_iff, (byte_forall (fun c => negb (is_zero_width (one c)))). vm_compute. reflexivity.
Qed.

(** One step on an ASCII byte. *)
Lemma norm_step_one opts out p c :
  (bval c <? 128)%N = true ->
  let x := if nc_leet opts then leet_byte c else c in
  norm_step opts (out, p) (one c) =
    if not_blank x then (out +:+ one (lower_byte x), false) else if p then (out, p) else (out +:+ " ", true).
Proof.
  intros Hc x. unfold norm_step. rewrite not_zero_width, andb_false_r.
  replace (if nc_leet opts then leet_fold (one c) else one c) with (one x) by (unfold x; by destruct (nc_leet opts)).
  assert (Hx : (bval x <? 128)%N = true).
  { unfold x. destruct (nc_leet opts); [|done].
    assert (implb (bval c <? 128)%N (bval (leet_byte c) <? 128)%N = true) as Hi.
    { apply (byte_forall (fun c => implb (bval c <? 128)%N (bval (leet_byte c) <? 128)%N)). vm_compute. reflexivity. }
    by rewrite Hc in Hi. }
  clearbody x. rewrite char_is_uppercase_one by done.
  unfold char_to_lowercase, is_ascii. simpl sall. rewrite Hx. simpl.
  unfold not_blank, lower_byte.
  destruct (Ascii.eqb_spec x nl) as [->|]; [done|]. destruct (Ascii.eqb_spec x cr) as [->|]; [done|].
  destruct (Ascii.eqb_spec x tab) as [->|]; [done|]. simpl.
  destruct (Ascii.eqb_spec x " ") as [->|]; [done|]. simpl. by destruct (is_ascii_upper x).
Qed.

Lemma norm_step_bytes opts out p c :
  (bval c <? 128)%N = true -> sall (norm_byte opts) out = true ->
  sall (norm_byte opts) (norm_step opts (out, p) (one c)).1 = true.
Proof.
  intros Hc Ho. rewrite norm_step_one by done.
  destruct (not_blank _); [|destruct p; [done|]]; simpl; rewrite sall_app, Ho; simpl; [|by destruct opts as [? ? ? []]].
  rewrite andb_true_r. unfold norm_byte. destruct (nc_leet opts).
  - assert (implb (bval c <? 128)%N ((bval (lower_byte (leet_byte c)) <? 128)%N &&
      negb (is_ascii_upper (lower_byte (leet_byte c))) &&
      Ascii.eqb (leet_byte (lower_byte (leet_byte c))) (lower_byte (leet_byte c))) = true) as Hi; [|by rewrite Hc in Hi].
    apply (byte_forall (fun c => implb (bval c <? 128)%N ((bval (lower_byte (leet_byte c)) <? 128)%N &&
      negb (is_ascii_upper (lower_byte (leet_byte c))) &&
      Ascii.eqb (leet_byte (lower_byte (leet_byte c))) (lower_byte (leet_byte c))))). vm_compute. reflexivity.
  - assert (implb (bval c <? 128)%N ((bval (lower_byte c) <? 128)%N && negb (is_ascii_upper (lower_byte c)) && true)
      = true) as Hi; [|by rewrite Hc in Hi].
    apply (byte_forall (fun c => implb (bval c <? 128)%N
      ((bval (lower_byte c) <? 128)%N && negb (is_ascii_upper (lower_byte c)) && true))). vm_compute. reflexivity.
Qed.

Lemma norm_fold_bytes opts s st :
  is_ascii s = true -> sall (norm_byte opts) st.1 = true ->
  sall (norm_byte opts) (foldl (norm_step opts) st (chars s)).1 = true.
Proof.
  revert st. induction s as [|c s IH]; intros [out p] Hs Hst; [done|].
  unfold is_ascii in Hs. simpl in Hs. apply andb_prop in Hs as [Hc Hs].
  rewrite chars_ascii_cons by done. apply IH; [done|]. by apply norm_step_bytes.
Qed.

(** Text already in normal form passes through. *)
Lemma norm_fold_normal opts s out p :
  sall (norm_byte opts) s = true -> sp_ok p s = true ->
  foldl (norm_step opts) (out, p) (chars s) = (out +:+ s, last_sp p s).
Proof.
  revert out p. induction s as [|c s IH]; intros out p Hb Hsp; [simpl; by rewrite sapp_nil_r|].
  simpl in Hb, Hsp. apply andb_prop in Hb as [Hc Hb]. unfold norm_byte in Hc.
  apply andb_prop in Hc as [Hc Hl]. apply andb_prop in Hc as [Hc Hu]. apply negb_true_iff in Hu.
  rewrite chars_ascii_cons by done. cbn [foldl]. rewrite norm_step_one by done.
  assert ((if nc_leet opts then leet_byte c else c) = c) as ->.
  { destruct (nc_leet opts); [by apply Ascii.eqb_eq|done]. }
  cbn [last_sp]. destruct (Ascii.eqb_spec c " ") as [->|Hne].
  - apply andb_prop in Hsp as [Hp Hsp]. destruct p; [done|]. change (not_blank " ") with false. cbv iota.
    rewrite IH by done. by rewrite <-sapp_assoc.
  - apply andb_prop in Hsp as [Hn Hsp]. rewrite Hn. unfold lower_byte. rewrite Hu.
    rewrite IH by done. by rewrite <-sapp_assoc.
Qed.
End NormalForms.

(** Normalising is idempotent on ASCII text, under every setting of the
    options: a keyword that was normalised when it was loaded is its own
    normal form. *)
Theorem base_normalize_idempotent `{UnicodeLaws} opts text :
  is_ascii text = true -> base_normalize opts (base_normalize opts text) = base_normalize opts text.
Proof.
  intros Ha.
  assert (Hu : is_utf8 text = true).
  { clear -Ha. induction text as [|c s IH]; [done|]. unfold is_ascii in Ha. simpl in Ha.
    apply andb_prop in Ha as [Hc Hs]. unfold is_utf8. simpl. rewrite Hc. by apply IH. }
  pose proof (norm_fold_inv opts (chars text) ("", true) (chars_ok _ Hu) ltac:(done)) as [Hsp _].
  pose proof (norm_fold_bytes opts text ("", true) Ha ltac:(done)) as Hb.
  unfold base_normalize at 2 3. set (out := (foldl (norm_step opts) ("", true) (chars text)).1) in *.
  destruct (strip_space out Hsp) as [Hsp' Hend].
  assert (Hb' : sall (norm_byte opts) (match strip_suffix " " out with Some o => o | None => out end) = true).
  { destruct (strip_suffix " " out) as [o|] eqn:E; [|done]. apply strip_suffix_Some in E. rewrite E, sall_app in Hb.
    by apply andb_prop in Hb as [? _]. }
  set (o := match strip_suffix " " out with Some o => o | None => out end) in *.
  unfold base_normalize. rewrite norm_fold_normal by done. cbn [fst String.append].
  unfold ends_with in Hend. by destruct (strip_suffix " " o).
Qed.

(** ** The Aho-Corasick scanner *)

Section AcSpec.
Context `{Unicode} `{RegexEngine} `{AhoCorasickLaws}.

(** What a level looks for, without the automaton. *)
Definition level_matches (words : list string) (rules : list RegexRule) (norm : string) : bool :=
  existsb (fun w => contains w norm) words || existsb (fun r => is_match (rx_regex r) norm) rules.
(** A rule name that a level may report. *)
Definition level_reports (words : list string) (rules : list RegexRule) (norm rule : string) : Prop :=
  (In rule words /\ contains rule norm = true) \/
  (exists r, In r rules /\ is_match (rx_regex r) norm = true /\ rule = rx_pattern r).

Lemma level_hit_spec a words rules norm :
  build_opt words = Ok a ->
  exists hit, level_hit a words rules norm = Some hit /\
    match hit with
    | Some rule => level_matches words rules norm = true /\ level_reports words rules norm rule
    | None => level_matches words rules norm = false
    end.
Proof.
  intros Hb. unfold level_hit, level_matches, level_reports.
  assert (Hfind : match a ≫= (fun a => ac_find a norm) with
    | Some i => exists p, words !! i = Some p /\ contains p norm = true
    | None => existsb (fun w => contains w norm) words = false end).
  { unfold build_opt in Hb. destruct words as [|w ws]; [by injection Hb as <-|].
    destruct (ac_build (w :: ws)) as [x|] eqn:E; [|done]. injection Hb as <-.
    unfold mbind, option_bind. destruct (ac_find x norm) as [i|] eqn:F; [by eapply ac_find_Some|].
    apply existsb_false_iff. intros y Hy. pose proof (ac_find_None _ _ _ E F) as Hall.
    rewrite List.Forall_forall in Hall. by apply Hall. }
  destruct (a ≫= _) as [i|].
  - destruct Hfind as (p & Hp & Hc). rewrite Hp. simpl. eexists. split; [done|].
    assert (In p words) by (apply list_elem_of_In; by eapply list_elem_of_lookup_2).
    split; [|by left]. apply orb_true_iff. left. apply existsb_exists. eauto.
  - rewrite Hfind. simpl. destruct (List.find _ rules) as [r|] eqn:F; simpl; eexists; (split; [done|]).
    + apply find_some in F as [Hin Hm]. simpl. split; [apply existsb_exists; eauto|]. right. eauto.
    + apply existsb_false_iff. intros r Hin. exact (find_none _ _ F r Hin).
Qed.

(** Each automaton of a built scanner was compiled from its word list. *)
Definition scanner_ok (s : AcScanner) : Prop :=
  build_opt (ac_block_words s) = Ok (ac_block s) /\ build_opt (ac_alert_words s) = Ok (ac_alert s) /\
  build_opt (ac_flag_words s) = Ok (ac_flag s).

Lemma ac_scanner_build_inv read_file cfg s :
  ac_scanner_build read_file cfg = Ok s ->
  scanner_ok s /\
  exists rules, ac_block_words s = block_literals rules /\
    load_dict_files read_file (kc_normalize cfg) (kc_dict_paths cfg)
      (mkBuckets (map (normalize_with (kc_normalize cfg)) (kc_inline_block cfg))
         (map (normalize_with (kc_normalize cfg)) (kc_inline_alert cfg))
         (map (normalize_with (kc_normalize cfg)) (kc_inline_flag cfg)) [] [] []) = Ok rules.
Proof.
  unfold ac_scanner_build. destruct (load_dict_files _ _ _ _) as [rules|]; [|done]. cbn beta iota.
  destruct (build_opt (block_literals rules)) as [b|] eqn:Eb; [|done].
  destruct (build_opt (alert_literals rules)) as [a|] eqn:Ea; [|done].
  destruct (build_opt (flag_literals rules)) as [f|] eqn:Ef; [|done]. intros [= <-].
  split; [by split_and!|]. by exists rules.
Qed.

Lemma ac_check_spec s norm :
  scanner_ok s ->
  let block := level_matches (ac_block_words s) (ac_block_regex s) norm in
  let alert := level_matches (ac_alert_words s) (ac_alert_regex s) norm in
  let flag := level_matches (ac_flag_words s) (ac_flag_regex s) norm in
  exists v, ac_check s norm = Some v /\
    match v with
    | Blocked rule => block = true /\ level_reports (ac_block_words s) (ac_block_regex s) norm rule
    | Alert rule => block = false /\ alert = true /\ level_reports (ac_alert_words s) (ac_alert_regex s) norm rule
    | Flagged rule => block = false /\ alert = false /\ flag = true /\
                      level_reports (ac_flag_words s) (ac_flag_regex s) norm rule
    | Clean => block = false /\ alert = false /\ flag = false
    end.
Proof.
  intros (Eb & Ea & Ef). simpl. unfold ac_check.
  destruct (level_hit_spec _ _ (ac_block_regex s) norm Eb) as ([rb|] & -> & Hb); simpl; [by eexists|].
  destruct (level_hit_spec _ _ (ac_alert_regex s) norm Ea) as ([ra|] & -> & Ha); simpl; [eexists; naive_solver|].
  destruct (level_hit_spec _ _ (ac_flag_regex s) norm Ef) as ([rf|] & -> & Hf); simpl; eexists; naive_solver.
Qed.

(** The verdict is the severity of the strongest level that matches, and the
    rule it names did match: on a scanner the loader built, the check never
    panics, is [Blocked] exactly when a block literal occurs in the text or
    a block regex matches it, otherwise [Alert] exactly when an alert rule
    does, otherwise [Flagged] exactly when a flag rule does, else [Clean]. *)
Theorem ac_check_severity read_file cfg s norm :
  ac_scanner_build read_file cfg = Ok s ->
  let block := level_matches (ac_block_words s) (ac_block_regex s) norm in
  let alert := level_matches (ac_alert_words s) (ac_alert_regex s) norm in
  let flag := level_matches (ac_flag_words s) (ac_flag_regex s) norm in
  exists v, ac_check s norm = Some v /\
    match v with
    | Blocked rule => block = true /\ level_reports (ac_block_words s) (ac_block_regex s) norm rule
    | Alert rule => block = false /\ alert = true /\ level_reports (ac_alert_words s) (ac_alert_regex s) norm rule
    | Flagged rule => block = false /\ alert = false /\ flag = true /\
                      level_reports (ac_flag_words s) (ac_flag_regex s) norm rule
    | Clean => block = false /\ alert = false /\ flag = false
    end.
Proof.
  intros [Hok _]%ac_scanner_build_inv. by apply ac_check_spec.
Qed.
End AcSpec.

(** ** The dictionary loader *)

Section LoadSpec.
Context `{Unicode} `{RegexEngine}.

(** [r'] extends every bucket of [r]. *)
Definition extends (r r' : RuleBuckets) : Prop :=
  (exists l, block_literals r' = block_literals r ++ l) /\ (exists l, alert_literals r' = alert_literals r ++ l) /\
  (exists l, flag_literals r' = flag_literals r ++ l) /\ (exists l, block_regex r' = block_regex r ++ l) /\
  (exists l, alert_regex r' = alert_regex r ++ l) /\ (exists l, flag_regex r' = flag_regex r ++ l).

Lemma extends_refl r : extends r r.
Proof. unfold extends. split_and!; exists []; by rewrite app_nil_r. Qed.

Lemma extends_trans r1 r2 r3 : extends r1 r2 -> extends r2 r3 -> extends r1 r3.
Proof.
  intros ([? H1] & [? H2] & [? H3] & [? H4] & [? H5] & [? H6]) ([? K1] & [? K2] & [? K3] & [? K4] & [? K5] & [? K6]).
  unfold extends. rewrite K1, K2, K3, K4, K5, K6, H1, H2, H3, H4, H5, H6.
  split_and!; rewrite <-(assoc_L (++)); eexists; reflexivity.
Qed.

Lemma push_extends r target :
  (forall rule, extends r (push_regex target rule r)) /\ (forall lit, extends r (push_literal target lit r)).
Proof.
  split; intros x; destruct target; unfold extends; simpl; split_and!;
    (by exists []; rewrite app_nil_r) || (by eexists).
Qed.

Lemma load_dict_line_extends opts at_ l r r' : load_dict_line opts at_ l r = Ok r' -> extends r r'.
Proof.
  unfold load_dict_line. destruct (_ || _); [intros [= <-]; apply extends_refl|].
  destruct (map trim _) as [|pat rest]; [intros [= <-]; apply extends_refl|].
  destruct (String.eqb pat ""); [intros [= <-]; apply extends_refl|].
  destruct rest as [|key rest]; [done|]. destruct (parse_u32 key) as [k|]; [|done].
  destruct (if Z.eqb k 0 then _ else _) as [target|]; [|done]. simpl.
  destruct (push_extends r target) as [Hr Hl].
  destruct (parse_regex_pattern pat) as [p|]; [destruct (regex_build true p); [|done]|]; by intros [= <-].
Qed.

Lemma load_dict_lines_extends opts path idx ls r r' : load_dict_lines opts path idx ls r = Ok r' -> extends r r'.
Proof.
  revert idx r. induction ls as [|l ls IH]; intros idx r; simpl; [intros [= <-]; apply extends_refl|].
  destruct (load_dict_line _ _ l r) as [r1|] eqn:E; [|done]. simpl. intros Hl.
  eapply extends_trans; [by eapply load_dict_line_extends|by eapply IH].
Qed.

Lemma load_dict_files_extends rf opts paths r r' : load_dict_files rf opts paths r = Ok r' -> extends r r'.
Proof.
  revert r. induction paths as [|p ps IH]; intros r; simpl; [intros [= <-]; apply extends_refl|].
  unfold load_ac_dict_file. destruct (rf p) as [content|]; [|done]. simpl.
  destruct (load_dict_lines opts p 0 _ r) as [r1|] eqn:E; [|done]. intros Hl.
  eapply extends_trans; [by eapply load_dict_lines_extends|by eapply IH].
Qed.
End LoadSpec.

Section InlineSpec.
Context `{Unicode} `{RegexEngine} `{AhoCorasickLaws} `{Iword}.

Lemma inline_block_hits read_file cfg m text kw :
  build_with_engine read_file cfg "aho-corasick" = Ok m ->
  In kw (kc_inline_block cfg) ->
  contains (normalize_with (kc_normalize cfg) kw) (normalize_with (kc_normalize cfg) text) = true ->
  exists rule, check_input m text = Some (Blocked rule).
Proof.
  unfold build_with_engine. simpl. destruct (ac_scanner_build read_file cfg) as [s|] eqn:Es; [|done].
  simpl. intros [= <-] Hin Hc. set (norm := normalize_with (kc_normalize cfg) text) in *.
  apply ac_scanner_build_inv in Es as (Hok & rules & Hw & El).
  apply load_dict_files_extends in El as ([l Hl] & _). simpl in Hl.
  assert (Hlv : level_matches (ac_block_words s) (ac_block_regex s) norm = true).
  { unfold level_matches. rewrite Hw, Hl, existsb_app. apply orb_true_iff. left. apply orb_true_iff. left.
    apply existsb_exists. exists (normalize_with (kc_normalize cfg) kw). split; [by apply in_map|done]. }
  assert (exists rule, ac_check s norm = Some (Blocked rule)) as [rule Hr].
  { destruct (ac_check_spec s norm Hok) as ([] & -> & Hv); [eauto|..]; naive_solver congruence. }
  exists rule. exact Hr.
Qed.

(** A configured block keyword blocks: when the normalised text contains the
    normalised keyword, [check_input] says [Blocked], whatever else the
    dictionaries hold; with [shadow] on, the same request is let through
    with the rule named in a flag. *)
Theorem inline_block_blocks read_file cfg m text kw :
  build_with_engine read_file cfg "aho-corasick" = Ok m ->
  In kw (kc_inline_block cfg) ->
  contains (normalize_with (kc_normalize cfg) kw) (normalize_with (kc_normalize cfg) text) = true ->
  exists rule, check_input m text = Some (Blocked rule) /\
    check_input_with_shadow m text false = Some (Blocked rule) /\
    check_input_with_shadow m text true = Some (Flagged ("shadow_block:" +:+ rule)).
Proof.
  intros Hb Hin Hc. destruct (inline_block_hits _ _ _ _ _ Hb Hin Hc) as [rule Hr].
  exists rule. unfold check_input_with_shadow. by rewrite Hr.
Qed.
End InlineSpec.

(** ** The output filter *)

Lemma get_app i a b :
  String.get i (a +:+ b) =
    if Nat.ltb i (String.length a) then String.get i a else String.get (i - String.length a) b.
Proof.
  revert i. induction a as [|c a IH]; intros [|i]; simpl; try done.
Qed.

Lemma slen_stars n : String.length (stars n) = n.
Proof. induction n; simpl; congruence. Qed.

Lemma get_stars i n : i < n -> String.get i (stars n) = Some ("*"%char).
Proof. revert i. induction n as [|n IH]; intros [|i] Hi; simpl; try lia; [done|]. apply IH. lia. Qed.

Lemma stars_utf8 n : is_utf8 (stars n) = true.
Proof. induction n as [|n IH]; [done|]. exact IH. Qed.

(** [k] is a char boundary of the valid text [s]. *)
Definition boundary (k : nat) (s : string) : Prop :=
  k <= String.length s /\ is_utf8 (stake k s) = true /\ is_utf8 (sdrop k s) = true.

Lemma utf8_app_inv a b : is_utf8 a = true -> is_utf8 (a +:+ b) = true -> is_utf8 b = true.
Proof. intros Ha Hab. unfold is_utf8 in Hab at 1. by rewrite utf8_go_app in Hab. Qed.

Lemma boundary_whole k s : boundary k s -> is_utf8 s = true.
Proof. intros (_ & H1 & H2). rewrite <-(stake_sdrop k s). by apply is_utf8_app. Qed.

(** The text between two boundaries is valid. *)
Lemma boundary_slice j k s : j <= k -> boundary j s -> boundary k s -> is_utf8 (slice j k s) = true.
Proof.
  intros Hjk (_ & Hj & _) (Hk & Hk' & _). apply (utf8_app_inv (stake j s)); [done|].
  rewrite <-(stake_stake j k s) by done.
  replace (slice j k s) with (sdrop j (stake k s)); [by rewrite stake_sdrop|].
  rewrite <-(slice_stake j k k s) by done. unfold slice.
  assert (Hl : String.length (sdrop j (stake k s)) = k - j) by (rewrite slen_sdrop, slen_stake; lia).
  rewrite <-(sapp_nil_r (sdrop j (stake k s))) at 2. rewrite <-Hl. by rewrite stake_app_len.
Qed.

Lemma fill_shape a b s :
  a <= b -> b <= String.length s ->
  exists s', fill_stars a b s = Some s' /\ s' = stake a s +:+ stars (b - a) +:+ sdrop b s /\
    String.length s' = String.length s.
Proof.
  intros Hab Hb. unfold fill_stars.
  rewrite (proj2 (Nat.leb_le a b)), (proj2 (Nat.leb_le b (String.length s))) by lia. simpl.
  eexists. split_and!; [done..|]. rewrite !slen_app, slen_stake, slen_sdrop, slen_stars. lia.
Qed.

Lemma fill_get a b s i :
  a <= b -> b <= String.length s ->
  String.get i (stake a s +:+ stars (b - a) +:+ sdrop b s) =
    if Nat.leb a i && Nat.ltb i b then Some ("*"%char) else String.get i s.
Proof.
  intros Hab Hb. rewrite <-(stake_sdrop a s) at 3. rewrite !get_app, slen_stake, slen_stars.
  rewrite Nat.min_l by lia. destruct (Nat.ltb_spec i a).
  { by rewrite (proj2 (Nat.leb_gt _ _)) by lia. }
  rewrite (proj2 (Nat.leb_le a i)) by lia. simpl. destruct (Nat.ltb_spec i b).
  { rewrite (proj2 (Nat.ltb_lt _ _)) by lia. apply get_stars. lia. }
  rewrite (proj2 (Nat.ltb_ge _ _)) by lia.
  rewrite <-(stake_sdrop (b - a) (sdrop a s)), get_app, slen_stake, slen_sdrop, sdrop_add.
  rewrite (proj2 (Nat.ltb_ge _ _)) by lia. replace (a + (b - a)) with b by lia. f_equal. lia.
Qed.

Lemma stake_app_ge k a b : String.length a <= k -> stake k (a +:+ b) = a +:+ stake (k - String.length a) b.
Proof.
  revert k. induction a as [|c a IH]; intros k H; simpl in *; [by rewrite Nat.sub_0_r|].
  destruct k; [lia|]. simpl. by rewrite IH by lia.
Qed.
Lemma sdrop_app_le k a b : String.length a <= k -> sdrop k (a +:+ b) = sdrop (k - String.length a) b.
Proof.
  revert k. induction a as [|c a IH]; intros k H; simpl in *; [by rewrite Nat.sub_0_r|].
  destruct k; [lia|]. simpl. by rewrite IH by lia.
Qed.
Lemma stake_stars k n : k <= n -> stake k (stars n) = stars k.
Proof. revert k. induction n as [|n IH]; intros [|k] H; simpl; try done; [lia|]. by rewrite IH by lia. Qed.
Lemma sdrop_stars k n : k <= n -> sdrop k (stars n) = stars (n - k).
Proof. revert k. induction n as [|n IH]; intros [|k] H; simpl; try done. apply IH. lia. Qed.

(** Filling between two boundaries keeps every boundary. *)
Lemma fill_boundary a b k s :
  a <= b -> boundary a s -> boundary b s -> boundary k s ->
  boundary k (stake a s +:+ stars (b - a) +:+ sdrop b s).
Proof.
  intros Hab Ha Hb Hk. pose proof Ha as (Hal & Ha1 & Ha2). pose proof Hb as (Hbl & Hb1 & Hb2).
  pose proof Hk as (Hkl & Hk1 & Hk2).
  assert (Hla : String.length (stake a s) = a) by (rewrite slen_stake; lia).
  assert (Hls : String.length (stars (b - a)) = b - a) by apply slen_stars.
  split; [rewrite !slen_app, Hla, Hls, slen_sdrop; lia|].
  destruct (le_lt_dec k a) as [Hka|Hka].
  - split.
    + rewrite stake_app_le by lia. by rewrite stake_stake.
    + rewrite sdrop_app_ge by lia. repeat apply is_utf8_app; auto using stars_utf8.
      pose proof (boundary_slice k a s Hka Hk Ha) as Hsl. rewrite <-(slice_stake k a a s) in Hsl by done.
      unfold slice in Hsl. rewrite <-(sapp_nil_r (sdrop k (stake a s))) in Hsl.
      assert (Hl : String.length (sdrop k (stake a s)) = a - k) by (rewrite slen_sdrop; lia).
      rewrite <-Hl in Hsl. by rewrite stake_app_len in Hsl.
  - rewrite stake_app_ge, sdrop_app_le by (rewrite Hla; lia). rewrite Hla.
    destruct (le_lt_dec k b) as [Hkb|Hkb].
    + rewrite stake_app_le, sdrop_app_ge, stake_stars, sdrop_stars by lia.
      split; repeat apply is_utf8_app; auto using stars_utf8.
    + rewrite stake_app_ge, sdrop_app_le by lia. rewrite Hls, sdrop_add. replace (b + (k - a - (b - a))) with k by lia.
      split; [|done]. repeat apply is_utf8_app; auto using stars_utf8.
      replace (k - a - (b - a)) with (k - b) by lia. apply (boundary_slice b k s); [lia|done..].
Qed.

Section FilterOutput.
Context `{Unicode} `{Iword}.

(** The byte map: one entry per lowered byte, sorted, each a char boundary. *)
Lemma lower_map_spec pre cs :
  Forall char_ok pre -> Forall char_ok cs ->
  let '(l, m) := lower_map (String.length (sconcat pre)) cs in
  length m = String.length l /\ StronglySorted le m /\
  Forall (fun e => String.length (sconcat pre) <= e /\ boundary e (sconcat (pre ++ cs))) m.
Proof.
  intros Hpre Hcs. revert pre Hpre. induction Hcs as [|ch cs Hch Hcs IH]; intros pre Hpre; simpl.
  { split_and!; constructor. }
  specialize (IH (pre ++ [ch])). rewrite sconcat_app in IH. simpl in IH. rewrite sapp_nil_r, slen_app in IH.
  destruct (lower_map _ cs) as [l m]. destruct IH as (Hl & Hs & HF).
  { apply Forall_app. split; [done|by constructor]. }
  set (piece := match char_to_lowercase ch with [] => ch | lcs => sconcat lcs end).
  assert (Hb : boundary (String.length (sconcat pre)) (sconcat (pre ++ ch :: cs))).
  { assert (Hu : forall l, Forall char_ok l -> is_utf8 (sconcat l) = true).
    { induction 1 as [|x xs [Hx _] _ IHx]; [done|]. by apply is_utf8_app. }
    rewrite sconcat_app. split; [rewrite slen_app; lia|]. rewrite stake_app_len, sdrop_app_len.
    split; apply Hu; [done|by constructor]. }
  assert (HF' : Forall (fun e => String.length (sconcat pre) <= e /\ boundary e (sconcat (pre ++ ch :: cs)))
                  (repeat (String.length (sconcat pre)) (String.length piece) ++ m)).
  { apply Forall_app. split.
    - apply List.Forall_forall. intros e He%repeat_spec. by subst.
    - eapply Forall_impl; [exact HF|]. intros e [He1 He2]. simpl in *.
      rewrite <-(assoc_L (++)) in He2. split; [lia|done]. }
  split_and!; [| |done].
  - rewrite length_app, repeat_length, slen_app. lia.
  - match goal with |- context [repeat _ ?k] => generalize k as n end. clear -Hs HF. intros n. induction n as [|n IHn]; [done|].
    simpl. constructor; [done|].
    apply Forall_app. split.
    + apply List.Forall_forall. intros e He%repeat_spec. lia.
    + eapply Forall_impl; [exact HF|]. simpl. intros e [? _]. lia.
Qed.

Lemma sorted_snoc m n : StronglySorted le m -> Forall (fun e => e <= n) m -> StronglySorted le (m ++ [n]).
Proof.
  induction 1 as [|x m Hs IH Hx]; intros HF; simpl; [repeat constructor|]. inversion_clear HF.
  constructor; [auto|]. apply Forall_app. split; [done|by constructor].
Qed.

Lemma lower_with_byte_map_spec text :
  is_utf8 text = true ->
  let '(l, m) := lower_with_byte_map text in
  length m = S (String.length l) /\ StronglySorted le m /\ Forall (fun e => boundary e text) m.
Proof.
  intros Hu. unfold lower_with_byte_map.
  pose proof (lower_map_spec [] (chars text) ltac:(constructor) (chars_ok _ Hu)) as Hm. simpl in Hm.
  destruct (lower_map 0 (chars text)) as [l m]. destruct Hm as (Hl & Hs & HF). rewrite sconcat_chars in HF.
  split_and!.
  - rewrite length_app, Hl. simpl. lia.
  - apply sorted_snoc; [done|]. eapply Forall_impl; [exact HF|]. intros e [_ (? & _)]. done.
  - apply Forall_app. split; [eapply Forall_impl; [exact HF|]; by intros e [_ ?]|].
    constructor; [|constructor]. split; [done|].
    rewrite <-(sapp_nil_r text) at 2 4. rewrite stake_app_len, sdrop_app_len. done.
Qed.

Lemma sorted_lookup m i j a b :
  StronglySorted le m -> i <= j -> m !! i = Some a -> m !! j = Some b -> a <= b.
Proof.
  intros Hs. revert i j. induction Hs as [|x m Hs IH Hx]; intros [|i] [|j] Hij Hi Hj; simpl in *; try done; try lia.
  - simplify_eq. lia.
  - simplify_eq. rewrite Forall_forall in Hx. apply Hx. by eapply list_elem_of_lookup_2.
  - apply (IH i j); [lia|done..].
Qed.

(** Scanning back finds the bracket that is open after the prefix. *)
Lemma inside_brackets_open s i : i <= String.length s -> is_inside_brackets s i = open_bracket (stake i s).
Proof.
  induction i as [|i IH]; intros Hi; [by destruct s|]. cbn [is_inside_brackets].
  destruct (String.get i s) as [c|] eqn:E.
  2: { exfalso. assert (Hn : forall s i, i < String.length s -> String.get i s <> None).
       { clear. induction s as [|c s IH]; intros [|i] H; simpl in *; [lia..|done|apply IH; lia]. }
       by apply (Hn s i ltac:(lia)). }
  assert (Hst : stake (S i) s = stake i s +:+ one c).
  { clear -E. revert i E. induction s as [|d s IH]; intros [|i] E; simpl in *; try done.
    - injection E as ->. by destruct s.
    - f_equal. by apply IH. }
  rewrite Hst. unfold open_bracket. rewrite open_after_app. simpl.
  destruct (Ascii.eqb c "["); [done|]. destruct (Ascii.eqb c "]"); [done|]. apply IH. lia.
Qed.

Lemma open_after_closed s : sall not_open s = true -> open_after false s = false.
Proof.
  induction s as [|c s IH]; simpl; [done|]. intros Hs. apply andb_prop in Hs as [Hc Hs].
  unfold not_open in Hc. destruct (Ascii.eqb c "["); [done|]. by destruct (Ascii.eqb c "]"); apply IH.
Qed.

(** What the masking loop keeps. *)
Definition masked (text buf : string) : Prop :=
  String.length buf = String.length text /\ (forall k, boundary k text -> boundary k buf) /\
  (forall i, String.get i buf = String.get i text \/ String.get i buf = Some ("*"%char)).

Lemma mask_matches_spec text m ms buf :
  StronglySorted le m -> Forall (fun e => boundary e text) m ->
  Forall (fun pl => pl.1 + pl.2 < length m) ms -> masked text buf ->
  exists out, mask_matches text m buf ms = Some out /\ masked text out /\
    forall i, open_bracket (stake i text) = true -> i < String.length text ->
      (forall p l a b, In (p, l) ms -> m !! p = Some a -> m !! (p + l) = Some b ->
         sall not_open (slice a b text) = true) ->
      String.get i out = String.get i buf.
Proof.
  intros Hs Hb Hms. revert buf. induction Hms as [|[p l] ms Hpl Hms IH]; intros buf Hbuf; simpl; [eauto|].
  simpl in Hpl. destruct (lookup_lt_is_Some_2 m p) as [a Ha]; [lia|].
  destruct (lookup_lt_is_Some_2 m (p + l)) as [b Hb']; [lia|]. rewrite Ha, Hb'. simpl.
  assert (Hab : a <= b) by (eapply (sorted_lookup m p (p + l)); [done|lia|done..]).
  assert (Hbd : boundary a text /\ boundary b text).
  { rewrite Forall_forall in Hb. split; apply Hb; by eapply list_elem_of_lookup_2. }
  destruct Hbd as [Hba Hbb]. destruct (is_inside_brackets text a) eqn:Eb.
  { destruct (IH buf Hbuf) as (out & -> & Hm & Hk). exists out. split_and!; [done..|].
    intros i Hi Hlt Hno. apply Hk; [done..|]. intros. eapply Hno; [by right|done..]. }
  destruct Hbuf as (Hlen & Hbd & Hg). pose proof Hbb as (Hbl & _ & _).
  destruct (fill_shape a b buf Hab ltac:(lia)) as (buf' & -> & -> & Hlen'). simpl.
  destruct (IH (stake a buf +:+ stars (b - a) +:+ sdrop b buf)) as (out & -> & Hm & Hk).
  { split_and!; [congruence| |].
    - intros k Hk. apply fill_boundary; auto.
    - intros i. rewrite fill_get by lia. destruct (_ && _); auto. }
  exists out. split_and!; [done..|]. intros i Hi Hlt Hno. rewrite Hk; [|done..|].
  - rewrite fill_get by lia. destruct (Nat.leb_spec a i), (Nat.ltb_spec i b); simpl; try done. exfalso.
    specialize (Hno p l a b (or_introl eq_refl) Ha Hb').
    rewrite inside_brackets_open in Eb by lia.
    assert (Hcut : stake i text = stake a text +:+ slice a i text).
    { rewrite <-(stake_sdrop a (stake i text)), stake_stake by lia. f_equal.
      rewrite <-(slice_stake a i i text) by done. unfold slice.
      assert (String.length (sdrop a (stake i text)) = i - a) as <- by (rewrite slen_sdrop, slen_stake; lia).
      rewrite <-(sapp_nil_r (sdrop a (stake i text))) at 3. by rewrite stake_app_len. }
    rewrite Hcut in Hi. unfold open_bracket in *. rewrite open_after_app, Eb, open_after_closed in Hi; [done|].
    unfold slice in Hno |- *. rewrite <-(stake_stake (i - a) (b - a)) by lia.
    rewrite <-(stake_sdrop (i - a) (stake (b - a) (sdrop a text))), sall_app in Hno.
    by apply andb_prop in Hno as [? _].
  - intros. eapply Hno; [by right|done..].
Qed.

(** C36: Response masking is safe: on valid text, for any matches that lie inside
    the scanned copy, [filter_output] neither panics nor replaces malformed
    bytes; its result is valid text of the same length in which each byte is
    the original one or [*]; and no byte inside an open bracket is touched,
    so vault placeholders survive to be restored, as long as no matched
    range itself holds a ["\["]. *)
Theorem filter_output_safe m text :
  is_utf8 text = true ->
  (forall s p l, In (p, l) (iw_scan (mt_output m) s) -> p + l <= String.length s) ->
  exists out, filter_output m text = Some out /\ is_utf8 out = true /\
    String.length out = String.length text /\
    (forall i, String.get i out = String.get i text \/ String.get i out = Some ("*"%char)) /\
    (forall i, open_bracket (stake i text) = true -> i < String.length text ->
       (forall p l a b, In (p, l) (iw_scan (mt_output m) (lower_with_byte_map text).1) ->
          (lower_with_byte_map text).2 !! p = Some a -> (lower_with_byte_map text).2 !! (p + l) = Some b ->
          sall not_open (slice a b text) = true) ->
       String.get i out = String.get i text).
Proof.
  intros Hu Hscan. unfold filter_output. pose proof (lower_with_byte_map_spec text Hu) as Hmap.
  destruct (lower_with_byte_map text) as [lowered map_]. destruct Hmap as (Hl & Hs & HF). cbn [fst snd].
  specialize (Hscan lowered). destruct (iw_scan (mt_output m) lowered) as [|pl ms]; [exists text; by split_and!; auto|].
  destruct (mask_matches_spec text map_ (pl :: ms) text) as (out & -> & (Hlen & Hb & Hg) & Hk); [done..| |by split_and!; auto|].
  { apply List.Forall_forall. intros [p l] Hin. simpl. specialize (Hscan p l Hin). lia. }
  assert (Ho : is_utf8 out = true).
  { apply (boundary_whole 0), Hb. split; [lia|]. by destruct text. }
  exists out. simpl. rewrite from_utf8_lossy_valid by done. by split_and!.
Qed.

(** Masking never panics, valid text or not: the map is sorted and bounded. *)
Lemma lower_map_range idx cs :
  let '(l, m) := lower_map idx cs in
  length m = String.length l /\ StronglySorted le m /\
  Forall (fun e => idx <= e <= idx + String.length (sconcat cs)) m.
Proof.
  revert idx. induction cs as [|ch cs IH]; intros idx; simpl; [split_and!; constructor|].
  specialize (IH (idx + String.length ch)). destruct (lower_map _ cs) as [l m]. destruct IH as (Hl & Hs & HF).
  rewrite length_app, repeat_length, slen_app, slen_app.
  match goal with |- context [repeat _ ?k] => generalize k as n end. intros n.
  assert (Hm : Forall (fun e => idx <= e <= idx + (String.length ch + String.length (sconcat cs))) m)
    by (eapply Forall_impl; [exact HF|]; simpl; lia).
  split_and!; [lia| |].
  - clear Hl. induction n as [|n IHn]; [exact Hs|]. simpl. constructor; [done|]. apply Forall_app. split.
    + apply List.Forall_forall. intros e He%repeat_spec. lia.
    + eapply Forall_impl; [exact Hm|]. simpl. lia.
  - apply Forall_app. split; [|done]. apply List.Forall_forall. intros e He%repeat_spec. lia.
Qed.
Lemma mask_matches_total text m ms buf :
  StronglySorted le m -> Forall (fun e => e <= String.length buf) m ->
  Forall (fun pl => pl.1 + pl.2 < length m) ms -> is_Some (mask_matches text m buf ms).
Proof.
  intros Hs Hb Hms. revert buf Hb. induction Hms as [|[p l] ms Hpl Hms IH]; intros buf Hb; simpl; [eauto|].
  simpl in Hpl. destruct (lookup_lt_is_Some_2 m p ltac:(lia)) as [a Ha].
  destruct (lookup_lt_is_Some_2 m (p + l) ltac:(lia)) as [b Hb']. rewrite Ha, Hb'. simpl.
  destruct (is_inside_brackets text a); [by apply IH|].
  assert (Hab : a <= b) by (eapply (sorted_lookup m p (p + l)); eauto; lia).
  assert (Hbl : b <= String.length buf) by (rewrite Forall_forall in Hb; apply Hb; by eapply list_elem_of_lookup_2).
  unfold fill_stars. destruct (Nat.leb_spec a b); [|lia]. destruct (Nat.leb_spec b (String.length buf)); [|lia].
  simpl. apply IH. assert (Hst : forall n, String.length (stars n) = n) by (induction n; simpl; auto).
  rewrite !slen_app, slen_stake, slen_sdrop, Hst. replace (_ `min` _ + _) with (String.length buf) by lia. done.
Qed.
Lemma filter_output_total m text :
  (forall s p l, In (p, l) (iw_scan (mt_output m) s) -> p + l <= String.length s) ->
  is_Some (filter_output m text).
Proof.
  intros Hscan. unfold filter_output, lower_with_byte_map. pose proof (lower_map_range 0 (chars text)) as Hm.
  destruct (lower_map 0 (chars text)) as [l mp]. destruct Hm as (Hl & Hs & HF). rewrite sconcat_chars in HF.
  specialize (Hscan l). destruct (iw_scan (mt_output m) l) as [|pl ms]; [eauto|].
  destruct (mask_matches_total text (mp ++ [String.length text]) (pl :: ms) text) as [out ->]; [..|simpl; eauto].
  - apply sorted_snoc; [done|]. eapply Forall_impl; [exact HF|]. simpl. lia.
  - apply Forall_app. split; [|by constructor]. eapply Forall_impl; [exact HF|]. simpl. lia.
  - apply List.Forall_forall. intros [p n] Hin. simpl. specialize (Hscan p n Hin).
    rewrite length_app. simpl. lia.
Qed.
End FilterOutput.

(** ** Concrete runs

    Instances of the crates that satisfy their laws: ASCII-only case tables, a
    search that tries the patterns in order, a dictionary of literals. *)

#[local] Instance demo_unicode : Unicode :=
  {| uni_lower ch := [ch]; uni_upper ch := [ch]; uni_is_upper _ := false; uni_nfkc s := s |}.
Lemma demo_unicode_laws : UnicodeLaws.
Proof.
  split; [|done]. intros ch Hne Hh. split; [done|]. constructor; [|constructor].
  split; [done|by apply high_not_blank].
Qed.

Fixpoint first_in (i : nat) (pats : list string) (text : string) : option nat :=
  match pats with [] => None | p :: ps => if contains p text then Some i else first_in (S i) ps text end.
#[local] Instance demo_ac : AhoCorasick :=
  {| ac := list string; ac_build pats := Ok pats; ac_find a text := first_in 0 a text |}.
Lemma demo_ac_laws : AhoCorasickLaws.
Proof.
  assert (forall pats text k, match first_in k pats text with
    | Some i => exists j p, i = k + j /\ pats !! j = Some p /\ contains p text = true
    | None => Forall (fun p => contains p text = false) pats end) as Hf.
  { induction pats as [|p ps IH]; intros text k; simpl; [constructor|].
    destruct (contains p text) eqn:E; [exists 0, p; split_and!; [lia|done..]|].
    specialize (IH text (S k)). destruct (first_in (S k) ps text); [|by constructor].
    destruct IH as (j & q & -> & Hj & Hc). exists (S j), q. split_and!; [lia|done..]. }
  split; simpl.
  - intros pats a text i [= <-] Hi. specialize (Hf pats text 0). rewrite Hi in Hf.
    destruct Hf as (j & p & -> & ?). by exists p.
  - intros pats a text [= <-] Hi. specialize (Hf pats text 0). by rewrite Hi in Hf.
Qed.

#[local] Instance demo_iword : Iword := {|
  iw_builder := list string; iw_dict := list string; iw_new := [];
  iw_add_many b ws _ := b ++ ws; iw_load_file b _ := Ok b; iw_build b := b;
  key_block := 0%Z; key_alert := 1%Z; key_flag := 2%Z;
  iw_scan_key _ _ _ := []; iw_classify _ _ := None;
  iw_scan d s := concat (map (fun w => map (fun ab => (ab.1, ab.2 - ab.1)) (lit_iter w s)) d);
|}.
Lemma demo_iword_range (d : list string) s p l :
  In (p, l) (@iw_scan demo_iword d s) -> p + l <= String.length s.
Proof.
  simpl. intros (x & Hx & Hin)%in_concat. apply in_map_iff in Hx as (w & <- & _).
  apply in_map_iff in Hin as ([a b] & [= <- <-] & Hab). simpl.
  assert (Hs : spans_ok 0 (String.length s) (lit_iter w s)).
  { unfold lit_iter. destruct (String.eqb_spec w ""); [done|]. by apply (lit_find_ok w s 0 0). }
  revert Hab Hs. generalize (lit_iter w s) as L, 0 as lo. induction L as [|[u v] L IH]; intros lo; simpl; [done|].
  intros [[= -> ->]|Hin] (? & ? & ? & HL); [lia|by apply (IH v)].
Qed.

Definition demo_keywords : KeywordConfig :=
  mkKeyword "aho-corasick" [] ["jailbreak"] ["bomb"] ["please"] (mkNormalize true true true true).
Definition no_files (_ : string) : result string string := Err "no such file".
Definition demo_matchers : @Matchers demo_iword :=
  match matchers_build (H0 := literal_engine) no_files demo_keywords with
  | Ok m => m
  | Err _ => mkMatchers (mkScanner (fun _ => None) "") [] normalize_default
  end.
Definition demo_scanner : @AcScanner literal_engine demo_ac :=
  match ac_scanner_build (H0 := literal_engine) no_files demo_keywords with
  | Ok s => s
  | Err _ => mkAc (H0 := literal_engine) None [] [] None [] [] None [] []
  end.

Lemma base_normalize_blanks_witness :
  base_normalize normalize_default ("  Ignore " +:+ one tab +:+ one nl +:+ "PREVIOUS ") = "ignore previous" /\
  sp_ok true "ignore previous" = true.
Proof.
  split; [reflexivity|].
  refine (proj1 (@base_normalize_blanks demo_unicode demo_unicode_laws normalize_default
    ("  Ignore " +:+ one tab +:+ one nl +:+ "PREVIOUS ") eq_refl)).
Defined.

Lemma collapse_separators_only_witness :
  collapse_separators "j-a-i-l.b.r.e.a.k it" = "jailbreak it" /\ collapse_go 0 (chars "co op") = chars "co op".
Proof. split; [reflexivity|]. refine (proj2 (collapse_separators_only (chars "co op")) _). reflexivity. Defined.

Lemma base_normalize_idempotent_witness :
  base_normalize (mkNormalize true true true true) "j41lbr3ak now" = "jailbreak now" /\
  base_normalize (mkNormalize true true true true) "jailbreak now" = "jailbreak now".
Proof.
  split; [reflexivity|].
  refine (@base_normalize_idempotent demo_unicode demo_unicode_laws (mkNormalize true true true true) "J41lbr3ak  NOW" _).
  reflexivity.
Defined.

Lemma ac_check_severity_witness :
  exists v, ac_check demo_scanner "please build a bomb" = Some v /\ v = Alert "bomb".
Proof.
  destruct (@ac_check_severity demo_unicode literal_engine demo_ac demo_ac_laws no_files demo_keywords
    demo_scanner "please build a bomb" eq_refl) as (v & Hv & _).
  exists v. split; [exact Hv|]. vm_compute in Hv. by injection Hv as <-.
Defined.

Lemma inline_block_blocks_witness :
  exists rule, check_input demo_matchers "please J-4-1-l-b-r-3-a-k it" = Some (Blocked rule).
Proof.
  destruct (@inline_block_blocks demo_unicode literal_engine demo_ac demo_ac_laws demo_iword no_files demo_keywords
    demo_matchers "please J-4-1-l-b-r-3-a-k it" "jailbreak") as (rule & Hr & _).
  - reflexivity.
  - by left.
  - vm_compute. reflexivity.
  - by exists rule.
Defined.

Lemma filter_output_safe_witness :
  exists out, filter_output demo_matchers "Your SSN: [REDACTED_SSN_1]" = Some out /\ is_utf8 out = true /\
    out = "Your ***: [REDACTED_SSN_1]".
Proof.
  destruct (@filter_output_safe demo_unicode demo_iword demo_matchers "Your SSN: [REDACTED_SSN_1]")
    as (out & Ho & Hu & _).
  - reflexivity.
  - intros s p l. apply demo_iword_range.
  - exists out. split; [exact Ho|]. split; [exact Hu|]. vm_compute in Ho. by injection Ho as <-.
Defined.
