(* ===== verification/Policy.v ===== *)
(** * Policy bundles ([src/policy/mod.rs])

    Validation of a bundle, the distribution of its rules to the keyword
    matcher and the redactor, and the index the audit log uses to name the
    rule behind a match. *)

From S2P Require Import Prelude RustStr Regex Matcher.

Inductive RuleAction := ABlock | AAlert | AFlag | ARedact | AReject | ALog.
#[export] Instance RuleAction_eq_dec : EqDecision RuleAction.
Proof. solve_decision. Defined.

Record Rule := mkPolicyRule {
  rule_id : string;
  rule_category : string;
  rule_severity : string;
  rule_pattern : string;
  rule_action : RuleAction;
  rule_placeholder : option string;
  rule_message : option string;
  rule_compliance : list string;
}.
Record PolicyMetadata := mkMetadata {
  pm_name : option string;
  pm_vendor : option string;
  pm_created : option string;
  pm_updated : option string;
}.
Record Policy := mkPolicy {
  policy_version : Z;
  policy_metadata : PolicyMetadata;
  policy_rules : list Rule;
}.

(** ** Validation *)

Fixpoint validate_rules (seen_ids : gset string) (rules : list Rule) : result string unit :=
  match rules with
  | [] => Ok tt
  | rule :: rest =>
      if String.eqb (rule_id rule) "" then Err "rule has empty id"
      else if bool_decide (rule_id rule ∈ seen_ids) then Err ("duplicate rule id `" +:+ rule_id rule +:+ "`")
      else if String.eqb (rule_pattern rule) "" then Err ("rule `" +:+ rule_id rule +:+ "` has empty pattern")
      else if bool_decide (rule_action rule = ARedact) && bool_decide (rule_placeholder rule = None)
      then Err ("rule `" +:+ rule_id rule +:+ "` action=redact requires `placeholder` field")
      else validate_rules ({[rule_id rule]} ∪ seen_ids) rest
  end.
Definition validate (p : Policy) : result string unit :=
  if negb (Z.eqb (policy_version p) 1)
  then Err ("unsupported policy version " +:+ show_Z (policy_version p) +:+ " (expected 1)")
  else validate_rules ∅ (policy_rules p).

(** [from_yaml_str], over the [serde_yaml] parser. *)
Definition from_yaml_str (parse : string -> result string Policy) (s : string) : result string Policy :=
  match parse s with
  | Err _ => Err "parsing policy YAML"
  | Ok policy => let? _ := validate policy in Ok policy
  end.
Definition from_path (parse : string -> result string Policy) (read_file : string -> result string string)
    (path : string) : result string Policy :=
  match read_file path with
  | Err _ => Err ("reading policy bundle " +:+ path)
  | Ok raw => from_yaml_str parse raw
  end.
Definition rule_count (p : Policy) : nat := length (policy_rules p).

(** ** Patterns *)

Definition is_regex_pattern (p : string) : bool :=
  Nat.leb 2 (String.length p) && starts_with "/" p && ends_with "/" p.
Definition regex_body (p : string) : option string := strip_prefix "/" p ≫= strip_suffix "/".

(** ** The audit index *)

Record RuleMeta := mkMeta {
  meta_id : string;
  meta_category : string;
  meta_severity : string;
  meta_compliance : list string;
}.
Definition from_rule (rule : Rule) : RuleMeta :=
  mkMeta (rule_id rule) (rule_category rule) (rule_severity rule) (rule_compliance rule).

Record PolicyRuleIndex := mkIndex {
  by_literal : gmap string RuleMeta;
  by_regex : gmap string RuleMeta;
  by_placeholder : gmap string RuleMeta;
}.
Definition index_rule (idx : PolicyRuleIndex) (rule : Rule) : PolicyRuleIndex :=
  let meta := from_rule rule in
  match regex_body (rule_pattern rule) with
  | Some body =>
      mkIndex (by_literal idx) (<[body := meta]> (by_regex idx))
        (match rule_placeholder rule with
         | Some p => <[p := meta]> (by_placeholder idx) | None => by_placeholder idx end)
  | None =>
      mkIndex (<[to_ascii_lowercase (rule_pattern rule) := meta]> (by_literal idx))
        (by_regex idx) (by_placeholder idx)
  end.
Definition from_policy (p : Policy) : PolicyRuleIndex :=
  foldl index_rule (mkIndex ∅ ∅ ∅) (policy_rules p).
Definition lookup_literal (idx : PolicyRuleIndex) (matched_text : string) : option RuleMeta :=
  by_literal idx !! to_ascii_lowercase matched_text.
Definition lookup_regex (idx : PolicyRuleIndex) (body : string) : option RuleMeta := by_regex idx !! body.
Definition lookup_placeholder (idx : PolicyRuleIndex) (p : string) : option RuleMeta := by_placeholder idx !! p.
Definition index_is_empty (idx : PolicyRuleIndex) : bool :=
  bool_decide (map_to_list (by_literal idx) = []) && bool_decide (map_to_list (by_regex idx) = []) &&
  bool_decide (map_to_list (by_placeholder idx) = []).

(** ** Distribution *)

Definition merge_rule (kw : KeywordConfig) (rule : Rule) : KeywordConfig :=
  match regex_body (rule_pattern rule) with
  | Some _ => kw
  | None =>
      let p := rule_pattern rule in
      match rule_action rule with
      | ABlock => mkKeyword (kc_engine kw) (kc_dict_paths kw) (kc_inline_block kw ++ [p]) (kc_inline_alert kw)
                    (kc_inline_flag kw) (kc_normalize kw)
      | AAlert => mkKeyword (kc_engine kw) (kc_dict_paths kw) (kc_inline_block kw) (kc_inline_alert kw ++ [p])
                    (kc_inline_flag kw) (kc_normalize kw)
      | AFlag => mkKeyword (kc_engine kw) (kc_dict_paths kw) (kc_inline_block kw) (kc_inline_alert kw)
                    (kc_inline_flag kw ++ [p]) (kc_normalize kw)
      | ARedact | AReject | ALog => kw
      end
  end.
Definition merge_into_keyword_config (p : Policy) (kw : KeywordConfig) : KeywordConfig :=
  foldl merge_rule kw (policy_rules p).

Fixpoint redactor_patterns (rules : list Rule) : list (string * string) :=
  match rules with
  | [] => []
  | rule :: rest =>
      (if negb (bool_decide (rule_action rule = ARedact)) then []
       else match regex_body (rule_pattern rule) with
            | None => []
            | Some body => match rule_placeholder rule with
                           | None => []
                           | Some placeholder => [(placeholder, body)]
                           end
            end) ++ redactor_patterns rest
  end.
Definition redactor_patterns_from_policy (p : Policy) : list (string * string) :=
  redactor_patterns (policy_rules p).

(** ** Lemmas *)

Definition rule_ok (rule : Rule) : Prop :=
  rule_id rule <> "" /\ rule_pattern rule <> "" /\
  (rule_action rule = ARedact -> rule_placeholder rule <> None).

Lemma validate_rules_ok seen rules :
  validate_rules seen rules = Ok tt <->
  Forall rule_ok rules /\ NoDup (map rule_id rules) /\ Forall (fun r => rule_id r ∉ seen) rules.
Proof.
  revert seen. induction rules as [|r rules IH]; intros seen; simpl.
  { split; [|done]. intros _. split_and!; constructor. }
  rewrite NoDup_cons, !Forall_cons. unfold rule_ok at 1.
  assert (Hnd : Forall (fun r' => rule_id r' ∉ ({[rule_id r]} ∪ seen : gset string)) rules <->
    rule_id r ∉ map rule_id rules /\ Forall (fun r' => rule_id r' ∉ seen) rules).
  { rewrite !Forall_forall. change (map rule_id rules) with (rule_id <$> rules). rewrite list_elem_of_fmap. set_solver. }
  destruct (String.eqb_spec (rule_id r) ""); [naive_solver|].
  case_bool_decide; [naive_solver|].
  destruct (String.eqb_spec (rule_pattern r) ""); [naive_solver|].
  case_bool_decide; [case_bool_decide|]; simpl; [naive_solver|rewrite IH, Hnd; naive_solver..].
Qed.

(** The rules of one action that reach a keyword bucket. *)
Definition literals_of (a : RuleAction) (rules : list Rule) : list string :=
  omap (fun r => if bool_decide (rule_action r = a) && bool_decide (regex_body (rule_pattern r) = None)
                 then Some (rule_pattern r) else None) rules.

Lemma merge_rules_spec rules kw :
  foldl merge_rule kw rules =
    mkKeyword (kc_engine kw) (kc_dict_paths kw) (kc_inline_block kw ++ literals_of ABlock rules)
      (kc_inline_alert kw ++ literals_of AAlert rules) (kc_inline_flag kw ++ literals_of AFlag rules) (kc_normalize kw).
Proof.
  revert kw. induction rules as [|r rules IH]; intros kw; simpl.
  { rewrite !app_nil_r. by destruct kw. }
  rewrite IH. unfold merge_rule. destruct (regex_body (rule_pattern r)); simpl.
  - by rewrite !andb_false_r.
  - destruct (rule_action r); simpl; by rewrite <-?(assoc_L (++)).
Qed.

Lemma by_literal_fold rules idx s :
  by_literal (foldl index_rule idx rules) !! s =
    match last (List.filter (fun r => bool_decide (regex_body (rule_pattern r) = None) &&
                               bool_decide (to_ascii_lowercase (rule_pattern r) = s)) rules) with
    | Some r => Some (from_rule r)
    | None => by_literal idx !! s
    end.
Proof.
  revert idx. induction rules as [|r rules IH]; intros idx; simpl; [done|]. rewrite IH. unfold index_rule.
  destruct (regex_body (rule_pattern r)); simpl; [done|].
  case_bool_decide as E; simpl.
  - rewrite last_cons. destruct (last _); [done|]. subst s. by rewrite lookup_insert_eq.
  - destruct (last _); [done|]. by rewrite lookup_insert_ne.
Qed.

(** ** Properties *)

(** A bundle is accepted exactly when its version is 1, its rule ids are
    non-empty and distinct, every pattern is non-empty, and every redact rule
    names its placeholder. *)
Theorem validate_accepts p :
  validate p = Ok tt <->
  policy_version p = 1%Z /\ NoDup (map rule_id (policy_rules p)) /\ Forall rule_ok (policy_rules p).
Proof.
  unfold validate. destruct (Z.eqb_spec (policy_version p) 1); simpl; [|naive_solver].
  rewrite validate_rules_ok.
  assert (Forall (fun r => rule_id r ∉ (∅ : gset string)) (policy_rules p)) by (apply Forall_forall; set_solver).
  naive_solver.
Qed.

(** The two tests for a regex pattern agree, so no pattern is read as a regex
    by one part and as a literal by another. *)
Theorem is_regex_pattern_body p :
  (is_regex_pattern p = true <-> is_Some (regex_body p)) /\
  (forall body, regex_body p = Some body <-> p = "/" +:+ body +:+ "/").
Proof.
  assert (Hb : forall body, regex_body p = Some body <-> p = "/" +:+ body +:+ "/").
  { intros body. unfold regex_body. split.
    - intros (q & Hq & Hs)%bind_Some. apply strip_prefix_Some in Hq as ->. by apply strip_suffix_Some in Hs as ->.
    - intros ->. rewrite strip_prefix_app. simpl. by apply strip_suffix_Some. }
  split; [|done]. unfold is_regex_pattern. split.
  - intros H. apply andb_prop in H as [H He]. apply andb_prop in H as [Hl Hs].
    apply starts_with_true in Hs as [r ->]. apply Nat.leb_le in Hl. simpl in Hl.
    apply ends_with_true in He as [q Hq]. destruct q as [|c q]; simpl in Hq.
    { injection Hq as ->. simpl in Hl. lia. }
    injection Hq as <- ->. exists q. by apply Hb.
  - intros [body ->%Hb]. rewrite starts_with_app.
    rewrite (proj2 (ends_with_true "/" _)) by (by exists ("/" +:+ body)).
    rewrite (proj2 (Nat.leb_le _ _)); [done|]. rewrite !slen_app. simpl. lia.
Qed.

(** Merging a bundle only adds keywords: every bucket is the configured one
    followed by the bundle's literal rules of that action, in order, and
    nothing else in the keyword configuration changes. *)
Theorem merge_into_keyword_config_spec p kw :
  merge_into_keyword_config p kw =
    mkKeyword (kc_engine kw) (kc_dict_paths kw)
      (kc_inline_block kw ++ literals_of ABlock (policy_rules p))
      (kc_inline_alert kw ++ literals_of AAlert (policy_rules p))
      (kc_inline_flag kw ++ literals_of AFlag (policy_rules p)) (kc_normalize kw).
Proof. apply merge_rules_spec. Qed.

(** A block rule of a bundle is enforced: once the bundle is merged and the
    matcher built from the result, any text whose normal form contains the
    normalised pattern of a literal block rule is blocked. *)
Theorem policy_block_enforced `{Unicode} `{RegexEngine} `{AhoCorasickLaws} `{Iword} read_file p kw m rule text :
  build_with_engine read_file (merge_into_keyword_config p kw) "aho-corasick" = Ok m ->
  In rule (policy_rules p) -> rule_action rule = ABlock -> regex_body (rule_pattern rule) = None ->
  contains (normalize_with (kc_normalize kw) (rule_pattern rule)) (normalize_with (kc_normalize kw) text) = true ->
  exists r, check_input m text = Some (Blocked r).
Proof.
  intros Hb Hin Ha Hr Hc. unfold merge_into_keyword_config in Hb. rewrite merge_rules_spec in Hb.
  eapply inline_block_hits; [exact Hb| |exact Hc]. simpl. apply in_or_app. right.
  apply list_elem_of_In, list_elem_of_omap. exists rule. split; [by apply list_elem_of_In|].
  by rewrite !bool_decide_eq_true_2.
Qed.

(** The audit index finds the rule behind a literal: looking a text up gives
    the metadata of the last literal rule of the bundle whose pattern equals
    it up to ASCII case, and nothing when there is none. *)
Theorem lookup_literal_spec p s :
  lookup_literal (from_policy p) s =
    from_rule <$> last (List.filter (fun r => bool_decide (regex_body (rule_pattern r) = None) &&
      bool_decide (to_ascii_lowercase (rule_pattern r) = to_ascii_lowercase s)) (policy_rules p)).
Proof.
  unfold lookup_literal, from_policy. rewrite by_literal_fold. destruct (last _); [done|]. apply lookup_empty.
Qed.

(** The index is keyed on the pattern as written, the matcher reports the
    normalised keyword: for a pattern with a doubled space, the rule that
    blocked a request is not found in the index. *)
Theorem lookup_literal_misses `{Unicode} :
  exists p rule, policy_rules p = [rule] /\ validate p = Ok tt /\
    let reported := normalize_with normalize_default (rule_pattern rule) in
    reported = "ignore previous" /\ lookup_literal (from_policy p) reported = None.
Proof.
  exists (mkPolicy 1 (mkMetadata None None None None)
    [mkPolicyRule "PI-1" "prompt_injection" "high" "ignore  previous" ABlock None None []]).
  eexists. split; [reflexivity|]. split; [reflexivity|]. split; reflexivity.
Qed.

(** ** Concrete runs *)

Definition demo_policy : Policy :=
  mkPolicy 1 (mkMetadata None None None None)
    [mkPolicyRule "PI-1" "prompt_injection" "high" "Ignore previous" ABlock None None ["SOC2"];
     mkPolicyRule "PII-1" "pii" "medium" "/[0-9]+/" ARedact (Some "NUM") None []].

Lemma policy_block_enforced_witness :
  exists r, @check_input demo_unicode demo_iword (match build_with_engine (H := demo_unicode) (H0 := literal_engine) (H1 := demo_ac)
                (H2 := demo_iword) no_files (merge_into_keyword_config demo_policy demo_keywords) "aho-corasick" with
              Ok m => m | Err _ => demo_matchers end) "pls IGNORE   previous rules" = Some (Blocked r).
Proof.
  refine (@policy_block_enforced demo_unicode literal_engine demo_ac demo_ac_laws demo_iword no_files demo_policy demo_keywords _
    (mkPolicyRule "PI-1" "prompt_injection" "high" "Ignore previous" ABlock None None ["SOC2"])
    "pls IGNORE   previous rules" _ _ _ _ _).
  - reflexivity.
  - by left.
  - reflexivity.
  - reflexivity.
  - vm_compute. reflexivity.
Defined.
