(* ===== verification/Routing.v ===== *)
(** * Backend routing and failover ([src/config/mod.rs], [src/backend/mod.rs],
    the forwarding loop of [src/proxy/mod.rs])

    The pool a configuration resolves to, its runtime mirror, which backends a
    model name leads to, and the loop that walks them on upstream failure. *)

From S2P Require Import Prelude RustStr Json.

(** ** Configuration *)

Record BackendConfig := mkBackend {
  bc_provider : string;
  bc_endpoint : string;
  bc_api_key : option string;
  bc_model : option string;
}.
Record RoutingRule := mkRouting {
  rt_model : string;
  rt_backend : string;
  rt_fallback : list string;
}.
Record RoutingConfig := mkRoutingConfig {
  rc_default : option string;
  rc_rules : list RoutingRule;
}.
(** The fields of [Config] the pool is resolved from. *)
Record PoolConfig := mkPoolConfig {
  cfg_backend : option BackendConfig;
  cfg_backends : gmap string BackendConfig;
  cfg_routing : RoutingConfig;
}.
Record BackendPool := mkPool {
  bp_backends : gmap string BackendConfig;
  bp_rules : list RoutingRule;
  bp_default_backend : string;
}.

Definition known (backends : gmap string BackendConfig) (name : string) : bool :=
  match backends !! name with Some _ => true | None => false end.

Fixpoint check_fallbacks (backends : gmap string BackendConfig) (r : RoutingRule) (seen_fb : gset string)
    (fbs : list string) : result string unit :=
  match fbs with
  | [] => Ok tt
  | fb :: rest =>
      if negb (known backends fb)
      then Err ("[routing] rule for model `" +:+ rt_model r +:+ "` lists unknown fallback `" +:+ fb +:+ "`")
      else if String.eqb fb (rt_backend r)
      then Err ("[routing] rule for model `" +:+ rt_model r +:+ "` lists its own primary `" +:+ fb +:+ "` as a fallback")
      else if bool_decide (fb ∈ seen_fb)
      then Err ("[routing] rule for model `" +:+ rt_model r +:+ "` lists duplicate fallback `" +:+ fb +:+ "`")
      else check_fallbacks backends r ({[fb]} ∪ seen_fb) rest
  end.
Fixpoint check_rules (backends : gmap string BackendConfig) (rules : list RoutingRule) : result string unit :=
  match rules with
  | [] => Ok tt
  | r :: rest =>
      if negb (known backends (rt_backend r))
      then Err ("[routing] rule for model `" +:+ rt_model r +:+ "` points at unknown backend `" +:+ rt_backend r +:+ "`")
      else let? _ := check_fallbacks backends r ∅ (rt_fallback r) in check_rules backends rest
  end.

Definition both_warning : string :=
  "[backend] and [backends.*] are both configured; ignoring [backend]. Remove the legacy [backend] section to silence this warning.".

Definition is_empty_map (m : gmap string BackendConfig) : bool := Nat.eqb (size m) 0.

(** [Config::pool]. *)
Definition pool (c : PoolConfig) : result string (BackendPool * list string) :=
  let warnings :=
    if negb (is_empty_map (cfg_backends c)) && (match cfg_backend c with Some _ => true | None => false end)
    then [both_warning] else [] in
  let backends :=
    if is_empty_map (cfg_backends c)
    then match cfg_backend c with
         | Some legacy => <["default" := legacy]> (cfg_backends c)
         | None => cfg_backends c
         end
    else cfg_backends c in
  if is_empty_map backends
  then Err "no backend configured: define [backend] (legacy) or at least one [backends.NAME]"
  else
    let? _ := check_rules backends (rc_rules (cfg_routing c)) in
    let? default_backend :=
      match rc_default (cfg_routing c) with
      | Some d =>
          if negb (known backends d)
          then Err ("[routing].default = `" +:+ d +:+ "` does not match any backend in [backends.*]")
          else Ok d
      | None =>
          match (map_to_list backends).*1 with
          | [name] => Ok name
          | _ => Err ("[routing].default is required with " +:+ show_Z (Z.of_nat (size backends)) +:+
                " backends configured. Add `default = " +:+ one (byte 34) +:+ "<backend-name>" +:+ one (byte 34) +:+
                "` to [routing] in nanoguard.toml.")
          end
      end in
    Ok (mkPool backends (rc_rules (cfg_routing c)) default_backend, warnings).

Definition rule_matches (pattern model : string) : bool :=
  match strip_suffix "*" pattern with
  | Some prefix => starts_with prefix model
  | None => String.eqb pattern model
  end.

Fixpoint first_rule (rules : list RoutingRule) (model : string) : option RoutingRule :=
  match rules with
  | [] => None
  | r :: rest => if rule_matches (rt_model r) model then Some r else first_rule rest model
  end.

(** [BackendPool::route]. *)
Definition pool_route (p : BackendPool) (model : option string) : option string :=
  match model with
  | None => Some (bp_default_backend p)
  | Some m => match first_rule (bp_rules p) m with
              | Some r => Some (rt_backend r)
              | None => Some (bp_default_backend p)
              end
  end.

(** ** The runtime pool *)

(** [Backend]: its configuration; the HTTP client is left to [send] below. *)
Record BackendPoolRuntime := mkRuntime {
  rp_backends : gmap string BackendConfig;
  rp_rules : list RoutingRule;
  rp_default_backend : string;
}.
Definition runtime_build (p : BackendPool) : BackendPoolRuntime :=
  mkRuntime (bp_backends p) (bp_rules p) (bp_default_backend p).

(** A [BTreeMap] yields its entries in the byte order of the keys. *)
#[global] Instance key_le_dec : RelDecision (fun a b : string * BackendConfig => String.leb a.1 b.1 = true).
Proof. intros a b. apply _. Defined.
Definition btree_entries (m : gmap string BackendConfig) : list (string * BackendConfig) :=
  merge_sort (fun a b => String.leb a.1 b.1 = true) (map_to_list m).

Definition route_name (p : BackendPoolRuntime) (model : option string) : option string :=
  match model with
  | None => Some (rp_default_backend p)
  | Some m => match first_rule (rp_rules p) m with
              | Some r => Some (rt_backend r)
              | None => Some (rp_default_backend p)
              end
  end.
Definition route (p : BackendPoolRuntime) (model : option string) : option BackendConfig :=
  name ← route_name p model; rp_backends p !! name.
Definition get_all (p : BackendPoolRuntime) (names : list string) : list BackendConfig :=
  omap (fun n => rp_backends p !! n) names.
Definition route_chain (p : BackendPoolRuntime) (model : option string) : list BackendConfig :=
  match model ≫= first_rule (rp_rules p) with
  | Some r => get_all p (rt_backend r :: rt_fallback r)
  | None => get_all p [rp_default_backend p]
  end.

(** ** Forwarding *)

Fixpoint trim_slashes (fuel : nat) (s : string) : string :=
  match fuel with
  | O => s
  | S n => match strip_suffix "/" s with Some s' => trim_slashes n s' | None => s end
  end.
Definition endpoint (b : BackendConfig) : string := trim_slashes (String.length (bc_endpoint b)) (bc_endpoint b).

Record ChatRequest := mkRequest { rq_url : string; rq_body : value; rq_bearer : option string }.
(** [forward_chat] up to [send]; [None] is the panic of the index assignment. *)
Definition chat_request (b : BackendConfig) (body : value) : option ChatRequest :=
  body' ← (match bc_model b with
           | Some model => match get "model" body with
                           | None => index_set "model" (Str model) body
                           | Some _ => Some body
                           end
           | None => Some body
           end);
  Some (mkRequest (endpoint b +:+ "/v1/chat/completions") body' (bc_api_key b)).

Definition is_server_error (status : Z) : bool := (500 <=? status)%Z && (status <? 600)%Z.

(** How the attempts of one request end. *)
Inductive ChainOutcome {R : Type} :=
| Committed (resp : R)
| AllFailed (last_err : option string) (last_5xx : option (Z * string))
| Panicked.
Arguments ChainOutcome : clear implicits.

Section Failover.
(** The HTTP client: its state [W], a response [R] with a status and, once
    drained, the body bytes. *)
Context {W R : Type} (send : W -> ChatRequest -> result string R * W) (status : R -> Z) (drain_body : R -> string).

(** The loop over the chain; [tried] records the backends attempted. *)
Fixpoint try_chain (w : W) (body : value) (last_err : option string) (last_5xx : option (Z * string))
    (chain : list BackendConfig) (tried : list BackendConfig) : ChainOutcome R * list BackendConfig * W :=
  match chain with
  | [] =>
      (AllFailed last_err last_5xx, tried, w)
  | backend :: rest =>
      match chat_request backend body with
      | None => (Panicked, tried ++ [backend], w)
      | Some req =>
          let '(res, w') := send w req in
          match res with
          | Ok r =>
              if is_server_error (status r) && negb (match rest with [] => true | _ => false end)
              then try_chain w' body last_err (Some (status r, drain_body r)) rest (tried ++ [backend])
              else (Committed r, tried ++ [backend], w')
          | Err e => try_chain w' body (Some e) last_5xx rest (tried ++ [backend])
          end
      end
  end.
Definition forward_with_failover (w : W) (body : value) (chain : list BackendConfig)
    : ChainOutcome R * list BackendConfig * W :=
  try_chain w body None None chain [].
End Failover.

(** ** Lemmas: validation *)

Definition rule_valid (backends : gmap string BackendConfig) (r : RoutingRule) : Prop :=
  Forall (fun n => is_Some (backends !! n)) (rt_backend r :: rt_fallback r) /\
  NoDup (rt_backend r :: rt_fallback r).

Lemma known_true backends n : known backends n = true <-> is_Some (backends !! n).
Proof. unfold known. destruct (backends !! n); naive_solver. Qed.

Lemma check_fallbacks_ok backends r seen fbs :
  check_fallbacks backends r seen fbs = Ok tt <->
  Forall (fun n => is_Some (backends !! n)) fbs /\ rt_backend r ∉ fbs /\ NoDup fbs /\ Forall (fun n => n ∉ seen) fbs.
Proof.
  revert seen. induction fbs as [|fb fbs IH]; intros seen; simpl.
  { split; [|done]. intros _. split_and!; by constructor || set_solver. }
  rewrite NoDup_cons, !Forall_cons, <-known_true, not_elem_of_cons.
  assert (Hnd : Forall (fun n => n ∉ ({[fb]} ∪ seen : gset string)) fbs <-> fb ∉ fbs /\ Forall (fun n => n ∉ seen) fbs).
  { rewrite !Forall_forall. set_solver. }
  destruct (known backends fb); simpl; [|naive_solver].
  destruct (String.eqb_spec fb (rt_backend r)); [naive_solver|].
  case_bool_decide; [naive_solver|]. rewrite IH, Hnd. naive_solver.
Qed.

Lemma check_rules_ok backends rules : check_rules backends rules = Ok tt <-> Forall (rule_valid backends) rules.
Proof.
  induction rules as [|r rules IH]; simpl; [by split|].
  rewrite Forall_cons, <-IH. unfold rule_valid. rewrite Forall_cons, NoDup_cons, <-known_true.
  destruct (known backends (rt_backend r)); simpl; [|naive_solver].
  assert (Forall (fun n => n ∉ (∅ : gset string)) (rt_fallback r)) by (apply Forall_forall; set_solver).
  pose proof (check_fallbacks_ok backends r ∅ (rt_fallback r)) as Hf.
  destruct (check_fallbacks backends r ∅ (rt_fallback r)) as [[]|]; simpl; naive_solver.
Qed.

(** The backends a configuration declares, legacy form included. *)
Definition declared (c : PoolConfig) : gmap string BackendConfig :=
  if is_empty_map (cfg_backends c)
  then match cfg_backend c with Some legacy => <["default" := legacy]> (cfg_backends c) | None => cfg_backends c end
  else cfg_backends c.

Lemma single_key (m : gmap string BackendConfig) n :
  (map_to_list m).*1 = [n] <-> size m = 1 /\ is_Some (m !! n).
Proof.
  split.
  - intros E. split.
    + rewrite <-length_map_to_list, <-(length_fmap fst), E. done.
    + assert (n ∈ (map_to_list m).*1) as Hn by (rewrite E; by left).
      apply list_elem_of_fmap in Hn as ([k b] & -> & Hin). apply elem_of_map_to_list in Hin. eauto.
  - intros [Hs [b Hb]]. rewrite <-length_map_to_list in Hs.
    assert ((n, b) ∈ map_to_list m) as Hin by (by apply elem_of_map_to_list).
    destruct (map_to_list m) as [|kb [|? ?]]; simpl in Hs; try lia.
    by apply list_elem_of_singleton in Hin as <-.
Qed.

(** The routing table of a valid pool. *)
Definition pool_valid (p : BackendPool) : Prop :=
  is_Some (bp_backends p !! bp_default_backend p) /\ Forall (rule_valid (bp_backends p)) (bp_rules p).

Lemma pool_ok c p ws :
  pool c = Ok (p, ws) <->
  p = mkPool (declared c) (rc_rules (cfg_routing c)) (bp_default_backend p) /\ pool_valid p /\
  match rc_default (cfg_routing c) with
  | Some d => bp_default_backend p = d
  | None => size (declared c) = 1
  end /\
  ws = (if negb (is_empty_map (cfg_backends c)) && (match cfg_backend c with Some _ => true | None => false end)
        then [both_warning] else []).
Proof.
  unfold pool. fold (declared c). destruct p as [bs rs d]. cbn [bp_default_backend].
  generalize (if negb (is_empty_map (cfg_backends c)) && (match cfg_backend c with Some _ => true | None => false end)
              then [both_warning] else []) as ws0. intros ws0.
  destruct (is_empty_map (declared c)) eqn:E; [apply Nat.eqb_eq in E|].
  { split; [done|]. intros (Hp & [Hd _] & _). injection Hp as -> ->. apply map_size_empty_inv in E.
    simpl in Hd. rewrite E, lookup_empty in Hd. by destruct Hd. }
  pose proof (check_rules_ok (declared c) (rc_rules (cfg_routing c))) as Hr.
  destruct (check_rules _ _) as [[]|]; simpl.
  2: { split; [done|]. intros (Hp & [_ Hv] & _). injection Hp as -> ->. simpl in Hv. by apply Hr in Hv. }
  assert (HF : Forall (rule_valid (declared c)) (rc_rules (cfg_routing c))) by (by apply Hr).
  unfold pool_valid. simpl. destruct (rc_default (cfg_routing c)) as [d'|].
  - pose proof (known_true (declared c) d') as Hk. destruct (known (declared c) d'); simpl.
    + split; [intros [= <- <- <- <-]; split_and!; auto; by apply Hk|].
      intros (Hp & _ & -> & ->). by injection Hp as -> ->.
    + split; [done|]. intros (Hp & [Hd _] & -> & _). injection Hp as -> ->. by apply Hk in Hd.
  - pose proof (fun n => single_key (declared c) n) as Hs.
    destruct ((map_to_list (declared c)).*1) as [|n [|n' ns]] eqn:Em; simpl.
    + split; [done|]. intros (Hp & [Hd _] & Hsz & _). injection Hp as -> ->. 
      pose proof (proj2 (Hs d) (conj Hsz Hd)). done.
    + destruct (proj1 (Hs n) eq_refl) as [Hsz Hn]. split; [intros [= <- <- <- <-]; by split_and!|].
      intros (Hp & [Hd _] & _ & ->). injection Hp as -> ->.
      pose proof (proj2 (Hs d) (conj Hsz Hd)) as Heq. by injection Heq as ->.
    + split; [done|]. intros (Hp & [Hd _] & Hsz & _). injection Hp as -> ->.
      pose proof (proj2 (Hs d) (conj Hsz Hd)). done.
Qed.

(** ** Lemmas: routing *)

Lemma first_rule_spec rules m r :
  first_rule rules m = Some r <->
  exists pre post, rules = pre ++ r :: post /\ rule_matches (rt_model r) m = true /\
    Forall (fun r' => rule_matches (rt_model r') m = false) pre.
Proof.
  induction rules as [|x rules IH]; simpl.
  { split; [done|]. by intros ([] & ? & ? & _). }
  destruct (rule_matches (rt_model x) m) eqn:E.
  - split.
    + intros [= ->]. exists [], rules. split_and!; by auto.
    + intros (pre & post & Heq & Hm & HF). destruct pre as [|y pre]; simplify_eq/=; [done|].
      inversion_clear HF. congruence.
  - rewrite IH. split.
    + intros (pre & post & -> & Hm & HF). exists (x :: pre), post. split_and!; by auto.
    + intros (pre & post & Heq & Hm & HF). destruct pre as [|y pre]; simplify_eq/=; [congruence|].
      inversion_clear HF. eauto 10.
Qed.

Lemma get_all_valid p names :
  Forall (fun n => is_Some (rp_backends p !! n)) names ->
  Forall2 (fun n b => rp_backends p !! n = Some b) names (get_all p names).
Proof.
  induction 1 as [|n names [b Hb] _ IH]; simpl; [constructor|]. rewrite Hb. by constructor.
Qed.

(** The labels a model leads to, in the order they are tried. *)
Definition chain_labels (p : BackendPool) (model : option string) : list string :=
  match model ≫= first_rule (bp_rules p) with
  | Some r => rt_backend r :: rt_fallback r
  | None => [bp_default_backend p]
  end.

Lemma chain_labels_valid p model :
  pool_valid p ->
  Forall (fun n => is_Some (bp_backends p !! n)) (chain_labels p model) /\ NoDup (chain_labels p model).
Proof.
  intros [Hd Hr]. unfold chain_labels. destruct (model ≫= first_rule (bp_rules p)) as [r|] eqn:E.
  - apply bind_Some in E as (m & -> & Hf). apply first_rule_spec in Hf as (pre & post & Heq & _).
    rewrite Heq in Hr. apply Forall_app in Hr as [_ Hr]. by inversion_clear Hr.
  - split; [by constructor|]. by apply NoDup_singleton.
Qed.

(** ** Properties *)

(** A configuration resolves to a pool exactly when it declares a backend, every
    rule's primary and fallbacks name declared backends, no rule lists its
    primary or another fallback twice, and the default label is declared: the
    one the operator wrote, or the only label when there is just one. *)
Theorem pool_accepts c p ws :
  pool c = Ok (p, ws) <->
  p = mkPool (declared c) (rc_rules (cfg_routing c)) (bp_default_backend p) /\ pool_valid p /\
  match rc_default (cfg_routing c) with
  | Some d => bp_default_backend p = d
  | None => size (declared c) = 1
  end /\
  ws = (if negb (is_empty_map (cfg_backends c)) && (match cfg_backend c with Some _ => true | None => false end)
        then [both_warning] else []).
Proof. apply pool_ok. Qed.

(** Routing over a resolved pool never comes up empty: for any model the
    runtime agrees with the configuration's routing, the chain has one backend
    per label, starts with the routed one, and never repeats a label, so a
    request is attempted at most once per backend and the "no backend"
    response cannot occur. *)
Theorem route_chain_total c p ws model :
  pool c = Ok (p, ws) ->
  let rt := runtime_build p in
  route_name rt model = pool_route p model /\
  Forall2 (fun n b => bp_backends p !! n = Some b) (chain_labels p model) (route_chain rt model) /\
  NoDup (chain_labels p model) /\
  exists b rest, route_chain rt model = b :: rest /\ route rt model = Some b.
Proof.
  intros (_ & Hv & _)%pool_ok. simpl. destruct (chain_labels_valid p model Hv) as [HF Hnd].
  assert (Hc : Forall2 (fun n b => bp_backends p !! n = Some b) (chain_labels p model)
                 (route_chain (runtime_build p) model)).
  { unfold route_chain, chain_labels in *. simpl. destruct (model ≫= first_rule (bp_rules p));
      by apply (get_all_valid (runtime_build p)). }
  split_and!; [by destruct model|done..|].
  assert (Hr : route (runtime_build p) model = head (chain_labels p model) ≫= (fun n => bp_backends p !! n)).
  { unfold route, route_name, chain_labels. simpl. destruct model as [m|]; simpl; [|done].
    by destruct (first_rule (bp_rules p) m). }
  rewrite Hr. assert (Hne : chain_labels p model <> []) by (unfold chain_labels; by destruct (model ≫= _)).
  destruct Hc as [|n b ns bs Hb _]; [done|]. by exists b, bs.
Qed.

Section FailoverSpec.
Context {W R : Type} (send : W -> ChatRequest -> result string R * W) (status : R -> Z) (drain_body : R -> string).

(** Send the request to each backend in turn, whatever the answers. *)
Fixpoint send_each (w : W) (body : value) (bs : list BackendConfig) : list (option (result string R)) * W :=
  match bs with
  | [] => ([], w)
  | b :: bs' =>
      match chat_request b body with
      | None => ([None], w)
      | Some req =>
          let '(res, w1) := send w req in
          let '(rest, w2) := send_each w1 body bs' in (Some res :: rest, w2)
      end
  end.
Definition failed (res : option (result string R)) : bool :=
  match res with
  | Some (Ok r) => is_server_error (status r)
  | Some (Err _) => true
  | None => false
  end.

Definition is_obj (v : value) : bool := match v with Obj _ => true | _ => false end.
Lemma chat_request_obj b body : is_obj body = true -> is_Some (chat_request b body).
Proof.
  unfold chat_request. destruct body; try done. simpl. intros _.
  destruct (bc_model b); simpl; [destruct (map_get "model" m)|]; simpl; eauto.
Qed.

Lemma try_chain_spec body chain :
  is_obj body = true -> forall w le l5 tried out tried' w',
  try_chain send status drain_body w body le l5 chain tried = (out, tried', w') ->
  exists used rest rs, chain = used ++ rest /\ tried' = tried ++ used /\ send_each w body used = (rs, w') /\
    match out with
    | Committed r => exists init, rs = init ++ [Some (Ok r)] /\ Forall (fun x => failed x = true) init /\
                       (is_server_error (status r) = false \/ rest = [])
    | AllFailed _ _ => rest = [] /\ Forall (fun x => failed x = true) rs
    | Panicked => False
    end.
Proof.
  intros Hobj. induction chain as [|b chain IH]; intros w le l5 tried out tried' w' Hrun; simpl in Hrun.
  { exists [], [], []. injection Hrun as <- <- <-. split_and!; rewrite ?app_nil_r; try done; constructor. }
  destruct (chat_request_obj b body Hobj) as [req Hreq]. rewrite Hreq in Hrun.
  destruct (send w req) as [res w1] eqn:Es.
  assert (Hrec : forall le' l5', failed (Some res) = true ->
    try_chain send status drain_body w1 body le' l5' chain (tried ++ [b]) = (out, tried', w') ->
    exists used rest rs, b :: chain = used ++ rest /\ tried' = tried ++ used /\ send_each w body used = (rs, w') /\
      match out with
      | Committed r => exists init, rs = init ++ [Some (Ok r)] /\ Forall (fun x => failed x = true) init /\
                         (is_server_error (status r) = false \/ rest = [])
      | AllFailed _ _ => rest = [] /\ Forall (fun x => failed x = true) rs
      | Panicked => False
      end).
  { intros le' l5' Hfail Hr. destruct (IH _ _ _ _ _ _ _ Hr) as (used & rest & rs & -> & -> & Hsend & Hout).
    exists (b :: used), rest, (Some res :: rs). split_and!; [done|by rewrite <-(assoc_L (++))| |].
    - simpl. by rewrite Hreq, Es, Hsend.
    - destruct out; [|naive_solver|done].
      destruct Hout as (init & -> & HF & Hs). exists (Some res :: init). split_and!; [done|by constructor|done]. }
  destruct res as [r|e]; [|by eapply Hrec].
  destruct (is_server_error (status r)) eqn:E5; simpl in Hrun.
  - destruct chain as [|b2 chain]; simpl in Hrun; [|by eapply Hrec].
    injection Hrun as <- <- <-. exists [b], [], [Some (Ok r)]. split_and!; [done..|simpl; by rewrite Hreq, Es|].
    exists []. split_and!; by auto.
  - injection Hrun as <- <- <-. exists [b], chain, [Some (Ok r)]. split_and!; [done..|simpl; by rewrite Hreq, Es|].
    exists []. split_and!; by auto.
Qed.


(** A request body that is valid JSON but not an object takes the handler
    down: when the backend has a default model, injecting it indexes into
    the value, and the request ends in a panic before anything is sent. *)
Theorem non_object_body_panics w b rest body model :
  bc_model b = Some model -> is_obj body = false -> body <> Null ->
  forward_with_failover send status drain_body w body (b :: rest) = (Panicked, [b], w).
Proof.
  intros Hm Hobj Hn. unfold forward_with_failover. simpl. unfold chat_request. rewrite Hm.
  by destruct body.
Qed.
End FailoverSpec.

(** ** Concrete runs *)

Definition demo_backends : gmap string BackendConfig :=
  list_to_map [("openai", mkBackend "openai" "https://api.openai.com/" (Some "k1") None);
               ("local", mkBackend "ollama" "http://localhost:11434" None (Some "llama3"))].
Definition demo_config : PoolConfig :=
  mkPoolConfig None demo_backends
    (mkRoutingConfig (Some "local") [mkRouting "gpt-*" "openai" ["local"]]).
Definition demo_pool : BackendPool := mkPool demo_backends [mkRouting "gpt-*" "openai" ["local"]] "local".

Lemma route_chain_total_witness :
  exists b rest, route_chain (runtime_build demo_pool) (Some "gpt-4o") = b :: rest /\
    route (runtime_build demo_pool) (Some "gpt-4o") = Some b /\ bc_provider b = "openai".
Proof.
  destruct (route_chain_total demo_config demo_pool [] (Some "gpt-4o") eq_refl) as (_ & _ & _ & b & rest & Hc & Hr).
  exists b, rest. split; [exact Hc|]. split; [exact Hr|]. vm_compute in Hr. by injection Hr as <-.
Defined.

(** The first backend answers 503, the second 200. *)
Definition demo_send (w : nat) (req : ChatRequest) : result string Z * nat :=
  (if starts_with "https" (rq_url req) then Ok 503%Z else Ok 200%Z, S w).

Lemma non_object_body_panics_witness :
  forward_with_failover demo_send (fun s => s) (fun _ => "") 0 (Arr [])
    [mkBackend "ollama" "http://localhost:11434" None (Some "llama3")] =
  (Panicked, [mkBackend "ollama" "http://localhost:11434" None (Some "llama3")], 0).
Proof.
  refine (non_object_body_panics demo_send (fun s => s) (fun _ => "") 0
    (mkBackend "ollama" "http://localhost:11434" None (Some "llama3")) [] (Arr []) "llama3" _ _ _); easy.
Defined.
