(* ===== verification/ClientAuth.v ===== *)
(** * Client tokens ([src/client_auth/*.rs] and the client endpoints of
    [src/admin/mod.rs])

    Minting and parsing of bearer tokens, the SQLite table they are kept in,
    the in-memory verification cache, the lookup path that joins the two, the
    request middleware, and the admin operations that issue and revoke. *)

From S2P Require Import Prelude RustStr.

(** ** Tokens ([mod.rs]) *)

Definition SECRET_LEN : nat := 24.
Definition ALPHABET : string := "abcdefghjkmnpqrstvwxyz23456789zz".

(** SHA-256, from the [sha2] crate. *)
Class Sha256 := { sha256_of : string -> string }.
Class Sha256Laws `{Sha256} := { sha256_length s : String.length (sha256_of s) = 32 }.

(** [ALPHABET\[b & 31\]]. *)
Definition alphabet_at (b : ascii) : ascii :=
  match String.get (N.to_nat (N.land (bval b) 31)) ALPHABET with Some c => c | None => zero end.

Record Token := mkToken { tk_wire : string; tk_prefix : string; tk_hash : string }.

Definition wire_prefix (wire : string) : string := sconcat (take 10 (chars wire)).

Section Tokens.
Context `{Sha256}.

(** [Token::generate], given the bytes the OS RNG produced. *)
Definition generate (env_marker : string) (secret_bytes : string) : Token :=
  let secret := smap alphabet_at secret_bytes in
  let wire := "ng_" +:+ env_marker +:+ "_" +:+ secret in
  mkToken wire (wire_prefix wire) (sha256_of wire).

(** The comparison is constant-time in the code; its result is equality. *)
Definition verify (wire stored_hash : string) : bool := String.eqb (sha256_of wire) stored_hash.
End Tokens.

Record PrefixedToken := mkPrefixed { pf_wire : string; pf_prefix : string }.

Definition byte_is (p : ascii -> bool) (i : nat) (s : string) : bool :=
  match String.get i s with Some c => p c | None => false end.
Definition parse (wire : string) : option PrefixedToken :=
  if negb (Nat.eqb (String.length wire) 29) then None
  else if negb (starts_with "ng_" wire) then None
  else if negb (byte_is (fun c => Ascii.eqb c "_") 4 wire) then None
  else if negb (byte_is is_ascii_alphanumeric 3 wire) then None
  else if negb (sall is_ascii_alphanumeric (sdrop 5 wire)) then None
  else Some (mkPrefixed wire (wire_prefix wire)).

(** ** The token table ([store.rs]) *)

Record ClientTokenRow := mkRow {
  ct_id : Z;
  ct_prefix : string;
  ct_user_id : Z;
  ct_label : option string;
  ct_created_at : string;
  ct_expires_at : option string;
  ct_revoked_at : option string;
  ct_last_used_at : option string;
}.
(** The rows of [client_tokens], each with its hash column. *)
Definition Db := list (ClientTokenRow * string).

Definition find_prefix (db : Db) (prefix : string) : option (ClientTokenRow * string) :=
  List.find (fun rh => String.eqb (ct_prefix rh.1) prefix) db.

(** [INTEGER PRIMARY KEY]: one more than the largest rowid. *)
Definition next_id (db : Db) : Z := (foldr (fun rh m => Z.max (ct_id rh.1) m) 0 db + 1)%Z.

Definition store_insert (db : Db) (now prefix hash : string) (user_id : Z) (label expires_at : option string)
    : result string (Z * Db) :=
  match find_prefix db prefix with
  | Some _ => Err "UNIQUE constraint failed: client_tokens.prefix"
  | None =>
      let id := next_id db in
      Ok (id, db ++ [(mkRow id prefix user_id label now expires_at None None, hash)])
  end.

Definition lookup_by_prefix (db : Db) (prefix : string) : result string (option (ClientTokenRow * string)) :=
  match find_prefix db prefix with
  | None => Ok None
  | Some (row, hash) =>
      if negb (Nat.eqb (String.length hash) 32) then Err "client_tokens.hash is not 32 bytes"
      else Ok (Some (row, hash))
  end.

Definition set_revoked (now : string) (row : ClientTokenRow) : ClientTokenRow :=
  match ct_revoked_at row with
  | Some _ => row
  | None => mkRow (ct_id row) (ct_prefix row) (ct_user_id row) (ct_label row) (ct_created_at row)
              (ct_expires_at row) (Some now) (ct_last_used_at row)
  end.
(** [UPDATE .. SET revoked_at = now WHERE sel AND revoked_at IS NULL]. *)
Definition revoke_where (sel : ClientTokenRow -> bool) (now : string) (db : Db) : Z * Db :=
  (Z.of_nat (length (List.filter (fun rh => sel rh.1 && bool_decide (ct_revoked_at rh.1 = None)) db)),
   map (fun rh => if sel rh.1 then (set_revoked now rh.1, rh.2) else rh) db).
Definition store_revoke (db : Db) (now : string) (id : Z) : Z * Db :=
  revoke_where (fun r => Z.eqb (ct_id r) id) now db.
Definition revoke_all_for_user (db : Db) (now : string) (user_id : Z) : Z * Db :=
  revoke_where (fun r => Z.eqb (ct_user_id r) user_id) now db.

(** ** The cache ([cache.rs]) *)

Record CachedToken := mkCached { cd_row : ClientTokenRow; cd_hash : string }.
Record Entry := mkEntry { en_token : CachedToken; en_inserted_at : Z; en_last_used : Z }.
(** Instants and the TTL are in one unit; the counter is a [u64]. *)
Record TokenCache := mkCache {
  tc_map : gmap string Entry;
  tc_counter : Z;
  tc_capacity : nat;
  tc_ttl : Z;
}.
Definition cache_new (capacity : nat) (ttl : Z) : TokenCache := mkCache ∅ 0 capacity ttl.

Definition with_map (c : TokenCache) (m : gmap string Entry) : TokenCache :=
  mkCache m (tc_counter c) (tc_capacity c) (tc_ttl c).
Definition bump (c : TokenCache) : TokenCache :=
  mkCache (tc_map c) (u64_wrap (tc_counter c + 1)) (tc_capacity c) (tc_ttl c).
Definition expired (now ttl : Z) (e : Entry) : bool := (ttl <=? now - en_inserted_at e)%Z.

Definition cache_get (now : Z) (c : TokenCache) (prefix : string) : option CachedToken * TokenCache :=
  match tc_map c !! prefix with
  | None => (None, c)
  | Some e =>
      if expired now (tc_ttl c) e then (None, with_map c (delete prefix (tc_map c)))
      else
        let c1 := bump c in
        (Some (en_token e),
         with_map c1 (<[prefix := mkEntry (en_token e) (en_inserted_at e) (tc_counter c1)]> (tc_map c1)))
  end.

(** [min_by_key(last_used)] over the entries in some order. *)
Fixpoint min_used (l : list (string * Entry)) : option (string * Entry) :=
  match l with
  | [] => None
  | x :: l' => match min_used l' with
               | Some y => if (en_last_used y.2 <? en_last_used x.2)%Z then Some y else Some x
               | None => Some x
               end
  end.
Definition evict_one (now : Z) (c : TokenCache) : TokenCache :=
  match List.find (fun ke => expired now (tc_ttl c) ke.2) (map_to_list (tc_map c)) with
  | Some (k, _) => with_map c (delete k (tc_map c))
  | None =>
      match min_used (map_to_list (tc_map c)) with
      | Some (k, _) => with_map c (delete k (tc_map c))
      | None => c
      end
  end.
Definition cache_insert (now : Z) (c : TokenCache) (prefix : string) (token : CachedToken) : TokenCache :=
  let c1 := bump c in
  let entry := mkEntry token now (tc_counter c1) in
  match tc_map c1 !! prefix with
  | Some _ => with_map c1 (<[prefix := entry]> (tc_map c1))
  | None =>
      let c2 := if Nat.leb (tc_capacity c1) (size (tc_map c1)) then evict_one now c1 else c1 in
      with_map c2 (<[prefix := entry]> (tc_map c2))
  end.
Definition cache_invalidate (c : TokenCache) (prefix : string) : TokenCache :=
  with_map c (delete prefix (tc_map c)).
Definition cache_clear (c : TokenCache) : TokenCache := with_map c ∅.

(** ** The runtime handle ([runtime.rs]) *)

Record AuthConfig := mkAuthConfig {
  au_enabled : bool;
  au_env_marker : string;
  au_cache_capacity : nat;
  au_cache_ttl_secs : Z;
  au_require_https : bool;
}.
Record ClientAuth := mkAuth {
  ca_db : Db;
  ca_cache : TokenCache;
  ca_config : AuthConfig;
}.
Definition is_alnum_marker (ch : string) : bool :=
  match ch with String c "" => is_ascii_alphanumeric c | _ => false end.
(** [ClientAuth::open], on a database that already holds [db]. *)
Definition auth_open (db : Db) (config : AuthConfig) : result string ClientAuth :=
  if negb (is_alnum_marker (au_env_marker config))
  then Err "[auth].env_marker must be a single ASCII alphanumeric character"
  else Ok (mkAuth db (cache_new (au_cache_capacity config) (au_cache_ttl_secs config)) config).

Definition lookup (now : Z) (a : ClientAuth) (prefix : string) : result string (option CachedToken) * ClientAuth :=
  let '(hit, c1) := cache_get now (ca_cache a) prefix in
  let a1 := mkAuth (ca_db a) c1 (ca_config a) in
  match hit with
  | Some cached => (Ok (Some cached), a1)
  | None =>
      match lookup_by_prefix (ca_db a) prefix with
      | Err e => (Err e, a1)
      | Ok None => (Ok None, a1)
      | Ok (Some (row, hash)) =>
          let cached := mkCached row hash in
          (Ok (Some cached), mkAuth (ca_db a) (cache_insert now c1 prefix cached) (ca_config a))
      end
  end.
Definition invalidate_cached (a : ClientAuth) (prefix : string) : ClientAuth :=
  mkAuth (ca_db a) (cache_invalidate (ca_cache a) prefix) (ca_config a).
Definition invalidate_all_cached (a : ClientAuth) : ClientAuth :=
  mkAuth (ca_db a) (cache_clear (ca_cache a)) (ca_config a).

(** ** The middleware ([middleware.rs]) *)

Record ClientView := mkView {
  cv_token_id : Z;
  cv_token_prefix : string;
  cv_user_id : Z;
  cv_label : option string;
  cv_budget_key : string;
}.
(** The request is passed on, with or without a view attached, or answered. *)
Inductive AuthOutcome :=
| Pass (view : option ClientView)
| Refuse (status : Z) (detail : string).

(** The two headers the middleware reads, when they are valid strings. *)
Record AuthHeaders := mkHeaders { h_forwarded_proto : option string; h_authorization : option string }.

Definition extract_bearer (h : option string) : option string := h ≫= strip_prefix "Bearer ".

Section Middleware.
Context `{Sha256} (parse_rfc3339 : string -> option Z).

(** A timestamp that does not parse counts as not expired. *)
Definition is_past (now : Z) (rfc3339 : string) : bool :=
  match parse_rfc3339 rfc3339 with Some dt => (dt <? now)%Z | None => false end.

Definition verify_request (now : Z) (auth : option ClientAuth) (req : AuthHeaders)
    : AuthOutcome * option ClientAuth :=
  match auth with
  | None => (Pass None, auth)
  | Some a =>
      if negb (au_enabled (ca_config a)) then (Pass None, auth)
      else if au_require_https (ca_config a) && negb (bool_decide (h_forwarded_proto req = Some "https"))
      then (Refuse 403 "https required", auth)
      else match extract_bearer (h_authorization req) with
      | None => (Refuse 401 "missing bearer", auth)
      | Some bearer =>
          match parse bearer with
          | None => (Refuse 401 "malformed token", auth)
          | Some parsed =>
              let '(found, a') := lookup now a (pf_prefix parsed) in
              (match found with
               | Err _ => Refuse 500 "auth lookup failed"
               | Ok None => Refuse 401 "unknown token"
               | Ok (Some cached) =>
                   let row := cd_row cached in
                   if negb (verify (pf_wire parsed) (cd_hash cached)) then Refuse 401 "unknown token"
                   else if bool_decide (ct_revoked_at row <> None) then Refuse 401 "token revoked"
                   else if (match ct_expires_at row with Some exp => is_past now exp | None => false end)
                   then Refuse 401 "token expired"
                   else Pass (Some (mkView (ct_id row) (ct_prefix row) (ct_user_id row) (ct_label row)
                                      ("token:" +:+ show_Z (ct_id row))))
               end, Some a')
          end
      end
  end.
End Middleware.

(** ** Admin operations ([admin/mod.rs]) *)

(** The mint loop of [create_client]: [rng k] are the bytes of attempt [k]. *)
Definition MAX_MINT_ATTEMPTS : nat := 3.
Fixpoint mint `{Sha256} (attempts : nat) (rng : nat -> string) (k : nat) (db : Db) (now : string)
    (env : string) (user_id : Z) (label : string) (expires : option string) : option (Z * Token * Db) :=
  match attempts with
  | O => None
  | S n =>
      let token := generate env (rng k) in
      match store_insert db now (tk_prefix token) (tk_hash token) user_id (Some label) expires with
      | Ok (id, db') => Some (id, token, db')
      | Err _ => mint n rng (S k) db now env user_id label expires
      end
  end.
Definition create_client `{Sha256} (parse_rfc3339 : string -> option Z) (rng : nat -> string) (now : string)
    (a : ClientAuth) (user_id : Z) (label : string) (expires : option string)
    : result (Z * string) (Z * Token) * ClientAuth :=
  let label_trimmed := trim label in
  if String.eqb label_trimmed "" then (Err (400%Z, "label is required and cannot be empty"), a)
  else if (match expires with
           | Some s => match parse_rfc3339 s with Some _ => false | None => true end
           | None => false
           end)
  then (Err (400%Z, "expires_at must be RFC3339 (e.g. 2026-12-31T23:59:59Z)"), a)
  else match mint MAX_MINT_ATTEMPTS rng 0 (ca_db a) now (au_env_marker (ca_config a)) user_id label_trimmed expires with
       | None => (Err (500%Z, "failed to persist token"), a)
       | Some (id, token, db') => (Ok (id, token), mkAuth db' (ca_cache a) (ca_config a))
       end.
Definition revoke_client (now : string) (a : ClientAuth) (id : Z) : Z * ClientAuth :=
  let prefix := (fun rh => ct_prefix rh.1) <$> List.find (fun rh => Z.eqb (ct_id rh.1) id) (ca_db a) in
  let '(affected, db') := store_revoke (ca_db a) now id in
  let a1 := mkAuth db' (ca_cache a) (ca_config a) in
  (affected, match prefix with Some p => invalidate_cached a1 p | None => a1 end).

(** ** Lemmas: tokens *)

Lemma ascii_utf8 s : is_ascii s = true -> is_utf8 s = true.
Proof.
  induction s as [|c s IH]; [done|]. unfold is_ascii. simpl. intros H. apply andb_prop in H as [Hc Hs].
  unfold is_utf8. simpl. rewrite Hc. by apply IH.
Qed.

Lemma take_chars_ascii n s : is_ascii s = true -> sconcat (take n (chars s)) = stake n s.
Proof.
  revert n. induction s as [|c s IH]; intros n Hs; [by destruct n|].
  unfold is_ascii in Hs. simpl in Hs. apply andb_prop in Hs as [Hc Hs].
  assert (chars (String c s) = one c :: chars s) as ->.
  { unfold chars. simpl. assert (char_need c = 0) as ->; [|done].
    unfold char_need. apply N.ltb_lt in Hc. by rewrite (proj2 (N.ltb_lt _ _)) by lia. }
  destruct n; [done|]. simpl. by rewrite IH.
Qed.

Lemma alnum_ascii s : sall is_ascii_alphanumeric s = true -> is_ascii s = true.
Proof.
  apply sall_impl. intros c Hc.
  assert (implb (is_ascii_alphanumeric c) (bval c <? 128)%N = true) as Hi; [|by rewrite Hc in Hi].
  apply (byte_forall (fun c => implb (is_ascii_alphanumeric c) (bval c <? 128)%N)). vm_compute. reflexivity.
Qed.

Lemma secret_alnum bs : sall is_ascii_alphanumeric (smap alphabet_at bs) = true.
Proof.
  induction bs as [|b bs IH]; [done|]. simpl. rewrite IH, andb_true_r.
  apply (byte_forall (fun b => is_ascii_alphanumeric (alphabet_at b))). vm_compute. reflexivity.
Qed.

Lemma marker_inv env : is_alnum_marker env = true -> exists c, env = one c /\ is_ascii_alphanumeric c = true.
Proof. destruct env as [|c [|d env]]; try done. eauto. Qed.

Lemma generate_ascii `{Sha256} env bs :
  is_alnum_marker env = true -> is_ascii (tk_wire (generate env bs)) = true.
Proof.
  intros (c & -> & Hc)%marker_inv. change (is_ascii ("ng_" +:+ one c +:+ "_" +:+ smap alphabet_at bs) = true).
  unfold is_ascii. rewrite !sall_app.
  pose proof (alnum_ascii _ (secret_alnum bs)) as Hs. unfold is_ascii in Hs. rewrite Hs.
  assert (sall is_ascii_alphanumeric (one c) = true) as Ho by (simpl; by rewrite Hc).
  apply alnum_ascii in Ho. unfold is_ascii in Ho. by rewrite Ho.
Qed.

Lemma parse_generate_ok `{Sha256} env bs :
  is_alnum_marker env = true -> String.length bs = SECRET_LEN ->
  parse (tk_wire (generate env bs)) =
    Some (mkPrefixed (tk_wire (generate env bs)) (tk_prefix (generate env bs))).
Proof.
  intros Hm Hl. pose proof (generate_ascii env bs Hm) as Ha. apply marker_inv in Hm as (c & -> & Hc).
  pose proof (secret_alnum bs) as Hs. unfold generate in *. cbn [tk_wire tk_prefix] in *.
  unfold parse. assert (String.length ("ng_" +:+ one c +:+ "_" +:+ smap alphabet_at bs) = 29) as ->.
  { rewrite !slen_app, slen_smap, Hl. done. }
  cbn [Nat.eqb negb]. rewrite starts_with_app. cbn [negb].
  assert (byte_is (fun c => Ascii.eqb c "_") 4 ("ng_" +:+ one c +:+ "_" +:+ smap alphabet_at bs) = true) as -> by done.
  assert (byte_is is_ascii_alphanumeric 3 ("ng_" +:+ one c +:+ "_" +:+ smap alphabet_at bs) = true) as -> by done.
  assert (sdrop 5 ("ng_" +:+ one c +:+ "_" +:+ smap alphabet_at bs) = smap alphabet_at bs) as ->.
  { simpl. by destruct (smap alphabet_at bs). }
  by rewrite Hs.
Qed.

(** ** Lemmas: the cache *)

Inductive CacheOp :=
| OGet (now : Z) (p : string)
| OInsert (now : Z) (p : string) (tok : CachedToken)
| OInvalidate (p : string)
| OClear.
Definition cache_step (c : TokenCache) (op : CacheOp) : TokenCache :=
  match op with
  | OGet now p => (cache_get now c p).2
  | OInsert now p tok => cache_insert now c p tok
  | OInvalidate p => cache_invalidate c p
  | OClear => cache_clear c
  end.
(** The operations after which an older entry for [p] may not be served. *)
Definition touches (p : string) (op : CacheOp) : bool :=
  match op with
  | OGet _ _ => false
  | OInsert _ q _ => String.eqb q p
  | OInvalidate q => String.eqb q p
  | OClear => true
  end.

Lemma evict_one_lookup now c p e : tc_map (evict_one now c) !! p = Some e -> tc_map c !! p = Some e.
Proof.
  unfold evict_one. destruct (List.find _ _) as [[k ?]|]; [|destruct (min_used _) as [[k ?]|]]; simpl; try done;
    intros [_ ?]%lookup_delete_Some; done.
Qed.

Lemma cache_step_entry c op p e' :
  tc_map (cache_step c op) !! p = Some e' ->
  (exists now tok, op = OInsert now p tok /\ en_token e' = tok /\ en_inserted_at e' = now) \/
  (touches p op = false /\ exists e, tc_map c !! p = Some e /\
     en_token e' = en_token e /\ en_inserted_at e' = en_inserted_at e).
Proof.
  destruct op as [now q|now q tok|q|]; simpl.
  - intros Hp. right. split; [done|]. unfold cache_get in Hp. destruct (tc_map c !! q) as [e|] eqn:E; [|eauto].
    destruct (expired now (tc_ttl c) e); simpl in Hp; [apply lookup_delete_Some in Hp as [_ Hp]; eauto|].
    rewrite lookup_insert in Hp. case_decide as Hq; [|eauto]. subst q. injection Hp as <-. eauto.
  - unfold cache_insert. simpl. intros Hp.
    assert (Hcase : (q = p /\ e' = mkEntry tok now (u64_wrap (tc_counter c + 1))) \/ (q <> p /\ tc_map c !! p = Some e')).
    { destruct (tc_map c !! q) as [e|] eqn:E; simpl in Hp.
      - rewrite lookup_insert in Hp. case_decide; [left; naive_solver|by right].
      - rewrite lookup_insert in Hp. case_decide; [left; naive_solver|]. right. split; [done|].
        destruct (Nat.leb _ _); [|done]. by apply evict_one_lookup in Hp. }
    destruct Hcase as [[-> ->]|[Hne He]]; [left; eauto|]. right.
    split; [by apply String.eqb_neq|eauto].
  - intros [Hne Hp]%lookup_delete_Some. right. split; [by apply String.eqb_neq|eauto].
  - by rewrite lookup_empty.
Qed.

Definition justified (trace : list CacheOp) (c : TokenCache) : Prop :=
  forall p e, tc_map c !! p = Some e ->
    exists pre post, trace = pre ++ OInsert (en_inserted_at e) p (en_token e) :: post /\
      Forall (fun op => touches p op = false) post.

Lemma run_justified cap ttl ops : justified ops (foldl cache_step (cache_new cap ttl) ops).
Proof.
  induction ops as [|op ops IH] using rev_ind; [intros p e; simpl; by rewrite lookup_empty|].
  intros p e' Hp. rewrite foldl_app in Hp. simpl in Hp.
  apply cache_step_entry in Hp as [(now & tok & -> & <- & <-)|(Ht & e & He & -> & ->)].
  - exists ops, []. split; [done|constructor].
  - destruct (IH p e He) as (pre & post & -> & HF). exists pre, (post ++ [op]).
    split; [by rewrite <-(assoc_L (++))|]. apply Forall_app. split; [done|by constructor].
Qed.

Lemma cache_step_const c op : tc_ttl (cache_step c op) = tc_ttl c /\ tc_capacity (cache_step c op) = tc_capacity c.
Proof.
  destruct op as [now q|now q tok|q|]; simpl; try done.
  - unfold cache_get. destruct (tc_map c !! q); [|done]. by destruct (expired _ _ _).
  - unfold cache_insert. simpl. destruct (tc_map c !! q); [done|]. simpl. destruct (Nat.leb _ _); [|done].
    unfold evict_one. destruct (List.find _ _) as [[? ?]|]; [done|]. by destruct (min_used _) as [[? ?]|].
Qed.

Lemma run_const c ops : tc_ttl (foldl cache_step c ops) = tc_ttl c /\ tc_capacity (foldl cache_step c ops) = tc_capacity c.
Proof.
  revert c. induction ops as [|op ops IH]; intros c; simpl; [done|].
  destruct (IH (cache_step c op)) as [-> ->]. apply cache_step_const.
Qed.

Lemma min_used_spec l :
  match min_used l with
  | Some x => In x l /\ Forall (fun y => (en_last_used x.2 <= en_last_used y.2)%Z) l
  | None => l = []
  end.
Proof.
  induction l as [|x l IH]; simpl; [done|]. destruct (min_used l) as [y|].
  - destruct IH as [Hin HF]. destruct (Z.ltb_spec (en_last_used y.2) (en_last_used x.2)).
    + split; [by right|]. constructor; [lia|done].
    + split; [by left|]. constructor; [lia|]. eapply Forall_impl; [exact HF|]. simpl. intros; lia.
  - subst. split; [by left|]. by repeat constructor.
Qed.

(** Eviction removes one entry of a non-empty cache. *)
Lemma evict_one_spec now c :
  tc_map c <> ∅ ->
  exists k e, tc_map c !! k = Some e /\ evict_one now c = with_map c (delete k (tc_map c)) /\
    (expired now (tc_ttl c) e = true \/
     (forall k' e', tc_map c !! k' = Some e' -> expired now (tc_ttl c) e' = false /\ (en_last_used e <= en_last_used e')%Z)).
Proof.
  intros Hne. unfold evict_one. destruct (List.find _ _) as [[k e]|] eqn:F.
  - apply find_some in F as [Hin Hx]. apply list_elem_of_In, elem_of_map_to_list in Hin. exists k, e. auto.
  - pose proof (min_used_spec (map_to_list (tc_map c))) as Hm.
    destruct (min_used (map_to_list (tc_map c))) as [[k e]|].
    + destruct Hm as [Hin HF]. apply list_elem_of_In, elem_of_map_to_list in Hin. exists k, e.
      split_and!; auto. right. intros k' e' He'. apply elem_of_map_to_list in He'.
      split; [by apply (find_none _ _ F (k', e')), list_elem_of_In|].
      rewrite Forall_forall in HF. by apply (HF (k', e')).
    + destruct Hne. apply map_to_list_empty_iff. done.
Qed.

Lemma cache_step_size c op :
  size (tc_map c) <= Nat.max 1 (tc_capacity c) -> size (tc_map (cache_step c op)) <= Nat.max 1 (tc_capacity c).
Proof.
  intros Hsz. assert (Hdel : forall k (m : gmap string Entry), size (delete k m) <= size m).
  { intros k m. destruct (m !! k) eqn:E; [rewrite map_size_delete_Some by eauto; lia|by rewrite delete_id]. }
  destruct op as [now q|now q tok|q|]; simpl; [| |etransitivity; [apply Hdel|done]|rewrite map_size_empty; lia].
  - unfold cache_get. destruct (tc_map c !! q) eqn:E; [|done].
    destruct (expired _ _ _); simpl; [etransitivity; [apply Hdel|done]|by rewrite map_size_insert_Some by eauto].
  - unfold cache_insert. simpl. destruct (tc_map c !! q) eqn:E; simpl; [by rewrite map_size_insert_Some by eauto|].
    assert (Hins : forall m : gmap string Entry, forall e, size (<[q := e]> m) <= S (size m)).
    { intros m e. destruct (m !! q) eqn:Eq; [rewrite map_size_insert_Some by eauto; lia|].
      by rewrite map_size_insert_None. }
    etransitivity; [apply Hins|]. destruct (Nat.leb_spec (tc_capacity c) (size (tc_map c))); simpl; [|lia].
    destruct (decide (tc_map c = ∅)) as [He|He].
    { pose proof (evict_one_lookup now (bump c)) as Hev.
      assert (tc_map (evict_one now (bump c)) = ∅) as ->; [|rewrite map_size_empty; lia].
      apply map_empty. intros k. destruct (tc_map (evict_one now (bump c)) !! k) eqn:Ek; [|done].
      apply Hev in Ek. simpl in Ek. by rewrite He, lookup_empty in Ek. }
    destruct (evict_one_spec now (bump c) He) as (k & e & Hk & -> & _). simpl in *.
    rewrite map_size_delete_Some by eauto.
    assert (size (tc_map c) <> 0); [|lia]. intros H0. by apply map_size_empty_inv in H0.
Qed.

(** ** Lemmas: the table and the lookup path *)

Record db_wf (db : Db) : Prop := {
  wf_prefixes : NoDup (map (fun rh => ct_prefix rh.1) db);
  wf_ids : NoDup (map (fun rh => ct_id rh.1) db);
  wf_hashes : Forall (fun rh => String.length rh.2 = 32) db;
}.

Lemma find_prefix_Some db p rh : find_prefix db p = Some rh -> In rh db /\ ct_prefix rh.1 = p.
Proof. intros [Hin Hp]%find_some. split; [done|]. by apply String.eqb_eq. Qed.

Lemma find_prefix_In db rh : NoDup (map (fun rh => ct_prefix rh.1) db) -> In rh db -> find_prefix db (ct_prefix rh.1) = Some rh.
Proof.
  induction db as [|x db IH]; simpl; [done|]. rewrite NoDup_cons. intros [Hni Hnd] [->|Hin]; simpl.
  - by rewrite String.eqb_refl.
  - destruct (String.eqb_spec (ct_prefix x.1) (ct_prefix rh.1)) as [E|_]; [|by apply IH].
    destruct Hni. rewrite E. apply list_elem_of_In, in_map_iff. eauto.
Qed.

Lemma lookup_by_prefix_wf db p : db_wf db -> lookup_by_prefix db p = Ok (find_prefix db p).
Proof.
  intros Hwf. unfold lookup_by_prefix. destruct (find_prefix db p) as [[row hash]|] eqn:E; [|done].
  apply find_prefix_Some in E as [Hin _]. pose proof (wf_hashes db Hwf) as HF. rewrite List.Forall_forall in HF.
  specialize (HF _ Hin). simpl in HF. by rewrite HF.
Qed.

(** Revoking rewrites rows in place: keys and hashes stay. *)
Lemma revoke_where_keys sel now db :
  map (fun rh => ct_prefix rh.1) (revoke_where sel now db).2 = map (fun rh => ct_prefix rh.1) db /\
  map (fun rh => ct_id rh.1) (revoke_where sel now db).2 = map (fun rh => ct_id rh.1) db /\
  map snd (revoke_where sel now db).2 = map snd db.
Proof.
  simpl. rewrite !map_map.
  assert (Hs : forall r, ct_prefix (set_revoked now r) = ct_prefix r /\ ct_id (set_revoked now r) = ct_id r).
  { intros r. unfold set_revoked. by destruct (ct_revoked_at r). }
  split_and!; apply map_ext; intros [r h]; simpl; destruct (sel r); simpl; by destruct (Hs r).
Qed.

Lemma revoke_where_wf sel now db : db_wf db -> db_wf (revoke_where sel now db).2.
Proof.
  intros [H1 H2 H3]. destruct (revoke_where_keys sel now db) as (Hp & Hi & Hh). split.
  - by rewrite Hp.
  - by rewrite Hi.
  - apply List.Forall_forall. intros rh Hin. rewrite List.Forall_forall in H3.
    apply (in_map snd) in Hin. rewrite Hh in Hin. apply in_map_iff in Hin as (rh' & <- & Hin). by apply H3.
Qed.

Lemma revoke_where_find sel now db p :
  find_prefix (revoke_where sel now db).2 p =
  (fun rh => if sel rh.1 then (set_revoked now rh.1, rh.2) else rh) <$> find_prefix db p.
Proof.
  simpl. induction db as [|[r h] db IH]; simpl; [done|].
  assert (ct_prefix (set_revoked now r) = ct_prefix r) as Hs by (unfold set_revoked; by destruct (ct_revoked_at r)).
  destruct (sel r) eqn:E; simpl; rewrite ?Hs; (destruct (String.eqb (ct_prefix r) p); [simpl; by rewrite E|done]).
Qed.

Lemma next_id_fresh db : next_id db ∉ map (fun rh => ct_id rh.1) db.
Proof.
  assert (forall rh, In rh db -> (ct_id rh.1 < next_id db)%Z) as Hlt.
  { unfold next_id. induction db as [|x db IH]; simpl; [done|]. intros rh [->|Hin]; [lia|].
    specialize (IH rh Hin). lia. }
  intros (rh & Heq & Hin)%list_elem_of_In%in_map_iff. specialize (Hlt rh Hin). lia.
Qed.

Lemma store_insert_spec db now prefix hash uid label exp id db' :
  db_wf db -> String.length hash = 32 -> store_insert db now prefix hash uid label exp = Ok (id, db') ->
  db_wf db' /\ find_prefix db' prefix = Some (mkRow id prefix uid label now exp None None, hash) /\
  (forall p, p <> prefix -> find_prefix db' p = find_prefix db p) /\ find_prefix db prefix = None.
Proof.
  intros [H1 H2 H3] Hh. unfold store_insert. destruct (find_prefix db prefix) eqn:E; [done|]. intros [= <- <-].
  assert (Happ : forall p, find_prefix (db ++ [(mkRow (next_id db) prefix uid label now exp None None, hash)]) p =
    match find_prefix db p with Some x => Some x
    | None => if String.eqb prefix p then Some (mkRow (next_id db) prefix uid label now exp None None, hash) else None end).
  { intros p. unfold find_prefix. rewrite find_app. by destruct (List.find _ db). }
  split_and!.
  - split; rewrite ?map_app; simpl.
    + apply NoDup_app. split_and!; [done| |apply NoDup_singleton]. intros x Hx ->%list_elem_of_singleton.
      apply list_elem_of_In, in_map_iff in Hx as (rh & Hp & Hin).
      unfold find_prefix in E. pose proof (find_none _ _ E rh Hin) as Hn. simpl in Hn. by rewrite Hp, String.eqb_refl in Hn.
    + apply NoDup_app. split_and!; [done| |apply NoDup_singleton]. intros x Hx ->%list_elem_of_singleton.
      by apply next_id_fresh in Hx.
    + apply Forall_app. split; [done|by constructor].
  - by rewrite Happ, E, String.eqb_refl.
  - intros p Hp. rewrite Happ. destruct (find_prefix db p); [done|]. by destruct (String.eqb_spec prefix p).
  - done.
Qed.

(** Every cached entry is the row the table holds. *)
Definition coherent (a : ClientAuth) : Prop :=
  db_wf (ca_db a) /\
  forall p e, tc_map (ca_cache a) !! p = Some e ->
    find_prefix (ca_db a) p = Some (cd_row (en_token e), cd_hash (en_token e)).

Lemma coherent_cache_step a op :
  coherent a ->
  (forall now p tok, op = OInsert now p tok -> find_prefix (ca_db a) p = Some (cd_row tok, cd_hash tok)) ->
  coherent (mkAuth (ca_db a) (cache_step (ca_cache a) op) (ca_config a)).
Proof.
  intros [Hwf Hc] Hop. split; [done|]. simpl. intros p e' He'.
  apply cache_step_entry in He' as [(now & tok & -> & <- & _)|(_ & e & He & -> & _)]; [by eapply Hop|by apply Hc].
Qed.

Lemma cache_get_hit now c p tok :
  (cache_get now c p).1 = Some tok -> exists e, tc_map c !! p = Some e /\ en_token e = tok /\ expired now (tc_ttl c) e = false.
Proof.
  unfold cache_get. destruct (tc_map c !! p) as [e|]; [|done].
  destruct (expired now (tc_ttl c) e) eqn:E; [done|]. simpl. intros [= <-]. eauto.
Qed.

(** Where the cache does not contradict the table on a prefix, the lookup path
    answers what the table holds under it. *)
Lemma lookup_agrees now a p :
  db_wf (ca_db a) ->
  (forall e, tc_map (ca_cache a) !! p = Some e -> find_prefix (ca_db a) p = Some (cd_row (en_token e), cd_hash (en_token e))) ->
  (lookup now a p).1 = Ok ((fun rh => mkCached rh.1 rh.2) <$> find_prefix (ca_db a) p).
Proof.
  intros Hwf Hc. unfold lookup. pose proof (cache_get_hit now (ca_cache a) p) as Hhit.
  destruct (cache_get now (ca_cache a) p) as [[tok|] c1]; simpl in *.
  - destruct (Hhit tok eq_refl) as (e & He & <- & _). rewrite (Hc e He). by destruct (en_token e).
  - rewrite lookup_by_prefix_wf by done. by destruct (find_prefix (ca_db a) p) as [[row hash]|].
Qed.
(** On a coherent handle the lookup path answers what the table holds, and
    stays coherent. *)
Lemma lookup_coherent now a p :
  coherent a ->
  (lookup now a p).1 = Ok ((fun rh => mkCached rh.1 rh.2) <$> find_prefix (ca_db a) p) /\
  coherent (lookup now a p).2 /\ ca_db (lookup now a p).2 = ca_db a /\ ca_config (lookup now a p).2 = ca_config a.
Proof.
  intros Hco. pose proof Hco as [Hwf Hc]. split; [apply lookup_agrees; [done|]; apply Hc|]. unfold lookup.
  pose proof (coherent_cache_step a (OGet now p) Hco ltac:(done)) as Hget. simpl in Hget.
  destruct (cache_get now (ca_cache a) p) as [[tok|] c1]; simpl in *; [done|].
  - rewrite lookup_by_prefix_wf by done. destruct (find_prefix (ca_db a) p) as [[row hash]|] eqn:E; [|done].
    simpl. split_and!; [|done|done].
    apply (coherent_cache_step (mkAuth (ca_db a) c1 (ca_config a)) (OInsert now p (mkCached row hash)) Hget).
    intros ? ? ? [= <- <- <-]. done.
Qed.

Lemma revoke_client_coherent now a id : coherent a -> coherent (revoke_client now a id).2.
Proof.
  intros [Hwf Hc]. unfold revoke_client, store_revoke.
  pose proof (revoke_where_wf (fun r => Z.eqb (ct_id r) id) now (ca_db a) Hwf) as Hwf'.
  pose proof (fun p => revoke_where_find (fun r => Z.eqb (ct_id r) id) now (ca_db a) p) as Hf.
  destruct (revoke_where _ now (ca_db a)) as [n db']. simpl in *.
  (* An entry left in the cache is not the revoked row's. *)
  assert (Hkeep : forall p rh, find_prefix (ca_db a) p = Some rh -> Z.eqb (ct_id rh.1) id = false ->
    find_prefix db' p = Some rh) by (intros p rh H1 H2; rewrite Hf, H1; simpl; by rewrite H2).
  destruct (List.find (fun rh => Z.eqb (ct_id rh.1) id) (ca_db a)) as [rh|] eqn:E; simpl; (split; [done|]); simpl.
  - intros p e [Hne He]%lookup_delete_Some. specialize (Hc p e He). apply Hkeep; [done|]. simpl.
    apply find_some in E as [Hin Hid]. apply Z.eqb_eq in Hid. apply Z.eqb_neq. intros Hid'.
    apply find_prefix_Some in Hc as [Hin' Hp']. simpl in *.
    assert (rh = (cd_row (en_token e), cd_hash (en_token e))) as ->; [|done].
    eapply (NoDup_map_inj (fun rh => ct_id rh.1)); [apply (wf_ids _ Hwf)|done|done|]. simpl. congruence.
  - intros p e He. specialize (Hc p e He). apply Hkeep; [done|].
    apply find_prefix_Some in Hc as [Hin _]. exact (find_none _ _ E _ Hin).
Qed.

(** ** Sequences of operations on the handle *)

Inductive AuthOp `{Sha256} :=
| ALookup (now : Z) (p : string)
| ACreate (parse_rfc3339 : string -> option Z) (rng : nat -> string) (now : string) (uid : Z) (label : string)
    (exp : option string)
| ARevoke (now : string) (id : Z)
| AInvalidate (p : string)
| AInvalidateAll.
Definition auth_step `{Sha256} (a : ClientAuth) (op : AuthOp) : ClientAuth :=
  match op with
  | ALookup now p => (lookup now a p).2
  | ACreate pr rng now uid label exp => (create_client pr rng now a uid label exp).2
  | ARevoke now id => (revoke_client now a id).2
  | AInvalidate p => invalidate_cached a p
  | AInvalidateAll => invalidate_all_cached a
  end.

Section AuthProperties.
Context `{Sha256Laws}.

Lemma mint_spec n rng k db now env uid label exp id token db' :
  db_wf db -> mint n rng k db now env uid label exp = Some (id, token, db') ->
  (exists j, token = generate env (rng j)) /\
  db_wf db' /\ find_prefix db' (tk_prefix token) = Some (mkRow id (tk_prefix token) uid (Some label) now exp None None, tk_hash token) /\
  (forall p, p <> tk_prefix token -> find_prefix db' p = find_prefix db p) /\ find_prefix db (tk_prefix token) = None.
Proof.
  intros Hwf. revert k. induction n as [|n IH]; intros k; simpl; [done|].
  destruct (store_insert _ _ _ _ _ _ _) as [[id' db'']|] eqn:E; [|apply IH]. intros [= <- <- <-].
  split; [eauto|]. eapply store_insert_spec; [done| |exact E]. apply sha256_length.
Qed.

Lemma auth_step_coherent a op : coherent a -> coherent (auth_step a op).
Proof.
  intros Hco. destruct op as [now p|pr rng now uid label exp|now id|p|]; simpl.
  - by apply lookup_coherent.
  - unfold create_client. destruct (String.eqb _ _); [done|]. destruct (match exp with Some s => _ | None => _ end); [done|].
    destruct (mint _ _ _ _ _ _ _ _ _) as [[[id token] db']|] eqn:E; [|done]. simpl.
    destruct Hco as [Hwf Hc]. destruct (mint_spec _ _ _ _ _ _ _ _ _ _ _ _ Hwf E) as (_ & Hwf' & Hnew & Hold & Hnone).
    split; [done|]. simpl. intros p e He. specialize (Hc p e He).
    rewrite Hold; [done|]. intros ->. congruence.
  - by apply revoke_client_coherent.
  - by apply (coherent_cache_step a (OInvalidate p)).
  - by apply (coherent_cache_step a OClear).
Qed.

Lemma run_coherent db config a0 ops :
  db_wf db -> auth_open db config = Ok a0 -> coherent (foldl auth_step a0 ops).
Proof.
  intros Hwf. unfold auth_open. destruct (negb _); [done|]. intros [= <-].
  assert (coherent (mkAuth db (cache_new (au_cache_capacity config) (au_cache_ttl_secs config)) config)) as Hco.
  { split; [done|]. simpl. intros p e. by rewrite lookup_empty. }
  revert Hco. generalize (mkAuth db (cache_new (au_cache_capacity config) (au_cache_ttl_secs config)) config).
  induction ops as [|op ops IH]; intros a Hco; simpl; [done|]. by apply IH, auth_step_coherent.
Qed.

(** Minting and parsing agree: whatever bytes the RNG yields, a token minted
    under an alphanumeric marker parses, under the same ten-byte prefix it is
    stored under, and verifies against its own stored hash. *)
Theorem token_mint_parse env bs :
  is_alnum_marker env = true -> String.length bs = SECRET_LEN ->
  let t := generate env bs in
  parse (tk_wire t) = Some (mkPrefixed (tk_wire t) (tk_prefix t)) /\
  tk_prefix t = stake 10 (tk_wire t) /\ String.length (tk_prefix t) = 10 /\
  verify (tk_wire t) (tk_hash t) = true.
Proof.
  intros Hm Hl. simpl. split_and!.
  - by apply parse_generate_ok.
  - by apply take_chars_ascii, generate_ascii.
  - change (String.length (wire_prefix (tk_wire (generate env bs))) = 10).
    unfold wire_prefix. rewrite take_chars_ascii by (by apply generate_ascii).
    apply marker_inv in Hm as (c & -> & _). rewrite slen_stake.
    change (tk_wire (generate (one c) bs)) with ("ng_" +:+ one c +:+ "_" +:+ smap alphabet_at bs).
    rewrite !slen_app, slen_smap, Hl. done.
  - apply String.eqb_refl.
Qed.

(** C8: The verification cache is invisible: after any sequence of lookups,
    issues, revocations and invalidations on a handle opened over a
    well-formed table, a lookup answers exactly what the table holds, so a
    token issued is found and a revocation is seen by the very next lookup,
    whatever the clock, the TTL and the evictions did. *)
Theorem lookup_cache_transparent db config a0 ops now p :
  db_wf db -> auth_open db config = Ok a0 ->
  let a := foldl auth_step a0 ops in
  (lookup now a p).1 = Ok ((fun rh => mkCached rh.1 rh.2) <$> find_prefix (ca_db a) p).
Proof. intros Hwf Hopen. by apply lookup_coherent, (run_coherent db config). Qed.

Lemma parse_shape bearer : parse bearer = None \/ parse bearer = Some (mkPrefixed bearer (wire_prefix bearer)).
Proof. unfold parse. repeat match goal with |- context [if ?b then _ else _] => destruct b end; auto. Qed.

(** The decision on the row the table holds for a parsed bearer. *)
Definition judge (parse_rfc3339 : string -> option Z) (now : Z) (bearer : string)
    (found : option (ClientTokenRow * string)) : AuthOutcome :=
  match found with
  | None => Refuse 401 "unknown token"
  | Some (row, hash) =>
      if negb (verify bearer hash) then Refuse 401 "unknown token"
      else if bool_decide (ct_revoked_at row <> None) then Refuse 401 "token revoked"
      else if (match ct_expires_at row with Some exp => is_past parse_rfc3339 now exp | None => false end)
      then Refuse 401 "token expired"
      else Pass (Some (mkView (ct_id row) (ct_prefix row) (ct_user_id row) (ct_label row)
                         ("token:" +:+ show_Z (ct_id row))))
  end.

Lemma verify_request_judge parse_rfc3339 now a req bearer :
  (lookup now a (wire_prefix bearer)).1 = Ok ((fun rh => mkCached rh.1 rh.2) <$> find_prefix (ca_db a) (wire_prefix bearer)) ->
  au_enabled (ca_config a) = true ->
  (au_require_https (ca_config a) = true -> h_forwarded_proto req = Some "https") ->
  extract_bearer (h_authorization req) = Some bearer -> parse bearer <> None ->
  (verify_request parse_rfc3339 now (Some a) req).1 =
    judge parse_rfc3339 now bearer (find_prefix (ca_db a) (wire_prefix bearer)).
Proof.
  intros Hl Hen Hh Hb Hp. unfold verify_request. rewrite Hen, Hb. cbn [negb].
  assert (au_require_https (ca_config a) && negb (bool_decide (h_forwarded_proto req = Some "https")) = false) as ->.
  { destruct (au_require_https (ca_config a)); [|done]. by rewrite bool_decide_eq_true_2 by auto. }
  destruct (parse_shape bearer) as [?|Hs]; [done|]. rewrite Hs. cbn [pf_prefix pf_wire].
  destruct (lookup now a (wire_prefix bearer)) as [found a']. cbn [fst] in Hl. subst found. cbn [fst].
  by destruct (find_prefix (ca_db a) (wire_prefix bearer)) as [[row hash]|].
Qed.

Lemma judge_pass parse_rfc3339 now bearer found view :
  judge parse_rfc3339 now bearer found = Pass view <->
  exists row hash, found = Some (row, hash) /\ sha256_of bearer = hash /\ ct_revoked_at row = None /\
    (forall exp, ct_expires_at row = Some exp -> is_past parse_rfc3339 now exp = false) /\
    view = Some (mkView (ct_id row) (ct_prefix row) (ct_user_id row) (ct_label row) ("token:" +:+ show_Z (ct_id row))).
Proof.
  unfold judge, verify. destruct found as [[row hash]|]; [|split; [done|]; by intros (? & ? & ? & _)].
  destruct (String.eqb_spec (sha256_of bearer) hash) as [E|E]; cbn [negb].
  2: { split; [done|]. by intros (r & h & [= <- <-] & ? & _). }
  destruct (ct_revoked_at row) as [rv|] eqn:Er.
  { rewrite bool_decide_eq_true_2 by done. split; [done|]. intros (r & h & [= <- <-] & _ & ? & _). congruence. }
  rewrite bool_decide_eq_false_2 by (by intros []).
  destruct (match ct_expires_at row with Some exp => is_past parse_rfc3339 now exp | None => false end) eqn:Ex.
  - split; [done|]. intros (r & h & [= <- <-] & _ & _ & Hx & _).
    destruct (ct_expires_at row) as [exp|]; [|done]. specialize (Hx exp eq_refl). congruence.
  - split; [|by intros (r & h & [= <- <-] & _ & _ & _ & ->)]. intros [= <-]. exists row, hash.
    split_and!; try done. intros exp Hexp. by rewrite Hexp in Ex.
Qed.

Lemma verify_request_iff parse_rfc3339 now a req view :
  coherent a -> au_enabled (ca_config a) = true ->
  (verify_request parse_rfc3339 now (Some a) req).1 = Pass view <->
  (au_require_https (ca_config a) = true -> h_forwarded_proto req = Some "https") /\
  exists bearer row hash, extract_bearer (h_authorization req) = Some bearer /\
    parse bearer = Some (mkPrefixed bearer (wire_prefix bearer)) /\
    find_prefix (ca_db a) (wire_prefix bearer) = Some (row, hash) /\ sha256_of bearer = hash /\
    ct_revoked_at row = None /\
    (forall exp, ct_expires_at row = Some exp -> is_past parse_rfc3339 now exp = false) /\
    view = Some (mkView (ct_id row) (ct_prefix row) (ct_user_id row) (ct_label row) ("token:" +:+ show_Z (ct_id row))).
Proof.
  intros Hco Hen.
  destruct (decide (au_require_https (ca_config a) = true -> h_forwarded_proto req = Some "https")) as [Hh|Hh].
  2: { unfold verify_request. rewrite Hen. simpl.
       assert (au_require_https (ca_config a) && negb (bool_decide (h_forwarded_proto req = Some "https")) = true) as ->;
         [|naive_solver].
       destruct (au_require_https (ca_config a)); [|naive_solver]. simpl.
       by rewrite bool_decide_eq_false_2 by naive_solver. }
  destruct (extract_bearer (h_authorization req)) as [bearer|] eqn:Eb.
  2: { unfold verify_request. rewrite Hen, Eb. cbn [negb]. destruct (_ && _); (split; [done|]; by intros (_ & ? & ? & ? & ? & _)). }
  destruct (parse_shape bearer) as [Hn|Hs].
  { unfold verify_request. rewrite Hen, Eb, Hn. cbn [negb].
    destruct (_ && _); (split; [done|]; intros (_ & b & r & h & [= <-] & Hb & _); congruence). }
  rewrite (verify_request_judge _ _ _ _ bearer); [|by apply lookup_coherent|exact Hen|exact Hh|exact Eb|by rewrite Hs].
  rewrite judge_pass. split.
  - intros (row & hash & Hf & Hh1 & Hr & Hx & Hv). split; [exact Hh|]. exists bearer, row, hash. by split_and!.
  - intros (_ & b & row & hash & [= <-] & _ & Hf & Hrest). eauto.
Qed.

(** C9: Who gets in: with enforcement on, and on a handle whose cache agrees with
    its table ([coherent], which every operation taken one at a time keeps, and
    which a lookup in flight across a revocation or a revocation without a flush
    can break), a request passes exactly when it came over HTTPS where that is
    required, carries a bearer that parses, and the table holds under its prefix
    a row whose hash is the bearer's, that is not revoked and not past its
    expiry; the view then names that row. *)
Theorem verify_request_accepts parse_rfc3339 now a req view :
  coherent a -> au_enabled (ca_config a) = true ->
  (verify_request parse_rfc3339 now (Some a) req).1 = Pass view <->
  (au_require_https (ca_config a) = true -> h_forwarded_proto req = Some "https") /\
  exists bearer row hash, extract_bearer (h_authorization req) = Some bearer /\
    parse bearer = Some (mkPrefixed bearer (wire_prefix bearer)) /\
    find_prefix (ca_db a) (wire_prefix bearer) = Some (row, hash) /\ sha256_of bearer = hash /\
    ct_revoked_at row = None /\
    (forall exp, ct_expires_at row = Some exp -> is_past parse_rfc3339 now exp = false) /\
    view = Some (mkView (ct_id row) (ct_prefix row) (ct_user_id row) (ct_label row) ("token:" +:+ show_Z (ct_id row))).
Proof. apply verify_request_iff. Qed.

(** A revocation drops the row's prefix from the cache and marks its row. *)
Lemma revoke_client_effect nows a row hash p :
  db_wf (ca_db a) -> find_prefix (ca_db a) p = Some (row, hash) ->
  let a' := (revoke_client nows a (ct_id row)).2 in
  db_wf (ca_db a') /\ ca_config a' = ca_config a /\ tc_map (ca_cache a') !! p = None /\
  find_prefix (ca_db a') p = Some (set_revoked nows row, hash).
Proof.
  intros Hwf Hf. pose proof (find_prefix_Some _ _ _ Hf) as [Hin Hp]. simpl in Hp. unfold revoke_client, store_revoke.
  pose proof (revoke_where_wf (fun r => Z.eqb (ct_id r) (ct_id row)) nows _ Hwf) as Hwf'.
  pose proof (revoke_where_find (fun r => Z.eqb (ct_id r) (ct_id row)) nows (ca_db a) p) as Hr.
  destruct (revoke_where _ nows (ca_db a)) as [n db']. simpl in *. rewrite Hf in Hr. simpl in Hr. rewrite Z.eqb_refl in Hr.
  destruct (List.find (fun rh => Z.eqb (ct_id rh.1) (ct_id row)) (ca_db a)) as [rh|] eqn:E.
  - apply find_some in E as [Hin' Hid]. apply Z.eqb_eq in Hid.
    assert (rh = (row, hash)) as ->
      by (eapply (NoDup_map_inj (fun rh => ct_id rh.1)); [apply (wf_ids _ Hwf)|done..]).
    simpl. rewrite Hp. by rewrite lookup_delete_eq.
  - pose proof (find_none _ _ E _ Hin) as Hn. simpl in Hn. by rewrite Z.eqb_refl in Hn.
Qed.

(** C10: A revoked token is dead at once: after [revoke_client] returns, a
    request with that token whose lookup starts then is refused with "token
    revoked", whatever the cache held before, stale rows included: only the
    table has to be well formed (unique ids and prefixes).  Lookups already in
    flight when the revocation ran are not covered. *)
Theorem revoked_token_refused parse_rfc3339 now nows a req bearer row hash :
  db_wf (ca_db a) -> au_enabled (ca_config a) = true ->
  (au_require_https (ca_config a) = true -> h_forwarded_proto req = Some "https") ->
  extract_bearer (h_authorization req) = Some bearer -> parse bearer <> None ->
  find_prefix (ca_db a) (wire_prefix bearer) = Some (row, hash) -> sha256_of bearer = hash ->
  (verify_request parse_rfc3339 now (Some (revoke_client nows a (ct_id row)).2) req).1 = Refuse 401 "token revoked".
Proof.
  intros Hwf Hen Hh Hb Hp Hf Hhash.
  destruct (revoke_client_effect nows a row hash _ Hwf Hf) as (Hwf' & Hcfg & Hmiss & Hf').
  rewrite (verify_request_judge _ _ _ _ bearer); [| |by rewrite Hcfg|by rewrite Hcfg|done|done].
  2: { apply lookup_agrees; [done|]. by rewrite Hmiss. }
  rewrite Hf'. unfold judge, verify. rewrite Hhash, String.eqb_refl. cbn [negb].
  rewrite bool_decide_eq_true_2; [done|]. unfold set_revoked. by destruct (ct_revoked_at row) eqn:E; rewrite ?E.
Qed.
End AuthProperties.

(** What the cache serves is fresh and unrevoked: over any run of cache
    operations, a hit returns a token that was inserted under that prefix less
    than the TTL ago, with no insert, invalidation or clear of the prefix
    since. *)
Theorem cache_get_fresh cap ttl ops now p tok :
  let c := foldl cache_step (cache_new cap ttl) ops in
  (cache_get now c p).1 = Some tok ->
  exists t pre post, ops = pre ++ OInsert t p tok :: post /\
    Forall (fun op => touches p op = false) post /\ (now - t < ttl)%Z.
Proof.
  simpl. intros (e & He & <- & Hx)%cache_get_hit.
  destruct (run_justified cap ttl ops p e He) as (pre & post & Heq & HF).
  exists (en_inserted_at e), pre, post. split_and!; [done..|].
  destruct (run_const (cache_new cap ttl) ops) as [Ht _]. rewrite Ht in Hx. simpl in Hx.
  unfold expired in Hx. apply Z.leb_gt in Hx. lia.
Qed.

(** The cache stays within its capacity, over any run of operations (a
    capacity of 0 counts as 1); and bringing a new key into a full cache
    removes a single entry: an expired one, or else a least recently used. *)
Theorem cache_bounded cap ttl ops :
  let c := foldl cache_step (cache_new cap ttl) ops in
  size (tc_map c) <= Nat.max 1 cap /\
  (forall now p tok, tc_map c !! p = None -> cap <= size (tc_map c) -> tc_map c <> ∅ ->
     exists k e, tc_map c !! k = Some e /\
       tc_map (cache_insert now c p tok) = <[p := mkEntry tok now (u64_wrap (tc_counter c + 1))]> (delete k (tc_map c)) /\
       (expired now ttl e = true \/
        (forall k' e', tc_map c !! k' = Some e' -> expired now ttl e' = false /\ (en_last_used e <= en_last_used e')%Z))).
Proof.
  destruct (run_const (cache_new cap ttl) ops) as [Ht Hc]. simpl in *. split.
  - clear Ht Hc. induction ops as [|op ops IH] using rev_ind; [simpl; rewrite map_size_empty; lia|].
    rewrite foldl_app. simpl.
    destruct (run_const (cache_new cap ttl) ops) as [_ Hc]. simpl in Hc.
    pose proof (cache_step_size (foldl cache_step (cache_new cap ttl) ops) op) as Hs. rewrite Hc in Hs. by apply Hs.
  - intros now p tok Hp Hfull Hne. unfold cache_insert. simpl. rewrite Hp, Hc.
    rewrite (proj2 (Nat.leb_le _ _)) by done.
    destruct (evict_one_spec now (bump (foldl cache_step (cache_new cap ttl) ops)) Hne) as (k & e & Hk & -> & Hv).
    exists k, e. split_and!; [done..|]. simpl in Hv. by rewrite Ht in Hv.
Qed.

(** ** The lookup is not atomic

    [lookup] takes the cache lock, the connection lock and the cache lock
    again: other threads run in between. *)

Definition lookup_read (now : Z) (a : ClientAuth) (prefix : string)
    : result string (option CachedToken * option CachedToken) * ClientAuth :=
  let '(hit, c1) := cache_get now (ca_cache a) prefix in
  let a1 := mkAuth (ca_db a) c1 (ca_config a) in
  match hit with
  | Some cached => (Ok (Some cached, None), a1)
  | None =>
      match lookup_by_prefix (ca_db a) prefix with
      | Err e => (Err e, a1)
      | Ok None => (Ok (None, None), a1)
      | Ok (Some (row, hash)) => (Ok (Some (mkCached row hash), Some (mkCached row hash)), a1)
      end
  end.
Definition lookup_fill (now : Z) (a : ClientAuth) (prefix : string) (pending : option CachedToken) : ClientAuth :=
  match pending with
  | Some tok => mkAuth (ca_db a) (cache_insert now (ca_cache a) prefix tok) (ca_config a)
  | None => a
  end.

(** Run without interruption, the two halves are [lookup]. *)
Lemma lookup_split now a p :
  lookup now a p =
    match lookup_read now a p with
    | (Err e, a1) => (Err e, a1)
    | (Ok (found, pending), a1) => (Ok found, lookup_fill now a1 p pending)
    end.
Proof.
  unfold lookup, lookup_read. destruct (cache_get now (ca_cache a) p) as [[tok|] c1]; [done|].
  by destruct (lookup_by_prefix (ca_db a) p) as [[[row hash]|]|].
Qed.

#[local] Instance demo_sha : Sha256 :=
  {| sha256_of s := stake 32 (s +:+ "00000000000000000000000000000000") |}.
Lemma demo_sha_laws : Sha256Laws.
Proof.
  split. intros s. cbn [sha256_of demo_sha]. rewrite slen_stake, slen_app. cbn [String.length]. lia.
Qed.

Definition demo_auth_config : AuthConfig := mkAuthConfig true "p" 2 60 false.
Definition demo_token : Token := generate "p" "0123456789abcdefghijklmn".
Definition demo_row : ClientTokenRow :=
  mkRow 1 (tk_prefix demo_token) 7 (Some "ci") "2026-01-01T00:00:00Z" None None None.
Definition demo_db : Db := [(demo_row, tk_hash demo_token)].
Definition demo_auth : ClientAuth := mkAuth demo_db (cache_new 2 60) demo_auth_config.
Definition demo_req : AuthHeaders := mkHeaders None (Some ("Bearer " +:+ tk_wire demo_token)).
Definition no_time (_ : string) : option Z := None.

Lemma demo_db_wf : db_wf demo_db.
Proof.
  split; [apply NoDup_singleton|apply NoDup_singleton|]. constructor; [reflexivity|constructor].
Qed.
Lemma demo_coherent : coherent demo_auth.
Proof. split; [apply demo_db_wf|]. simpl. intros p e. by rewrite lookup_empty. Qed.

(** A lookup racing a revocation can resurrect the token: when the request
    thread reads the row, the revocation runs to completion, and only then the
    request thread fills the cache, the next request with the revoked token is
    accepted (until the entry's TTL runs out). *)
Theorem revoke_lookup_race :
  exists (a : ClientAuth) (p : string) (id : Z) (req : AuthHeaders) pending a1,
    coherent a /\ lookup_read 0 a p = (Ok (pending, pending), a1) /\
    let a2 := (revoke_client "2026-01-02T00:00:00Z" a1 id).2 in
    let a3 := lookup_fill 0 a2 p pending in
    (exists row hash, find_prefix (ca_db a3) p = Some (row, hash) /\ ct_revoked_at row <> None) /\
    exists view, (verify_request no_time 1 (Some a3) req).1 = Pass (Some view).
Proof.
  exists demo_auth, (tk_prefix demo_token), 1%Z, demo_req. do 2 eexists.
  split; [apply demo_coherent|]. split; [vm_compute; reflexivity|].
  split; [do 2 eexists; split; [vm_compute; reflexivity|done]|].
  eexists. vm_compute. reflexivity.
Qed.

(** The alphabet is not uniform: three of the 32 byte residues give [z], so
    the secret carries less than five bits per character. *)
Theorem alphabet_biased :
  length (List.filter (fun b => Ascii.eqb (alphabet_at b) "z") (map ascii_of_nat (seq 0 32))) = 3 /\
  length (remove_dups (map alphabet_at (map ascii_of_nat (seq 0 32)))) = 30.
Proof. split; vm_compute; reflexivity. Qed.

(** ** Concrete runs *)

Lemma token_mint_parse_witness :
  parse (tk_wire demo_token) = Some (mkPrefixed (tk_wire demo_token) (tk_prefix demo_token)).
Proof. refine (proj1 (@token_mint_parse demo_sha "p" "0123456789abcdefghijklmn" _ _)); reflexivity. Defined.

Lemma lookup_cache_transparent_witness :
  (lookup 5 (foldl auth_step demo_auth [ALookup 0 (tk_prefix demo_token); ARevoke "2026-01-02T00:00:00Z" 1])
     (tk_prefix demo_token)).1 =
  Ok (Some (mkCached (set_revoked "2026-01-02T00:00:00Z" demo_row) (tk_hash demo_token))).
Proof.
  refine (@lookup_cache_transparent demo_sha demo_sha_laws demo_db demo_auth_config demo_auth
    [ALookup 0 (tk_prefix demo_token); ARevoke "2026-01-02T00:00:00Z" 1] 5 (tk_prefix demo_token) demo_db_wf eq_refl).
Defined.

Lemma verify_request_accepts_witness :
  (verify_request no_time 1 (Some demo_auth) demo_req).1 =
    Pass (Some (mkView 1 (tk_prefix demo_token) 7 (Some "ci") "token:1")).
Proof.
  apply (@verify_request_accepts demo_sha no_time 1 demo_auth demo_req
    (Some (mkView 1 (tk_prefix demo_token) 7 (Some "ci") "token:1")) demo_coherent eq_refl).
  split; [done|]. exists (tk_wire demo_token), demo_row, (tk_hash demo_token).
  split_and!; reflexivity || done.
Defined.

(** The cache holds a stale row, with another owner, when the token is revoked. *)
Definition stale_auth : ClientAuth :=
  mkAuth demo_db (cache_insert 0 (cache_new 2 60) (tk_prefix demo_token)
    (mkCached (mkRow 9 (tk_prefix demo_token) 8 None "" None None None) (tk_hash demo_token))) demo_auth_config.
Lemma revoked_token_refused_witness :
  (verify_request no_time 1 (Some stale_auth) demo_req).1 =
    Pass (Some (mkView 9 (tk_prefix demo_token) 8 None "token:9")) /\
  (verify_request no_time 1 (Some (revoke_client "2026-01-02T00:00:00Z" stale_auth 1).2) demo_req).1 =
    Refuse 401 "token revoked".
Proof.
  split; [vm_compute; reflexivity|].
  refine (@revoked_token_refused demo_sha no_time 1 "2026-01-02T00:00:00Z" stale_auth demo_req (tk_wire demo_token)
    demo_row (tk_hash demo_token) demo_db_wf eq_refl _ eq_refl _ eq_refl eq_refl); done.
Defined.

Definition demo_cached : CachedToken := mkCached demo_row (tk_hash demo_token).
Lemma cache_get_fresh_witness :
  exists t pre post, [OInsert 10 "a" demo_cached; OInvalidate "b"; OGet 20 "a"] = pre ++ OInsert t "a" demo_cached :: post /\
    Forall (fun op => touches "a" op = false) post /\ (50 - t < 60)%Z.
Proof.
  refine (cache_get_fresh 2 60 [OInsert 10 "a" demo_cached; OInvalidate "b"; OGet 20 "a"] 50 "a" demo_cached _).
  vm_compute. reflexivity.
Defined.

Lemma cache_bounded_witness :
  size (tc_map (foldl cache_step (cache_new 1 60) [OInsert 0 "a" demo_cached; OInsert 1 "b" demo_cached])) <= 1.
Proof.
  exact (proj1 (cache_bounded 1 60 [OInsert 0 "a" demo_cached; OInsert 1 "b" demo_cached])).
Defined.
