(* ===== verification/Budget.v ===== *)
(** * Token budgets ([src/budget/store.rs], [src/budget/sqlite.rs])

    The storage interface with its derived check, the SQLite tables behind it,
    and the accounting they implement. *)

From S2P Require Import Prelude RustStr.

Record SpendRecord := mkSpend {
  sp_api_key : string;
  sp_prompt_tokens : Z;
  sp_completion_tokens : Z;
  sp_model : string;
  sp_created_at : string;
}.

Inductive BudgetCheck :=
| Unlimited
| Within (usage limit : Z)
| Exceeded (usage limit : Z).

(** [trait BudgetStore]. *)
Class BudgetStore (B : Type) := {
  record_spend : B -> SpendRecord -> result string B;
  get_usage : B -> string -> result string Z;
  get_limit : B -> string -> result string (option Z);
  set_limit : B -> string -> Z -> result string B;
  reset_usage : B -> string -> string -> result string B;
}.
(** The provided method. *)
Definition budget_check `{BudgetStore B} (s : B) (api_key : string) : result string BudgetCheck :=
  let? limit := get_limit s api_key in
  match limit with
  | None => Ok Unlimited
  | Some limit =>
      let? usage := get_usage s api_key in
      Ok (if (limit <=? usage)%Z then Exceeded usage limit else Within usage limit)
  end.

(** ** The SQLite store *)

Definition i64_max : Z := 9223372036854775807.
(** A row of [spend_logs], and a row of [api_key_usage] with its [reset_at]. *)
Record SqliteBudget := mkSqlite {
  sb_limits : gmap string Z;
  sb_usage : gmap string (Z * option string);
  sb_logs : list (SpendRecord * Z);
}.
Definition sqlite_open : SqliteBudget := mkSqlite ∅ ∅ [].

(** Binding a [u64] above [i64::MAX] is an error of the driver. *)
Definition bind_u64 (n : Z) : result string Z :=
  if (n <=? i64_max)%Z then Ok n else Err "out of range integral type conversion attempted".

Definition sqlite_record_spend (s : SqliteBudget) (r : SpendRecord) : result string SqliteBudget :=
  let total := u64_wrap (sp_prompt_tokens r + sp_completion_tokens r) in
  let? _ := bind_u64 (sp_prompt_tokens r) in
  let? _ := bind_u64 (sp_completion_tokens r) in
  let? _ := bind_u64 total in
  Ok (mkSqlite (sb_limits s)
        (match sb_usage s !! sp_api_key r with
         | Some (old, at_) => <[sp_api_key r := ((old + total)%Z, at_)]> (sb_usage s)
         | None => <[sp_api_key r := (total, None)]> (sb_usage s)
         end)
        (sb_logs s ++ [(r, total)])).
(** An integer sum beyond [i64] is stored as a float and no longer reads back. *)
Definition sqlite_get_usage (s : SqliteBudget) (api_key : string) : result string Z :=
  match sb_usage s !! api_key with
  | None => Ok 0%Z
  | Some (n, _) => if (n <=? i64_max)%Z then Ok n else Err "Invalid column type Real at index: 0"
  end.
Definition sqlite_get_limit (s : SqliteBudget) (api_key : string) : result string (option Z) :=
  Ok (sb_limits s !! api_key).
Definition sqlite_set_limit (s : SqliteBudget) (api_key : string) (limit : Z) : result string SqliteBudget :=
  let? l := bind_u64 limit in
  Ok (mkSqlite (<[api_key := l]> (sb_limits s)) (sb_usage s) (sb_logs s)).
Definition sqlite_reset_usage (s : SqliteBudget) (now api_key : string) : result string SqliteBudget :=
  Ok (mkSqlite (sb_limits s)
        (match sb_usage s !! api_key with
         | Some _ => <[api_key := (0%Z, Some now)]> (sb_usage s)
         | None => sb_usage s
         end) (sb_logs s)).

#[export] Instance sqlite_budget : BudgetStore SqliteBudget := {|
  record_spend := sqlite_record_spend; get_usage := sqlite_get_usage; get_limit := sqlite_get_limit;
  set_limit := sqlite_set_limit; reset_usage := sqlite_reset_usage;
|}.

(** ** What the store promises *)

Inductive BudgetOp :=
| BSpend (r : SpendRecord)
| BLimit (api_key : string) (limit : Z)
| BReset (now api_key : string).
Definition budget_step `{BudgetStore B} (s : B) (op : BudgetOp) : result string B :=
  match op with
  | BSpend r => record_spend s r
  | BLimit k l => set_limit s k l
  | BReset now k => reset_usage s now k
  end.
Fixpoint budget_run `{BudgetStore B} (s : B) (ops : list BudgetOp) : result string B :=
  match ops with [] => Ok s | op :: ops' => let? s' := budget_step s op in budget_run s' ops' end.

Definition spend_total (r : SpendRecord) : Z := (sp_prompt_tokens r + sp_completion_tokens r)%Z.

(** The reference accounting: tokens spent under a key since its last reset,
    and the last limit set for it. *)
Definition usage_step (k : string) (n : Z) (op : BudgetOp) : Z :=
  match op with
  | BSpend r => if String.eqb (sp_api_key r) k then (n + spend_total r)%Z else n
  | BReset _ k' => if String.eqb k' k then 0%Z else n
  | BLimit _ _ => n
  end.
Definition spent (k : string) (ops : list BudgetOp) : Z := foldl (usage_step k) 0%Z ops.
Definition limit_step (k : string) (l : option Z) (op : BudgetOp) : option Z :=
  match op with BLimit k' l' => if String.eqb k' k then Some l' else l | _ => l end.
Definition limit_of (k : string) (ops : list BudgetOp) : option Z := foldl (limit_step k) None ops.

(** Token counts are non-negative and their sum fits the column. *)
Definition op_ok (op : BudgetOp) : Prop :=
  match op with
  | BSpend r => (0 <= sp_prompt_tokens r /\ 0 <= sp_completion_tokens r /\ spend_total r <= i64_max)%Z
  | BLimit _ l => (0 <= l <= i64_max)%Z
  | BReset _ _ => True
  end.

Definition usage_value (s : SqliteBudget) (k : string) : Z :=
  match sb_usage s !! k with Some (n, _) => n | None => 0%Z end.

Lemma sqlite_step s op :
  op_ok op ->
  exists s', budget_step s op = Ok s' /\
    (forall k, usage_value s' k = usage_step k (usage_value s k) op) /\
    (forall k, sb_limits s' !! k = limit_step k (sb_limits s !! k) op).
Proof.
  destruct op as [r|k l|now k]; simpl; unfold usage_value.
  - intros (H1 & H2 & H3). unfold spend_total in H3. unfold sqlite_record_spend.
    rewrite u64_wrap_small by (unfold u64_max, i64_max in *; lia).
    unfold bind_u64. rewrite !(proj2 (Z.leb_le _ _)) by lia. simpl. eexists. split; [done|]. simpl.
    split; [|done]. intros k. unfold spend_total.
    destruct (sb_usage s !! sp_api_key r) as [[old at_]|] eqn:E; rewrite lookup_insert; case_decide as Hk.
    + subst k. rewrite E, String.eqb_refl. done.
    + by rewrite (proj2 (String.eqb_neq _ _)).
    + subst k. by rewrite E, String.eqb_refl.
    + by rewrite (proj2 (String.eqb_neq _ _)).
  - intros Hl. unfold sqlite_set_limit, bind_u64. rewrite (proj2 (Z.leb_le _ _)) by lia. simpl.
    eexists. split; [done|]. simpl. split; [done|]. intros k'. rewrite lookup_insert.
    case_decide as Hk; [subst; by rewrite String.eqb_refl|by rewrite (proj2 (String.eqb_neq _ _))].
  - intros _. unfold sqlite_reset_usage. eexists. split; [done|]. simpl. split; [|done]. intros k'.
    destruct (sb_usage s !! k) as [[n at_]|] eqn:E.
    + rewrite lookup_insert. case_decide as Hk; [subst; by rewrite String.eqb_refl|].
      by rewrite (proj2 (String.eqb_neq _ _)).
    + destruct (String.eqb_spec k k') as [->|]; [by rewrite E|done].
Qed.

Lemma sqlite_run s ops :
  Forall op_ok ops ->
  exists s', budget_run s ops = Ok s' /\
    (forall k, usage_value s' k = foldl (usage_step k) (usage_value s k) ops) /\
    (forall k, sb_limits s' !! k = foldl (limit_step k) (sb_limits s !! k) ops).
Proof.
  intros Hops. revert s. induction Hops as [|op ops Hop _ IH]; intros s; [by exists s|].
  destruct (sqlite_step s op Hop) as (s1 & Hs1 & Hu & Hl). destruct (IH s1) as (s2 & Hs2 & Hu2 & Hl2).
  exists s2. cbn [budget_run]. rewrite Hs1. simpl. split_and!; [done|..]; intros k.
  - by rewrite Hu2, Hu.
  - by rewrite Hl2, Hl.
Qed.

(** Budgets are enforced on exact counts: after any run of spends, limit
    changes and resets (within the integer range of the database), the check
    for a key says unlimited when no limit was ever set, and otherwise
    compares the last limit with the tokens spent under that key since its
    last reset, refusing from the limit on; other keys play no part. *)
Theorem budget_check_exact ops k :
  Forall op_ok ops -> (spent k ops <= i64_max)%Z ->
  exists s, budget_run sqlite_open ops = Ok s /\
    budget_check s k = Ok (match limit_of k ops with
                           | None => Unlimited
                           | Some l => if (l <=? spent k ops)%Z then Exceeded (spent k ops) l else Within (spent k ops) l
                           end).
Proof.
  intros Hops Hmax. destruct (sqlite_run sqlite_open ops Hops) as (s & Hs & Hu & Hl). exists s. split; [done|].
  specialize (Hu k). specialize (Hl k). unfold budget_check. simpl. unfold sqlite_get_limit. rewrite Hl. simpl.
  unfold limit_of. rewrite lookup_empty. destruct (foldl (limit_step k) None ops) as [l|]; [|done].
  unfold sqlite_get_usage. unfold usage_value in Hu. simpl in Hu. rewrite lookup_empty in Hu.
  fold (spent k ops) in Hu. destruct (sb_usage s !! k) as [[n at_]|]; simpl.
  - subst n. by rewrite (proj2 (Z.leb_le _ _)).
  - by rewrite <-Hu.
Qed.

Definition demo_budget_ops : list BudgetOp :=
  [BLimit "token:1" 100; BSpend (mkSpend "token:1" 30 20 "m" "t0"); BSpend (mkSpend "token:2" 900 0 "m" "t1");
   BReset "t2" "token:1"; BSpend (mkSpend "token:1" 60 40 "m" "t3")].
Lemma budget_check_exact_witness :
  exists s, budget_run sqlite_open demo_budget_ops = Ok s /\ budget_check s "token:1" = Ok (Exceeded 100 100).
Proof.
  refine (budget_check_exact demo_budget_ops "token:1" _ _).
  - repeat constructor; vm_compute; discriminate.
  - vm_compute. discriminate.
Defined.
