(* ===== verification/Schema.v ===== *)
(** * Output schemas ([src/guard/schema.rs])

    Picking the schema rule for a response, unwrapping the JSON an LLM put
    into prose or a fenced block, and validating it. *)

From S2P Require Import Prelude RustStr Json Regex.

Inductive ViolationAction := VReject | LogOnly | Repair.
Definition parse_action (s : string) : ViolationAction :=
  let n := to_ascii_lowercase s in
  if String.eqb n "reject" then VReject else if String.eqb n "repair" then Repair else LogOnly.

(** ** Unwrapping *)

Definition fence : string := "```".
Definition is_open_bracket (c : ascii) : bool := Ascii.eqb c "{" || Ascii.eqb c "[".
Definition is_close_bracket (c : ascii) : bool := Ascii.eqb c "}" || Ascii.eqb c "]".

Definition bracketed (trimmed : string) : string :=
  match find_byte is_open_bracket trimmed, rfind_byte is_close_bracket trimmed with
  | Some start, Some end_ => if Nat.ltb start end_ then slice start (S end_) trimmed else trimmed
  | _, _ => trimmed
  end.
Definition extract_json_blob (raw : string) : string :=
  let trimmed := trim raw in
  match strip_prefix fence trimmed with
  | Some rest =>
      let body_start := match find_byte (Ascii.eqb nl) rest with Some n => S n | None => 0 end in
      let body := sdrop body_start rest in
      match rfind fence body with
      | Some end_ => trim (stake end_ body)
      | None => bracketed trimmed
      end
  | None => bracketed trimmed
  end.

Section Validator.
Context `{RegexEngine} `{Serde} `{JsonSchema}.

Record SchemaRule := mkSchemaRule {
  sr_endpoint : string;
  sr_model_pattern : option regex;
  sr_schema : validator;
  sr_name : string;
}.
Record SchemaValidator := mkValidator {
  sv_rules : list SchemaRule;
  sv_on_violation : ViolationAction;
}.
Record ValidationOutcome := mkOutcome {
  vo_passed : bool;
  vo_errors : list string;
  vo_extracted : option value;
}.

Definition rule_applies (endpoint model : string) (r : SchemaRule) : bool :=
  String.eqb (sr_endpoint r) endpoint &&
  match sr_model_pattern r with Some re => is_match re model | None => true end.
Definition pick (v : SchemaValidator) (endpoint model : string) : option SchemaRule :=
  List.find (rule_applies endpoint model) (sv_rules v).

Definition validate_value (rule : SchemaRule) (v : value) : ValidationOutcome :=
  let errors := map (fun pe => pe.1 +:+ ": " +:+ pe.2) (iter_errors (sr_schema rule) v) in
  mkOutcome (match errors with [] => true | _ => false end) errors None.
Definition validate_response_text (rule : SchemaRule) (raw : string) : ValidationOutcome :=
  let cleaned := extract_json_blob raw in
  match from_str cleaned with
  | Ok v =>
      let out := validate_value rule v in
      if String.eqb cleaned raw then out else mkOutcome (vo_passed out) (vo_errors out) (Some v)
  | Err e => mkOutcome false ["not valid JSON: " +:+ e] None
  end.

Record RuleSpec := mkSpec {
  rs_endpoint : string;
  rs_model_pattern : option string;
  rs_schema_path : string;
  rs_name : option string;
}.
Fixpoint load_rules (read_file : string -> result string string) (specs : list RuleSpec)
    : result string (list SchemaRule) :=
  match specs with
  | [] => Ok []
  | spec :: rest =>
      match read_file (rs_schema_path spec) with
      | Err _ => Err ("reading schema file " +:+ rs_schema_path spec)
      | Ok raw =>
          match from_str raw with
          | Err _ => Err ("parsing schema JSON from " +:+ rs_schema_path spec)
          | Ok schema_json =>
              match validator_for schema_json with
              | Err _ => Err ("compiling schema " +:+ rs_schema_path spec)
              | Ok v =>
                  let? model_pattern :=
                    match rs_model_pattern spec with
                    | Some p => if String.eqb p "" then Ok None
                                else match regex_build false p with
                                     | Ok re => Ok (Some re)
                                     | Err _ => Err ("compiling model pattern " +:+ p)
                                     end
                    | None => Ok None
                    end in
                  let? rules := load_rules read_file rest in
                  Ok (mkSchemaRule (rs_endpoint spec) model_pattern v
                        (default (rs_schema_path spec) (rs_name spec)) :: rules)
              end
          end
      end
  end.
End Validator.

(** ** Lemmas *)

(** [t] is a contiguous piece of [s]. *)
Definition piece (t s : string) : Prop := exists l r, s = l +:+ t +:+ r.

Lemma piece_refl s : piece s s.
Proof. exists "", "". simpl. by rewrite sapp_nil_r. Qed.
Lemma piece_trans a b c : piece a b -> piece b c -> piece a c.
Proof. intros (l & r & ->) (l' & r' & ->). exists (l' +:+ l), (r +:+ r'). by rewrite <-!sapp_assoc. Qed.
Lemma piece_stake n s : piece (stake n s) s.
Proof. exists "", (sdrop n s). simpl. by rewrite stake_sdrop. Qed.
Lemma piece_sdrop n s : piece (sdrop n s) s.
Proof. exists (stake n s), "". by rewrite sapp_nil_r, stake_sdrop. Qed.

Lemma drop_while_split {A} (p : A -> bool) l : exists pre, l = pre ++ drop_while p l.
Proof.
  induction l as [|x l [pre IH]]; simpl; [by exists []|].
  destruct (p x); [|by exists []]. exists (x :: pre). simpl. by rewrite <-IH.
Qed.

(** The blanks that [trim] removes are a prefix and a suffix of the chars. *)
Lemma piece_trim s : piece (trim s) s.
Proof.
  destruct (drop_while_split is_whitespace (chars s)) as [pre Hpre].
  destruct (drop_while_split is_whitespace (rev (drop_while is_whitespace (chars s)))) as [suf Hsuf].
  apply (f_equal (@rev string)) in Hsuf. rewrite rev_involutive, rev_app_distr in Hsuf.
  exists (sconcat pre), (sconcat (rev suf)). unfold trim.
  by rewrite <-(sconcat_chars s), Hpre, sconcat_app, Hsuf, sconcat_app at 1.
Qed.

Lemma piece_bracketed s : piece (bracketed s) s.
Proof.
  unfold bracketed, slice. case_match; [|apply piece_refl]. case_match; [|apply piece_refl].
  case_match; [|apply piece_refl]. eapply piece_trans; [apply piece_stake|apply piece_sdrop].
Qed.

Lemma drop_while_app_stop {A} (p : A -> bool) l1 x l2 :
  p x = false -> drop_while p (l1 ++ x :: l2) = drop_while p l1 ++ x :: l2.
Proof. intros Hx. induction l1 as [|y l1 IH]; simpl; [by rewrite Hx|]. by destruct (p y). Qed.

Lemma chars_ascii c s : (bval c < 128)%N -> chars (String c s) = one c :: chars s.
Proof.
  intros Hc. unfold chars at 1. cbn [chars_go]. unfold char_need.
  destruct (N.ltb_spec (bval c) 192); [done|lia].
Qed.

(** A visible ASCII byte. *)
Definition visible (c : ascii) : bool := (32 <? bval c)%N && (bval c <? 128)%N.
Lemma visible_spec c : visible c = true -> (bval c < 128)%N /\ is_whitespace (one c) = false.
Proof.
  intros Hv. split; [unfold visible in Hv; bool_to_prop; by apply N.ltb_lt|].
  assert (E : implb (visible c) (negb (is_whitespace (one c))) = true).
  { apply (byte_forall (fun c => implb (visible c) (negb (is_whitespace (one c))))). by vm_compute. }
  rewrite Hv in E. simpl in E. by bool_to_prop.
Qed.

(** [trim] stops at the outermost visible bytes. *)
Definition ltrim (s : string) : string := sconcat (drop_while is_whitespace (chars s)).
Definition rtrim (s : string) : string := sconcat (rev (drop_while is_whitespace (rev (chars s)))).
Lemma trim_core p o b c q :
  is_utf8 p = true -> is_utf8 b = true -> visible o = true -> visible c = true ->
  trim (p +:+ String o (b +:+ String c q)) = ltrim p +:+ String o (b +:+ String c (rtrim q)).
Proof.
  intros Hp Hb [Ho Wo]%visible_spec [Hc Wc]%visible_spec. unfold trim, ltrim, rtrim.
  rewrite chars_app, chars_ascii, chars_app, chars_ascii, drop_while_app_stop by done.
  rewrite rev_app_distr. cbn [rev]. rewrite rev_app_distr. cbn [rev].
  rewrite <-!(assoc (++)). cbn [app]. rewrite drop_while_app_stop by done.
  rewrite !rev_app_distr. cbn [rev]. rewrite rev_app_distr. cbn [rev]. rewrite !rev_involutive.
  rewrite !sconcat_app, sconcat_chars. cbn [sconcat foldr]. by rewrite !sapp_nil_r, <-!sapp_assoc.
Qed.

Lemma find_byte_skip q p o s :
  sall (fun c => negb (q c)) p = true -> q o = true ->
  find_byte q (p +:+ String o s) = Some (String.length p).
Proof.
  intros Hp Ho. induction p as [|c p IH]; simpl in *; [by rewrite Ho|].
  bool_to_prop. rewrite H, IH by done. done.
Qed.
Lemma rfind_byte_None q s : sall (fun c => negb (q c)) s = true -> rfind_byte q s = None.
Proof. induction s as [|c s IH]; simpl; [done|]. intros. bool_to_prop. by rewrite IH, H. Qed.
Lemma rfind_byte_last q p o s :
  sall (fun c => negb (q c)) s = true -> q o = true ->
  rfind_byte q (p +:+ String o s) = Some (String.length p).
Proof.
  intros Hs Ho. induction p as [|c p IH]; simpl; [by rewrite rfind_byte_None, Ho|]. by rewrite IH.
Qed.

Lemma rfind_last p s : p <> "" -> rfind p (s +:+ p) = Some (String.length s).
Proof.
  intros Hp. induction s as [|c s IH]; simpl; [|by rewrite IH].
  assert (Hshort : forall t, String.length t < String.length p -> rfind p t = None).
  { intros t. induction t as [|d t IHt]; intros Ht.
    - simpl. destruct (starts_with p "") eqn:E; [|done]. apply starts_with_true in E as [r E].
      by destruct p.
    - cbn [rfind]. rewrite IHt by (simpl in Ht; lia). destruct (starts_with p (String d t)) eqn:E; [|done].
      apply starts_with_true in E as [r E]. rewrite E, slen_app in Ht. lia. }
  destruct p as [|d p]; [done|]. cbn [rfind]. rewrite Hshort by (simpl; lia).
  by rewrite <-(sapp_nil_r (String d p)) at 2; rewrite starts_with_app.
Qed.

Lemma find_first {A} (f : A -> bool) l x :
  List.find f l = Some x ->
  exists l1 l2, l = l1 ++ x :: l2 /\ f x = true /\ Forall (fun y => f y = false) l1.
Proof.
  induction l as [|y l IH]; simpl; [done|]. destruct (f y) eqn:E.
  - intros [= ->]. exists [], l. by split_and!.
  - intros (l1 & l2 & -> & ? & ?)%IH. exists (y :: l1), l2. split_and!; [done..|by constructor].
Qed.

(** ** Properties *)

(** The unwrapped text is always a contiguous piece of what the model
    answered: [extract_json_blob] never invents, reorders or joins text. *)
Lemma extract_json_blob_piece raw : piece (extract_json_blob raw) raw.
Proof.
  unfold extract_json_blob. pose proof (piece_trim raw) as Ht.
  pose proof (piece_trans _ _ _ (piece_bracketed (trim raw)) Ht) as Hb.
  destruct (strip_prefix fence (trim raw)) as [rest|] eqn:E; [|done].
  apply strip_prefix_Some in E. case_match; [|done].
  eapply piece_trans; [apply piece_trim|]. eapply piece_trans; [apply piece_stake|].
  eapply piece_trans; [apply piece_sdrop|]. eapply piece_trans; [|exact Ht].
  rewrite E. exists fence, "". by rewrite sapp_nil_r.
Qed.

(** Prose: text with neither JSON brackets nor backquotes. *)
Definition prose (c : ascii) : bool :=
  negb (is_open_bracket c) && negb (is_close_bracket c) && negb (Ascii.eqb c "`").

Lemma open_visible c : is_open_bracket c = true -> visible c = true /\ c <> "`"%char.
Proof. unfold is_open_bracket. intros [E|E]%orb_true_iff; bool_to_prop; by subst. Qed.
Lemma close_visible c : is_close_bracket c = true -> visible c = true.
Proof. unfold is_close_bracket. intros [E|E]%orb_true_iff; bool_to_prop; by subst. Qed.

Lemma sall_piece q t s : piece t s -> sall q s = true -> sall q t = true.
Proof. intros (l & r & ->) Hq. rewrite !sall_app in Hq. by bool_to_prop. Qed.
Lemma piece_ltrim s : piece (ltrim s) s.
Proof.
  destruct (drop_while_split is_whitespace (chars s)) as [pre Hpre]. exists (sconcat pre), "".
  unfold ltrim. by rewrite sapp_nil_r, <-sconcat_app, <-Hpre, sconcat_chars.
Qed.
Lemma piece_rtrim s : piece (rtrim s) s.
Proof.
  destruct (drop_while_split is_whitespace (rev (chars s))) as [pre Hpre].
  apply (f_equal (@rev string)) in Hpre. rewrite rev_involutive, rev_app_distr in Hpre.
  exists "", (sconcat (rev pre)). unfold rtrim. simpl. by rewrite <-sconcat_app, <-Hpre, sconcat_chars.
Qed.

Lemma bracketed_core p o b c q :
  sall (fun c => negb (is_open_bracket c)) p = true -> is_open_bracket o = true ->
  is_close_bracket c = true -> sall (fun c => negb (is_close_bracket c)) q = true ->
  bracketed (p +:+ String o (b +:+ String c q)) = String o (b +:+ one c).
Proof.
  intros Hp Ho Hc Hq. unfold bracketed. rewrite find_byte_skip by done.
  replace (p +:+ String o (b +:+ String c q)) with ((p +:+ String o b) +:+ String c q)
    by (by rewrite <-!sapp_assoc).
  rewrite rfind_byte_last by done. rewrite slen_app. cbn [String.length].
  destruct (Nat.ltb_spec (String.length p) (String.length p + S (String.length b))); [|lia].
  unfold slice. rewrite <-!sapp_assoc, sdrop_app_len.
  replace (String o b +:+ String c q) with ((String o (b +:+ one c)) +:+ q)
    by (simpl; by rewrite <-sapp_assoc).
  replace (S _ - _) with (String.length (String o (b +:+ one c)))
    by (simpl; rewrite slen_app; simpl; lia).
  apply stake_app_len.
Qed.

Lemma strip_fence_None p o s :
  sall prose p = true -> o <> "`"%char -> strip_prefix fence (p +:+ String o s) = None.
Proof.
  intros Hp Ho. destruct (strip_prefix fence _) as [r|] eqn:E; [|done].
  apply strip_prefix_Some in E. destruct p as [|x p]; simpl in E; injection E as -> _; [done|].
  simpl in Hp. by bool_to_prop.
Qed.

(** JSON an answer wraps in prose comes out exactly: leading and trailing text
    without brackets or backquotes is dropped, and everything from the opening
    to the closing bracket is kept byte for byte. *)
Theorem prose_unwrapped p o b c q :
  is_utf8 p = true -> is_utf8 b = true -> sall prose p = true -> sall prose q = true ->
  is_open_bracket o = true -> is_close_bracket c = true ->
  extract_json_blob (p +:+ String o (b +:+ String c q)) = String o (b +:+ one c).
Proof.
  intros Hp Hb Pp Pq Ho Hc. destruct (open_visible o Ho) as [Vo No].
  unfold extract_json_blob. rewrite trim_core by auto using close_visible.
  pose proof (sall_piece _ _ _ (piece_ltrim p) Pp) as Pl.
  pose proof (sall_piece _ _ _ (piece_rtrim q) Pq) as Pr.
  rewrite strip_fence_None by done.
  apply bracketed_core; try done; (eapply sall_impl; [|eassumption]); unfold prose; intros x Hx;
    bool_to_prop; by apply negb_true_iff.
Qed.
Lemma prose_unwrapped_witness :
  extract_json_blob ("Sure, here you go: " +:+ String "{" ("'a': [1]" +:+ String "}" " Anything else?"))
  = "{'a': [1]}".
Proof. apply (prose_unwrapped "Sure, here you go: " "{" "'a': [1]" "}" " Anything else?"); reflexivity. Defined.

(** A fenced answer: the language tag up to the first newline is skipped and
    the body is the trimmed text before the closing fence. *)
Theorem fence_unwrapped tag body :
  is_utf8 tag = true -> is_utf8 body = true ->
  sall (fun c => negb (Ascii.eqb nl c)) tag = true ->
  extract_json_blob (fence +:+ tag +:+ String nl (body +:+ fence)) = trim body.
Proof.
  intros Ht Hb Hn. unfold extract_json_blob.
  assert (trim (fence +:+ tag +:+ String nl (body +:+ fence))
          = fence +:+ tag +:+ String nl (body +:+ fence)) as ->.
  { pose proof (trim_core "" "`" (("``" +:+ tag) +:+ (String nl (body +:+ "``"))) "`" "") as E.
    unfold ltrim, rtrim in E. cbn [sconcat chars chars_go drop_while rev foldr String.append] in E.
    rewrite <-!sapp_assoc in E. cbn [String.append] in E. rewrite <-!sapp_assoc in E. cbn [String.append] in E.
    apply E; try done. change (is_utf8 (("``" +:+ tag) +:+ (one nl +:+ body +:+ "``")) = true).
    repeat apply is_utf8_app; done. }
  rewrite strip_prefix_app, find_byte_skip by done.
  replace (tag +:+ String nl (body +:+ fence)) with ((tag +:+ one nl) +:+ body +:+ fence)
    by (by rewrite <-!sapp_assoc).
  replace (S (String.length tag)) with (String.length (tag +:+ one nl))
    by (rewrite slen_app; simpl; lia).
  by rewrite sdrop_app_len, rfind_last, stake_app_len.
Qed.
Lemma fence_unwrapped_witness :
  extract_json_blob (fence +:+ "json" +:+ String nl ("  {} " +:+ fence)) = "{}".
Proof. apply (fence_unwrapped "json" "  {} "); reflexivity. Defined.

Section ValidatorProps.
Context `{RegexEngine} `{Serde} `{JsonSchema}.

(** The verdict on a raw answer: it passes exactly when a contiguous piece of
    it (the unwrapped blob) is JSON on which the rule's schema reports no
    error; an answer that does not pass always names at least one error, and a
    cleaned payload is offered exactly when the blob is JSON and differs from
    the raw text. *)
Theorem validate_response_text_spec rule raw :
  let out := validate_response_text rule raw in
  let blob := extract_json_blob raw in
  piece blob raw /\
  (vo_passed out = true <-> exists v, from_str blob = Ok v /\ iter_errors (sr_schema rule) v = []) /\
  (vo_passed out = false <-> vo_errors out <> []) /\
  (forall v, vo_extracted out = Some v <-> from_str blob = Ok v /\ blob <> raw).
Proof.
  cbv zeta. split; [apply extract_json_blob_piece|].
  unfold validate_response_text, validate_value. destruct (from_str (extract_json_blob raw)) as [v|e].
  2: { simpl. split_and!; [naive_solver..|]. intros v. naive_solver. }
  destruct (String.eqb_spec (extract_json_blob raw) raw) as [E|E];
    destruct (iter_errors (sr_schema rule) v) as [|x l] eqn:I; cbn [vo_passed vo_errors vo_extracted map];
    split_and!; try (intros w); split; intros Hx; try done; try (by exists v);
    try (destruct Hx as (w & [= <-] & ?); congruence); try (destruct Hx as [[= <-] ?]; congruence);
    try congruence.
  all: by injection Hx as <-.
Qed.

(** Loading keeps one compiled rule per spec, in the configured order, so that
    [pick] is decided by the first spec whose endpoint and model pattern
    match. *)
Theorem load_rules_pick read_file specs rules act endpoint model :
  load_rules read_file specs = Ok rules ->
  map sr_endpoint rules = map rs_endpoint specs /\
  map sr_name rules = map (fun s => default (rs_schema_path s) (rs_name s)) specs /\
  (forall r, pick (mkValidator rules act) endpoint model = Some r ->
     exists before after, rules = before ++ r :: after /\ sr_endpoint r = endpoint /\
       Forall (fun r' => rule_applies endpoint model r' = false) before) /\
  (pick (mkValidator rules act) endpoint model = None ->
     Forall (fun r' => rule_applies endpoint model r' = false) rules).
Proof.
  intros Hl. assert (Hmap : map sr_endpoint rules = map rs_endpoint specs /\
    map sr_name rules = map (fun s => default (rs_schema_path s) (rs_name s)) specs).
  { clear act endpoint model. revert rules Hl. induction specs as [|sp specs IH]; simpl; intros rules Hl.
    - by injection Hl as <-.
    - repeat (case_match; try discriminate); injection Hl as <-; simpl;
        by destruct (IH _ eq_refl) as [-> ->]. }
  destruct Hmap as [-> ->]. split; [done|]. split; [done|]. split.
  - intros r Hp. apply find_first in Hp as (l1 & l2 & E & Hr & Hl1). exists l1, l2.
    unfold rule_applies in Hr. bool_to_prop. done.
  - intros Hp. apply List.Forall_forall. intros r Hin. exact (List.find_none _ _ Hp r Hin).
Qed.
End ValidatorProps.

(** A parser that reads only [{}] and a validator without constraints, to
    exhibit a run. *)
Definition toy_serde : Serde :=
  {| from_str s := if String.eqb s "{}" then Ok (Obj []) else Err "bad"; to_json _ := "{}" |}.
Definition toy_schema : JsonSchema :=
  {| validator := unit; validator_for _ := Ok tt; iter_errors _ _ := [] |}.
Lemma load_rules_pick_witness :
  exists rules, @load_rules literal_engine toy_serde toy_schema (fun _ => Ok "{}")
      [mkSpec "/v1/a" (Some "gpt") "a.json" None; mkSpec "/v1/b" None "b.json" (Some "b")] = Ok rules /\
    map (@sr_name literal_engine toy_schema) rules = ["a.json"; "b"].
Proof.
  eexists. split; [reflexivity|].
  eapply (@load_rules_pick literal_engine toy_serde toy_schema (fun _ => Ok "{}")
      [mkSpec "/v1/a" (Some "gpt") "a.json" None; mkSpec "/v1/b" None "b.json" (Some "b")] _ LogOnly "/v1/b" "gpt").
  reflexivity.
Defined.
