(* ===== verification/AuditTrail.v ===== *)
(** * The audit log ([src/audit/mod.rs])

    The append-only JSON-lines file, its recovery from a poisoned lock, and
    the request ids. *)

From S2P Require Import Prelude RustStr Json ClientAuth.

Inductive Verdict := Allow | Block.
Inductive ReloadVerdict := ReloadOk | ReloadFailed.

Record AuditEntry := mkEntry {
  ae_request_id : string;
  ae_timestamp : string;
  ae_api_key : string;
  ae_model : string;
  ae_prompt_hash : string;
  ae_verdict : Verdict;
  ae_matched_rule : option string;
  ae_rule_id : option string;
  ae_category : option string;
  ae_severity : option string;
  ae_compliance : list string;
  ae_latency_us : Z;
}.
Record ReloadEntry := mkReloadEntry {
  re_request_id : string;
  re_timestamp : string;
  re_verdict : ReloadVerdict;
  re_error : option string;
  re_latency_us : Z;
}.

(** ** Serialisation

    The derived [Serialize] writes the fields in declaration order, renames
    the variants to snake case and skips what the attributes tell it to. *)

Definition opt_str (o : option string) : value := match o with Some s => Str s | None => Null end.
Definition skip_none (k : string) (o : option string) : list (string * value) :=
  match o with Some s => [(k, Str s)] | None => [] end.
Definition verdict_name (v : Verdict) : string := match v with Allow => "allow" | Block => "block" end.
Definition reload_verdict_name (v : ReloadVerdict) : string :=
  match v with ReloadOk => "reload_ok" | ReloadFailed => "reload_failed" end.
Definition entry_fields (e : AuditEntry) : list (string * value) :=
  [("request_id", Str (ae_request_id e)); ("timestamp", Str (ae_timestamp e)); ("api_key", Str (ae_api_key e));
   ("model", Str (ae_model e)); ("prompt_hash", Str (ae_prompt_hash e));
   ("verdict", Str (verdict_name (ae_verdict e))); ("matched_rule", opt_str (ae_matched_rule e))]
  ++ skip_none "rule_id" (ae_rule_id e) ++ skip_none "category" (ae_category e)
  ++ skip_none "severity" (ae_severity e)
  ++ match ae_compliance e with [] => [] | l => [("compliance", Arr (map Str l))] end
  ++ [("latency_us", Num (PosInt (ae_latency_us e)))].
Definition reload_fields (e : ReloadEntry) : list (string * value) :=
  [("request_id", Str (re_request_id e)); ("timestamp", Str (re_timestamp e));
   ("verdict", Str (reload_verdict_name (re_verdict e)))]
  ++ skip_none "error" (re_error e) ++ [("latency_us", Num (PosInt (re_latency_us e)))].

(** [serde_json::to_string] on a struct, given its serialised fields.  The
    compact printer escapes control characters, so its output is one line. *)
Class SerdeStruct := { struct_to_string : list (string * value) -> result string string }.
Class SerdeStructLaws `{SerdeStruct} := {
  struct_one_line fs s : struct_to_string fs = Ok s -> sall (fun c => negb (Ascii.eqb c nl)) s = true;
}.

(** ** The file

    A file opened in append mode: [append] is [write_all], which either adds
    the whole text or fails after adding some prefix of it; [sync_all] leaves
    the contents alone. *)
Class Disk := {
  disk : Type;
  contents : disk -> string;
  append : disk -> string -> result string unit * disk;
  sync_all : disk -> result string unit * disk;
}.
Class DiskLaws `{Disk} := {
  append_ok d t d' : append d t = (Ok tt, d') -> contents d' = contents d +:+ t;
  append_err d t e d' : append d t = (Err e, d') -> exists n, contents d' = contents d +:+ stake n t;
  sync_contents d : contents (sync_all d).2 = contents d;
}.

Section Log.
Context `{Sha256} `{SerdeStruct} `{Disk}.

(** [poisoned] is the flag of the mutex around the file: set when a thread
    panicked while holding it, and never cleared. *)
Record AuditLog := mkLog {
  al_file : disk;
  al_poisoned : bool;
  al_poison_logged : bool;
  al_hash_only : bool;
  al_fsync : bool;
}.
Definition log_open (file : disk) (hash_only fsync_every_write : bool) : AuditLog :=
  mkLog file false false hash_only fsync_every_write.

(** [format!("{:x}", digest)]: two lower-case hex digits per byte. *)
Definition hex_digit (n : N) : ascii := if (n <? 10)%N then byte (48 + n) else byte (87 + n).
Fixpoint hex_bytes (s : string) : string :=
  match s with
  | "" => ""
  | String c s' => String (hex_digit (bval c / 16)) (String (hex_digit (bval c mod 16)) (hex_bytes s'))
  end.
Definition hash_prompt (prompt : string) : string := hex_bytes (sha256_of prompt).

(** [writeln!] is two [write_all]s: the line, then the newline. *)
Definition write_line (log : AuditLog) (line : string) : AuditLog :=
  let logged := al_poison_logged log || al_poisoned log in
  let with_file f := mkLog f (al_poisoned log) logged (al_hash_only log) (al_fsync log) in
  match append (al_file log) line with
  | (Err _, f) => with_file f
  | (Ok _, f) =>
      match append f (one nl) with
      | (Err _, f') => with_file f'
      | (Ok _, f') => with_file (if al_fsync log then (sync_all f').2 else f')
      end
  end.
Definition write (log : AuditLog) (entry : AuditEntry) : AuditLog :=
  match struct_to_string (entry_fields entry) with
  | Ok line => write_line log line
  | Err _ => log
  end.
Definition write_reload (log : AuditLog) (request_id now : string) (ok : bool) (error : option string)
    (latency_us : Z) : AuditLog :=
  let entry := mkReloadEntry request_id now (if ok then ReloadOk else ReloadFailed) error latency_us in
  match struct_to_string (reload_fields entry) with
  | Ok line => write_line log line
  | Err _ => log
  end.

(** Another thread panics while it holds the lock. *)
Definition poison (log : AuditLog) : AuditLog :=
  mkLog (al_file log) true (al_poison_logged log) (al_hash_only log) (al_fsync log).
End Log.
Arguments AuditLog {_}.

(** ** Request ids *)

(** [format!("{n:0wx}")] for a value of at most [w] hex digits. *)
Fixpoint hex_pad (w : nat) (n : N) : string :=
  match w with
  | O => ""
  | S w' => hex_pad w' (n / 16) +:+ one (hex_digit (n mod 16))
  end.
(** [new_request_id]: the clock reading, and the counter before and after
    [fetch_add], which wraps at 2^64. *)
Definition new_request_id (ns : N) (counter : N) : string * N :=
  (hex_pad 32 ns +:+ hex_pad 16 counter, ((counter + 1) mod 18446744073709551616)%N).

(** ** Lemmas *)

(** What happens to a log: entries of requests and of reloads, and panics of
    threads that hold the lock. *)
Inductive AuditOp :=
| OWrite (e : AuditEntry)
| OReload (request_id now : string) (ok : bool) (error : option string) (latency : Z)
| OPoison.

Lemma split_byte_nonempty b s : split_byte b s <> [].
Proof. destruct s as [|c s]; simpl; [done|]. destruct (Ascii.eqb c b); [done|]. by destruct (split_byte b s). Qed.

Lemma split_byte_app_sep b s t : split_byte b (s +:+ String b t) = split_byte b s ++ split_byte b t.
Proof.
  induction s as [|c s IH]; simpl; [by rewrite Ascii.eqb_refl|].
  rewrite IH. destruct (Ascii.eqb c b); [done|].
  destruct (split_byte b s) as [|h l] eqn:E; [by apply split_byte_nonempty in E|done].
Qed.
Lemma split_byte_single b s : sall (fun c => negb (Ascii.eqb c b)) s = true -> split_byte b s = [s].
Proof.
  induction s as [|c s IH]; simpl; [done|]. intros [Hc Hs]%andb_true_iff.
  apply negb_true_iff in Hc. by rewrite IH, Hc.
Qed.

(** The records of a file: its text cut at the newlines that end them. *)
Definition unlines (l : list string) : string := foldr (fun x acc => x +:+ String nl acc) "" l.
Lemma unlines_app a b : unlines (a ++ b) = unlines a +:+ unlines b.
Proof. induction a as [|x a IH]; simpl; [done|]. by rewrite IH, <-sapp_assoc. Qed.
Lemma split_unlines l :
  Forall (fun x => sall (fun c => negb (Ascii.eqb c nl)) x = true) l -> split_byte nl (unlines l) = l ++ [""].
Proof.
  induction 1 as [|x l Hx _ IH]; [done|]. change (unlines (x :: l)) with (x +:+ String nl (unlines l)).
  by rewrite split_byte_app_sep, split_byte_single, IH by done.
Qed.

Section LogLemmas.
Context `{SerdeStruct} `{Disk} `{!DiskLaws}.

Definition op_line (op : AuditOp) : option string :=
  match op with
  | OWrite e => match struct_to_string (entry_fields e) with Ok l => Some l | Err _ => None end
  | OReload id now ok err lat =>
      match struct_to_string
        (reload_fields (mkReloadEntry id now (if ok then ReloadOk else ReloadFailed) err lat)) with
      | Ok l => Some l | Err _ => None end
  | OPoison => None
  end.
Definition audit_step (log : AuditLog) (op : AuditOp) : AuditLog :=
  match op with
  | OWrite e => write log e
  | OReload id now ok err lat => write_reload log id now ok err lat
  | OPoison => poison log
  end.

Lemma append_prefix d t : exists x, contents (append d t).2 = contents d +:+ x.
Proof.
  destruct (append d t) as [[[]|e] d'] eqn:E; simpl.
  - exists t. by apply append_ok.
  - apply append_err in E as [n E]. eauto.
Qed.
Lemma write_line_prefix log line :
  exists x, contents (al_file (write_line log line)) = contents (al_file log) +:+ x.
Proof.
  unfold write_line. destruct (append_prefix (al_file log) line) as [x Hx].
  destruct (append (al_file log) line) as [[u|e] f]; simpl in Hx; [|by exists x].
  destruct (append_prefix f (one nl)) as [y Hy].
  destruct (append f (one nl)) as [[u'|e] f']; simpl in Hy; exists (x +:+ y); simpl;
    rewrite sapp_assoc, <-Hx, <-Hy; [|done].
  destruct (al_fsync log); [apply sync_contents|done].
Qed.
Lemma audit_step_prefix log op :
  exists x, contents (al_file (audit_step log op)) = contents (al_file log) +:+ x.
Proof.
  destruct op; simpl; unfold write, write_reload; try case_match; try apply write_line_prefix;
    exists ""; by rewrite sapp_nil_r.
Qed.

(** Nothing that happens to the log removes or rewrites what it holds: the
    file grows only at its end, also when writes fail half way, when entries do
    not serialise, and when threads panic while they hold the lock. *)
Theorem audit_append_only log ops :
  exists x, contents (al_file (foldl audit_step log ops)) = contents (al_file log) +:+ x.
Proof.
  revert log. induction ops as [|op ops IH]; intros log; simpl; [exists ""; by rewrite sapp_nil_r|].
  destruct (IH (audit_step log op)) as [x Hx]. destruct (audit_step_prefix log op) as [y Hy].
  exists (y +:+ x). by rewrite Hx, Hy, sapp_assoc.
Qed.

Context `{!SerdeStructLaws} (Hwrites : forall d t, exists d', append d t = (Ok tt, d')).

Lemma write_line_ok log line :
  contents (al_file (write_line log line)) = contents (al_file log) +:+ line +:+ one nl.
Proof using All.
  unfold write_line. destruct (Hwrites (al_file log) line) as [f E]. rewrite E.
  destruct (Hwrites f (one nl)) as [f' E']. rewrite E'. apply append_ok in E, E'. simpl.
  assert (contents (if al_fsync log then (sync_all f').2 else f') = contents f') as ->
    by (destruct (al_fsync log); [apply sync_contents|done]).
  by rewrite E', E, <-sapp_assoc.
Qed.
Lemma audit_step_ok log op :
  contents (al_file (audit_step log op)) =
    contents (al_file log) +:+ unlines (match op_line op with Some l => [l] | None => [] end).
Proof using All.
  destruct op; simpl; unfold write, write_reload; try case_match; simpl;
    rewrite ?write_line_ok, ?sapp_nil_r; done.
Qed.
Lemma op_line_one_line op l : op_line op = Some l -> sall (fun c => negb (Ascii.eqb c nl)) l = true.
Proof using All.
  destruct op; simpl; intros E; try done; case_match; simplify_eq; by eapply struct_one_line.
Qed.

(** As long as the disk takes the writes, the log holds every record ever
    written: the lines of the file are the earlier lines followed by one line
    per serialised entry, in the order of the writes, whether or not the lock
    was poisoned on the way. *)
Theorem audit_log_lines log old ops :
  contents (al_file log) = unlines old ->
  Forall (fun x => sall (fun c => negb (Ascii.eqb c nl)) x = true) old ->
  split_byte nl (contents (al_file (foldl audit_step log ops))) = (old ++ omap op_line ops) ++ [""].
Proof using All.
  intros Hold Hf. rewrite <-split_unlines.
  - f_equal. clear Hf. revert log old Hold. induction ops as [|op ops IH]; intros log old Hold; simpl.
    + by rewrite app_nil_r.
    + rewrite (IH _ (old ++ (match op_line op with Some l => [l] | None => [] end))).
      * f_equal. rewrite <-(assoc (++)). by destruct (op_line op).
      * by rewrite audit_step_ok, unlines_app, Hold.
  - apply Forall_app. split; [done|]. apply List.Forall_forall. intros l Hl%list_elem_of_In.
    apply list_elem_of_omap in Hl as (op & _ & E). by eapply op_line_one_line.
Qed.
End LogLemmas.

(** ** Request ids *)

Lemma hex_digit_inj a b : (a < 16)%N -> (b < 16)%N -> hex_digit a = hex_digit b -> a = b.
Proof.
  intros Ha Hb. assert (E : forallb (fun a => forallb (fun b => implb (Ascii.eqb (hex_digit a) (hex_digit b)) (N.eqb a b))
    (map N.of_nat (seq 0 16))) (map N.of_nat (seq 0 16)) = true) by by vm_compute.
  assert (Hin : forall n, (n < 16)%N -> In n (map N.of_nat (seq 0 16))).
  { intros n Hn. rewrite <-(N2Nat.id n). apply in_map, in_seq. lia. }
  rewrite forallb_forall in E. specialize (E a (Hin a Ha)). rewrite forallb_forall in E.
  specialize (E b (Hin b Hb)). intros D. rewrite D, Ascii.eqb_refl in E. by apply N.eqb_eq.
Qed.

Lemma hex_pad_length w n : String.length (hex_pad w n) = w.
Proof. revert n. induction w as [|w IH]; intros n; simpl; [done|]. rewrite slen_app, IH. simpl. lia. Qed.

Lemma sapp_inj_len (a b c d : string) :
  String.length a = String.length c -> a +:+ b = c +:+ d -> a = c /\ b = d.
Proof.
  revert c. induction a as [|x a IH]; intros [|y c]; simpl; try done.
  intros [= Hl] [= -> E]. by destruct (IH _ Hl E) as [-> ->].
Qed.

Lemma hex_pad_inj w n m :
  (n < 16 ^ N.of_nat w)%N -> (m < 16 ^ N.of_nat w)%N -> hex_pad w n = hex_pad w m -> n = m.
Proof.
  revert n m. induction w as [|w IH]; intros n m Hn Hm; simpl; [simpl in *; lia|].
  intros E. apply sapp_inj_len in E as [E1 [= E2]]; [|by rewrite !hex_pad_length].
  rewrite Nat2N.inj_succ, N.pow_succ_r' in Hn, Hm.
  apply IH in E1; [|apply N.Div0.div_lt_upper_bound; lia..].
  apply hex_digit_inj in E2; [|apply N.mod_lt; lia..].
  rewrite (N.div_mod' n 16), (N.div_mod' m 16). by rewrite E1, E2.
Qed.

(** Mint one id per clock reading. *)
Fixpoint mint_ids (counter : N) (clock : list N) : list string :=
  match clock with
  | [] => []
  | ns :: rest => let '(id, c') := new_request_id ns counter in id :: mint_ids c' rest
  end.

Lemma mint_ids_In counter clock id :
  (counter + N.of_nat (length clock) <= 18446744073709551616)%N -> In id (mint_ids counter clock) ->
  exists ns k, (counter <= k < 18446744073709551616)%N /\ id = hex_pad 32 ns +:+ hex_pad 16 k.
Proof.
  revert counter. induction clock as [|ns clock IH]; intros counter Hc; cbn [mint_ids length]; [done|].
  unfold new_request_id. cbn [length] in Hc. intros [<-|Hin].
  - exists ns, counter. split; [lia|done].
  - destruct clock as [|ns' clock]; [done|]. rewrite N.mod_small in Hin by (cbn [length] in Hc; lia).
    apply IH in Hin as (ns0 & k & Hk & ->); [|lia]. exists ns0, k. split; [lia|done].
Qed.

(** Request ids never repeat over the life of a process, whatever the clock
    reads (standing still and stepping backwards included), until the 64-bit
    counter has gone round. *)
Theorem request_ids_unique clock :
  (N.of_nat (length clock) <= 18446744073709551616)%N -> NoDup (mint_ids 0 clock).
Proof.
  intros Hlen. cut (forall counter, (counter + N.of_nat (length clock) <= 18446744073709551616)%N ->
    NoDup (mint_ids counter clock)); [intros Hc; apply Hc; lia|].
  clear Hlen. induction clock as [|ns clock IH]; intros counter Hc; cbn [mint_ids]; [constructor|].
  unfold new_request_id. cbn [length] in Hc. destruct clock as [|ns' clock]; [by apply NoDup_singleton|].
  rewrite N.mod_small by (cbn [length] in Hc; lia). constructor; [|apply IH; lia].
  intros Hin%list_elem_of_In. apply mint_ids_In in Hin as (ns0 & k & Hk & E); [|lia].
  apply sapp_inj_len in E as [_ E]; [|by rewrite !hex_pad_length].
  apply hex_pad_inj in E; [lia|..]; change (16 ^ N.of_nat 16)%N with 18446744073709551616%N; lia.
Qed.
Lemma request_ids_unique_witness : NoDup (mint_ids 0 [7; 7; 3]%N).
Proof. apply (request_ids_unique [7; 7; 3]%N). vm_compute. done. Defined.

(** ** Concrete runs *)

(** An in-memory file that takes every write, and a printer of one-line
    records. *)
Definition mem_disk : Disk := {|
  disk := string; contents s := s; append s t := (Ok tt, s +:+ t); sync_all s := (Ok tt, s) |}.
Lemma mem_disk_laws : @DiskLaws mem_disk.
Proof. split; simpl; [by intros d t d' [= <-]|done|done]. Qed.
Definition count_struct : SerdeStruct := {| struct_to_string fs := Ok (show_Z (Z.of_nat (length fs))) |}.
Lemma count_struct_laws : @SerdeStructLaws count_struct.
Proof.
  split. simpl. intros fs s [= <-]. eapply sall_impl; [|apply show_Z_digits; lia].
  intros c Hc. destruct (Ascii.eqb_spec c nl) as [->|]; [done|done].
Qed.
Definition demo_entry : AuditEntry :=
  mkEntry "id" "now" "alice" "m" "hash" Allow None None None None [] 42.

Lemma audit_append_only_witness :
  exists y, @contents mem_disk (al_file (foldl (@audit_step count_struct mem_disk)
      (@mkLog mem_disk "old" false false true true) [OWrite demo_entry; OPoison])) = "old" +:+ y.
Proof.
  apply (@audit_append_only count_struct mem_disk mem_disk_laws (@mkLog mem_disk "old" false false true true)
    [OWrite demo_entry; OPoison]).
Defined.
Lemma audit_log_lines_witness :
  split_byte nl (@contents mem_disk (al_file (foldl (@audit_step count_struct mem_disk)
      (@mkLog mem_disk (unlines ["a"]) false false true true)
      [OWrite demo_entry; OPoison; OReload "r" "now" true None 5]))) = ["a"; "8"; "4"; ""].
Proof.
  apply (@audit_log_lines count_struct mem_disk mem_disk_laws count_struct_laws
    (fun d t => ex_intro _ (String.append d t) eq_refl) (@mkLog mem_disk (unlines ["a"]) false false true true) ["a"]
    [OWrite demo_entry; OPoison; OReload "r" "now" true None 5]); [reflexivity|].
  repeat constructor.
Defined.
