(* ===== verification/Proxy.v ===== *)
(** * The chat-completions proxy ([src/proxy/mod.rs], [src/app_state.rs])

    The request pipeline that composes the guards: keyword block, PII reject
    and mask, spotlight, budget, routing with failover, and on the way back the
    spend record, the audit entry, the output filter, deanonymisation, the tool
    gate and the response schema; and the streaming loop of the same handler. *)

From S2P Require Import Prelude RustStr Json Regex Vault Redact Deanon ToolGate Sse Matcher Policy Routing ClientAuth Budget Spotlight Schema AuditTrail.

(** ** Request and response shapes *)

Definition extract_api_key (body : value) : string := default "default" (get_str "user" body).

Definition extract_messages_text (body : value) : string :=
  match get_arr "messages" body with
  | Some msgs => join " " (omap (get_str "content") msgs)
  | None => ""
  end.

(** Rewrite every [choices[].message.content] string; the state records what
    the rewriting function reports. *)
Definition content_mut {S} (f : S -> string -> string * S) (st : S) (content : value) : value * S :=
  match as_str content with
  | Some s => let '(s', st') := f st s in (Str s', st')
  | None => (content, st)
  end.
Definition contents_mut {S} (f : S -> string -> string * S) (st : S) (resp : value) : value * S :=
  field_mut "choices" (elems_mut (field_mut "message" (field_mut "content" (content_mut f)))) st resp.

Definition deanon_response_json (strategy : MatchingStrategy) (entries : list (string * string)) (resp : value)
    : value :=
  (contents_mut (fun _ s => (strategy_restore strategy s entries, tt)) tt resp).1.

Definition error_body (fields : list (string * value)) : value := obj [("error", obj fields)].
Definition blocked_body (reason : string) : value :=
  error_body [("message", Str ("nanoguard: request blocked — " +:+ reason));
              ("type", Str "content_filter"); ("code", Str "blocked")].

(** ** The upstream *)

(** What the HTTP client hands over: the head of the response, its body as the
    chunks of the byte stream (each possibly an I/O error), and the body as
    [bytes()] and as [json()] would return it. *)
Record Upstream := mkUpstream {
  up_status : Z;
  up_headers : list (string * string);
  up_chunks : list (result string string);
  up_bytes : result string string;
  up_json : result string value;
}.
Definition up_drain (r : Upstream) : string := match up_bytes r with Ok b => b | Err _ => "" end.
(** [HeaderValue::to_str]: visible ASCII and tabs only. *)
Definition header_to_str (v : string) : option string :=
  if sall (fun c => ((32 <=? bval c)%N && (bval c <? 127)%N) || Ascii.eqb c tab) v then Some v else None.
Definition header_get (k : string) (hs : list (string * string)) : option string :=
  snd <$> List.find (fun kv => String.eqb (to_ascii_lowercase kv.1) k) hs.
Definition is_event_stream (r : Upstream) : bool :=
  match header_get "content-type" (up_headers r) ≫= header_to_str with
  | Some s => contains "text/event-stream" s
  | None => false
  end.

(** ** Control flow of a handler

    A handler goes on, answers early, or panics; effects on the world persist
    in every case. *)
Inductive flow (R A : Type) := Next (a : A) | Return (r : R) | Panic.
Arguments Next {R A} _.
Arguments Return {R A} _.
Arguments Panic {R A}.

Definition handler (World R A : Type) := World -> flow R A * World.
Definition hret {World R A} (a : A) : handler World R A := fun w => (Next a, w).
Definition hreturn {World R A} (r : R) : handler World R A := fun w => (Return r, w).
Definition hpanic {World R A} : handler World R A := fun w => (Panic, w).
Definition hbind {World R A C} (m : handler World R A) (k : A -> handler World R C) : handler World R C :=
  fun w => match m w with
           | (Next a, w') => k a w'
           | (Return r, w') => (Return r, w')
           | (Panic, w') => (Panic, w')
           end.
Definition hmodify {World R} (f : World -> World) : handler World R unit := fun w => (Next tt, f w).
Notation "'do!' x '<-' m 'in' k" := (hbind m (fun x => k))
  (at level 10, x pattern, m at level 200, k at level 200) : guard_scope.

(** ** The handler *)

Section Proxy.
Context `{Unicode} `{RegexEngine} `{AhoCorasick} `{Iword} `{Serde} `{JsonSchema} `{Sha256} `{SerdeStruct}
  `{Disk} {B : Type} `{BudgetStore B}.

(** The fields of [Config] the handler reads. *)
Record ProxyConfig := mkProxyConfig {
  pc_input_enabled : bool;
  pc_input_shadow : bool;
  pc_pii_enabled : bool;
  pc_pii_reversible : bool;
  pc_deanonymize_strategy : string;
  pc_output_enabled : bool;
}.
Record AppState := mkApp {
  st_config : ProxyConfig;
  st_matchers : Matchers;
  st_redactor : Redactor;
  st_pii_actions : ActionPartition;
  st_spotlight : option SpotlightConfig;
  st_schema : option SchemaValidator;
  st_tool_gate : option ToolGate;
  st_policy : option PolicyRuleIndex;
  st_pool : BackendPoolRuntime;
}.

(** The HTTP client [W] with its [send], and the order in which a vault's hash
    map yields its entries. *)
Context {W : Type} (send : W -> ChatRequest -> result string Upstream * W)
  (hash_order : list (string * string) -> list (string * string)).

(** What a request can change: the upstream connection, the budget store and
    the audit log. *)
Record World := mkWorld {
  w_http : W;
  w_budget : option B;
  w_audit : option AuditLog;
}.
(** What the handler reads off the clock. *)
Record Clock := mkClock {
  ck_request_id : string;
  ck_now : string;
  ck_latency_us : Z;
}.

Inductive Reply :=
| ReplyJson (status : Z) (body : value)
| ReplyBytes (status : Z) (body : string)
| ReplyStream (status : Z) (headers : list (string * string)) (job : StreamJob)
with StreamJob :=
| mkJob (deanon : option DeanonymizeStream) (api_key : string) (chunks : list (result string string)).

Definition blocked_response (reason : string) : Reply := ReplyJson 400 (blocked_body reason).

(** The metadata of the policy rule that matched, if the index knows it. *)
Definition audit_meta (st : AppState) (matched_rule : option string) : option RuleMeta :=
  idx ← st_policy st;
  matched ← matched_rule;
  let key := default matched (strip_prefix "shadow_block:" matched) in
  match lookup_literal idx key with
  | Some meta => Some meta
  | None => lookup_placeholder idx key
  end.
Definition write_audit (st : AppState) (ck : Clock) (api_key model prompt : string) (verdict : Verdict)
    (matched_rule : option string) (w : World) : World :=
  match w_audit w with
  | None => w
  | Some log =>
      let meta := audit_meta st matched_rule in
      let entry := mkEntry (ck_request_id ck) (ck_now ck) api_key model (hash_prompt prompt) verdict matched_rule
        (meta_id <$> meta) (meta_category <$> meta) (meta_severity <$> meta)
        (match meta with Some m => meta_compliance m | None => [] end) (ck_latency_us ck) in
      mkWorld (w_http w) (w_budget w) (Some (write log entry))
  end.

(** *** Request side *)

Definition request_vault (st : AppState) : LocalVault :=
  with_style (match rd_style (st_redactor st) with
              | PlaceholderStyle.LlmGuard => LlmGuard
              | _ => Indexed
              end).

(** Input guardrails: a blocked prompt is audited and answered. *)
Definition guard_keywords (st : AppState) (ck : Clock) (api_key model user_text : string)
    : handler World Reply unit :=
  if pc_input_enabled (st_config st) then
    match check_input_with_shadow (st_matchers st) user_text (pc_input_shadow (st_config st)) with
    | None => hpanic
    | Some (Blocked word) =>
        do! _ <- hmodify (write_audit st ck api_key model user_text AuditTrail.Block (Some word)) in
        hreturn (blocked_response ("prompt injection detected (`" +:+ word +:+ "`)"))
    | Some _ => hret tt
    end
  else hret tt.

(** PII: reject-class entities answer the request, mask-class entities are
    rewritten in the body, through the vault in reversible mode. *)
Definition guard_pii (st : AppState) (ck : Clock) (api_key model user_text : string) (body : value)
    : handler World Reply (value * LocalVault) :=
  let vault := request_vault st in
  if pc_pii_enabled (st_config st) then
    let acts := st_pii_actions st in
    if negb (is_empty_set (ap_reject acts)) && contains_pii_in (st_redactor st) user_text (ap_reject acts) then
      do! _ <- hmodify (write_audit st ck api_key model user_text AuditTrail.Block (Some "pii")) in
      hreturn (blocked_response "PII detected")
    else if negb (is_empty_set (ap_mask acts)) then
      hret (if pc_pii_reversible (st_config st)
            then (redact_messages_with_vault (st_redactor st) body (ap_mask acts) vault).1
            else ((redact_messages_in (st_redactor st) body (ap_mask acts)).1, vault))
    else hret (body, vault)
  else hret (body, vault).

Definition apply_spotlight (st : AppState) (body : value) : value :=
  match st_spotlight st with Some sl => (apply sl body).1 | None => body end.

Definition guard_budget (api_key : string) : handler World Reply unit :=
  fun w =>
    match w_budget w with
    | None => (Next tt, w)
    | Some budget =>
        match budget_check budget api_key with
        | Ok (Exceeded usage limit) =>
            (Return (ReplyJson 429 (error_body
              [("message", Str ("nanoguard: token budget exceeded (" +:+ show_Z usage +:+ "/" +:+ show_Z limit +:+ ")"));
               ("type", Str "budget_exceeded"); ("code", Str "budget_exceeded")])), w)
        | Ok _ | Err _ => (Next tt, w)
        end
    end.

(** Routing and the failover loop. *)
Definition forward (st : AppState) (model : string) (body : value) : handler World Reply Upstream :=
  fun w =>
    match route_chain (st_pool st) (Some model) with
    | [] =>
        (Return (ReplyJson 400 (error_body
          [("message", Str ("no backend configured for model `" +:+ model +:+ "`"));
           ("type", Str "invalid_request_error"); ("param", Str "model"); ("code", Str "model_unrouted")])), w)
    | chain =>
        let '(out, _, http) := forward_with_failover send up_status up_drain (w_http w) body chain in
        let w' := mkWorld http (w_budget w) (w_audit w) in
        match out with
        | Committed r => (Next r, w')
        | AllFailed _ (Some (status, body)) => (Return (ReplyBytes status body), w')
        | AllFailed last_err None =>
            (Return (ReplyJson 502 (error_body
              [("message", Str (default "all backends failed" last_err)); ("type", Str "api_error");
               ("code", Str "all_backends_failed")])), w')
        | Panicked => (Panic, w')
        end
    end.

(** *** Response side *)

(** [None] is a panic of the output filter. *)
Definition filter_response_json (st : AppState) (resp : value) : option value :=
  let '(resp', ok) :=
    contents_mut (fun ok s => match filter_output (st_matchers st) s with
                              | Some s' => (s', ok)
                              | None => (s, false)
                              end) true resp in
  if ok then Some resp' else None.

Definition usage_field (k : string) (resp : value) : Z := default 0%Z (get2 "usage" k resp ≫= as_u64).
Definition spend_of (api_key : string) (ck : Clock) (resp : value) : SpendRecord :=
  mkSpend api_key (usage_field "prompt_tokens" resp) (usage_field "completion_tokens" resp)
    (default "unknown" (get_str "model" resp)) (ck_now ck).
(** A failed [record_spend] is logged and otherwise ignored. *)
Definition record (r : SpendRecord) (w : World) : World :=
  match w_budget w with
  | None => w
  | Some budget =>
      mkWorld (w_http w) (Some (match record_spend budget r with Ok b => b | Err _ => budget end)) (w_audit w)
  end.

Definition deanon_reply (st : AppState) (vault : LocalVault) (resp : value) : value :=
  if pc_pii_reversible (st_config st) then
    match hash_order (vault_entries vault) with
    | [] => resp
    | entries => deanon_response_json (strategy_from_name (pc_deanonymize_strategy (st_config st))) entries resp
    end
  else resp.
Definition gate_reply (st : AppState) (resp : value) : value :=
  match st_tool_gate st with Some g => apply_tool_gate g resp | None => resp end.

Definition first_content (resp : value) : string :=
  default "" (choices ← get_arr "choices" resp; choice ← head choices; msg ← get "message" choice; get_str "content" msg).
(** Put the cleaned JSON into the first choice's message. *)
Definition set_first_content (text : string) (resp : value) : option value :=
  match get_arr "choices" resp with
  | Some (first :: rest) =>
      match get "message" first with
      | Some msg =>
          msg' ← index_set "content" (Str text) msg;
          Some (with_field "choices" (fun _ => Arr (with_field "message" (fun _ => msg') first :: rest)) resp)
      | None => Some resp
      end
  | _ => Some resp
  end.
Definition schema_reply (st : AppState) (model : string) (resp : value) : handler World Reply value :=
  match st_schema st with
  | None => hret resp
  | Some v =>
      match pick v "/v1/chat/completions" model with
      | None => hret resp
      | Some rule =>
          let outcome := validate_response_text rule (first_content resp) in
          if negb (vo_passed outcome) then
            match sv_on_violation v with
            | VReject => hreturn (blocked_response ("response failed schema `" +:+ sr_name rule +:+ "`: "
                                                    +:+ join "; " (vo_errors outcome)))
            | LogOnly | Repair => hret resp
            end
          else match vo_extracted outcome with
               | Some extracted => match set_first_content (to_json extracted) resp with
                                   | Some resp' => hret resp'
                                   | None => hpanic
                                   end
               | None => hret resp
               end
      end
  end.

Definition respond_json (st : AppState) (ck : Clock) (api_key model user_text : string) (vault : LocalVault)
    (up : Upstream) : handler World Reply Reply :=
  match up_json up with
  | Err e => hreturn (ReplyJson 502 (obj [("error", Str e)]))
  | Ok resp_json =>
      do! _ <- hmodify (record (spend_of api_key ck resp_json)) in
      do! _ <- hmodify (write_audit st ck api_key model user_text AuditTrail.Allow None) in
      match (if pc_output_enabled (st_config st) then filter_response_json st resp_json else Some resp_json) with
      | None => hpanic
      | Some filtered =>
          do! final <- schema_reply st model (gate_reply st (deanon_reply st vault filtered)) in
          hret (ReplyJson (up_status up) final)
      end
  end.

(** The deanonymiser of a stream: only in reversible mode, and only when the
    vault holds something. *)
Definition stream_deanon (st : AppState) (vault : LocalVault) : option DeanonymizeStream :=
  if pc_pii_reversible (st_config st) then
    match hash_order (vault_entries vault) with
    | [] => None
    | entries => Some (deanon_new entries (strategy_from_name (pc_deanonymize_strategy (st_config st))))
    end
  else None.
Definition respond_stream (st : AppState) (ck : Clock) (api_key model user_text : string) (vault : LocalVault)
    (up : Upstream) : handler World Reply Reply :=
  do! _ <- hmodify (write_audit st ck api_key model user_text AuditTrail.Allow None) in
  hret (ReplyStream (up_status up) (up_headers up) (mkJob (stream_deanon st vault) api_key (up_chunks up))).

Definition chat_completions (st : AppState) (client : option ClientView) (ck : Clock) (body : value)
    : handler World Reply Reply :=
  let user_text := extract_messages_text body in
  let api_key := match client with Some view => cv_budget_key view | None => extract_api_key body end in
  let model := default "unknown" (get_str "model" body) in
  do! _ <- guard_keywords st ck api_key model user_text in
  do! (body', vault) <- guard_pii st ck api_key model user_text body in
  let body'' := apply_spotlight st body' in
  do! _ <- guard_budget api_key in
  do! up <- forward st model body'' in
  if is_event_stream up then respond_stream st ck api_key model user_text vault up
  else respond_json st ck api_key model user_text vault up.

(** The request ends with a reply, or with the task's panic. *)
Definition handle (st : AppState) (client : option ClientView) (ck : Clock) (body : value) (w : World)
    : option Reply * World :=
  match chat_completions st client ck body w with
  | (Next r, w') | (Return r, w') => (Some r, w')
  | (Panic, w') => (None, w')
  end.

(** *** The streaming body

    Runs when the client reads the response, after the handler has returned. *)

(** What the stream yields. *)
Inductive Item := Data (bytes : string) | IoError (e : string).

(** The closure handed to the SSE filter: the output filter, then the
    deanonymiser.  The flag records a panic of the output filter. *)
Definition stream_transform (st : AppState) (t : option DeanonymizeStream * bool) (s : string)
    : string * (option DeanonymizeStream * bool) :=
  if t.2 then ("", t)
  else match filter_output (st_matchers st) s with
       | None => ("", (t.1, true))
       | Some after_filter =>
           match t.1 with
           | Some d => let '(out, d') := push d after_filter in (out, (Some d', false))
           | None => (after_filter, (None, false))
           end
       end.

(** The events of one chunk, as the gate loop parses them. *)
Definition line_event (line : string) : option value :=
  let line := default line (strip_suffix (one cr) line) in
  p ← strip_prefix "data:" line;
  let payload := trim_start p in
  if String.eqb payload "[DONE]" || String.eqb payload "" then None
  else match from_str payload with Ok v => Some v | Err _ => None end.
Definition chunk_events (chunk : string) : list value :=
  if is_utf8 chunk then omap line_event (concat (map (split_byte nl) (split_str lf2 chunk))) else [].
(** Feed events to the gate until one is denied. *)
Fixpoint gate_events (g : StreamingToolGate) (events : list value) : option (list string) * StreamingToolGate :=
  match events with
  | [] => (None, g)
  | e :: rest => match observe g e with
                 | (StreamDeny reasons, g') => (Some reasons, g')
                 | (StreamAllow, g') => gate_events g' rest
                 end
  end.

Record StreamState := mkStream {
  ss_filter : SseFilter (T := (option DeanonymizeStream * bool)%type);
  ss_gate : option StreamingToolGate;
  ss_usage : option (Z * Z * string);
}.
(** How the loop over the upstream chunks ends: at the end of the upstream
    body, by an early [return], or in a panic. *)
Inductive StreamEnd := Exhausted (ss : StreamState) | Stopped | StreamPanicked.

Fixpoint stream_loop (st : AppState) (ss : StreamState) (chunks : list (result string string))
    : list Item * StreamEnd :=
  match chunks with
  | [] => ([], Exhausted ss)
  | Err e :: _ => ([IoError e], Stopped)
  | Ok chunk :: rest =>
      let usage := match try_extract_usage chunk with Some u => Some u | None => ss_usage ss end in
      let '(denied, gate) :=
        match ss_gate ss with
        | Some g => let '(d, g') := gate_events g (chunk_events chunk) in (d, Some g')
        | None => (None, None)
        end in
      match denied with
      | Some reasons => ([Data (deny_event reasons)], Stopped)
      | None =>
          if negb (pc_output_enabled (st_config st)) then
            let '(items, e) := stream_loop st (mkStream (ss_filter ss) gate usage) rest in
            (Data chunk :: items, e)
          else
            let '(out, f) := sse_push (stream_transform st) (ss_filter ss) chunk in
            if (sse_state f).2 then ([], StreamPanicked)
            else
              let '(items, e) := stream_loop st (mkStream f gate usage) rest in
              ((if String.eqb out "" then [] else [Data out]) ++ items, e)
      end
  end.

Definition record_usage (api_key now : string) (usage : option (Z * Z * string)) (w : World) : World :=
  match usage with
  | Some (prompt, completion, resp_model) => record (mkSpend api_key prompt completion resp_model now) w
  | None => w
  end.
Definition run_stream (st : AppState) (now : string) (job : StreamJob) (w : World) : list Item * World :=
  let '(mkJob deanon api_key chunks) := job in
  let gate := stream_gate_new <$> st_tool_gate st in
  match stream_loop st (mkStream (mkSse "" (deanon, false)) gate None) chunks with
  | (items, Exhausted ss) =>
      let tail := (sse_flush (ss_filter ss)).1 in
      (items ++ (if String.eqb tail "" then [] else [Data tail]), record_usage api_key now (ss_usage ss) w)
  | (items, Stopped) | (items, StreamPanicked) => (items, w)
  end.

(** ** [GET /v1/models] *)

(** The joined result of one backend's task: the task itself may have failed
    ([None]); otherwise the request timed out, errored, or was answered. *)
Inductive ModelsResult :=
| MrTimeout
| MrError (e : string)
| MrResponse (status : Z) (body : result string value).

Definition is_success (status : Z) : bool := (200 <=? status)%Z && (status <? 300)%Z.
Definition tag_owner (label : string) (entry : value) : value :=
  match entry with Obj m => Obj (map_insert "owned_by" (Str label) m) | _ => entry end.
(** One round of the merge loop: models so far, whether any backend answered,
    and the errors so far. *)
Definition merge_models (acc : list value * bool * list value) (task : option (string * ModelsResult))
    : list value * bool * list value :=
  let '(merged, any_ok, errors) := acc in
  let fail label fields := (merged, any_ok, errors ++ [obj (("backend", Str label) :: fields)]) in
  match task with
  | None => acc
  | Some (label, MrTimeout) => fail label [("error", Str "timeout")]
  | Some (label, MrError e) => fail label [("error", Str e)]
  | Some (label, MrResponse status body) =>
      if is_success status then
        match body with
        | Ok v => match get_arr "data" v with
                  | Some entries => (merged ++ map (tag_owner label) entries, true, errors)
                  | None => fail label [("error", Str "200 OK but response body has no `data` array")]
                  end
        | Err e => fail label [("error", Str ("200 OK but JSON parse failed: " +:+ e))]
        end
      else fail label [("status", Num (PosInt status))]
  end.
(** The answer made of the joined tasks, in the order they are awaited. *)
Definition models_answer (tasks : list (option (string * ModelsResult))) : Z * value :=
  let '(merged, any_ok, errors) := foldl merge_models ([], false, []) tasks in
  if negb any_ok then
    (502%Z, error_body [("message", Str "every backend in the pool failed to list models");
                        ("type", Str "server_error"); ("code", Str "all_backends_failed");
                        ("errors", Arr errors)])
  else
    (200%Z, obj ([("object", Str "list"); ("data", Arr merged)] ++
                 match errors with [] => [] | _ => [("partial_errors", Arr errors)] end)).

(** The request one task sends: a [GET] with the backend's own key. *)
Record ModelsRequest := mkModelsRequest { mq_url : string; mq_bearer : option string }.
Definition models_request (b : BackendConfig) : ModelsRequest :=
  mkModelsRequest (endpoint b +:+ "/v1/models") (bc_api_key b).

(** The HTTP client's [GET] under the ten-second timeout ([None]: the task did
    not finish), and the order in which the spawned tasks get to send. *)
Context (get_models : W -> ModelsRequest -> option ModelsResult * W)
  (schedule : list (string * BackendConfig) -> list (string * BackendConfig)).

Fixpoint query_models (http : W) (backends : list (string * BackendConfig)) : gmap string ModelsResult * W :=
  match backends with
  | [] => (∅, http)
  | (label, b) :: rest =>
      let '(result, http1) := get_models http (models_request b) in
      let '(results, http2) := query_models http1 rest in
      (match result with Some r => <[label := r]> results | None => results end, http2)
  end.
(** Every backend of the pool is asked; the tasks run in parallel and are joined
    in the pool's order. *)
Definition list_models (st : AppState) (w : World) : (Z * value) * World :=
  match btree_entries (rp_backends (st_pool st)) with
  | [] => ((503%Z, error_body [("message", Str "no backends configured"); ("type", Str "server_error");
                               ("code", Str "no_backends")]), w)
  | backends =>
      let '(results, http) := query_models (w_http w) (schedule backends) in
      (models_answer (map (fun lb => (fun r => (lb.1, r)) <$> results !! lb.1) backends),
       mkWorld http (w_budget w) (w_audit w))
  end.
End Proxy.

(** ** Lemmas *)

Section Guards.
Context `{Unicode} `{RegexEngine} `{AhoCorasick} `{Iword} `{Serde} `{JsonSchema} `{Sha256} `{SerdeStruct}
  `{Disk} {B : Type} `{BudgetStore B} {W : Type} (send : W -> ChatRequest -> result string Upstream * W)
  (hash_order : list (string * string) -> list (string * string)).
Implicit Types (st : AppState) (w : World (B := B) (W := W)).

Definition request_key (client : option ClientView) (body : value) : string :=
  match client with Some view => cv_budget_key view | None => extract_api_key body end.
Definition request_model (body : value) : string := default "unknown" (get_str "model" body).

(** The input side as predicates. *)
Definition keywords_pass st (body : value) : Prop :=
  pc_input_enabled (st_config st) = true ->
  exists v, check_input_with_shadow (st_matchers st) (extract_messages_text body) (pc_input_shadow (st_config st)) = Some v
    /\ forall word, v <> Blocked word.
Definition pii_pass st (body : value) : Prop :=
  pc_pii_enabled (st_config st) = true ->
  contains_pii_in (st_redactor st) (extract_messages_text body) (ap_reject (st_pii_actions st)) = false.
Definition budget_pass w (key : string) : Prop :=
  forall b usage limit, w_budget w = Some b -> budget_check b key <> Ok (Exceeded usage limit).

(** The body after masking, with the vault, and the body that is forwarded. *)
Definition masked_body st (body : value) : value * LocalVault :=
  if pc_pii_enabled (st_config st) && negb (is_empty_set (ap_mask (st_pii_actions st))) then
    if pc_pii_reversible (st_config st)
    then (redact_messages_with_vault (st_redactor st) body (ap_mask (st_pii_actions st)) (request_vault st)).1
    else ((redact_messages_in (st_redactor st) body (ap_mask (st_pii_actions st))).1, request_vault st)
  else (body, request_vault st).
Definition forwarded st (body : value) : value := apply_spotlight st (masked_body st body).1.

Lemma write_audit_http st ck k m p v mr w : w_http (write_audit st ck k m p v mr w) = w_http w.
Proof. unfold write_audit. by destruct (w_audit w). Qed.
Lemma write_audit_budget st ck k m p v mr w : w_budget (write_audit st ck k m p v mr w) = w_budget w.
Proof. unfold write_audit. by destruct (w_audit w). Qed.
Lemma record_http r w : w_http (record r w) = w_http w.
Proof. unfold record. by destruct (w_budget w). Qed.
Lemma record_audit r w : w_audit (record r w) = w_audit w.
Proof. unfold record. by destruct (w_budget w). Qed.

(** Each guard either passes and leaves the world alone, or answers without
    touching the connection. *)
Lemma guard_keywords_cases st ck k m body w :
  (guard_keywords st ck k m (extract_messages_text body) w = (Next tt, w) /\ keywords_pass st body) \/
  ((forall a, (guard_keywords st ck k m (extract_messages_text body) w).1 <> Next a) /\
   w_http (guard_keywords st ck k m (extract_messages_text body) w).2 = w_http w).
Proof.
  unfold guard_keywords, keywords_pass.
  destruct (pc_input_enabled _); [|left; split; [done|discriminate]].
  destruct (check_input_with_shadow _ _ _) as [[word| | |]|]; simpl;
    try (left; split; [done|]; intros _; eexists; split; [reflexivity|]; discriminate);
    right; (split; [discriminate|]); by rewrite ?write_audit_http.
Qed.
Lemma guard_pii_cases st ck k m body w :
  (guard_pii st ck k m (extract_messages_text body) body w = (Next (masked_body st body), w) /\ pii_pass st body) \/
  ((forall a, (guard_pii st ck k m (extract_messages_text body) body w).1 <> Next a) /\
   w_http (guard_pii st ck k m (extract_messages_text body) body w).2 = w_http w).
Proof.
  unfold guard_pii, masked_body, pii_pass. destruct (pc_pii_enabled _); simpl; [|left; split; [done|discriminate]].
  destruct (negb (is_empty_set (ap_reject _)) && contains_pii_in _ _ _) eqn:E; simpl.
  - right. split; [discriminate|]. by rewrite write_audit_http.
  - left. split; [by destruct (negb (is_empty_set (ap_mask _)))|]. intros _.
    apply andb_false_iff in E as [E|E]; [|done].
    apply negb_false_iff in E. unfold is_empty_set in E. apply bool_decide_eq_true in E.
    rewrite E. apply contains_pii_in_empty.
Qed.
Lemma guard_budget_cases key w :
  (guard_budget key w = (Next tt, w) /\ budget_pass w key) \/
  ((forall a, (guard_budget key w).1 <> Next a) /\ (guard_budget key w).2 = w).
Proof.
  unfold guard_budget, budget_pass. destruct (w_budget w) as [b|]; [|left; split; [done|discriminate]].
  destruct (budget_check b key) as [[]|] eqn:E; try (right; split; [discriminate|done]);
    left; (split; [done|]); intros b' u l [= <-]; congruence.
Qed.

Lemma schema_reply_world st m resp w : (schema_reply st m resp w).2 = w.
Proof.
  unfold schema_reply. destruct (st_schema st) as [v|]; [|done]. destruct (pick v _ m) as [rule|]; [|done].
  destruct (negb _); [by destruct (sv_on_violation v)|].
  destruct (vo_extracted _); [|done]. by destruct (set_first_content _ _).
Qed.
Lemma respond_http st ck k m p vault up w :
  w_http ((if is_event_stream up then respond_stream hash_order st ck k m p vault up
           else respond_json hash_order st ck k m p vault up) w).2 = w_http w.
Proof.
  destruct (is_event_stream up); unfold respond_stream, respond_json, hbind, hmodify, hret, hreturn, hpanic; simpl.
  - by rewrite write_audit_http.
  - destruct (up_json up) as [resp|e]; [|done].
    destruct (if pc_output_enabled (st_config st) then _ else _) as [filtered|]; simpl;
      [|by rewrite write_audit_http, record_http].
    match goal with |- context [schema_reply st m ?x ?w'] =>
      pose proof (schema_reply_world st m x w') as Hw; destruct (schema_reply st m x w') as [[] w2] end;
      simpl in *; subst; by rewrite write_audit_http, record_http.
Qed.
Lemma handle_world st client ck body w :
  (handle send hash_order st client ck body w).2 = (chat_completions send hash_order st client ck body w).2.
Proof. unfold handle. by destruct (chat_completions _ _ _ _ _ _ _) as [[] w']. Qed.

Definition attempts st (body : value) w : ChainOutcome Upstream * list BackendConfig * W :=
  forward_with_failover send up_status up_drain (w_http w) (forwarded st body)
    (route_chain (st_pool st) (Some (request_model body))).

Lemma forward_cases st body w :
  w_http (forward send st (request_model body) (forwarded st body) w).2 = w_http w \/
  w_http (forward send st (request_model body) (forwarded st body) w).2 = (attempts st body w).2.
Proof.
  unfold forward, attempts. destruct (route_chain _ _) as [|b l]; [by left|]. right.
  destruct (forward_with_failover _ _ _ _ _ _) as [[[|le [[]|]|] tried] http]; done.
Qed.

Lemma chat_guarded st client ck body w :
  w_http (handle send hash_order st client ck body w).2 = w_http w \/
  (keywords_pass st body /\ pii_pass st body /\ budget_pass w (request_key client body) /\
   w_http (handle send hash_order st client ck body w).2 = (attempts st body w).2).
Proof.
  rewrite handle_world. destruct (chat_completions send hash_order st client ck body w) as [res w'] eqn:E.
  unfold chat_completions in E. fold (request_key client body) (request_model body) in E.
  destruct (guard_keywords_cases st ck (request_key client body) (request_model body) body w) as [[E1 P1]|[N1 H1']].
  2: { left. unfold hbind in E. destruct (guard_keywords _ _ _ _ _ w) as [[] w1]; simplify_eq/=; try done. by destruct (N1 a). }
  unfold hbind at 1 in E. rewrite E1 in E.
  destruct (guard_pii_cases st ck (request_key client body) (request_model body) body w) as [[E2 P2]|[N2 H2']].
  2: { left. unfold hbind in E. destruct (guard_pii _ _ _ _ _ body w) as [[] w1]; simplify_eq/=; try done. by destruct (N2 a). }
  unfold hbind at 1 in E. rewrite E2 in E. destruct (masked_body st body) as [body' vault] eqn:Em.
  destruct (guard_budget_cases (request_key client body) w) as [[E3 P3]|[N3 H3']].
  2: { left. unfold hbind in E. destruct (guard_budget _ w) as [[] w1]; simplify_eq/=; try done. by destruct (N3 a). }
  unfold hbind at 1 in E. rewrite E3 in E.
  assert (apply_spotlight st body' = forwarded st body) as Eb by (unfold forwarded; by rewrite Em).
  rewrite Eb in E. pose proof (forward_cases st body w) as Hf. unfold hbind in E.
  assert (Hw : w_http w' = w_http (forward send st (request_model body) (forwarded st body) w).2).
  { destruct (forward send st _ _ w) as [[up|r|] w1]; simpl in *; [|by simplify_eq..].
    apply (f_equal (fun x => w_http x.2)) in E. by rewrite respond_http in E. }
  simpl. rewrite Hw. destruct Hf as [Hf|Hf]; rewrite Hf; [by left|right; by split_and!].
Qed.

(** When every input guard passes, the handler goes on to the failover attempts
    with the forwarded body and the request's vault. *)
Lemma guards_passed st client ck body w :
  keywords_pass st body -> pii_pass st body -> budget_pass w (request_key client body) ->
  chat_completions send hash_order st client ck body w =
    hbind (forward send st (request_model body) (forwarded st body)) (fun up =>
      if is_event_stream up
      then respond_stream hash_order st ck (request_key client body) (request_model body) (extract_messages_text body)
             (masked_body st body).2 up
      else respond_json hash_order st ck (request_key client body) (request_model body) (extract_messages_text body)
             (masked_body st body).2 up) w.
Proof.
  intros P1 P2 P3. unfold chat_completions. fold (request_key client body) (request_model body).
  assert (E1 : guard_keywords st ck (request_key client body) (request_model body) (extract_messages_text body) w = (Next tt, w)).
  { unfold guard_keywords, keywords_pass in *. destruct (pc_input_enabled _); [|done].
    destruct (P1 eq_refl) as (v & -> & Hv). destruct v as [word| | |]; [by destruct (Hv word)|done..]. }
  assert (E2 : guard_pii st ck (request_key client body) (request_model body) (extract_messages_text body) body w
               = (Next (masked_body st body), w)).
  { unfold guard_pii, masked_body, pii_pass in *. destruct (pc_pii_enabled _); [|done].
    rewrite (P2 eq_refl), andb_false_r. by destruct (negb (is_empty_set (ap_mask _))). }
  assert (E3 : guard_budget (request_key client body) w = (Next tt, w)).
  { unfold guard_budget, budget_pass in *. destruct (w_budget w) as [b|]; [|done].
    destruct (budget_check b _) as [[]|] eqn:E; try done. by destruct (P3 b usage limit eq_refl). }
  unfold hbind at 1. rewrite E1. unfold hbind at 1. rewrite E2. unfold forwarded.
  destruct (masked_body st body) as [body' vault]. unfold hbind at 1. by rewrite E3.
Qed.
(** The reply to an admitted request whose committed upstream answered with
    JSON, no tool gate and no response schema being configured: the filtered
    and deanonymised answer, with the upstream's status. *)
Lemma handle_json st client ck body w up resp filtered :
  keywords_pass st body -> pii_pass st body -> budget_pass w (request_key client body) ->
  st_tool_gate st = None -> st_schema st = None ->
  (attempts st body w).1.1 = Committed up -> is_event_stream up = false -> up_json up = Ok resp ->
  (if pc_output_enabled (st_config st) then filter_response_json st resp else Some resp) = Some filtered ->
  let '(reply, w') := handle send hash_order st client ck body w in
  reply = Some (ReplyJson (up_status up) (deanon_reply hash_order st (masked_body st body).2 filtered)) /\
  w_http w' = (attempts st body w).2.
Proof.
  intros P1 P2 P3 Hg Hsch Hatt Hes Hup Hfilt. unfold handle. rewrite guards_passed by done.
  unfold hbind, forward. unfold attempts in *. destruct (route_chain _ _) as [|b l]; [by destruct (forwarded st body)|].
  destruct (forward_with_failover _ _ _ _ _ _) as [[out tried] http]. simpl in Hatt. subst out.
  rewrite Hes. unfold respond_json. rewrite Hup. unfold hbind, hmodify.
  match goal with |- context [write_audit st ck ?k ?m ?p ?v ?mr ?w0] =>
    pose proof (write_audit_http st ck k m p v mr w0) as Hw; rewrite record_http in Hw;
    set (w1 := write_audit st ck k m p v mr w0) in * end.
  rewrite Hfilt. unfold schema_reply, gate_reply. by rewrite Hsch, Hg.
Qed.

(** C1: Nothing reaches a backend unless every input guard has passed: a request
    leaves the upstream connection untouched, or the keyword scan did not
    block it, no reject-class PII was found in it, its budget was not
    exhausted, and exactly the failover attempts with the masked and
    spotlighted body were made. *)
Theorem chat_forwards_only_guarded st client ck body w :
  w_http (handle send hash_order st client ck body w).2 = w_http w \/
  (keywords_pass st body /\ pii_pass st body /\ budget_pass w (request_key client body) /\
   w_http (handle send hash_order st client ck body w).2 = (attempts st body w).2).
Proof. apply chat_guarded. Qed.

Lemma blocked_handled st client ck body w word :
  pc_input_enabled (st_config st) = true -> pc_input_shadow (st_config st) = false ->
  check_input (st_matchers st) (extract_messages_text body) = Some (Blocked word) ->
  let '(reply, w') := handle send hash_order st client ck body w in
  reply = Some (ReplyJson 400 (blocked_body ("prompt injection detected (`" +:+ word +:+ "`)"))) /\
  w_http w' = w_http w /\ w_budget w' = w_budget w /\
  forall log, w_audit w = Some log ->
    exists e, w_audit w' = Some (write log e) /\ ae_verdict e = AuditTrail.Block /\ ae_matched_rule e = Some word /\
      ae_prompt_hash e = hash_prompt (extract_messages_text body) /\ ae_api_key e = request_key client body.
Proof.
  intros Hen Hsh Hc.
  assert (E : check_input_with_shadow (st_matchers st) (extract_messages_text body) false = Some (Blocked word))
    by (unfold check_input_with_shadow; by rewrite Hc).
  unfold handle, chat_completions, guard_keywords. rewrite Hen, Hsh, E. simpl. split; [done|].
  rewrite write_audit_http, write_audit_budget. split; [done|]. split; [done|].
  intros log Hl. unfold write_audit. rewrite Hl. simpl. eexists. by split_and!.
Qed.
(** C7: A blocked prompt: the answer is the 400 content-filter error that names
    the word, nothing is sent and nothing is charged, and the audit log (when
    there is one) gains exactly one entry, with verdict [block], that word and
    the hash of the scanned text. *)
Theorem blocked_prompt_answer st client ck body w word :
  pc_input_enabled (st_config st) = true -> pc_input_shadow (st_config st) = false ->
  check_input (st_matchers st) (extract_messages_text body) = Some (Blocked word) ->
  let '(reply, w') := handle send hash_order st client ck body w in
  reply = Some (ReplyJson 400 (blocked_body ("prompt injection detected (`" +:+ word +:+ "`)"))) /\
  w_http w' = w_http w /\ w_budget w' = w_budget w /\
  forall log, w_audit w = Some log ->
    exists e, w_audit w' = Some (write log e) /\ ae_verdict e = AuditTrail.Block /\ ae_matched_rule e = Some word /\
      ae_prompt_hash e = hash_prompt (extract_messages_text body) /\ ae_api_key e = request_key client body.
Proof. apply blocked_handled. Qed.
End Guards.

(** ** Lemmas: the reply's contents *)

Section Contents.
Context {S : Type} (f : S -> string -> string * S).

Lemma contents_mut_first st resp :
  first_content (contents_mut f st resp).1 =
    match (choices ← get_arr "choices" resp; choice ← head choices; msg ← get "message" choice; get_str "content" msg) with
    | Some s => (f st s).1
    | None => ""
    end.
Proof.
  unfold contents_mut, first_content, get_arr.
  destruct (get "choices" resp) as [cs|] eqn:Ec.
  2: { rewrite field_mut_absent by done. simpl. by rewrite Ec. }
  match goal with |- context [field_mut "choices" ?h st resp] =>
    destruct (field_mut_get "choices" h st resp cs Ec) as [-> _] end.
  destruct cs as [| | | |l|]; try done. simpl. destruct l as [|c l]; [done|]. simpl.
  destruct (get "message" c) as [m|] eqn:Em.
  2: { rewrite field_mut_absent by done. destruct (map_st _ st l). simpl. by rewrite Em. }
  match goal with |- context [field_mut "message" ?h st c] =>
    destruct (field_mut_get "message" h st c m Em) as [Hg _];
    destruct (field_mut "message" h st c) as [c' st1] end. simpl in Hg.
  destruct (map_st _ st1 l) as [l' st2]. simpl. rewrite Hg. simpl. unfold get_str.
  destruct (get "content" m) as [v|] eqn:Ev.
  2: { rewrite field_mut_absent by done. simpl. by rewrite Ev. }
  destruct (field_mut_get "content" (content_mut f) st m v Ev) as [-> _]. simpl.
  unfold content_mut. destruct (as_str v) as [s|] eqn:Es; simpl; [|by rewrite Es].
  by destruct (f st s).
Qed.
End Contents.

Lemma deanon_first_content strat es resp :
  (forall x, strategy_restore strat "" es = x -> x = "") ->
  first_content (deanon_response_json strat es resp) = strategy_restore strat (first_content resp) es.
Proof.
  intros Hnil. unfold deanon_response_json. rewrite contents_mut_first. unfold first_content.
  destruct (choices ← get_arr "choices" resp; _) as [s|]; [done|]. simpl. symmetry. by apply Hnil.
Qed.
Lemma exact_restore_nil es : Forall (fun po => ph_shape po.1) es -> exact_restore "" es = "".
Proof.
  unfold exact_restore. induction 1 as [|[p o] es Hp _ IH]; simpl; [done|].
  destruct (contains p "") eqn:E; [|done]. apply contains_true in E as (l & r & E).
  destruct Hp as (b & Hb & _). simpl in Hb. subst p. by destruct l.
Qed.

Section RoundTripProps.
Context `{Unicode} `{RegexLaws} `{AhoCorasick} `{Iword} `{Serde} `{JsonSchema} `{Sha256} `{SerdeStruct}
  `{Disk} {B : Type} `{BudgetStore B} {W : Type} (send : W -> ChatRequest -> result string Upstream * W)
  (hash_order : list (string * string) -> list (string * string)).
Implicit Types (st : AppState).

Lemma mask_body_reversible st body :
  pc_pii_enabled (st_config st) = true -> pc_pii_reversible (st_config st) = true ->
  ap_mask (st_pii_actions st) <> ∅ ->
  body_texts (masked_body st body).1 =
    (mask_texts (st_redactor st) (ap_mask (st_pii_actions st)) (request_vault st) (body_texts body)).1 /\
  (masked_body st body).2 =
    (mask_texts (st_redactor st) (ap_mask (st_pii_actions st)) (request_vault st) (body_texts body)).2.
Proof.
  intros He Hr Hm. unfold masked_body. rewrite He, Hr. unfold is_empty_set.
  rewrite bool_decide_eq_false_2 by done. simpl. unfold redact_messages_with_vault.
  pose proof (visits_messages (fun v t => redact_text_with_vault (st_redactor st) t (ap_mask (st_pii_actions st)) v)
    (request_vault st, false) body) as [Hb Hv].
  destruct (walk_messages _ _ body) as [body' [vault changed]]. simpl in *. by rewrite Hb, Hv.
Qed.

(** A vault filled by masking restores any text written with its placeholders. *)
Lemma deanon_reply_restores st vault resp t :
  (forall l, hash_order l ≡ₚ l) -> pc_pii_reversible (st_config st) = true ->
  strategy_from_name (pc_deanonymize_strategy (st_config st)) = Exact -> vault_shaped vault ->
  sall not_open t = true -> redacted (vault_entries vault) t (first_content resp) ->
  first_content (deanon_reply hash_order st vault resp) = t.
Proof.
  intros Hperm Hr Hs Hsh Ht Hred. unfold deanon_reply. rewrite Hr, Hs.
  pose proof (Hperm (vault_entries vault)) as Hp.
  assert (Hshape : Forall (fun po => ph_shape po.1) (hash_order (vault_entries vault))).
  { rewrite Hp. apply Forall_forall. intros [p o] Hin. apply (proj2 Hsh p o). by apply elem_of_map_to_list in Hin. }
  assert (Hnd : NoDup (hash_order (vault_entries vault)).*1) by (rewrite Hp; apply NoDup_fst_map_to_list).
  assert (Hred' : redacted (hash_order (vault_entries vault)) t (first_content resp))
    by (eapply redacted_mono; [|exact Hred]; intros po; by rewrite Hp).
  destruct (hash_order (vault_entries vault)) as [|e es] eqn:Eh; [by apply redacted_done|].
  rewrite deanon_first_content; [by apply exact_restore_redacted|].
  intros x <-. by apply exact_restore_nil.
Qed.

(** The round trip of a whole request, given what masking did to its texts. *)
Lemma chat_roundtrip st client ck body w :
  (forall l, hash_order l ≡ₚ l) -> pc_pii_reversible (st_config st) = true ->
  strategy_from_name (pc_deanonymize_strategy (st_config st)) = Exact ->
  st_tool_gate st = None -> st_schema st = None -> vault_shaped (masked_body st body).2 ->
  keywords_pass st body -> pii_pass st body -> budget_pass w (request_key client body) ->
  forall up resp filtered t, (attempts send st body w).1.1 = Committed up -> is_event_stream up = false -> up_json up = Ok resp ->
    (if pc_output_enabled (st_config st) then filter_response_json st resp else Some resp) = Some filtered ->
    sall not_open t = true -> redacted (vault_entries (masked_body st body).2) t (first_content filtered) ->
    exists final, (handle send hash_order st client ck body w).1 = Some (ReplyJson (up_status up) final) /\
      first_content final = t /\
      w_http (handle send hash_order st client ck body w).2 = (attempts send st body w).2.
Proof.
  intros Hperm Hr Hs Hg Hsch Hsh P1 P2 P3 up resp filtered t Hatt Hes Hup Hfilt Ht Hred.
  pose proof (handle_json send hash_order st client ck body w up resp filtered P1 P2 P3 Hg Hsch Hatt Hes Hup Hfilt) as Hh.
  destruct (handle _ _ _ _ _ _ _) as [reply w']. destruct Hh as [-> Hw].
  eexists. split; [reflexivity|]. split; [by apply deanon_reply_restores|done].
Qed.
Lemma forwarded_plain st body : st_spotlight st = None -> forwarded st body = (masked_body st body).1.
Proof. intros E. unfold forwarded, apply_spotlight. by rewrite E. Qed.

(** C2: Reversible masking is invisible to the client and effective towards the
    backend, through the whole handler.  Conditions: PII handling is enabled
    and reversible, its mask set is not empty, the strategy is [exact],
    spotlighting, the tool gate and response schemas are off, no text of the
    request contains an opening bracket and no rule matches inside a
    placeholder written before it ([texts_safe]), and the request masks at most
    2^32 - 1 distinct values; the vault's hash order is arbitrary.  Then every text
    of the forwarded body is the original with pieces written as placeholders
    of the request's vault; and when the request passes the input guards, the
    committed backend answers with JSON, and the first choice's content, after
    the output filter, is some bracket-free text [t] with pieces written as
    such placeholders, the client's reply is a JSON answer with the upstream's
    status whose first content is [t]. *)
Theorem reversible_chat_roundtrip st client ck body w :
  (forall l, hash_order l ≡ₚ l) ->
  pc_pii_enabled (st_config st) = true -> pc_pii_reversible (st_config st) = true ->
  strategy_from_name (pc_deanonymize_strategy (st_config st)) = Exact ->
  ap_mask (st_pii_actions st) <> ∅ ->
  st_spotlight st = None -> st_tool_gate st = None -> st_schema st = None ->
  texts_safe (st_redactor st) (ap_mask (st_pii_actions st)) (request_vault st) (body_texts body) = true ->
  (Z.of_nat (size (seen (masked_body st body).2)) <= u32_max)%Z ->
  let vault := (masked_body st body).2 in
  Forall2 (redacted (vault_entries vault)) (body_texts body) (body_texts (forwarded st body)) /\
  (keywords_pass st body -> pii_pass st body -> budget_pass w (request_key client body) ->
   forall up resp filtered t, (attempts send st body w).1.1 = Committed up -> is_event_stream up = false -> up_json up = Ok resp ->
     (if pc_output_enabled (st_config st) then filter_response_json st resp else Some resp) = Some filtered ->
     sall not_open t = true -> redacted (vault_entries vault) t (first_content filtered) ->
     exists final, (handle send hash_order st client ck body w).1 = Some (ReplyJson (up_status up) final) /\
       first_content final = t /\
       w_http (handle send hash_order st client ck body w).2 = (attempts send st body w).2).
Proof.
  intros Hperm He Hr Hs Hm Hsl Hg Hsch Hsafe Hsz vault. destruct (mask_body_reversible st body He Hr Hm) as [Hb Hv].
  subst vault. rewrite Hv in Hsz.
  assert (Hnew : vault_shaped (request_vault st)) by apply vault_shaped_new.
  destruct (mask_texts_inv _ _ _ _ Hnew Hsafe Hsz) as (Hsh & _ & HF).
  rewrite <-Hv in Hsh, HF. rewrite <-Hb in HF. split; [by rewrite forwarded_plain|].
  intros P1 P2 P3. by apply chat_roundtrip.
Qed.
End RoundTripProps.

(** ** The streaming loop *)

Section StreamProps.
Context `{Unicode} `{RegexEngine} `{AhoCorasick} `{Iword} `{Serde} `{JsonSchema} `{Sha256} `{SerdeStruct}
  `{Disk} {B : Type} `{BudgetStore B} {W : Type}.
Implicit Types (st : AppState) (w : World (B := B) (W := W)).

(** The bytes a client receives. *)
Definition item_bytes (i : Item) : string := match i with Data s => s | IoError _ => "" end.
Definition items_bytes (l : list Item) : string := sconcat (map item_bytes l).
Lemma items_bytes_app a b : items_bytes (a ++ b) = items_bytes a +:+ items_bytes b.
Proof. unfold items_bytes. by rewrite map_app, sconcat_app. Qed.
Lemma items_bytes_opt s : items_bytes (if String.eqb s "" then [] else [Data s]) = s.
Proof. destruct (String.eqb_spec s "") as [->|]; [done|]. unfold items_bytes. simpl. by rewrite sapp_nil_r. Qed.

(** The gate over whole chunks: the reasons of the first denial, or the state
    it is left in. *)
Definition gate_step (g : option StreamingToolGate) (chunk : string)
    : option (list string) * option StreamingToolGate :=
  match g with
  | Some g => let '(d, g') := gate_events g (chunk_events chunk) in (d, Some g')
  | None => (None, None)
  end.
Fixpoint gate_passes (g : option StreamingToolGate) (chunks : list string) : option (option StreamingToolGate) :=
  match chunks with
  | [] => Some g
  | c :: cs => match gate_step g c with (None, g') => gate_passes g' cs | (Some _, _) => None end
  end.
Definition last_usage (u : option (Z * Z * string)) (chunks : list string) : option (Z * Z * string) :=
  foldl (fun u c => match try_extract_usage c with Some u' => Some u' | None => u end) u chunks.

Context (st : AppState).
(** The output dictionary reports ranges inside the text it scanned. *)
Context (Hscan : forall s p l, In (p, l) (iw_scan (mt_output (st_matchers st)) s) -> p + l <= String.length s).

Lemma stream_transform_ok t s : t.2 = false -> (stream_transform st t s).2.2 = false.
Proof using Hscan.
  intros Ht. unfold stream_transform. rewrite Ht. destruct (filter_output_total (st_matchers st) s Hscan) as [x ->].
  destruct t.1 as [d|]; [|done]. by destruct (push d x).
Qed.

(** The loop over chunks the gate lets pass, output filtering on. *)
Lemma stream_loop_filtered ss pre rest g :
  pc_output_enabled (st_config st) = true -> (sse_state (ss_filter ss)).2 = false ->
  gate_passes (ss_gate ss) pre = Some g ->
  let '(out, f) := sse_push_all (stream_transform st) (ss_filter ss) pre in
  exists items, items_bytes items = out /\ Forall (fun i => exists s, i = Data s) items /\
    (sse_state f).2 = false /\
    stream_loop st ss (map Ok pre ++ rest) =
      (items ++ (stream_loop st (mkStream f g (last_usage (ss_usage ss) pre)) rest).1,
       (stream_loop st (mkStream f g (last_usage (ss_usage ss) pre)) rest).2).
Proof using Hscan.
  intros Hout. revert ss. induction pre as [|c pre IH]; intros [f g0 u] Hf Hg; simpl in *.
  { injection Hg as <-. exists []. split_and!; [done..|]. by destruct (stream_loop st _ rest). }
  unfold gate_step in Hg.
  destruct (match g0 with Some g => _ | None => _ end) as [[d|] g1]; [done|].
  rewrite Hout. simpl. pose proof (sse_push_inv (stream_transform st) (fun t => t.2 = false)
    (fun t x => stream_transform_ok t x) f c Hf) as Hf1.
  destruct (sse_push (stream_transform st) f c) as [o1 f1] eqn:E1. simpl in Hf1. rewrite Hf1.
  specialize (IH (mkStream f1 g1 (match try_extract_usage c with Some u' => Some u' | None => u end)) Hf1 Hg).
  simpl in IH. destruct (sse_push_all (stream_transform st) f1 pre) as [o2 f2].
  destruct IH as (items & Hi & HF & Hf2 & ->).
  exists ((if String.eqb o1 "" then [] else [Data o1]) ++ items). split_and!.
  - by rewrite items_bytes_app, items_bytes_opt, Hi.
  - apply Forall_app. split; [|done]. destruct (String.eqb o1 ""); repeat constructor. eauto.
  - done.
  - by rewrite <-(assoc (++)).
Qed.

(** C5: A stream the gate lets through delivers exactly the filtered stream.  With
    output filtering on, an upstream whose chunks arrive without an I/O error,
    and an output dictionary that reports ranges inside the text it scans: the
    client receives the SSE filter's output for the upstream chunks (output
    filter, then deanonymiser, on every delta), with no I/O error item, and one
    usage is charged to the request's key at the end: that of the last chunk in
    which [try_extract_usage] finds one, which is the first complete usage line
    of that chunk ([last_usage]); a usage line split over two chunks is not
    seen. *)
Theorem stream_delivers_filtered now w deanon key chunks g :
  pc_output_enabled (st_config st) = true ->
  gate_passes (stream_gate_new <$> st_tool_gate st) chunks = Some g ->
  let '(items, w') := run_stream st now (mkJob deanon key (map Ok chunks)) w in
  items_bytes items = sse_output (stream_transform st) (deanon, false) chunks /\
  Forall (fun i => exists s, i = Data s) items /\
  w' = record_usage key now (last_usage None chunks) w.
Proof using Hscan.
  intros Hout Hg. unfold run_stream.
  pose proof (stream_loop_filtered (mkStream (mkSse "" (deanon, false)) (stream_gate_new <$> st_tool_gate st) None)
    chunks [] g Hout eq_refl Hg) as Hl. simpl in Hl. unfold sse_output.
  destruct (sse_push_all _ _ chunks) as [out f]. destruct Hl as (items & Hi & HF & _ & Hl).
  rewrite app_nil_r in Hl. rewrite Hl. simpl. split_and!.
  - by rewrite items_bytes_app, items_bytes_opt, app_nil_r, Hi.
  - rewrite app_nil_r. apply Forall_app. split; [done|]. destruct (String.eqb _ ""); repeat constructor. eauto.
  - done.
Qed.

(** C6: A denied tool call cuts the stream: after the filtered output of the
    chunks before it, the client receives the denial event and [\[DONE\]] and
    nothing else; no byte of the offending chunk or of what follows is passed
    on, and no usage is charged. *)
Theorem stream_denied_cut now w deanon key pre c rest g reasons g' :
  pc_output_enabled (st_config st) = true ->
  gate_passes (stream_gate_new <$> st_tool_gate st) pre = Some g ->
  gate_step g c = (Some reasons, g') ->
  let '(items, w') := run_stream st now (mkJob deanon key (map Ok pre ++ Ok c :: rest)) w in
  items_bytes items =
    (sse_push_all (stream_transform st) (mkSse "" (deanon, false)) pre).1 +:+ deny_event reasons /\
  w' = w.
Proof using Hscan.
  intros Hout Hg Hd. unfold run_stream.
  pose proof (stream_loop_filtered (mkStream (mkSse "" (deanon, false)) (stream_gate_new <$> st_tool_gate st) None)
    pre (Ok c :: rest) g Hout eq_refl Hg) as Hl. simpl ss_filter in Hl. simpl ss_usage in Hl.
  destruct (sse_push_all _ _ pre) as [out f]. destruct Hl as (items & Hi & HF & _ & Hl).
  rewrite Hl. cbn [stream_loop ss_gate ss_filter ss_usage].
  unfold gate_step in Hd. rewrite Hd. simpl. split; [|done].
  rewrite items_bytes_app, Hi. unfold items_bytes. simpl. by rewrite sapp_nil_r.
Qed.
End StreamProps.

(** ** Listing models *)

(** The models one backend contributes, and whether it counts as failed. *)
Definition contributes (task : option (string * ModelsResult)) : option (list value) :=
  match task with
  | Some (label, MrResponse status (Ok v)) =>
      if is_success status then map (tag_owner label) <$> get_arr "data" v else None
  | _ => None
  end.
Definition backend_failed (task : option (string * ModelsResult)) : option string :=
  match task with
  | Some (label, _) => match contributes task with Some _ => None | None => Some label end
  | None => None
  end.

Lemma merge_models_run tasks merged any_ok errors :
  exists errs, foldl merge_models (merged, any_ok, errors) tasks =
    (merged ++ concat (omap contributes tasks),
     any_ok || existsb (fun t => match contributes t with Some _ => true | None => false end) tasks,
     errors ++ errs) /\
    map (get_str "backend") errs = map Some (omap backend_failed tasks).
Proof.
  revert merged any_ok errors. induction tasks as [|t tasks IH]; intros merged any_ok errors; simpl.
  { exists []. by rewrite !app_nil_r, orb_false_r. }
  destruct t as [[label [|e|status [v|e]]]|]; simpl; try (destruct (is_success status); simpl);
    try (destruct (get_arr "data" v) as [entries|]; simpl);
    match goal with |- context [foldl merge_models (?m, ?a, ?e) tasks] => destruct (IH m a e) as (errs & -> & Hb) end;
    first [ exists errs; split; [rewrite <-?(assoc_L (++)); by rewrite ?orb_true_r|done]
          | eexists; split; [rewrite <-(assoc_L (++)); reflexivity|simpl; by rewrite Hb] ].
Qed.

(** The aggregated list: it is served exactly when at least one backend
    answered with a [data] array, and then holds every such backend's models in
    pool order, each object tagged with its backend's label; the backends that
    failed are reported by label, in order, and nothing else is. *)
Theorem models_answer_spec tasks :
  let '(status, body) := models_answer tasks in
  (status = 200%Z <-> exists t, In t tasks /\ is_Some (contributes t)) /\
  (status = 200%Z -> get_arr "data" body = Some (concat (omap contributes tasks)) /\
     map (get_str "backend") (default [] (get_arr "partial_errors" body)) = map Some (omap backend_failed tasks)) /\
  (status <> 200%Z -> status = 502%Z /\ exists errs, get2 "error" "errors" body = Some (Arr errs) /\
     map (get_str "backend") errs = map Some (omap backend_failed tasks)).
Proof.
  unfold models_answer. destruct (merge_models_run tasks [] false []) as (errs & -> & Hb). rewrite app_nil_l, app_nil_l, orb_false_l.
  destruct (existsb _ tasks) eqn:E; cbn [negb].
  - split_and!; [| |done].
    + split; [|done]. intros _. apply existsb_exists in E as (t & Hin & Ht). exists t. split; [done|].
      destruct (contributes t); [eauto|done].
    + intros _. destruct errs as [|e errs]; simpl; split; try done.
  - split_and!; [|done|].
    + split; [done|]. intros (t & Hin & [x Hx]). rewrite existsb_false_iff in E. specialize (E t Hin).
      by rewrite Hx in E.
    + intros _. split; [done|]. exists errs. split; [done|done].
Qed.

(** ** What the guards do not see *)

(** A prompt sent as content parts is masked and forwarded but never scanned:
    the text handed to the keyword matcher and to the PII reject test is empty,
    although the part's text is in the body. *)
Theorem content_parts_not_scanned role t :
  let body := obj [("messages", Arr [obj [("role", Str role);
                     ("content", Arr [obj [("type", Str "text"); ("text", Str t)]])]])] in
  extract_messages_text body = "" /\ body_texts body = [t].
Proof. split; reflexivity. Qed.

(** The streaming gate parses each network chunk on its own: the event of a
    whole chunk is observed, the same bytes in two chunks are not, while the
    SSE filter reassembles and delivers them. *)
Theorem split_event_not_gated :
  exists (serde : Serde) a b v,
    @chunk_events serde (a +:+ b) = [v] /\
    @chunk_events serde a ++ @chunk_events serde b = [] /\
    sse_output (H := serde) (fun (u : unit) s => (s, u)) tt [a; b] = a +:+ b.
Proof.
  exists toy_serde, "data: {", ("}" +:+ lf2), (Obj []). split_and!; reflexivity.
Qed.

(** The usage that is charged depends on how the network cut the stream: of two
    usage events in one chunk the first is charged and in two chunks the last,
    and the event alone is charged when it arrives whole and lost when it
    arrives in two pieces. *)
Theorem usage_depends_on_chunking :
  exists (serde : Serde) e1 e2 a b u1 u2, u1 <> u2 /\ a +:+ b = e2 /\
    @last_usage serde None [e1; e2] = Some u2 /\ @last_usage serde None [e1 +:+ e2] = Some u1 /\
    @last_usage serde None [e2] = Some u2 /\ @last_usage serde None [a; b] = None.
Proof.
  pose (event (p c : Z) := obj [("usage", obj [("prompt_tokens", Num (PosInt p)); ("completion_tokens", Num (PosInt c))])]).
  exists {| from_str s := if String.eqb s "one" then Ok (event 1 1)%Z
                          else if String.eqb s "two" then Ok (event 2 2)%Z else Err "expected value";
            to_json _ := "" |}.
  exists ("data: one" +:+ lf2), ("data: two" +:+ lf2), "data: t", ("wo" +:+ lf2), (1, 1, "unknown")%Z, (2, 2, "unknown")%Z.
  split_and!; [discriminate|vm_compute; reflexivity..].
Qed.

Section Unfiltered.
Context `{Unicode} `{RegexEngine} `{AhoCorasick} `{Iword} `{Serde} `{JsonSchema} `{Sha256} `{SerdeStruct}
  `{Disk} {B : Type} `{BudgetStore B} {W : Type}.

(** With output filtering off the streaming path is a plain copy: the
    deanonymiser is never consulted, so placeholders reach the client, while
    the JSON path restores them ([deanon_reply] does not depend on the output
    switch). *)
Theorem stream_unfiltered_raw (st : AppState) now (w : World (B := B) (W := W)) deanon key chunks :
  pc_output_enabled (st_config st) = false -> st_tool_gate st = None ->
  run_stream st now (mkJob deanon key (map Ok chunks)) w =
    (map Data chunks, record_usage key now (last_usage None chunks) w).
Proof.
  intros Hout Hg. unfold run_stream. rewrite Hg. simpl.
  assert (Hl : forall u, stream_loop st (mkStream (mkSse "" (deanon, false)) None u) (map Ok chunks) =
    (map Data chunks, Exhausted (mkStream (mkSse "" (deanon, false)) None (last_usage u chunks)))).
  { induction chunks as [|c cs IH]; intros u; simpl; [done|]. rewrite Hout. simpl. by rewrite IH. }
  rewrite Hl. simpl. by rewrite app_nil_r.
Qed.
End Unfiltered.

(** ** Concrete runs *)

#[local] Existing Instances demo_unicode literal_engine demo_ac demo_iword demo_serde demo_schema demo_sha
  count_struct mem_disk.

(** An upstream that answers every request with a fixed JSON text. *)
Definition demo_upstream (text : string) : Upstream :=
  mkUpstream 200 [] [] (Ok "")
    (Ok (obj [("choices", Arr [obj [("message", obj [("content", Str text)])]]);
              ("usage", obj [("prompt_tokens", Num (PosInt 3)); ("completion_tokens", Num (PosInt 4))])])).
Definition demo_chat_send (sent : list ChatRequest) (r : ChatRequest) : result string Upstream * list ChatRequest :=
  (Ok (demo_upstream "mail [REDACTED_EMAIL_1]"), sent ++ [r]).
Definition demo_state (shadow output : bool) : AppState :=
  mkApp (mkProxyConfig true shadow true true "exact" output) demo_matchers demo_vault_redactor
    (mkPartition {["EMAIL"]} {["US_SSN"]} ∅) None None None None (runtime_build demo_pool).
Definition demo_world : World := mkWorld ([] : list ChatRequest) (Some sqlite_open) (Some (@mkLog mem_disk "" false false true false)).
Definition demo_clock : Clock := mkClock "r1" "now" 5.
Definition demo_chat (text : string) : value :=
  obj [("model", Str "m"); ("messages", Arr [obj [("role", Str "user"); ("content", Str text)]])].

Example demo_chat_run :
  match handle demo_chat_send id (demo_state false true) None demo_clock (demo_chat "I am a@b.co") demo_world with
  | (Some (ReplyJson 200 body), w) =>
      first_content body = "mail a@b.co" /\ length (w_http w) = 1
  | _ => False
  end.
Proof. vm_compute. done. Qed.

Lemma blocked_prompt_answer_witness :
  match handle demo_chat_send id (demo_state false true) None demo_clock (demo_chat "please jailbreak") demo_world with
  | (reply, w) => reply = Some (ReplyJson 400 (blocked_body "prompt injection detected (`jailbreak`)")) /\ w_http w = []
  end.
Proof.
  pose proof (blocked_prompt_answer demo_chat_send id (demo_state false true) None demo_clock
    (demo_chat "please jailbreak") demo_world "jailbreak" eq_refl eq_refl eq_refl) as Hx.
  destruct (handle _ _ _ _ _ _ _) as [reply w]. destruct Hx as (Hr & Hw & _). split; [exact Hr|exact Hw].
Defined.

Lemma reversible_chat_roundtrip_witness :
  body_texts (forwarded (demo_state false true) (demo_chat "I am a@b.co")) = ["I am [REDACTED_EMAIL_1]"] /\
  Forall2 (redacted (vault_entries (masked_body (demo_state false true) (demo_chat "I am a@b.co")).2))
    (body_texts (demo_chat "I am a@b.co")) (body_texts (forwarded (demo_state false true) (demo_chat "I am a@b.co"))) /\
  exists final,
    (handle demo_chat_send id (demo_state false true) None demo_clock (demo_chat "I am a@b.co") demo_world).1
      = Some (ReplyJson 200 final) /\ first_content final = "mail a@b.co".
Proof.
  split; [vm_compute; reflexivity|].
  pose proof (@reversible_chat_roundtrip demo_unicode literal_engine literal_laws demo_iword demo_serde demo_schema
    demo_sha count_struct mem_disk SqliteBudget sqlite_budget (list ChatRequest) demo_chat_send id (demo_state false true)
    None demo_clock (demo_chat "I am a@b.co") demo_world (fun l => reflexivity l) eq_refl eq_refl eq_refl) as Hx.
  specialize (Hx ltac:(intros E; apply (f_equal (fun s : gset string => bool_decide ("EMAIL" ∈ s))) in E; vm_compute in E; discriminate)).
  specialize (Hx eq_refl eq_refl eq_refl ltac:(vm_compute; reflexivity) ltac:(vm_compute; discriminate)).
  destruct Hx as [HF Hx]. split; [exact HF|].
  destruct (Hx ltac:(intros _; eexists; split; [vm_compute; reflexivity|discriminate]) ltac:(intros _; vm_compute; reflexivity)
    ltac:(intros b u l [= <-]; vm_compute; discriminate) (demo_upstream "mail [REDACTED_EMAIL_1]")
    (match up_json (demo_upstream "mail [REDACTED_EMAIL_1]") with Ok v => v | Err _ => Null end)
    (match up_json (demo_upstream "mail [REDACTED_EMAIL_1]") with Ok v => v | Err _ => Null end) "mail a@b.co")
    as (final & Hf & Ht & _).
  - vm_compute. reflexivity.
  - reflexivity.
  - reflexivity.
  - vm_compute. reflexivity.
  - reflexivity.
  - apply (redacted_text _ "mail " "a@b.co" "[REDACTED_EMAIL_1]"); [reflexivity|].
    apply (redacted_ph _ "[REDACTED_EMAIL_1]" "a@b.co" "" ""); [|decide_now|by apply redacted_refl].
    exists "REDACTED_EMAIL_1". split; reflexivity.
  - exists final. split; [exact Hf|exact Ht].
Defined.

Definition demo_chunks : list string := ["data: {"; "}" +:+ lf2; "data: [DONE]" +:+ lf2].
Lemma stream_delivers_filtered_witness :
  items_bytes (run_stream (demo_state false true) "now" (mkJob None "k" (map Ok demo_chunks)) demo_world).1 =
    sconcat demo_chunks.
Proof.
  pose proof (stream_delivers_filtered (demo_state false true) (demo_iword_range _) "now" demo_world None "k"
    demo_chunks None eq_refl eq_refl) as Hx.
  destruct (run_stream _ _ _ _) as [items w]. destruct Hx as (Hi & _). simpl. rewrite Hi. vm_compute. reflexivity.
Defined.
(** A pool of two backends with one key: both are asked, in either order, and
    the answer is in the pool's order. *)
Definition two_backends : AppState :=
  mkApp (st_config (demo_state false true)) demo_matchers demo_vault_redactor (mkPartition ∅ ∅ ∅) None None None None
    (mkRuntime {["a" := mkBackend "openai" "http://a/" (Some "ka") None; "b" := mkBackend "ollama" "http://b" None None]} [] "a").
Definition demo_get (sent : list ModelsRequest) (r : ModelsRequest) : option ModelsResult * list ModelsRequest :=
  (Some (MrResponse 200 (Ok (obj [("data", Arr [obj [("id", Str (mq_url r))]])]))), sent ++ [r]).
Example list_models_run schedule :
  schedule ∈ [id; reverse] ->
  let '((status, body), w') := list_models (B := SqliteBudget) demo_get schedule two_backends (mkWorld [] None None) in
  status = 200%Z /\
  get_arr "data" body = Some [obj [("id", Str "http://a/v1/models"); ("owned_by", Str "a")];
                              obj [("id", Str "http://b/v1/models"); ("owned_by", Str "b")]] /\
  w_http w' ≡ₚ [mkModelsRequest "http://a/v1/models" (Some "ka"); mkModelsRequest "http://b/v1/models" None].
Proof.
  intros [->|[->|[]%not_elem_of_nil]%elem_of_cons]%elem_of_cons; vm_compute; split_and!; try reflexivity. apply Permutation_swap.
Qed.
Lemma stream_unfiltered_raw_witness :
  (run_stream (demo_state false false) "now" (mkJob (Some (deanon_new demo_entries Exact)) "k"
     (map Ok ["[REDACTED_SSN_1]"])) demo_world).1 = [Data "[REDACTED_SSN_1]"].
Proof.
  exact (f_equal fst (stream_unfiltered_raw (demo_state false false) "now" demo_world
    (Some (deanon_new demo_entries Exact)) "k" ["[REDACTED_SSN_1]"] eq_refl eq_refl)).
Defined.

(** A parser for one delta and the finishing event of a forbidden call. *)
Definition call_serde : Serde := {|
  from_str s := if String.eqb s "call" then Ok (demo_delta 0 [("name", Str "delete_user")])
                else if String.eqb s "end" then Ok demo_finish else Err "expected value";
  to_json _ := "{}" |}.
Definition gated_state : AppState :=
  mkApp (mkProxyConfig true false true true "exact" true) demo_matchers demo_vault_redactor
    (mkPartition ∅ ∅ ∅) None None (Some demo_gate) None (runtime_build demo_pool).
Lemma stream_denied_cut_witness :
  exists reasons g', @gate_step literal_engine call_serde demo_schema
      (match @gate_passes literal_engine call_serde demo_schema (Some (stream_gate_new demo_gate)) ["data: call" +:+ lf2] with
       | Some g => g | None => None end) ("data: end" +:+ lf2) = (Some reasons, g') /\
    reasons = ["tool `delete_user` is on the deny list"] /\
    items_bytes (@run_stream demo_unicode literal_engine demo_iword call_serde demo_schema mem_disk SqliteBudget sqlite_budget
      (list ChatRequest) gated_state "now"
      (mkJob None "k" (map Ok ["data: call" +:+ lf2] ++ [Ok ("data: end" +:+ lf2); Ok "more"])) demo_world).1 =
    "data: call" +:+ lf2 +:+ @deny_event call_serde reasons.
Proof.
  eexists _, _. split; [vm_compute; reflexivity|]. split; [reflexivity|].
  epose proof (@stream_denied_cut demo_unicode literal_engine demo_iword call_serde demo_schema mem_disk SqliteBudget
    sqlite_budget (list ChatRequest) gated_state (demo_iword_range _) "now" demo_world None "k"
    ["data: call" +:+ lf2] ("data: end" +:+ lf2) [Ok "more"]
    (match @gate_passes literal_engine call_serde demo_schema (Some (stream_gate_new demo_gate)) ["data: call" +:+ lf2] with
       | Some g => g | None => None end) ["tool `delete_user` is on the deny list"] _ eq_refl eq_refl eq_refl) as Hx.
  destruct (run_stream _ _ _ _) as [items w]. destruct Hx as [Hi _]. simpl. rewrite Hi.
  vm_compute. reflexivity.
Defined.
