(* ===== verification/Admin.v ===== *)
(** * The admin API ([src/admin/mod.rs])

    The admin key check, the budget endpoints and the client-token endpoints,
    as handlers over the budget store and the token handle. *)

From S2P Require Import Prelude RustStr Json ClientAuth Budget Proxy.

(** An answer: status and JSON body. *)
Definition Answer : Type := Z * value.
Definition admin_error (status : Z) (message : string) : Answer := (status, obj [("error", Str message)]).
Definition opt_num (o : option Z) : value := match o with Some n => Num (PosInt n) | None => Null end.
(** [json!(i64)]. *)
Definition int_value (n : Z) : value := if (0 <=? n)%Z then Num (PosInt n) else Num (NegInt n).
Definition opt_value (o : option string) : value := match o with Some s => Str s | None => Null end.

Section Admin.
Context `{Sha256} {B : Type} `{BudgetStore B} (parse_rfc3339 : string -> option Z).

(** The rows of one user as [ORDER BY created_at DESC] returns them. *)
Context (order_by_created : list ClientTokenRow -> list ClientTokenRow).

Record AdminState := mkAdmin {
  ad_key : option string;
  ad_budget : option B;
  ad_auth : option ClientAuth;
}.
Definition with_budget (s : AdminState) (b : B) : AdminState := mkAdmin (ad_key s) (Some b) (ad_auth s).
Definition with_auth (s : AdminState) (a : ClientAuth) : AdminState := mkAdmin (ad_key s) (ad_budget s) (Some a).

(** [authorization] is the header's value when it is a valid string. *)
Definition require_admin (s : AdminState) (authorization : option string) : option Answer :=
  let expected := default "" (ad_key s) in
  let provided := default "" (authorization ≫= strip_prefix "Bearer ") in
  if String.eqb expected "" then Some (admin_error 401 "unauthorized")
  else if negb (String.eqb (sha256_of provided) (sha256_of expected)) then Some (admin_error 401 "unauthorized")
  else None.

Definition get_budget (s : AdminState) (authorization : option string) (api_key : string) : Answer :=
  match require_admin s authorization with
  | Some e => e
  | None =>
      match ad_budget s with
      | None => admin_error 503 "budget tracking is disabled"
      | Some budget =>
          match get_usage budget api_key with
          | Err e => admin_error 500 e
          | Ok usage =>
              match get_limit budget api_key with
              | Err e => admin_error 500 e
              | Ok limit => (200%Z, obj [("api_key", Str api_key); ("usage", Num (PosInt usage));
                                         ("limit", opt_num limit)])
              end
          end
      end
  end.
Definition set_budget (s : AdminState) (authorization : option string) (api_key : string) (limit : Z)
    : Answer * AdminState :=
  match require_admin s authorization with
  | Some e => (e, s)
  | None =>
      match ad_budget s with
      | None => (admin_error 503 "budget tracking is disabled", s)
      | Some budget =>
          match set_limit budget api_key limit with
          | Err e => (admin_error 500 e, s)
          | Ok b' => ((200%Z, obj [("api_key", Str api_key); ("limit", Num (PosInt limit)); ("status", Str "ok")]),
                      with_budget s b')
          end
      end
  end.
Definition reset_budget (now : string) (s : AdminState) (authorization : option string) (api_key : string)
    : Answer * AdminState :=
  match require_admin s authorization with
  | Some e => (e, s)
  | None =>
      match ad_budget s with
      | None => (admin_error 503 "budget tracking is disabled", s)
      | Some budget =>
          match reset_usage budget now api_key with
          | Err e => (admin_error 500 e, s)
          | Ok b' => ((200%Z, obj [("api_key", Str api_key); ("status", Str "reset")]), with_budget s b')
          end
      end
  end.

Record CreateClientRequest := mkCreate {
  cr_label : string;
  cr_expires_at : option string;
  cr_user_id : option Z;
}.
Definition create_client_handler (rng : nat -> string) (now : string) (s : AdminState)
    (authorization : option string) (req : CreateClientRequest) : Answer * AdminState :=
  match require_admin s authorization with
  | Some e => (e, s)
  | None =>
      match ad_auth s with
      | None => (admin_error 503 "client_auth not enabled — set [auth].enabled or [budget].enabled", s)
      | Some auth =>
          let user_id := default 0%Z (cr_user_id req) in
          let '(res, auth') :=
            create_client parse_rfc3339 rng now auth user_id (cr_label req) (cr_expires_at req) in
          match res with
          | Err (status, message) => (admin_error status message, with_auth s auth')
          | Ok (id, token) =>
              ((201%Z, obj [("id", int_value id); ("prefix", Str (tk_prefix token)); ("token", Str (tk_wire token));
                  ("warning", Str "Store this token now — it is not recoverable from any later API call.");
                  ("user_id", int_value user_id); ("label", Str (trim (cr_label req)));
                  ("expires_at", opt_value (cr_expires_at req))]), with_auth s auth')
          end
      end
  end.

Definition list_for_user (db : Db) (user_id : Z) : list ClientTokenRow :=
  order_by_created (List.filter (fun r => Z.eqb (ct_user_id r) user_id) (map fst db)).
Definition row_item (r : ClientTokenRow) : value :=
  obj [("id", int_value (ct_id r)); ("prefix", Str (ct_prefix r)); ("user_id", int_value (ct_user_id r));
       ("label", opt_value (ct_label r)); ("created_at", Str (ct_created_at r));
       ("expires_at", opt_value (ct_expires_at r)); ("revoked_at", opt_value (ct_revoked_at r));
       ("last_used_at", opt_value (ct_last_used_at r))].
Definition list_clients (s : AdminState) (authorization : option string) (user_id : option Z) : Answer :=
  match require_admin s authorization with
  | Some e => e
  | None =>
      match ad_auth s with
      | None => admin_error 503 "client_auth not enabled"
      | Some auth =>
          match user_id with
          | None => admin_error 400 "user_id query parameter required"
          | Some uid =>
              (200%Z, obj [("data", Arr (map row_item (list_for_user (ca_db auth) uid))); ("object", Str "list")])
          end
      end
  end.
Definition revoke_client_handler (now : string) (s : AdminState) (authorization : option string) (id : Z)
    : Answer * AdminState :=
  match require_admin s authorization with
  | Some e => (e, s)
  | None =>
      match ad_auth s with
      | None => (admin_error 503 "client_auth not enabled", s)
      | Some auth =>
          let '(affected, auth') := revoke_client now auth id in
          ((200%Z, obj [("id", int_value id); ("status", Str "revoked"); ("affected", int_value affected)]),
           with_auth s auth')
      end
  end.

(** Every endpoint. *)
Inductive AdminRequest :=
| GetBudget (key : string)
| SetBudget (key : string) (limit : Z)
| ResetBudget (now key : string)
| CreateClient (rng : nat -> string) (now : string) (req : CreateClientRequest)
| ListClients (user_id : option Z)
| RevokeClient (now : string) (id : Z).
Definition admin_step (s : AdminState) (authorization : option string) (r : AdminRequest) : Answer * AdminState :=
  match r with
  | GetBudget k => (get_budget s authorization k, s)
  | SetBudget k l => set_budget s authorization k l
  | ResetBudget now k => reset_budget now s authorization k
  | CreateClient rng now req => create_client_handler rng now s authorization req
  | ListClients u => (list_clients s authorization u, s)
  | RevokeClient now id => revoke_client_handler now s authorization id
  end.
End Admin.

(** ** Properties *)

Section AdminProps.
Context `{Sha256} {B : Type} `{BudgetStore B} (parse_rfc3339 : string -> option Z)
  (order_by_created : list ClientTokenRow -> list ClientTokenRow).
Implicit Types (s : AdminState (B := B)).
Notation step := (admin_step parse_rfc3339 order_by_created).

(** The caller holds the configured key, up to the digest that is compared. *)
Definition is_admin s (authorization : option string) : Prop :=
  exists key, ad_key s = Some key /\ key <> "" /\
    sha256_of (default "" (authorization ≫= strip_prefix "Bearer ")) = sha256_of key.

Lemma require_admin_spec s auth :
  (require_admin s auth = None /\ is_admin s auth) \/
  (require_admin s auth = Some (admin_error 401 "unauthorized") /\ ~ is_admin s auth).
Proof.
  unfold require_admin, is_admin. destruct (ad_key s) as [key|]; cbn [default from_option id].
  2: { right. split; [done|]. by intros (k & ? & _). }
  destruct (String.eqb_spec key "") as [->|Hk].
  { right. split; [done|]. by intros (k & [= <-] & ? & _). }
  match goal with |- context [String.eqb (sha256_of ?p) (sha256_of key)] =>
    destruct (String.eqb_spec (sha256_of p) (sha256_of key)) as [E|E] end; cbn [negb].
  - left. split; [done|]. by exists key.
  - right. split; [done|]. intros (k & [= <-] & _ & ?). done.
Qed.

(** No admin endpoint answers anything but 401, or changes anything, for a
    caller without the key; a key that is missing or empty in the configuration
    admits nobody; and 401 is answered to nobody else. *)
Theorem admin_gate s auth r :
  ((step s auth r).1.1 = 401%Z <-> ~ is_admin s auth) /\
  (~ is_admin s auth -> step s auth r = (admin_error 401 "unauthorized", s)) /\
  (default "" (ad_key s) = "" -> ~ is_admin s auth).
Proof.
  assert (Hno : ~ is_admin s auth -> step s auth r = (admin_error 401 "unauthorized", s)).
  { intros Hn. destruct (require_admin_spec s auth) as [[_ ?]|[E _]]; [done|].
    destruct r; simpl; unfold get_budget, set_budget, reset_budget, create_client_handler, list_clients,
      revoke_client_handler; by rewrite E. }
  split; [split|split; [done|]].
  - intros E Ha. destruct (require_admin_spec s auth) as [[Er _]|[_ ?]]; [|done]. revert E.
    destruct r; simpl; unfold get_budget, set_budget, reset_budget, create_client_handler, list_clients,
      revoke_client_handler; rewrite Er; try (repeat case_match; simplify_eq/=; discriminate).
    destruct (ad_auth s) as [a|]; [|discriminate]. unfold create_client.
    repeat case_match; simplify_eq/=; discriminate.
  - intros Hn. by rewrite Hno.
  - intros Hk (k & Hs & Hne & _). rewrite Hs in Hk. done.
Qed.

(** Listing tokens reveals nothing of the stored secrets: the answer is the
    same whatever the hash column holds. *)
Theorem list_clients_hides_hashes s auth uid a hashes :
  ad_auth s = Some a -> length hashes = length (ca_db a) ->
  list_clients order_by_created
    (mkAdmin (ad_key s) (ad_budget s) (Some (mkAuth (zip (map fst (ca_db a)) hashes) (ca_cache a) (ca_config a))))
    auth uid = list_clients order_by_created s auth uid.
Proof.
  intros Ha Hl. unfold list_clients, require_admin. rewrite Ha. cbn [ad_key ad_auth].
  repeat case_match; simplify_eq/=; try done. unfold list_for_user. simpl.
  change (map fst (zip (map fst (ca_db a)) hashes)) with ((zip (map fst (ca_db a)) hashes).*1).
  rewrite fst_zip; [done|]. rewrite length_map. lia.
Qed.
End AdminProps.

Section Lifecycle.
Context `{Sha256Laws} {B : Type} `{BudgetStore B} (parse_rfc3339 : string -> option Z).

(** A token handed out works: when minting answers 201, the wire token in that
    answer, presented as a bearer at any later time, is let through with a view
    that names the new row and charges the bucket [token:<id>]; the prefix in
    the answer is the one in the table and the token itself is not stored. *)
Theorem minted_token_accepted rng now (s : AdminState (B := B)) auth a req answer s' :
  ad_auth s = Some a -> coherent a -> au_enabled (ca_config a) = true ->
  is_alnum_marker (au_env_marker (ca_config a)) = true ->
  (forall k, String.length (rng k) = SECRET_LEN) -> cr_expires_at req = None ->
  create_client_handler parse_rfc3339 rng now s auth req = ((201%Z, answer), s') ->
  exists wire id a', get_str "token" answer = Some wire /\ get_str "prefix" answer = Some (stake 10 wire) /\
    get "id" answer = Some (int_value id) /\ ad_auth s' = Some a' /\
    forall clock proto,
      (au_require_https (ca_config a) = true -> proto = Some "https") ->
      (verify_request parse_rfc3339 clock (Some a') (mkHeaders proto (Some ("Bearer " +:+ wire)))).1 =
        Pass (Some (mkView id (stake 10 wire) (default 0%Z (cr_user_id req)) (Some (trim (cr_label req)))
                      ("token:" +:+ show_Z id))).
Proof.
  intros Ha Hco Hen Hm Hrng Hexp. unfold create_client_handler.
  destruct (require_admin_spec s auth) as [[Er _]|[Er _]]; rewrite Er; [|done].
  rewrite Ha. unfold create_client. rewrite Hexp. destruct (String.eqb (trim (cr_label req)) ""); [done|].
  destruct (mint _ _ _ _ _ _ _ _ _) as [[[id token] db']|] eqn:Emint; [|done]. intros [= <- <-].
  destruct Hco as [Hwf Hc].
  destruct (mint_spec _ _ _ _ _ _ _ _ _ _ _ _ Hwf Emint) as ((j & Htok) & Hwf' & Hfind & Hold & Hnone).
  set (a' := mkAuth db' (ca_cache a) (ca_config a)).
  assert (Hco' : coherent a').
  { split; [done|]. simpl. intros p e He. specialize (Hc p e He). rewrite Hold; [done|]. intros ->. congruence. }
  assert (Hpre : tk_prefix token = stake 10 (tk_wire token)).
  { subst token. by apply take_chars_ascii, generate_ascii. }
  exists (tk_wire token), id, a'. split_and!; [done|by rewrite <-Hpre|done|done|].
  intros clock proto Hproto.
  assert (Hparse : parse (tk_wire token) = Some (mkPrefixed (tk_wire token) (tk_prefix token))).
  { subst token. by apply parse_generate_ok. }
  rewrite (verify_request_judge parse_rfc3339 clock a' _ (tk_wire token)); try done.
  2: { by apply lookup_coherent. }
  2: { by rewrite Hparse. }
  assert (wire_prefix (tk_wire token) = tk_prefix token) as -> by (by subst token).
  change (ca_db a') with db'. rewrite Hfind. apply judge_pass. eexists _, _. split_and!; [reflexivity|by subst token|done|done|].
  simpl. by rewrite Hpre.
Qed.
End Lifecycle.

(** Limits and counters set through the API are what the API shows and what
    the proxy enforces, on the SQLite store: after a limit in range is set, the
    key's limit is that limit and its usage is unchanged; after a reset its
    usage is zero and its limit unchanged; and no other key's numbers move. *)
Theorem admin_budget_roundtrip `{Sha256} (s : AdminState (B := SqliteBudget)) b auth key limit now :
  ad_budget s = Some b -> is_admin s auth -> (0 <= limit <= i64_max)%Z ->
  let s1 := (set_budget s auth key limit).2 in
  let s2 := (reset_budget now s auth key).2 in
  exists b1 b2, ad_budget s1 = Some b1 /\ ad_budget s2 = Some b2 /\
    get_limit b1 key = Ok (Some limit) /\ get_usage b1 key = get_usage b key /\
    get_usage b2 key = Ok 0%Z /\ get_limit b2 key = get_limit b key /\
    (forall k, k <> key -> get_budget s1 auth k = get_budget s auth k /\ get_budget s2 auth k = get_budget s auth k).
Proof.
  intros Hb Ha Hl. destruct (require_admin_spec s auth) as [[Er _]|[_ ?]]; [|done].
  unfold set_budget, reset_budget. rewrite Er, Hb. cbn [set_limit reset_usage sqlite_budget].
  unfold sqlite_set_limit, sqlite_reset_usage, bind_u64. rewrite (proj2 (Z.leb_le limit i64_max)) by lia.
  eexists _, _. split; [reflexivity|]. split; [reflexivity|]. simpl. unfold sqlite_get_limit, sqlite_get_usage. simpl.
  rewrite lookup_insert_eq. split_and!; [done..| |done|].
  - destruct (sb_usage b !! key) as [[n at_]|] eqn:E; [by rewrite lookup_insert_eq|by rewrite E].
  - intros k Hk. unfold get_budget, with_budget, require_admin in *. simpl in *. rewrite Er, Hb.
    unfold sqlite_get_usage, sqlite_get_limit. simpl. rewrite lookup_insert_ne by done.
    split; [done|]. destruct (sb_usage b !! key); [|done]. by rewrite lookup_insert_ne.
Qed.

(** ** Concrete runs *)

#[local] Existing Instance demo_sha.
Definition demo_admin : AdminState := mkAdmin (Some "k3y") (Some sqlite_open) (Some demo_auth).
Definition demo_rng (k : nat) : string := "nmlkjihgfedcba9876543210".
Lemma admin_budget_roundtrip_witness :
  exists b1, ad_budget (set_budget demo_admin (Some "Bearer k3y") "alice" 100).2 = Some b1 /\
    get_limit b1 "alice" = Ok (Some 100%Z).
Proof.
  destruct (admin_budget_roundtrip demo_admin sqlite_open (Some "Bearer k3y") "alice" 100 "now" eq_refl
    ltac:(exists "k3y"; repeat split; discriminate) ltac:(vm_compute; split; discriminate))
    as (b1 & b2 & H1 & _ & H2 & _).
  exists b1. split; [exact H1|exact H2].
Defined.
Lemma list_clients_hides_hashes_witness :
  @list_clients demo_sha SqliteBudget id
    (mkAdmin (Some "k3y") (Some sqlite_open)
       (Some (mkAuth (zip (map fst demo_db) ["other"]) (ca_cache demo_auth) demo_auth_config)))
    (Some "Bearer k3y") (Some 0%Z) = @list_clients demo_sha SqliteBudget id demo_admin (Some "Bearer k3y") (Some 0%Z).
Proof.
  exact (list_clients_hides_hashes id demo_admin (Some "Bearer k3y") (Some 0%Z) demo_auth ["other"] eq_refl eq_refl).
Defined.
Lemma minted_token_accepted_witness :
  exists wire a', ad_auth (create_client_handler no_time demo_rng "now" demo_admin (Some "Bearer k3y")
      (mkCreate " laptop " None None)).2 = Some a' /\
    (verify_request no_time 99 (Some a') (mkHeaders None (Some ("Bearer " +:+ wire)))).1 =
      Pass (Some (mkView 2 (stake 10 wire) 0 (Some "laptop") "token:2")).
Proof.
  assert (Hs : (create_client_handler no_time demo_rng "now" demo_admin (Some "Bearer k3y")
    (mkCreate " laptop " None None)).1.1 = 201%Z) by (vm_compute; reflexivity).
  assert (Hi : get "id" (create_client_handler no_time demo_rng "now" demo_admin (Some "Bearer k3y")
    (mkCreate " laptop " None None)).1.2 = Some (int_value 2)) by (vm_compute; reflexivity).
  destruct (create_client_handler no_time demo_rng "now" demo_admin (Some "Bearer k3y") (mkCreate " laptop " None None))
    as [[status answer] s'] eqn:E. cbn [fst snd] in Hs, Hi. subst status.
  destruct (@minted_token_accepted demo_sha demo_sha_laws SqliteBudget no_time demo_rng "now" demo_admin
    (Some "Bearer k3y") demo_auth (mkCreate " laptop " None None) answer s' eq_refl demo_coherent eq_refl eq_refl
    (fun _ => eq_refl) eq_refl E) as (wire & id & a' & _ & _ & Hid & Ha & Hv).
  assert (Hid2 : id = 2%Z).
  { rewrite Hi in Hid. unfold int_value in Hid. destruct (0 <=? id)%Z; cbn in Hid; congruence. }
  subst id. exists wire, a'. split; [exact Ha|]. rewrite (Hv 99%Z None ltac:(discriminate)). reflexivity.
Defined.
