(* ===== verification/EvalReport.v ===== *)
(** * The evaluation report ([src/bin/nanoguard-eval.rs])

    The table the harness prints, the report it writes, and the whole program:
    arguments, corpus, scoring, output and exit status. *)

From Stdlib Require Import SpecFloat.
From S2P Require Import Prelude RustStr Json Regex Redact Eval Admin.

(** ** Numbers with three decimals *)

(** The quotient of non-negative integers to the nearest integer, ties to even. *)
Definition div_even (a b : Z) : Z :=
  let q := (a / b)%Z in
  let r := (a mod b)%Z in
  if (2 * r <? b)%Z then q else if (b <? 2 * r)%Z then (q + 1)%Z else if Z.even q then q else (q + 1)%Z.
Definition pad_zeros (n : nat) (s : string) : string := sconcat (replicate (n - String.length s) "0") +:+ s.
(** [{:.3}]: the exact value of the double, rounded to thousandths. *)
Definition thousandths (m : positive) (e : Z) : Z :=
  if (0 <=? e)%Z then (Z.pos m * 2 ^ e * 1000)%Z else div_even (Z.pos m * 1000) (2 ^ (- e)).
Definition show_thousandths (n : Z) : string := show_Z (n / 1000) +:+ "." +:+ pad_zeros 3 (show_Z (n mod 1000)).
Definition show_f64_3 (x : f64) : string :=
  match x with
  | S754_nan => "NaN"
  | S754_infinity s => if s then "-inf" else "inf"
  | S754_zero s => (if s then "-" else "") +:+ "0.000"
  | S754_finite s m e => (if s then "-" else "") +:+ show_thousandths (thousandths m e)
  end.

(** ** The table *)

Record Report := mkReport {
  rp_version : string;
  rp_corpus_path : string;
  rp_record_count : nat;
  rp_rule_count : nat;
  rp_match_mode : string;
  rp_tally : Tally;
}.
Definition rule_line : string := sconcat (replicate 80 "─").
Definition count_row (name : string) (c : EntityCounts) : string :=
  join " " [pad_right 28 name; pad_left 6 (show_Z (ec_tp c)); pad_left 6 (show_Z (ec_fp c)); pad_left 6 (show_Z (ec_fn c));
            pad_left 10 (show_f64_3 (precision c)); pad_left 8 (show_f64_3 (recall c)); pad_left 8 (show_f64_3 (f1 c))].
Definition header_row : string :=
  join " " [pad_right 28 "Entity"; pad_left 6 "TP"; pad_left 6 "FP"; pad_left 6 "FN"; pad_left 10 "Precision"; pad_left 8 "Recall";
            pad_left 8 "F1"].
(** The rows in the order of a [BTreeMap]. *)
Definition row_le (x y : string * EntityCounts) : Prop := String.leb x.1 y.1 = true.
#[export] Instance row_le_dec : RelDecision row_le.
Proof. intros x y. unfold row_le. apply _. Defined.
Definition entity_rows (t : Tally) : list (string * EntityCounts) := merge_sort row_le (map_to_list (ta_by_entity t)).

Section Report.
Context (debug : string -> string).
(** The lines printed, or the panic of [truncate]. *)
Definition print_report (r : Report) : option (list string) :=
  examples ← print_examples debug (rp_tally r);
  Some (["nanoguard-eval v" +:+ rp_version r;
         "Corpus: " +:+ rp_corpus_path r +:+ " (" +:+ show_Z (Z.of_nat (rp_record_count r)) +:+ " record(s), " +:+
           show_Z (Z.of_nat (ta_annotations (rp_tally r))) +:+ " annotation(s))";
         "Rules:  " +:+ show_Z (Z.of_nat (rp_rule_count r)) +:+ " entity rules";
         "Match:  " +:+ rp_match_mode r; ""; header_row; rule_line] ++
        map (fun kv => count_row kv.1 kv.2) (entity_rows (rp_tally r)) ++
        [rule_line; count_row "TOTAL" (ta_totals (rp_tally r))] ++ examples).
End Report.

(** ** The structured report *)

Definition nat_value (n : nat) : value := int_value (Z.of_nat n).
Definition counts_value (c : EntityCounts) : value :=
  obj [("tp", int_value (ec_tp c)); ("fp", int_value (ec_fp c)); ("fn_count", int_value (ec_fn c))].
Definition match_value (e : MatchExample) : value :=
  obj [("id", opt_value (me_id e)); ("text", Str (me_text e)); ("matched_entity", Str (me_entity e));
       ("match_text", Str (me_match e)); ("start", nat_value (me_start e)); ("end", nat_value (me_end e))].
Definition miss_value (e : MissExample) : value :=
  obj [("id", opt_value (ms_id e)); ("text", Str (ms_text e)); ("missed_entity", Str (ms_entity e));
       ("expected_text", Str (ms_expected e)); ("start", nat_value (ms_start e)); ("end", nat_value (ms_end e))].
Definition report_value (r : Report) : value :=
  let t := rp_tally r in
  obj [("version", Str (rp_version r)); ("corpus_path", Str (rp_corpus_path r)); ("record_count", nat_value (rp_record_count r));
       ("annotation_count", nat_value (ta_annotations t)); ("rule_count", nat_value (rp_rule_count r));
       ("match_mode", Str (rp_match_mode r)); ("totals", counts_value (ta_totals t));
       ("by_entity", obj (map (fun kv => (kv.1, counts_value kv.2)) (entity_rows t)));
       ("false_positive_examples", Arr (map match_value (ta_fps t))); ("false_negative_examples", Arr (map miss_value (ta_fns t)))].

(** ** The program *)

(** How it ends, with the lines printed and the file written. *)
Inductive EvalEnd :=
| EvalExit (code : Z) (out : list string) (file : option (string * string))
| EvalError (message : string) (out : list string)
| EvalPanic.

Section Main.
Context `{Unicode} `{RegexEngine} (version : string) (debug : string -> string) (record_of : string -> result string GoldRecord)
  (read_file : string -> result string string) (to_string_pretty : value -> result string string)
  (create : string -> result string unit) (write_all : string -> string -> result string unit).

Definition eval_main (args : list string) : EvalEnd :=
  match parse_args args args_default with
  | Help => EvalExit 0 [] None
  | ArgError m => EvalError m []
  | Parsed a =>
      match read_file (ea_gold a) with
      | Err _ => EvalError ("opening corpus " +:+ ea_gold a) []
      | Ok content =>
          match load_corpus record_of content with
          | Err m => EvalError m []
          | Ok corpus =>
              match build_with_style read_file default_inline_patterns (ea_dicts a) PlaceholderStyle.Bare with
              | Err m => EvalError m []
              | Ok redactor =>
                  let t := score redactor (ea_match_mode a) (ea_max_examples a) corpus in
                  let report := mkReport version (ea_gold a) (length corpus) (length (rd_rules redactor))
                                  (mode_name (ea_match_mode a)) t in
                  match print_report debug report with
                  | None => EvalPanic
                  | Some out =>
                      match ea_json_out a with
                      | None => EvalExit (exit_status t) out None
                      | Some path =>
                          match to_string_pretty (report_value report) with
                          | Err e => EvalError e out
                          | Ok text =>
                              match create path with
                              | Err _ => EvalError ("creating report at " +:+ path) out
                              | Ok _ =>
                                  match write_all path text with
                                  | Err e => EvalError e out
                                  | Ok _ => EvalExit (exit_status t) out (Some (path, text))
                                  end
                              end
                          end
                      end
                  end
              end
          end
      end
  end.
End Main.

(** ** Properties *)

(** The order of the rows is a total order on the names. *)
Lemma string_leb_trans (a b c : string) : String.leb a b = true -> String.leb b c = true -> String.leb a c = true.
Proof.
  unfold String.leb. revert b c. induction a as [|x a IH]; intros [|y b] [|z c]; simpl; try done.
  unfold Ascii.compare. destruct (N.compare_spec (Ascii.N_of_ascii x) (Ascii.N_of_ascii y)) as [Hxy|Hxy|Hxy]; [| |done].
  - rewrite Hxy. destruct (N.compare _ _); [|done|done]. apply IH.
  - intros _. destruct (N.compare_spec (Ascii.N_of_ascii y) (Ascii.N_of_ascii z)) as [Hyz|Hyz|Hyz]; [| |done].
    + rewrite <-Hyz. by rewrite (proj2 (N.compare_lt_iff _ _) Hxy).
    + by rewrite (proj2 (N.compare_lt_iff _ _) (N.lt_trans _ _ _ Hxy Hyz)).
Qed.
#[export] Instance row_le_trans : Transitive row_le.
Proof. intros x y z. apply string_leb_trans. Qed.
#[export] Instance row_le_total : Total row_le.
Proof. intros x y. apply String.leb_total. Qed.

Section ReportProps.
Context `{RegexEngine}.

Definition sum_of (f : EntityCounts -> Z) (l : list (string * EntityCounts)) : Z := foldr (fun kv acc => f kv.2 + acc)%Z 0%Z l.
Lemma sum_of_perm f l1 l2 : l1 ≡ₚ l2 -> sum_of f l1 = sum_of f l2.
Proof. induction 1; simpl; lia. Qed.
(** The columns of a tally add up to its totals. *)
Definition adds_up (t : Tally) : Prop :=
  forall f, In f [ec_tp; ec_fp; ec_fn] -> sum_of f (map_to_list (ta_by_entity t)) = f (ta_totals t).

Lemma adds_up_bump add entity t :
  In add [add_tp; add_fp; add_fn] -> adds_up t -> adds_up (tally_bump add entity t).
Proof.
  intros Hadd Ht f Hf. specialize (Ht f Hf). simpl.
  assert (Hk : exists k, f no_counts = 0%Z /\ forall c, f (add c) = (f c + k)%Z).
  { destruct Hadd as [<-|[<-|[<-|[]]]], Hf as [<-|[<-|[<-|[]]]]; first [by exists 1%Z|exists 0%Z; split; [done|]; intros c; simpl; lia]. }
  destruct Hk as (k & H0 & Hk). set (m := ta_by_entity t) in *. rewrite Hk, <-Ht. destruct (m !! entity) as [c|] eqn:E; simpl.
  - rewrite <-insert_delete_eq.
    rewrite (sum_of_perm f _ _ (map_to_list_insert (delete entity m) entity (add c) ltac:(by rewrite lookup_delete_eq))).
    rewrite <-(insert_id m entity c E) at 2. rewrite <-insert_delete_eq.
    rewrite (sum_of_perm f _ _ (map_to_list_insert (delete entity m) entity c ltac:(by rewrite lookup_delete_eq))). simpl. rewrite Hk. lia.
  - rewrite (sum_of_perm f _ _ (map_to_list_insert m entity (add no_counts) E)). simpl. rewrite Hk. lia.
Qed.

Lemma hits_adds_up mode ds golds t : adds_up t -> adds_up (hits mode ds golds t).2.
Proof.
  revert golds t. induction ds as [|d ds IH]; intros golds t Ht; simpl; [done|]. destruct (claim mode d golds) as [[g golds']|].
  - specialize (IH golds' _ (adds_up_bump add_tp (an_entity g) t ltac:(simpl; tauto) Ht)). by destruct (hits _ _ _ _) as [[]].
  - specialize (IH golds t Ht). by destruct (hits _ _ _ _) as [[]].
Qed.
Lemma fold_adds_up {A} (step : Tally -> A -> Tally) l t :
  (forall t x, adds_up t -> adds_up (step t x)) -> adds_up t -> adds_up (foldl step t l).
Proof. intros Hs. revert t. induction l as [|x l IH]; intros t Ht; simpl; [done|]. by apply IH, Hs. Qed.
Lemma score_adds_up redactor mode max corpus : adds_up (score redactor mode max corpus).
Proof.
  apply fold_adds_up; [|by intros f [<-|[<-|[<-|[]]]]]. intros t rec Ht. unfold score_record.
  pose proof (hits_adds_up mode (find_matches redactor (gr_text rec)) (map (fun g => (g, false)) (gr_annotations rec))
    (mkTally (ta_totals t) (ta_by_entity t) (ta_fps t) (ta_fns t) (ta_annotations t + length (gr_annotations rec))) Ht) as Hh.
  destruct (hits _ _ _ _) as [[flags golds] t1]. apply fold_adds_up; [|apply fold_adds_up; [|done]].
  - intros t2 [g hit] H2. unfold add_miss. destruct hit; [done|]. pose proof (adds_up_bump add_fn (an_entity g) t2 ltac:(simpl; tauto) H2).
    by destruct (Nat.ltb _ _).
  - intros t2 [d hit] H2. unfold add_false_positive. destruct hit; [done|].
    pose proof (adds_up_bump add_fp (rm_entity d) t2 ltac:(simpl; tauto) H2). by destruct (Nat.ltb _ _).
Qed.

(** The table adds up: it has one row for each entity counted, in strict byte
    order of their names, and the row [TOTAL] is in each of its three columns
    the sum of the rows above it. *)
Theorem report_adds_up redactor mode max corpus :
  let t := score redactor mode max corpus in
  (forall f, In f [ec_tp; ec_fp; ec_fn] -> sum_of f (entity_rows t) = f (ta_totals t)) /\
  (forall entity c, In (entity, c) (entity_rows t) <-> ta_by_entity t !! entity = Some c) /\
  StronglySorted row_le (entity_rows t) /\ NoDup (map fst (entity_rows t)).
Proof.
  intros t. pose proof (score_adds_up redactor mode max corpus) as Ht. fold t in Ht. unfold entity_rows.
  pose proof (merge_sort_Permutation row_le (map_to_list (ta_by_entity t))) as Hp. split; [|split; [|split]].
  - intros f Hf. rewrite (sum_of_perm f _ _ Hp). by apply Ht.
  - intros entity c. rewrite <-list_elem_of_In, Hp, elem_of_map_to_list. done.
  - by apply StronglySorted_merge_sort; apply _.
  - rewrite Hp. apply NoDup_fst_map_to_list.
Qed.
End ReportProps.

(** ** Concrete runs *)

Example three_decimals :
  map show_f64_3 [f64_div (f64_of 2) (f64_of 3); f64_div (f64_of 1) (f64_of 16); f64_div (f64_of 3) (f64_of 16); f64_of 1; f64_of 0] =
  ["0.667"; "0.062"; "0.188"; "1.000"; "0.000"].
Proof. by vm_compute. Qed.
Example one_row : count_row "NAME" (mkCounts 2 1 0) =
  "NAME                              2      1      0      0.667    1.000    0.800".
Proof. by vm_compute. Qed.
