(* ===== verification/Anthropic.v ===== *)
(** * The Anthropic Messages endpoint ([src/proxy/anthropic.rs])

    The typed request, its conversion to the OpenAI shape, the same guards in
    the same order as the chat handler, and the conversion of the answer back
    to content blocks. *)

From S2P Require Import Prelude RustStr Json Regex Vault Redact Deanon ToolGate Sse Matcher Policy Routing ClientAuth Budget Spotlight Schema AuditTrail Proxy.

Record AnthropicBlock := mkBlock { bl_kind : string; bl_text : option string }.
Inductive AnthropicContent :=
| AText (s : string)
| ABlocks (blocks : list AnthropicBlock).
Record AnthropicMessage := mkAMessage { am_role : string; am_content : AnthropicContent }.
Record AnthropicRequest := mkARequest {
  ar_model : string;
  ar_messages : list AnthropicMessage;
  ar_max_tokens : option Z;
  ar_system : option string;
  ar_stream : bool;
}.

Definition as_text (c : AnthropicContent) : string :=
  match c with
  | AText s => s
  | ABlocks blocks => join " " (omap bl_text blocks)
  end.
Definition request_text (req : AnthropicRequest) : string :=
  join " " (map (fun m => as_text (am_content m)) (ar_messages req)).

Definition anthropic_error (kind message : string) : value :=
  obj [("type", Str "error"); ("error", obj [("type", Str kind); ("message", Str message)])].

(** The masking loop, one state threaded through the texts. *)
Definition mask_block {S} (f : S -> string -> string * S) (st : S) (b : AnthropicBlock) : AnthropicBlock * S :=
  match bl_text b with
  | Some t => let '(r, st') := f st t in (mkBlock (bl_kind b) (Some r), st')
  | None => (b, st)
  end.
Definition mask_message {S} (f : S -> string -> string * S) (st : S) (m : AnthropicMessage) : AnthropicMessage * S :=
  match am_content m with
  | AText s => let '(r, st') := f st s in (mkAMessage (am_role m) (AText r), st')
  | ABlocks blocks => let '(bs, st') := map_st (mask_block f) st blocks in (mkAMessage (am_role m) (ABlocks bs), st')
  end.

(** The request in OpenAI shape. *)
Definition oai_messages (req : AnthropicRequest) : list value :=
  match ar_system req with
  | Some system => [obj [("role", Str "system"); ("content", Str system)]]
  | None => []
  end ++ map (fun m => obj [("role", Str (am_role m)); ("content", Str (as_text (am_content m)))]) (ar_messages req).
Definition oai_body (req : AnthropicRequest) : value :=
  obj [("model", Str (ar_model req)); ("messages", Arr (oai_messages req)); ("stream", Bool (ar_stream req));
       ("max_tokens", Num (PosInt (default 1024%Z (ar_max_tokens req))))].

Section Messages.
Context `{Unicode} `{RegexEngine} `{AhoCorasick} `{Iword} `{Serde} `{JsonSchema} `{Sha256} `{SerdeStruct}
  `{Disk} {B : Type} `{BudgetStore B} {W : Type} (send : W -> ChatRequest -> result string Upstream * W).
Implicit Types (st : AppState) (w : World (B := B) (W := W)).

Definition a_guard_stream (req : AnthropicRequest) : handler (World (B := B) (W := W)) Reply unit :=
  if ar_stream req
  then hreturn (ReplyJson 400 (anthropic_error "invalid_request_error"
         "nanoguard: /v1/messages does not yet support stream=true; see README"))
  else hret tt.
Definition a_guard_keywords st (user_text : string) : handler (World (B := B) (W := W)) Reply unit :=
  if pc_input_enabled (st_config st) then
    match check_input_with_shadow (st_matchers st) user_text (pc_input_shadow (st_config st)) with
    | None => hpanic
    | Some (Blocked word) =>
        hreturn (ReplyJson 400 (anthropic_error "invalid_request_error"
          ("nanoguard: request blocked — prompt injection detected (`" +:+ word +:+ "`)")))
    | Some _ => hret tt
    end
  else hret tt.
Definition mask_request st (req : AnthropicRequest) : AnthropicRequest * LocalVault :=
  let vault := request_vault st in
  let acts := st_pii_actions st in
  if negb (is_empty_set (ap_mask acts)) then
    let '(ms, vault') :=
      map_st (mask_message (fun v t =>
        if pc_pii_reversible (st_config st) then redact_text_with_vault (st_redactor st) t (ap_mask acts) v
        else (redact_text_in (st_redactor st) t (ap_mask acts), v))) vault (ar_messages req) in
    (mkARequest (ar_model req) ms (ar_max_tokens req) (ar_system req) (ar_stream req), vault')
  else (req, vault).
Definition a_guard_pii st (user_text : string) (req : AnthropicRequest)
    : handler (World (B := B) (W := W)) Reply (AnthropicRequest * LocalVault) :=
  if pc_pii_enabled (st_config st) then
    let acts := st_pii_actions st in
    if negb (is_empty_set (ap_reject acts)) && contains_pii_in (st_redactor st) user_text (ap_reject acts)
    then hreturn (ReplyJson 400 (anthropic_error "invalid_request_error" "nanoguard: request blocked — PII detected"))
    else hret (mask_request st req)
  else hret (req, request_vault st).

Definition a_guard_budget (api_key : string) : handler (World (B := B) (W := W)) Reply unit :=
  fun w =>
    match w_budget w with
    | None => (Next tt, w)
    | Some budget =>
        match budget_check budget api_key with
        | Ok (Exceeded usage limit) =>
            (Return (ReplyJson 429 (anthropic_error "rate_limit_error"
               ("nanoguard: token budget exceeded (" +:+ show_Z usage +:+ "/" +:+ show_Z limit +:+ ")"))), w)
        | Ok _ | Err _ => (Next tt, w)
        end
    end.
Definition a_forward st (model : string) (body : value) : handler (World (B := B) (W := W)) Reply Upstream :=
  fun w =>
    match route_chain (st_pool st) (Some model) with
    | [] => (Return (ReplyJson 400 (anthropic_error "invalid_request_error"
               ("no backend configured for model `" +:+ model +:+ "`"))), w)
    | chain =>
        let '(out, _, http) := forward_with_failover send up_status up_drain (w_http w) body chain in
        let w' := mkWorld http (w_budget w) (w_audit w) in
        match out with
        | Committed r => (Next r, w')
        | AllFailed last_err last_5xx =>
            (Return (ReplyJson (default 502%Z (fst <$> last_5xx))
               (anthropic_error "api_error" (default "all backends failed" last_err))), w')
        | Panicked => (Panic, w')
        end
    end.

(** *** The answer *)

Definition a_schema st (model : string) (resp : value) : handler (World (B := B) (W := W)) Reply unit :=
  match st_schema st with
  | None => hret tt
  | Some v =>
      match pick v "/v1/messages" model with
      | None => hret tt
      | Some rule =>
          if negb (vo_passed (validate_response_text rule (first_content resp))) then
            match sv_on_violation v with
            | VReject => hreturn (ReplyJson 502 (anthropic_error "api_error"
                           ("response failed schema `" +:+ sr_name rule +:+ "`")))
            | LogOnly | Repair => hret tt
            end
          else hret tt
      end
  end.

Definition oai_message (resp : value) : value :=
  default Null (choices ← get_arr "choices" resp; choice ← head choices; get "message" choice).
Definition tool_use_block (tc : value) : value :=
  let input_value :=
    match get "function" tc ≫= get_str "arguments" with
    | Some s => match from_str s with Ok v => v | Err _ => Obj [] end
    | None => Obj []
    end in
  obj [("type", Str "tool_use"); ("id", default Null (get "id" tc));
       ("name", default (Str "unknown") (get2 "function" "name" tc)); ("input", input_value)].
Definition content_blocks (text : string) (message : value) : list value :=
  let blocks :=
    (if String.eqb text "" then [] else [obj [("type", Str "text"); ("text", Str text)]])
    ++ map tool_use_block (default [] (get_arr "tool_calls" message))
    ++ match get "nanoguard_denied_tools" message with
       | Some denied => [obj [("type", Str "nanoguard_denied_tools"); ("details", denied)]]
       | None => []
       end in
  match blocks with [] => [obj [("type", Str "text"); ("text", Str "")]] | _ => blocks end.
Definition stop_reason (message : value) : string :=
  match get "tool_calls" message with Some _ => "tool_use" | None => "end_turn" end.
Definition anthropic_response (model text : string) (resp : value) : value :=
  let message := oai_message resp in
  let usage k := default (Num (PosInt 0)) (get2 "usage" k resp) in
  obj [("id", Str (default "msg_nanoguard" (get_str "id" resp))); ("type", Str "message");
       ("role", Str "assistant"); ("model", Str model); ("content", Arr (content_blocks text message));
       ("stop_reason", Str (stop_reason message));
       ("usage", obj [("input_tokens", usage "prompt_tokens"); ("output_tokens", usage "completion_tokens")])].

(** The message text after the output filter and the deanonymiser; [None] is a
    panic of the filter. *)
Definition a_text st (vault : LocalVault) (resp : value) : option string :=
  let text := default "" (get_str "content" (oai_message resp)) in
  filtered ← (if pc_output_enabled (st_config st) then filter_output (st_matchers st) text else Some text);
  Some (if pc_pii_reversible (st_config st) && negb (vault_is_empty vault)
        then restore (strategy_from_name (pc_deanonymize_strategy (st_config st))) vault filtered
        else filtered).

Definition a_spend (api_key model : string) (ck : Clock) (resp : value) : SpendRecord :=
  mkSpend api_key (usage_field "prompt_tokens" resp) (usage_field "completion_tokens" resp) model (ck_now ck).
Definition a_respond st (ck : Clock) (api_key model : string) (vault : LocalVault) (up : Upstream)
    : handler (World (B := B) (W := W)) Reply Reply :=
  match up_json up with
  | Err e => hreturn (ReplyJson 502 (anthropic_error "api_error" e))
  | Ok resp =>
      do! _ <- hmodify (fun w => if is_success (up_status up) then record (a_spend api_key model ck resp) w else w) in
      let gated := gate_reply st resp in
      do! _ <- a_schema st model gated in
      match a_text st vault gated with
      | None => hpanic
      | Some text => hret (ReplyJson (up_status up) (anthropic_response model text gated))
      end
  end.

Definition messages st (client : option ClientView) (ck : Clock) (req : AnthropicRequest)
    : handler (World (B := B) (W := W)) Reply Reply :=
  let api_key := match client with Some view => cv_budget_key view | None => "default" end in
  do! _ <- a_guard_stream req in
  let user_text := request_text req in
  do! _ <- a_guard_keywords st user_text in
  do! (req', vault) <- a_guard_pii st user_text req in
  let body := apply_spotlight st (oai_body req') in
  do! _ <- a_guard_budget api_key in
  do! up <- a_forward st (ar_model req') body in
  a_respond st ck api_key (ar_model req') vault up.
End Messages.

(** ** Properties *)

Section MessagesProps.
Context `{Unicode} `{RegexEngine} `{AhoCorasick} `{Iword} `{Serde} `{JsonSchema} `{Sha256} `{SerdeStruct}
  `{Disk} {B : Type} `{BudgetStore B} {W : Type} (send : W -> ChatRequest -> result string Upstream * W).
Implicit Types (st : AppState) (w : World (B := B) (W := W)).

Definition a_key (client : option ClientView) : string :=
  match client with Some view => cv_budget_key view | None => "default" end.
Definition a_masked st (req : AnthropicRequest) : AnthropicRequest * LocalVault :=
  if pc_pii_enabled (st_config st) then mask_request st req else (req, request_vault st).
Definition a_body st (req : AnthropicRequest) : value := apply_spotlight st (oai_body (a_masked st req).1).

(** The guards the request has to pass. *)
Definition a_pass st w (client : option ClientView) (req : AnthropicRequest) : Prop :=
  ar_stream req = false /\
  (pc_input_enabled (st_config st) = true ->
     exists v, check_input_with_shadow (st_matchers st) (request_text req) (pc_input_shadow (st_config st)) = Some v
       /\ forall word, v <> Blocked word) /\
  (pc_pii_enabled (st_config st) = true ->
     contains_pii_in (st_redactor st) (request_text req) (ap_reject (st_pii_actions st)) = false) /\
  budget_pass w (a_key client).

Lemma mask_request_model st req : ar_model (mask_request st req).1 = ar_model req.
Proof. unfold mask_request. destruct (negb _); [|done]. by destruct (map_st _ _ _). Qed.
Lemma a_masked_model st req : ar_model (a_masked st req).1 = ar_model req.
Proof. unfold a_masked. destruct (pc_pii_enabled _); [apply mask_request_model|done]. Qed.

(** [m] lets [a] through under [P], or stops; the world stays as it was. *)
Definition passes {A} (m : handler (World (B := B) (W := W)) Reply A) w (a : A) (P : Prop) : Prop :=
  (m w = (Next a, w) /\ P) \/ ((m w).2 = w /\ forall x, (m w).1 <> Next x).
Lemma passes_bind {A C} (m : handler World Reply A) (k : A -> handler World Reply C) w a P :
  passes m w a P ->
  ((hbind m k w).2 = w /\ forall x, (hbind m k w).1 <> Next x) \/ (P /\ hbind m k w = k a w).
Proof.
  unfold hbind. intros [[E HP]|[Hw Hn]]; [right; by rewrite E|left].
  destruct (m w) as [[x|r|] w']; simpl in *; [by destruct (Hn x)|done|done].
Qed.

Lemma stream_passes req w : passes (a_guard_stream req) w tt (ar_stream req = false).
Proof. unfold passes, a_guard_stream. destruct (ar_stream req); [right; split; [done|discriminate]|by left]. Qed.
Lemma keywords_passes st text w :
  passes (a_guard_keywords st text) w tt
    (pc_input_enabled (st_config st) = true ->
       exists v, check_input_with_shadow (st_matchers st) text (pc_input_shadow (st_config st)) = Some v
         /\ forall word, v <> Blocked word).
Proof.
  unfold passes, a_guard_keywords. destruct (pc_input_enabled _); [|left; split; [done|discriminate]].
  destruct (check_input_with_shadow _ _ _) as [[word| | |]|];
    try (left; split; [done|]; intros _; eexists; split; [reflexivity|]; discriminate);
    right; split; done.
Qed.
Lemma pii_passes st req w :
  passes (a_guard_pii st (request_text req) req) w (a_masked st req)
    (pc_pii_enabled (st_config st) = true ->
       contains_pii_in (st_redactor st) (request_text req) (ap_reject (st_pii_actions st)) = false).
Proof.
  unfold passes, a_guard_pii, a_masked. destruct (pc_pii_enabled _); [|left; split; [done|discriminate]].
  destruct (negb (is_empty_set (ap_reject _)) && _) eqn:E; [right; split; [done|discriminate]|]. left. split; [done|].
  intros _. apply andb_false_iff in E as [E|E]; [|done]. apply negb_false_iff in E. unfold is_empty_set in E.
  apply bool_decide_eq_true in E. rewrite E. apply contains_pii_in_empty.
Qed.
Lemma budget_passes key w : passes (a_guard_budget key) w tt (budget_pass w key).
Proof.
  unfold passes, a_guard_budget, budget_pass. destruct (w_budget w) as [b|]; [|left; split; [done|discriminate]].
  destruct (budget_check b key) as [[]|] eqn:E; try (right; split; [done|discriminate]);
    left; (split; [done|]); intros b' u l [= <-]; congruence.
Qed.

(** Step over the guard the goal starts with. *)
Ltac pass_guard L :=
  match goal with |- context [hbind ?m ?k ?w] =>
    let P := fresh "P" in let E := fresh "E" in
    destruct (passes_bind m k w _ _ L) as [?|[P E]]; [left; assumption|rewrite E; clear E] end.

(** The request either stops at a guard with the world as it was, or reaches
    the backends with the masked body. *)
Lemma messages_run st client ck req w :
  ((messages send st client ck req w).2 = w /\ forall a, (messages send st client ck req w).1 <> Next a) \/
  (a_pass st w client req /\
   messages send st client ck req w =
     hbind (a_forward send st (ar_model req) (a_body st req))
       (a_respond st ck (a_key client) (ar_model req) (a_masked st req).2) w).
Proof.
  unfold messages, a_pass. fold (a_key client).
  pass_guard (stream_passes req w). pass_guard (keywords_passes st (request_text req) w).
  pass_guard (pii_passes st req w).
  rewrite <-(a_masked_model st req). unfold a_body. destruct (a_masked st req) as [req' vault]. cbn [fst snd].
  pass_guard (budget_passes (a_key client) w).
  right. by split_and!.
Qed.

Lemma a_schema_world st m resp w : (a_schema st m resp w).2 = w.
Proof.
  unfold a_schema. destruct (st_schema st) as [v|]; [|done]. destruct (pick v _ m) as [rule|]; [|done].
  destruct (negb _); [|done]. by destruct (sv_on_violation v).
Qed.
Lemma a_respond_world st ck key m vault up w :
  w_http (a_respond st ck key m vault up w).2 = w_http w /\ w_audit (a_respond st ck key m vault up w).2 = w_audit w.
Proof.
  unfold a_respond, hbind, hmodify, hret, hreturn, hpanic. destruct (up_json up) as [resp|e]; [|done].
  set (w1 := if is_success (up_status up) then _ else w).
  assert (Hw1 : w_http w1 = w_http w /\ w_audit w1 = w_audit w).
  { subst w1. destruct (is_success _); [|done]. by rewrite record_http, record_audit. }
  pose proof (a_schema_world st m (gate_reply st resp) w1) as Hw.
  destruct (a_schema st m _ w1) as [[] w2]; simpl in *; subst; try done.
  by destruct (a_text st vault _).
Qed.

Lemma messages_guarded st client ck req w :
  w_http (messages send st client ck req w).2 = w_http w \/
  (a_pass st w client req /\
   w_http (messages send st client ck req w).2 =
     (forward_with_failover send up_status up_drain (w_http w) (a_body st req)
        (route_chain (st_pool st) (Some (ar_model req)))).2).
Proof.
  destruct (messages_run st client ck req w) as [[E _]|[HP E]]; [left; by rewrite E|]. rewrite E.
  unfold hbind, a_forward. destruct (route_chain _ _) as [|b l]; [by left|]. right. split; [done|].
  destruct (forward_with_failover _ _ _ _ _ _) as [[[r|le l5|] tried] http]; [|done..].
  by rewrite (proj1 (a_respond_world _ _ _ _ _ _ _)).
Qed.

(** Nothing reaches a backend through [/v1/messages] unless the guards passed:
    a request leaves the connection untouched, or it is not a streaming
    request, was not blocked, carries no reject-class PII in its messages and
    is within budget, and exactly the failover attempts with the masked,
    converted and spotlighted body were made. *)
Theorem messages_forwards_only_guarded st client ck req w :
  w_http (messages send st client ck req w).2 = w_http w \/
  (a_pass st w client req /\
   w_http (messages send st client ck req w).2 =
     (forward_with_failover send up_status up_drain (w_http w) (a_body st req)
        (route_chain (st_pool st) (Some (ar_model req)))).2).
Proof. apply messages_guarded. Qed.

(** Requests through [/v1/messages] never reach the audit log, blocked and
    rejected ones included. *)
Theorem messages_never_audited st client ck req w :
  w_audit (messages send st client ck req w).2 = w_audit w.
Proof.
  destruct (messages_run st client ck req w) as [[E _]|[HP E]]; [by rewrite E|]. rewrite E.
  unfold hbind, a_forward. destruct (route_chain _ _) as [|b l]; [done|].
  destruct (forward_with_failover _ _ _ _ _ _) as [[[r|le l5|] tried] http]; [|done..].
  by rewrite (proj2 (a_respond_world _ _ _ _ _ _ _)).
Qed.
End MessagesProps.

(** ** Masking and restoring *)

Definition content_strings (c : AnthropicContent) : list string :=
  match c with AText s => [s] | ABlocks bs => omap bl_text bs end.
Definition request_strings (req : AnthropicRequest) : list string :=
  concat (map (fun m => content_strings (am_content m)) (ar_messages req)).

Section MaskTexts.
Context {S : Type} (f : S -> string -> string * S).

Lemma mask_blocks_texts st bs :
  omap bl_text (map_st (mask_block f) st bs).1 = (map_st f st (omap bl_text bs)).1 /\
  (map_st (mask_block f) st bs).2 = (map_st f st (omap bl_text bs)).2.
Proof.
  revert st. induction bs as [|[k [t|]] bs IH]; intros st; [done|..]; cbn.
  - destruct (f st t) as [r st1]. specialize (IH st1). destruct (map_st (mask_block f) st1 bs) as [bs' st2].
    cbn in *. destruct (map_st f st1 _) as [ts st3]. cbn in *. destruct IH as [-> ->]. done.
  - specialize (IH st). destruct (map_st (mask_block f) st bs) as [bs' st2]. cbn in *.
    by destruct (map_st f st _).
Qed.
Lemma mask_message_texts st m :
  content_strings (am_content (mask_message f st m).1) = (map_st f st (content_strings (am_content m))).1 /\
  (mask_message f st m).2 = (map_st f st (content_strings (am_content m))).2.
Proof.
  unfold mask_message. destruct (am_content m) as [s|bs]; simpl; [by destruct (f st s)|].
  pose proof (mask_blocks_texts st bs). by destruct (map_st (mask_block f) st bs).
Qed.
Lemma mask_messages_texts st ms :
  concat (map (fun m => content_strings (am_content m)) (map_st (mask_message f) st ms).1) =
    (map_st f st (concat (map (fun m => content_strings (am_content m)) ms))).1 /\
  (map_st (mask_message f) st ms).2 = (map_st f st (concat (map (fun m => content_strings (am_content m)) ms))).2.
Proof.
  revert st. induction ms as [|m ms IH]; intros st; [done|]. simpl. rewrite map_st_app.
  pose proof (mask_message_texts st m) as [Hm Hs]. destruct (mask_message f st m) as [m' st1]. simpl in Hm, Hs.
  specialize (IH st1). destruct (map_st (mask_message f) st1 ms) as [ms' st2]. simpl in *.
  destruct (map_st f st (content_strings (am_content m))) as [t1 s1]. simpl in *. subst s1.
  destruct (map_st f st1 _) as [t2 s2]. simpl in *. destruct IH as [-> ->]. by rewrite Hm.
Qed.
End MaskTexts.

Section MessagesRoundTrip.
Context `{Unicode} `{RegexLaws} `{AhoCorasick} `{Iword} `{JsonSchema}.
Implicit Types (st : AppState).

(** Reversible masking through [/v1/messages]: every text of the forwarded
    request is the original with pieces written as placeholders of the
    request's vault, and an answer that is a text [t] with pieces written as
    such placeholders reaches the client as [t], as long as the output filter
    (when on) has nothing to mask in it. *)
Theorem messages_roundtrip st req :
  pc_pii_enabled (st_config st) = true -> pc_pii_reversible (st_config st) = true ->
  strategy_from_name (pc_deanonymize_strategy (st_config st)) = Exact -> ap_mask (st_pii_actions st) <> ∅ ->
  texts_safe (st_redactor st) (ap_mask (st_pii_actions st)) (request_vault st) (request_strings req) = true ->
  (Z.of_nat (size (seen (a_masked st req).2)) <= u32_max)%Z ->
  let '(req', vault) := a_masked st req in
  Forall2 (redacted (vault_entries vault)) (request_strings req) (request_strings req') /\
  forall resp t c, get_str "content" (oai_message resp) = Some c ->
    (pc_output_enabled (st_config st) = true -> filter_output (st_matchers st) c = Some c) ->
    sall not_open t = true -> redacted (vault_entries vault) t c -> a_text st vault resp = Some t.
Proof.
  intros He Hr Hs Hm Hsafe. unfold a_masked. rewrite He. unfold mask_request, is_empty_set.
  rewrite bool_decide_eq_false_2 by done. cbn [negb]. rewrite Hr.
  pose proof (mask_messages_texts (fun v t => redact_text_with_vault (st_redactor st) t (ap_mask (st_pii_actions st)) v)
    (request_vault st) (ar_messages req)) as [Ht Hv].
  destruct (map_st (mask_message _) _ _) as [ms vault]. cbn [fst snd] in *. intros Hsz.
  fold (request_strings req) in Ht, Hv.
  change (map_st _ (request_vault st) (request_strings req)) with
    (mask_texts (st_redactor st) (ap_mask (st_pii_actions st)) (request_vault st) (request_strings req)) in Ht, Hv.
  rewrite Hv in Hsz. assert (Hnew : vault_shaped (request_vault st)) by apply vault_shaped_new.
  destruct (mask_texts_inv _ _ _ _ Hnew Hsafe Hsz) as (Hsh & _ & HF).
  rewrite <-Hv in Hsh, HF. split; [unfold request_strings at 2; cbn [ar_messages]; by rewrite Ht|].
  intros resp t c Hc Hf Hno Hred. unfold a_text. rewrite Hc, Hr, Hs. cbn [default from_option id].
  assert ((if pc_output_enabled (st_config st) then filter_output (st_matchers st) c else Some c) = Some c) as ->
    by (destruct (pc_output_enabled (st_config st)); auto).
  simpl. f_equal. unfold restore. destruct (vault_is_empty vault) eqn:Ev; simpl.
  - unfold vault_is_empty, vault_len in Ev. apply Nat.eqb_eq, map_size_empty_inv in Ev.
    unfold vault_entries in Hred. rewrite Ev, map_to_list_empty in Hred. by apply redacted_done.
  - apply exact_restore_redacted; [|apply NoDup_fst_map_to_list|done|done].
    apply Forall_forall. intros [p o] Hin. apply (proj2 Hsh p o). by apply elem_of_map_to_list in Hin.
Qed.

End MessagesRoundTrip.

(** ** The answer's shape *)

(** The ids of the [tool_use] blocks and the texts of the text blocks. *)
Definition block_ids (bs : list value) : list (option value) :=
  map (get "id") (List.filter (fun b => bool_decide (get_str "type" b = Some "tool_use")) bs).
Definition block_texts (bs : list value) : list string :=
  omap (fun b => if bool_decide (get_str "type" b = Some "text") then get_str "text" b else None) bs.
Lemma block_ids_app a b : block_ids (a ++ b) = block_ids a ++ block_ids b.
Proof. unfold block_ids. by rewrite List.filter_app, map_app. Qed.
Lemma block_texts_app a b : block_texts (a ++ b) = block_texts a ++ block_texts b.
Proof. apply omap_app. Qed.
Lemma tool_blocks `{Serde} l :
  block_ids (map tool_use_block l) = map (fun tc => Some (default Null (get "id" tc))) l /\
  block_texts (map tool_use_block l) = [].
Proof.
  induction l as [|tc l [IH1 IH2]]; [done|].
  change (map tool_use_block (tc :: l)) with ([tool_use_block tc] ++ map tool_use_block l).
  rewrite block_ids_app, block_texts_app, IH1, IH2. split; reflexivity.
Qed.

(** The Anthropic answer always has content: the text block when there is text,
    then one [tool_use] block per surviving tool call, in order, with the
    call's id, then the denial report when calls were dropped; an answer with
    none of these carries one empty text block; and the usage numbers are the
    backend's. *)
Theorem anthropic_response_shape `{Serde} model text resp :
  let calls := default [] (get_arr "tool_calls" (oai_message resp)) in
  let denied := get "nanoguard_denied_tools" (oai_message resp) in
  let out := anthropic_response model text resp in
  exists blocks, get_arr "content" out = Some blocks /\ blocks <> [] /\
    block_ids blocks = map (fun tc => Some (default Null (get "id" tc))) calls /\
    block_texts blocks =
      (if negb (String.eqb text "") then [text]
       else if bool_decide (calls = [] /\ denied = None) then [""] else []) /\
    get2 "usage" "input_tokens" out = Some (default (Num (PosInt 0)) (get2 "usage" "prompt_tokens" resp)).
Proof.
  intros calls denied out. exists (content_blocks text (oai_message resp)). split; [reflexivity|].
  unfold content_blocks. fold calls denied. destruct (tool_blocks calls) as [Hi Ht].
  set (tb := if String.eqb text "" then [] else _).
  set (db := match denied with Some d => _ | None => _ end).
  assert (Hd : block_ids db = [] /\ block_texts db = []) by (subst db; by destruct denied).
  assert (Hb : block_ids tb = [] /\ block_texts tb = if negb (String.eqb text "") then [text] else [])
    by (subst tb; by destruct (String.eqb text "")).
  destruct (tb ++ map tool_use_block calls ++ db) as [|b0 bs] eqn:Eb.
  - apply app_eq_nil in Eb as [Etb Eb]. apply app_eq_nil in Eb as [Ecs Edb].
    apply map_eq_nil in Ecs. subst tb db. destruct (String.eqb text "") eqn:Et; [|done]. destruct denied; [done|].
    rewrite Ecs. split_and!; done.
  - rewrite <-Eb, block_ids_app, block_texts_app, block_ids_app, block_texts_app, Hi, Ht.
    destruct Hd as [-> ->], Hb as [-> ->]. rewrite !app_nil_r. split_and!; [by rewrite Eb|done| |done].
    subst tb db. destruct (String.eqb text ""); [|done]. cbn [negb]. case_bool_decide as Hx; [|done].
    destruct Hx as [Hc Hdn]. rewrite Hc, Hdn in Eb. done.
Qed.

(** ** What the endpoint does not do *)

(** The [system] prompt is outside every input guard: the scanned text and the
    masking ignore it, and it is forwarded word for word as the first message. *)
Theorem system_prompt_unguarded `{RegexEngine} `{Iword} `{JsonSchema} (st : AppState) req system :
  let req' := mkARequest (ar_model req) (ar_messages req) (ar_max_tokens req) (Some system) (ar_stream req) in
  request_text req' = request_text req /\
  head (oai_messages (mask_request st req').1) = Some (obj [("role", Str "system"); ("content", Str system)]).
Proof.
  split; [done|]. unfold mask_request. destruct (negb _); [|done].
  cbn [ar_messages]. by destruct (map_st _ _ _).
Qed.

(** An answer all of whose tool calls were denied still stops with
    [tool_use], although it carries no [tool_use] block. *)
Theorem denied_calls_stop_reason `{Serde} :
  exists resp, block_ids (content_blocks "" (oai_message resp)) = [] /\ stop_reason (oai_message resp) = "tool_use".
Proof.
  exists (obj [("choices", Arr [obj [("message", obj [("tool_calls", Arr []);
    ("nanoguard_denied_tools", Arr [obj [("name", Str "rm")]])])]])]). split; reflexivity.
Qed.

(** ** Concrete runs *)

#[local] Existing Instances demo_unicode literal_engine demo_ac demo_iword demo_serde demo_schema demo_sha
  count_struct mem_disk.
Definition demo_request : AnthropicRequest :=
  mkARequest "claude" [mkAMessage "user" (ABlocks [mkBlock "text" (Some "I am a@b.co"); mkBlock "image" None])]
    None None false.
Definition demo_answer (text : string) : value :=
  obj [("choices", Arr [obj [("message", obj [("content", Str text)])]])].
Lemma messages_roundtrip_witness :
  request_strings (a_masked (demo_state false false) demo_request).1 = ["I am [REDACTED_EMAIL_1]"] /\
  a_text (demo_state false false) (a_masked (demo_state false false) demo_request).2
    (demo_answer "hi [REDACTED_EMAIL_1]!") = Some "hi a@b.co!".
Proof.
  split; [vm_compute; reflexivity|].
  pose proof (@messages_roundtrip demo_unicode literal_engine literal_laws demo_iword demo_schema
    (demo_state false false) demo_request eq_refl eq_refl eq_refl) as Hx.
  specialize (Hx ltac:(intros E; apply (f_equal (fun s : gset string => bool_decide ("EMAIL" ∈ s))) in E; vm_compute in E; discriminate)).
  specialize (Hx ltac:(vm_compute; reflexivity) ltac:(vm_compute; discriminate)).
  destruct (a_masked _ _) as [req vault] eqn:E. vm_compute in E. injection E as <- <-.
  eapply (proj2 Hx (demo_answer "hi [REDACTED_EMAIL_1]!") "hi a@b.co!"); [reflexivity|discriminate|reflexivity|].
  apply (redacted_text _ "hi " "a@b.co!" "[REDACTED_EMAIL_1]!"); [reflexivity|].
  apply (redacted_ph _ "[REDACTED_EMAIL_1]" "a@b.co" "!" "!"); [|decide_now|by apply redacted_refl].
  exists "REDACTED_EMAIL_1". split; reflexivity.
Defined.
