(* ===== verification/Config.v ===== *)
(** * Configuration ([src/config/mod.rs])

    The sections of [nanoguard.toml] as records, the [Default] implementation of
    each, and how a process finds its configuration: the file named by the
    environment, or a default built from environment variables.  The TOML parser
    is a parameter; what an absent section becomes is the section's [Default].
    The pool resolver [Config::pool] is in [Routing]. *)

From S2P Require Import Prelude RustStr Redact Matcher Routing ClientAuth.

(** ** Sections *)

Record ServerConfig := mkServer {
  sc_listen : string;
  sc_log_level : string;
}.
Definition server_default : ServerConfig := mkServer "0.0.0.0:8080" "info".

Record PoliciesConfig := mkPolicies { po_bundle_path : option string }.
Definition policies_default : PoliciesConfig := mkPolicies None.

Definition routing_default : RoutingConfig := mkRoutingConfig None [].

(** [config::SpotlightConfig], the section; [Spotlight.SpotlightConfig] is what
    is built from it. *)
Record SpotlightSection := mkSpotlightSection {
  ss_enabled : bool;
  ss_method : string;
  ss_untrusted_roles : list string;
  ss_delimiter_open : string;
  ss_delimiter_close : string;
  ss_datamark_char : string;
  ss_system_rider : option string;
}.
Definition spotlight_section_default : SpotlightSection :=
  mkSpotlightSection false "datamarking" ["tool"] "<<UNTRUSTED>>" "<</UNTRUSTED>>" "^" None.

Record PiiConfig := mkPii {
  pii_enabled : bool;
  pii_action : PiiAction;
  pii_dict_paths : list string;
  pii_placeholder_style : string;
  pii_entities : gmap string PiiAction;
  pii_reversible : bool;
  pii_deanonymize_strategy : string;
}.
Definition pii_default : PiiConfig := mkPii true Mask [] "bare" ∅ false "exact".

Definition keyword_default : KeywordConfig :=
  mkKeyword "aho-corasick" []
    ["ignore previous instructions"; "disregard your instructions"; "jailbreak"; "dan mode"; "you are now"]
    ["password"; "api_key"; "secret"] ["bitcoin"; "crypto"; "gambling"] normalize_default.

(** [InputConfig] and [OutputConfig] derive [Default]: each field takes its
    type's default, [false] for [enabled]. *)
Record InputConfig := mkInput {
  in_enabled : bool;
  in_shadow : bool;
  in_keyword : KeywordConfig;
  in_pii : PiiConfig;
  in_spotlight : SpotlightSection;
}.
Definition input_default : InputConfig :=
  mkInput false false keyword_default pii_default spotlight_section_default.

Record OutputSchemaRule := mkOutputRule {
  or_endpoint : string;
  or_model_pattern : option string;
  or_schema_path : string;
  or_name : option string;
}.
Record OutputSchemaConfig := mkOutputSchema {
  os_enabled : bool;
  os_on_violation : string;
  os_rules : list OutputSchemaRule;
}.
Definition output_schema_default : OutputSchemaConfig := mkOutputSchema false "log" [].
Record OutputConfig := mkOutput {
  out_enabled : bool;
  out_pii : PiiConfig;
  out_schema : OutputSchemaConfig;
}.
Definition output_default : OutputConfig := mkOutput false pii_default output_schema_default.

Record ToolSchemaSpec := mkToolSchema { ts_tool_name : string; ts_schema_path : string }.
Record ToolsConfig := mkTools {
  to_enabled : bool;
  to_allow : option (list string);
  to_deny : list string;
  to_schemas : list ToolSchemaSpec;
  to_reject_entities : list string;
  to_mask_entities : list string;
}.
Definition tools_default : ToolsConfig := mkTools false None [] [] [] [].

Record AuditConfig := mkAuditConfig {
  ac_enabled : bool;
  ac_path : string;
  ac_hash_only : bool;
  ac_fsync_every_write : bool;
}.
Definition audit_default : AuditConfig := mkAuditConfig false "nanoguard-audit.jsonl" true false.

Record BudgetConfig := mkBudgetConfig {
  bu_enabled : bool;
  bu_db_path : string;
  bu_admin_api_key : option string;
}.
Definition budget_default : BudgetConfig := mkBudgetConfig false "nanoguard.db" None.

Definition auth_default : AuthConfig := mkAuthConfig false "p" 10000 60 false.

(** The [oidc] table of [ConsoleAuthConfig] is accepted and never read. *)
Record BootstrapAdminConfig := mkBootstrap { ba_username : string; ba_password_env : string }.
Record ConsoleLocalAuthConfig := mkLocalAuth {
  la_allow_signup : bool;
  la_bootstrap_admin : option BootstrapAdminConfig;
}.
Record ConsoleAuthConfig := mkConsoleAuth { cx_mode : string; cx_local : ConsoleLocalAuthConfig }.
Definition console_auth_default : ConsoleAuthConfig := mkConsoleAuth "" (mkLocalAuth false None).
Record ConsoleConfig := mkConsole {
  co_enabled : bool;
  co_listen : string;
  co_session_secret : string;
  co_session_ttl_hours : Z;
  co_audit_path : string;
  co_backup_limit : nat;
  co_session_idle_timeout_hours : option Z;
  co_max_login_attempts : Z;
  co_lockout_duration_minutes : Z;
  co_auth : ConsoleAuthConfig;
}.
Definition console_default : ConsoleConfig :=
  mkConsole true "127.0.0.1:8081" "" 24 "console-audit.jsonl" 20 None 10 15 console_auth_default.

Record ReloadConfig := mkReloadConfig {
  re_enabled : bool;
  re_pid_file : option string;
  re_socket : option string;
}.
Definition reload_default : ReloadConfig := mkReloadConfig false None None.

Record Config := mkConfig {
  cf_nanoguard : ServerConfig;
  cf_backend : option BackendConfig;
  cf_backends : gmap string BackendConfig;
  cf_routing : RoutingConfig;
  cf_input : InputConfig;
  cf_output : OutputConfig;
  cf_budget : BudgetConfig;
  cf_audit : AuditConfig;
  cf_tools : ToolsConfig;
  cf_policies : PoliciesConfig;
  cf_auth : AuthConfig;
  cf_console : ConsoleConfig;
  cf_reload : ReloadConfig;
}.

(** What [Config::pool] reads. *)
Definition pool_config (c : Config) : PoolConfig := mkPoolConfig (cf_backend c) (cf_backends c) (cf_routing c).

(** [&mut cfg.input.keyword] written back. *)
Definition set_keyword (kw : KeywordConfig) (c : Config) : Config :=
  mkConfig (cf_nanoguard c) (cf_backend c) (cf_backends c) (cf_routing c)
    (mkInput (in_enabled (cf_input c)) (in_shadow (cf_input c)) kw (in_pii (cf_input c)) (in_spotlight (cf_input c)))
    (cf_output c) (cf_budget c) (cf_audit c) (cf_tools c) (cf_policies c) (cf_auth c) (cf_console c) (cf_reload c).

(** ** Finding the configuration *)

(** What a process reads from its surroundings: environment variables, whether
    a path exists, and the text of a file. *)
Record Env := mkEnv {
  env_var : string -> option string;
  path_exists : string -> bool;
  read_to_string : string -> result string string;
}.

Section Load.
(** [toml::from_str] at type [Config]. *)
Context (from_toml : string -> result string Config).

Definition from_file_content (content : string) : result string Config :=
  match from_toml content with Ok c => Ok c | Err _ => Err "parsing config TOML" end.
(** The error text quotes the path without escapes. *)
Definition from_file (env : Env) (path : string) : result string Config :=
  match read_to_string env path with
  | Err _ => Err ("reading config " +:+ one (byte 34) +:+ path +:+ one (byte 34))
  | Ok content => from_file_content content
  end.

Definition config_path (env : Env) : string := default "nanoguard.toml" (env_var env "NANOGUARD_CONFIG").
Definition env_config (env : Env) : Config :=
  let api_key := match env_var env "BACKEND_API_KEY" with
                 | Some k => Some k
                 | None => env_var env "OPENAI_API_KEY"
                 end in
  mkConfig server_default
    (Some (mkBackend (default "ollama" (env_var env "BACKEND_PROVIDER"))
             (default "http://localhost:11434" (env_var env "BACKEND_ENDPOINT")) api_key (env_var env "BACKEND_MODEL")))
    ∅ routing_default input_default output_default
    (mkBudgetConfig (bu_enabled budget_default) (bu_db_path budget_default) (env_var env "ADMIN_API_KEY"))
    audit_default tools_default policies_default auth_default console_default reload_default.
Definition from_env_or_default (env : Env) : result string Config :=
  let path := config_path env in
  if path_exists env path then from_file env path else Ok (env_config env).
End Load.

(** ** Properties *)

(** With no configuration file the process always starts with a usable pool:
    one backend named [default] that every model routes to, with the provider,
    endpoint, key and model of the environment. *)
Theorem env_config_routes from_toml env model :
  path_exists env (config_path env) = false ->
  exists cfg p b, from_env_or_default from_toml env = Ok cfg /\
    pool (pool_config cfg) = Ok (p, []) /\ cf_backend cfg = Some b /\
    route_chain (runtime_build p) model = [b] /\
    bc_endpoint b = default "http://localhost:11434" (env_var env "BACKEND_ENDPOINT").
Proof.
  intros He. unfold from_env_or_default. rewrite He.
  exists (env_config env).
  assert (Hb : exists b, cf_backend (env_config env) = Some b /\
    bc_endpoint b = default "http://localhost:11434" (env_var env "BACKEND_ENDPOINT")) by (by eexists).
  destruct Hb as (b & Hb & Hend). exists (mkPool {["default" := b]} [] "default"), b.
  split; [done|]. split; [|split; [done|split; [|done]]].
  - unfold pool, pool_config. rewrite Hb. clear. vm_compute. reflexivity.
  - clear. destruct model; vm_compute; reflexivity.
Qed.

(** ** Concrete runs *)

Definition bare_env : Env := mkEnv (fun _ => None) (fun _ => false) (fun _ => Err "no such file").

Lemma env_config_routes_witness :
  path_exists bare_env (config_path bare_env) = false /\
  exists cfg p b, from_env_or_default (fun _ => Err "") bare_env = Ok cfg /\
    pool (pool_config cfg) = Ok (p, []) /\ cf_backend cfg = Some b /\
    route_chain (runtime_build p) (Some "gpt-4o") = [b] /\ bc_endpoint b = "http://localhost:11434".
Proof. split; [reflexivity|]. exact (env_config_routes (fun _ => Err "") bare_env (Some "gpt-4o") eq_refl). Defined.
