(* ===== verification/Reload.v ===== *)
(** * Assembly of the state and hot reload ([src/reload.rs], the start-up half of
    [src/main.rs], [src/console/reload.rs])

    How a configuration becomes the state the handlers read, what a reload
    replaces and what it keeps, the reload socket's protocol and the console's
    end of it.  The live state is an immutable snapshot behind a pointer; the
    budget store, the audit log and the client-token runtime are shared objects
    that every snapshot points to. *)

From S2P Require Import Prelude RustStr Json Regex Redact ToolGate Matcher Policy Routing ClientAuth Budget Spotlight Schema AuditTrail Proxy Config.

(** ** Assembly *)

(** The fields of the configuration the handlers read. *)
Definition proxy_config (c : Config) : ProxyConfig :=
  let i := cf_input c in
  mkProxyConfig (in_enabled i) (in_shadow i) (pii_enabled (in_pii i)) (pii_reversible (in_pii i))
    (pii_deanonymize_strategy (in_pii i)) (out_enabled (cf_output c)).

Definition redactor_style (pii : PiiConfig) : PlaceholderStyle.t :=
  match pii_reversible pii, PlaceholderStyle.parse_name (pii_placeholder_style pii) with
  | true, PlaceholderStyle.Bare => PlaceholderStyle.Indexed
  | _, configured => configured
  end.

Definition build_spotlight (s : SpotlightSection) : option SpotlightConfig :=
  if ss_enabled s then
    let method := default Datamarking (parse_method (ss_method s)) in
    let datamark_char := default "^" (head (chars (ss_datamark_char s))) in
    let rider := default (default_rider method datamark_char) (ss_system_rider s) in
    Some (mkSpotlight method (ss_untrusted_roles s) (ss_delimiter_open s) (ss_delimiter_close s) datamark_char rider)
  else None.

Definition rule_spec (r : OutputSchemaRule) : RuleSpec :=
  mkSpec (or_endpoint r) (or_model_pattern r) (or_schema_path r) (or_name r).

(** Addresses of shared objects ([Arc]s). *)
Definition addr := positive.

(** [RuntimeHandles]; the HTTP client is a parameter of the handlers. *)
Record RuntimeHandles := mkHandles {
  rh_pool : BackendPoolRuntime;
  rh_budget : option addr;
  rh_audit : option addr;
  rh_client_auth : option addr;
}.

Section Assemble.
Context `{Unicode} `{RegexEngine} `{AhoCorasick} `{Iword} `{Serde} `{JsonSchema}.
Context (from_yaml : string -> result string Policy).

Definition build_schema (env : Env) (o : OutputSchemaConfig) : result string (option SchemaValidator) :=
  if os_enabled o then
    let? rules := load_rules (read_to_string env) (map rule_spec (os_rules o)) in
    Ok (Some (mkValidator rules (parse_action (os_on_violation o))))
  else Ok None.

Fixpoint load_tool_schemas (env : Env) (specs : list ToolSchemaSpec) (schemas : gmap string validator)
    : result string (gmap string validator) :=
  match specs with
  | [] => Ok schemas
  | spec :: rest =>
      let? raw := read_to_string env (ts_schema_path spec) in
      let? schema_json := from_str raw in
      let? v := validator_for schema_json in
      load_tool_schemas env rest (<[ts_tool_name spec := v]> schemas)
  end.
Definition build_tool_gate (env : Env) (t : ToolsConfig) (redactor : Redactor) : result string (option ToolGate) :=
  if to_enabled t then
    let? schemas := load_tool_schemas env (to_schemas t) ∅ in
    Ok (Some (mkToolGate (to_allow t) (to_deny t) schemas redactor
                (list_to_set (to_reject_entities t)) (list_to_set (to_mask_entities t))))
  else Ok None.

(** The policy bundle, merged into the keyword section when there is one. *)
Definition merge_policy (env : Env) (cfg : Config) : result string (Config * option PolicyRuleIndex) :=
  match po_bundle_path (cf_policies cfg) with
  | Some path =>
      if String.eqb path "" then Ok (cfg, None)
      else
        let? policy := from_path from_yaml (read_to_string env) path in
        Ok (set_keyword (merge_into_keyword_config policy (in_keyword (cf_input cfg))) cfg, Some (from_policy policy))
  | None => Ok (cfg, None)
  end.

(** [AppState]: the configuration, what was built from it, and the handles. *)
Record Snapshot := mkSnapshot {
  sn_config : Config;
  sn_app : AppState;
  sn_budget : option addr;
  sn_audit : option addr;
  sn_client_auth : option addr;
}.
Definition build_app_state (env : Env) (cfg0 : Config) (runtime : RuntimeHandles) : result string Snapshot :=
  let? (cfg, policy_index) := merge_policy env cfg0 in
  let? matchers := matchers_build (read_to_string env) (in_keyword (cf_input cfg)) in
  let pii := in_pii (cf_input cfg) in
  let? redactor := build_with_style (read_to_string env) default_inline_patterns (pii_dict_paths pii) (redactor_style pii) in
  let pii_actions := partition_by_action (entity_names redactor) (pii_entities pii) (pii_action pii) in
  let spotlight := build_spotlight (in_spotlight (cf_input cfg)) in
  let? schema := build_schema env (out_schema (cf_output cfg)) in
  let? tool_gate := build_tool_gate env (cf_tools cfg) redactor in
  let? (view, _) := pool (pool_config cfg) in
  Ok (mkSnapshot cfg
        (mkApp (proxy_config cfg) matchers redactor pii_actions spotlight schema tool_gate policy_index (runtime_build view))
        (rh_budget runtime) (rh_audit runtime) (rh_client_auth runtime)).
End Assemble.

(** ** Reload *)

(** The error types [classify_reload_error] looks for in a chain of causes. *)
Inductive IoKind := NotFound | PermissionDenied | OtherKind.
Inductive Cause := TomlError | YamlError | RegexError | JsonError | IoError (kind : IoKind) | OtherError.

Fixpoint classify_reload_error (chain : list Cause) : string :=
  match chain with
  | [] => "build_failed"
  | TomlError :: _ => "config_parse_error"
  | YamlError :: _ => "policy_yaml_parse_error"
  | RegexError :: _ => "regex_compile_error"
  | JsonError :: _ => "json_parse_error"
  | IoError NotFound :: _ => "file_not_found"
  | IoError PermissionDenied :: _ => "file_permission_denied"
  | IoError OtherKind :: _ => "io_error"
  | OtherError :: rest => classify_reload_error rest
  end.

(** The keys [warn_on_restart_only_drift] lists in its warning. *)
Definition changed (differs : bool) (key : string) : list string := if differs then [key] else [].
Definition restart_only_drift (live new : Config) : list string :=
  changed (negb (String.eqb (sc_listen (cf_nanoguard live)) (sc_listen (cf_nanoguard new)))) "[nanoguard].listen" ++
  changed (negb (String.eqb (sc_log_level (cf_nanoguard live)) (sc_log_level (cf_nanoguard new)))) "[nanoguard].log_level" ++
  changed (negb (Bool.eqb (bu_enabled (cf_budget live)) (bu_enabled (cf_budget new)))) "[budget].enabled" ++
  changed (negb (String.eqb (bu_db_path (cf_budget live)) (bu_db_path (cf_budget new)))) "[budget].db_path" ++
  changed (negb (Bool.eqb (ac_enabled (cf_audit live)) (ac_enabled (cf_audit new)))) "[audit].enabled" ++
  changed (negb (String.eqb (ac_path (cf_audit live)) (ac_path (cf_audit new)))) "[audit].path" ++
  changed (negb (Bool.eqb (ac_hash_only (cf_audit live)) (ac_hash_only (cf_audit new)))) "[audit].hash_only" ++
  changed (negb (Bool.eqb (au_enabled (cf_auth live)) (au_enabled (cf_auth new)))) "[auth].enabled" ++
  changed (negb (String.eqb (au_env_marker (cf_auth live)) (au_env_marker (cf_auth new)))) "[auth].env_marker" ++
  changed (negb (Nat.eqb (au_cache_capacity (cf_auth live)) (au_cache_capacity (cf_auth new)))) "[auth].cache_capacity" ++
  changed (negb (Z.eqb (au_cache_ttl_secs (cf_auth live)) (au_cache_ttl_secs (cf_auth new)))) "[auth].cache_ttl_secs" ++
  changed (negb (Bool.eqb (au_require_https (cf_auth live)) (au_require_https (cf_auth new)))) "[auth].require_https".

Section Reload.
Context `{Unicode} `{RegexEngine} `{AhoCorasick} `{Iword} `{Serde} `{JsonSchema} `{Sha256} `{SerdeStruct}
  `{Disk} {B : Type} `{BudgetStore B}.
(** The parsers, and the typed causes behind an error, which its text does not
    determine. *)
Context (from_yaml : string -> result string Policy) (from_toml : string -> result string Config)
  (causes : string -> list Cause).

(** The shared objects, by address. *)
Record Heap := mkHeap {
  hp_budget : gmap addr B;
  hp_audit : gmap addr AuditLog;
  hp_client_auth : gmap addr ClientAuth;
}.
(** A process: the snapshot the [ArcSwap] points to, the objects, and the
    warnings printed so far. *)
Record Process := mkProcess {
  ps_live : Snapshot;
  ps_heap : Heap;
  ps_warned : list (list string);
}.

Definition warn_on_restart_only_drift (new_cfg : Config) (p : Process) : Process :=
  match restart_only_drift (sn_config (ps_live p)) new_cfg with
  | [] => p
  | ignored => mkProcess (ps_live p) (ps_heap p) (ps_warned p ++ [ignored])
  end.

Definition reload_once (env : Env) (runtime : RuntimeHandles) (p : Process) : result string unit * Process :=
  match from_env_or_default from_toml env with
  | Err e => (Err e, p)
  | Ok new_cfg =>
      let p1 := warn_on_restart_only_drift new_cfg p in
      match build_app_state from_yaml env new_cfg runtime with
      | Err e => (Err e, p1)
      | Ok candidate => (Ok tt, mkProcess candidate (ps_heap p1) (ps_warned p1))
      end
  end.

(** The audit log the live snapshot points to gets one entry, if there is one. *)
Definition emit_reload_audit (ck : Clock) (ok : bool) (error : option string) (p : Process) : Process :=
  match sn_audit (ps_live p) with
  | None => p
  | Some a =>
      let h := ps_heap p in
      mkProcess (ps_live p)
        (mkHeap (hp_budget h)
           (alter (fun log => write_reload log (ck_request_id ck) (ck_now ck) ok error (ck_latency_us ck)) a (hp_audit h))
           (hp_client_auth h))
        (ps_warned p)
  end.

(** [panicked]: the blocking task panicked, in a parser say, before it stored. *)
Definition execute_reload (env : Env) (runtime : RuntimeHandles) (panicked : bool) (ck : Clock) (p : Process)
    : result string unit * Process :=
  if panicked then (Err "build_failed", emit_reload_audit ck false (Some "build_failed") p)
  else
    match reload_once env runtime p with
    | (Ok _, p') => (Ok tt, emit_reload_audit ck true None p')
    | (Err e, p') =>
        let reason := classify_reload_error (causes e) in
        (Err reason, emit_reload_audit ck false (Some reason) p')
    end.

Definition invalidate_tokens (p : Process) : Process :=
  match sn_client_auth (ps_live p) with
  | None => p
  | Some a =>
      let h := ps_heap p in
      mkProcess (ps_live p) (mkHeap (hp_budget h) (hp_audit h) (alter invalidate_all_cached a (hp_client_auth h)))
        (ps_warned p)
  end.

(** One connection of the reload socket: the line read, the answer written. *)
Definition socket_command (env : Env) (runtime : RuntimeHandles) (panicked : bool) (ck : Clock)
    (line : result string string) (p : Process) : string * Process :=
  match line with
  | Err e => ("ERR read error: " +:+ e +:+ one nl, p)
  | Ok line =>
      let cmd := trim line in
      if String.eqb cmd "RELOAD" then
        match execute_reload env runtime panicked ck p with
        | (Ok _, p') => ("OK" +:+ one nl, p')
        | (Err reason, p') => ("ERR " +:+ reason +:+ one nl, p')
        end
      else if String.eqb cmd "INVALIDATE_TOKENS" then ("OK" +:+ one nl, invalidate_tokens p)
      else ("ERR expected RELOAD or INVALIDATE_TOKENS" +:+ one nl, p)
  end.

(** ** Start-up

    The handles are opened from the first configuration, the audit log, the
    budget store and the token table only when their sections ask for them.
    [open_budget], [open_log] and [open_tokens] give what the files hold. *)
Context (open_budget : string -> result string B) (open_log : string -> result string disk)
  (open_tokens : string -> result string Db).

Definition open_auth (db_path : string) (config : AuthConfig) : result string ClientAuth :=
  let? _ := auth_open [] config in
  let? db := open_tokens db_path in
  auth_open db config.

Definition singleton_opt {A} (a : addr) (o : option A) : gmap addr A :=
  match o with Some x => {[a := x]} | None => ∅ end.
Definition handle_opt {A} (a : addr) (o : option A) : option addr :=
  match o with Some _ => Some a | None => None end.

(** The objects a configuration opens. *)
Definition open_objects (cfg : Config) : result string (option B * option AuditLog * option ClientAuth) :=
  let? budget := (if bu_enabled (cf_budget cfg) then let? b := open_budget (bu_db_path (cf_budget cfg)) in Ok (Some b)
                  else Ok None) in
  let? audit_log := (if ac_enabled (cf_audit cfg) then
                       let? file := open_log (ac_path (cf_audit cfg)) in
                       Ok (Some (log_open file (ac_hash_only (cf_audit cfg)) (ac_fsync_every_write (cf_audit cfg))))
                     else Ok None) in
  let? client_auth := (if au_enabled (cf_auth cfg) || bu_enabled (cf_budget cfg) then
                         let? a := open_auth (bu_db_path (cf_budget cfg)) (cf_auth cfg) in Ok (Some a)
                       else Ok None) in
  Ok (budget, audit_log, client_auth).

Definition startup (env : Env) (cfg : Config) : result string (RuntimeHandles * Process) :=
  let? (view, _) := pool (pool_config cfg) in
  let? (budget, audit_log, client_auth) := open_objects cfg in
  let runtime := mkHandles (runtime_build view) (handle_opt 1%positive budget) (handle_opt 2%positive audit_log) (handle_opt 3%positive client_auth) in
  let heap := mkHeap (singleton_opt 1%positive budget) (singleton_opt 2%positive audit_log) (singleton_opt 3%positive client_auth) in
  let? initial := build_app_state from_yaml env cfg runtime in
  Ok (runtime, mkProcess initial heap []).

(** ** Concurrent reloads

    The signal task and every socket connection run [execute_reload] on their
    own; each reads the configuration, builds, stores and audits, and the steps
    of different tasks interleave.  A step may see different surroundings. *)
Inductive Task :=
| Requested
| Read (cfg : Config)
| Built (candidate : Snapshot)
| Reported (outcome : result string unit)
| Finished (outcome : result string unit).

Record Sys := mkSys { sy_process : Process; sy_tasks : list Task }.

Definition outcome_label (r : result string unit) : option string :=
  match r with Ok _ => None | Err e => Some e end.
Definition outcome_ok (r : result string unit) : bool := match r with Ok _ => true | Err _ => false end.

(** [execute_reload] from one point where other tasks can run to the next. *)
Inductive task_step (runtime : RuntimeHandles) : Process * Task -> Process * Task -> Prop :=
| task_read env p cfg :
    from_env_or_default from_toml env = Ok cfg -> task_step runtime (p, Requested) (warn_on_restart_only_drift cfg p, Read cfg)
| task_read_fails env p e :
    from_env_or_default from_toml env = Err e ->
    task_step runtime (p, Requested) (p, Reported (Err (classify_reload_error (causes e))))
| task_build env p cfg candidate :
    build_app_state from_yaml env cfg runtime = Ok candidate -> task_step runtime (p, Read cfg) (p, Built candidate)
| task_build_fails env p cfg e :
    build_app_state from_yaml env cfg runtime = Err e ->
    task_step runtime (p, Read cfg) (p, Reported (Err (classify_reload_error (causes e))))
| task_read_panics p : task_step runtime (p, Requested) (p, Reported (Err "build_failed"))
| task_build_panics p cfg : task_step runtime (p, Read cfg) (p, Reported (Err "build_failed"))
| task_store p candidate :
    task_step runtime (p, Built candidate) (mkProcess candidate (ps_heap p) (ps_warned p), Reported (Ok tt))
| task_audit ck p r :
    task_step runtime (p, Reported r) (emit_reload_audit ck (outcome_ok r) (outcome_label r) p, Finished r).

(** What happens in the process: something of a reload (a trigger, by signal or
    by socket, or a step of a task), or the token flush. *)
Inductive SysEvent := ReloadEvent | FlushEvent.
Inductive sys_step (runtime : RuntimeHandles) : SysEvent -> Sys -> Sys -> Prop :=
| sys_request p ts : sys_step runtime ReloadEvent (mkSys p ts) (mkSys p (ts ++ [Requested]))
| sys_task p ts1 t ts2 p' t' :
    task_step runtime (p, t) (p', t') -> sys_step runtime ReloadEvent (mkSys p (ts1 ++ t :: ts2)) (mkSys p' (ts1 ++ t' :: ts2))
| sys_invalidate p ts : sys_step runtime FlushEvent (mkSys p ts) (mkSys (invalidate_tokens p) ts).
Inductive sys_run (runtime : RuntimeHandles) : list SysEvent -> Sys -> Sys -> Prop :=
| run_nil s : sys_run runtime [] s s
| run_cons e es s1 s2 s3 : sys_step runtime e s1 s2 -> sys_run runtime es s2 s3 -> sys_run runtime (e :: es) s1 s3.
End Reload.

(** ** The console's end ([src/console/reload.rs]) *)

Record ReloadOutcome := mkReloadOutcome {
  ro_triggered : bool;
  ro_method : string;
  ro_error : option string;
}.

Definition parse_i32 : string -> result IntError Z := parse_int (-2147483648) 2147483647.

Section Console.
(** One exchange on a Unix socket (connect, write the payload, read a line), and
    [kill(pid, SIGHUP)]. *)
Context (exchange : string -> string -> result string string) (kill_hup : Z -> result string unit)
  (read_pid_file : string -> result string string).

Definition trigger_via_pid_file (pid_file : string) : result string unit :=
  match read_pid_file pid_file with
  | Err e => Err ("reading pid file " +:+ pid_file +:+ ": " +:+ e)
  | Ok pid_str =>
      match parse_i32 (trim pid_str) with
      | Err e => Err ("parsing PID from " +:+ pid_file +:+ ": " +:+ int_error_text e)
      | Ok pid =>
          match kill_hup pid with
          | Err e => Err ("failed to send SIGHUP to PID " +:+ show_Z pid +:+ ": " +:+ e)
          | Ok _ => Ok tt
          end
      end
  end.

Definition trigger_via_socket (socket_path command : string) : result string unit :=
  let? raw := exchange socket_path (command +:+ one nl) in
  let resp := trim raw in
  match strip_prefix "ERR" resp with
  | Some rest => Err ("proxy returned error:" +:+ rest)
  | None => if starts_with "OK" resp then Ok tt else Err ("unexpected proxy response: " +:+ resp)
  end.

Definition outcome_of (method : string) (r : result string unit) : ReloadOutcome :=
  match r with
  | Ok _ => mkReloadOutcome true method None
  | Err e => mkReloadOutcome false method (Some e)
  end.
Definition dispatch_blocking (cfg : ReloadConfig) (command : string) : ReloadOutcome :=
  match re_socket cfg with
  | Some socket_path => outcome_of "socket" (trigger_via_socket socket_path command)
  | None =>
      match re_pid_file cfg with
      | Some pid_file => outcome_of "sighup" (trigger_via_pid_file pid_file)
      | None => mkReloadOutcome false "none" (Some "no reload method configured (set reload.pid_file or reload.socket)")
      end
  end.
Definition trigger_reload (cfg : ReloadConfig) : ReloadOutcome := dispatch_blocking cfg "RELOAD".
Definition trigger_invalidate_tokens (cfg : ReloadConfig) : ReloadOutcome := dispatch_blocking cfg "INVALIDATE_TOKENS".
End Console.

(** ** Lemmas *)

Definition reload_labels : list string :=
  ["config_parse_error"; "policy_yaml_parse_error"; "regex_compile_error"; "json_parse_error";
   "file_not_found"; "file_permission_denied"; "io_error"; "build_failed"].

Lemma classify_label chain : In (classify_reload_error chain) reload_labels.
Proof. induction chain as [|[| | | | [] |] chain IH]; simpl in *; tauto. Qed.

Lemma alter_singleton_opt {A} (f : A -> A) a o : alter f a (singleton_opt a o) = f <$> singleton_opt a o.
Proof.
  destruct o; simpl; [by rewrite alter_singleton_eq, map_fmap_singleton|].
  rewrite fmap_empty. apply map_eq. intros i. rewrite lookup_alter. case_decide; by rewrite lookup_empty.
Qed.

Lemma fmap_singleton_opt {A C} (f : A -> C) a o : f <$> singleton_opt a o = singleton_opt a (f <$> o).
Proof. destruct o; simpl; [apply map_fmap_singleton|apply fmap_empty]. Qed.

Lemma invalidate_idem a : invalidate_all_cached (invalidate_all_cached a) = invalidate_all_cached a.
Proof. done. Qed.

Section BuildLemmas.
Context `{Unicode} `{RegexEngine} `{AhoCorasick} `{Iword} `{Serde} `{JsonSchema}.
Context (from_yaml : string -> result string Policy).

(** What a successful build is made of. *)
Lemma build_inv env cfg0 rt s :
  build_app_state from_yaml env cfg0 rt = Ok s ->
  exists cfg idx view warnings,
    merge_policy from_yaml env cfg0 = Ok (cfg, idx) /\ pool (pool_config cfg) = Ok (view, warnings) /\
    sn_config s = cfg /\ st_config (sn_app s) = proxy_config cfg /\ st_policy (sn_app s) = idx /\
    st_pool (sn_app s) = runtime_build view /\
    matchers_build (read_to_string env) (in_keyword (cf_input cfg)) = Ok (st_matchers (sn_app s)) /\
    build_with_style (read_to_string env) default_inline_patterns (pii_dict_paths (in_pii (cf_input cfg)))
      (redactor_style (in_pii (cf_input cfg))) = Ok (st_redactor (sn_app s)) /\
    st_pii_actions (sn_app s) = partition_by_action (entity_names (st_redactor (sn_app s)))
      (pii_entities (in_pii (cf_input cfg))) (pii_action (in_pii (cf_input cfg))) /\
    build_tool_gate env (cf_tools cfg) (st_redactor (sn_app s)) = Ok (st_tool_gate (sn_app s)) /\
    sn_budget s = rh_budget rt /\ sn_audit s = rh_audit rt /\ sn_client_auth s = rh_client_auth rt.
Proof.
  unfold build_app_state. intros E.
  destruct (merge_policy _ _ _) as [[cfg idx]|] eqn:E1; [|done].
  destruct (matchers_build _ _) as [m|] eqn:E2; [|done].
  destruct (build_with_style _ _ _ _) as [r|] eqn:E3; [|done].
  destruct (build_schema _ _) as [sc|] eqn:E4; [|done].
  destruct (build_tool_gate _ _ _) as [g|] eqn:E5; [|done].
  destruct (pool _) as [[view ws]|] eqn:E6; [|done].
  injection E as <-. exists cfg, idx, view, ws. by split_and!.
Qed.
End BuildLemmas.

(** ** Properties: reload *)

Section ReloadProps.
Context `{Unicode} `{RegexEngine} `{AhoCorasick} `{Iword} `{Serde} `{JsonSchema} `{Sha256} `{SerdeStruct}
  `{Disk} {B : Type} `{BudgetStore B}.
Context (from_yaml : string -> result string Policy) (from_toml : string -> result string Config)
  (causes : string -> list Cause).
Context (open_budget : string -> result string B) (open_log : string -> result string disk)
  (open_tokens : string -> result string Db).
Implicit Types p : (@Process _ _ _ _ B).

(** The entry an outcome leaves in the audit log. *)
Definition write_event (log : AuditLog) (e : Clock * result string unit) : AuditLog :=
  write_reload log (ck_request_id e.1) (ck_now e.1) (outcome_ok e.2) (outcome_label e.2) (ck_latency_us e.1).
Definition finished (ts : list Task) : list (result string unit) :=
  omap (fun t => match t with Finished r => Some r | _ => None end) ts.
Definition bounded (r : result string unit) : Prop := forall e, r = Err e -> In e reload_labels.
Definition built_by (runtime : RuntimeHandles) (s : Snapshot) : Prop :=
  exists env cfg, build_app_state from_yaml env cfg runtime = Ok s.
Definition task_ok (runtime : RuntimeHandles) (t : Task) : Prop :=
  match t with
  | Requested | Read _ => True
  | Built s => built_by runtime s
  | Reported r | Finished r => bounded r
  end.

(** The invariant of a running process, over the objects opened at start-up and
    whether a flush has happened since. *)
Record sys_inv (runtime : RuntimeHandles) (b : option B) (log : option AuditLog) (auth : option ClientAuth) (flushed : bool) (s : Sys)
    : Prop := {
  inv_live : built_by runtime (ps_live (sy_process s));
  inv_audit_handle : rh_audit runtime = handle_opt 2%positive log;
  inv_auth_handle : rh_client_auth runtime = handle_opt 3%positive auth;
  inv_budget : hp_budget (ps_heap (sy_process s)) = singleton_opt 1%positive b;
  inv_auth : hp_client_auth (ps_heap (sy_process s)) = singleton_opt 3%positive (if flushed then invalidate_all_cached <$> auth else auth);
  inv_audit : exists events,
    hp_audit (ps_heap (sy_process s)) = singleton_opt 2%positive ((fun l => foldl write_event l events) <$> log) /\
    events.*2 ≡ₚ finished (sy_tasks s);
  inv_tasks : Forall (task_ok runtime) (sy_tasks s);
}.

Lemma built_handles runtime s :
  built_by runtime s -> sn_budget s = rh_budget runtime /\ sn_audit s = rh_audit runtime /\
    sn_client_auth s = rh_client_auth runtime.
Proof. intros (env & cfg & E). apply build_inv in E as (? & ? & ? & ? & E). naive_solver. Qed.

Lemma finished_app ts1 ts2 : finished (ts1 ++ ts2) = finished ts1 ++ finished ts2.
Proof. apply omap_app. Qed.

Lemma bounded_classify e : bounded (Err (classify_reload_error (causes e))).
Proof. intros x [= <-]. apply classify_label. Qed.

Lemma warn_on_restart_only_drift_keeps new p :
  ps_live (warn_on_restart_only_drift new p) = ps_live p /\ ps_heap (warn_on_restart_only_drift new p) = ps_heap p.
Proof. unfold warn_on_restart_only_drift. by destruct (restart_only_drift _ _). Qed.

(** A step that neither stores nor finishes keeps the invariant when the task
    it leaves behind is fine. *)
Lemma inv_quiet runtime b log auth fl p ts1 t ts2 p' t' :
  sys_inv runtime b log auth fl (mkSys p (ts1 ++ t :: ts2)) ->
  ps_live p' = ps_live p -> ps_heap p' = ps_heap p -> task_ok runtime t' ->
  finished [t] = [] -> finished [t'] = [] ->
  sys_inv runtime b log auth fl (mkSys p' (ts1 ++ t' :: ts2)).
Proof.
  intros [Hl Ha Hc Hb Hu (evs & He & Hp) Ht] El Eh Hok Hf Hf'. cbn [sy_process sy_tasks] in *.
  split; cbn [sy_process sy_tasks]; rewrite ?El, ?Eh; try done.
  - exists evs. split; [done|]. rewrite Hp. rewrite (cons_middle t), (cons_middle t'), !finished_app. by rewrite Hf, Hf'.
  - apply Forall_app in Ht as [Ht1 Ht2]. apply Forall_cons in Ht2 as [_ Ht2]. apply Forall_app. split; [done|]. by constructor.
Qed.

Lemma inv_store runtime b log auth fl p ts1 ts2 c :
  sys_inv runtime b log auth fl (mkSys p (ts1 ++ Built c :: ts2)) ->
  sys_inv runtime b log auth fl (mkSys (mkProcess c (ps_heap p) (ps_warned p)) (ts1 ++ Reported (Ok tt) :: ts2)).
Proof.
  intros [Hl Ha Hc Hb Hu (evs & He & Hp) Ht]. simpl in *.
  apply Forall_app in Ht as [Ht1 Ht2]. apply Forall_cons in Ht2 as [Ht3 Ht2].
  split; simpl; try done.
  - exists evs. split; [done|]. rewrite Hp. by rewrite (cons_middle (Built c)), (cons_middle (Reported _)), !finished_app.
  - apply Forall_app. split; [done|]. by constructor.
Qed.

Lemma inv_audited runtime b log auth fl p ts1 ts2 ck r :
  sys_inv runtime b log auth fl (mkSys p (ts1 ++ Reported r :: ts2)) ->
  sys_inv runtime b log auth fl
    (mkSys (emit_reload_audit ck (outcome_ok r) (outcome_label r) p) (ts1 ++ Finished r :: ts2)).
Proof.
  intros [Hl Ha Hc Hb Hu (evs & He & Hp) Ht]. simpl in *.
  apply Forall_app in Ht as [Ht1 Ht2]. apply Forall_cons in Ht2 as [Ht3 Ht2].
  assert (El : ps_live (emit_reload_audit ck (outcome_ok r) (outcome_label r) p) = ps_live p)
    by (unfold emit_reload_audit; by destruct (sn_audit _)).
  assert (Eh : hp_budget (ps_heap (emit_reload_audit ck (outcome_ok r) (outcome_label r) p)) = hp_budget (ps_heap p) /\
    hp_client_auth (ps_heap (emit_reload_audit ck (outcome_ok r) (outcome_label r) p)) = hp_client_auth (ps_heap p))
    by (unfold emit_reload_audit; by destruct (sn_audit _)).
  destruct Eh as [Eb Ec].
  split; simpl; rewrite ?El, ?Eb, ?Ec; try done.
  - exists (evs ++ [(ck, r)]). split.
    + unfold emit_reload_audit. destruct (built_handles _ _ Hl) as (_ & Hs & _). rewrite Hs, Ha.
      destruct log as [l|]; simpl; [|by rewrite He]. rewrite He. simpl. rewrite alter_singleton_eq. by rewrite foldl_app.
    + change (list_fmap _ _ snd (evs ++ [(ck, r)])) with ((evs ++ [(ck, r)]).*2). rewrite fmap_app, Hp.
      rewrite (cons_middle (Reported r)), (cons_middle (Finished r)), !finished_app. simpl.
      rewrite Permutation_app_comm. simpl. by rewrite Permutation_middle.
  - apply Forall_app. split; [done|]. by constructor.
Qed.

Definition is_flush (e : SysEvent) : bool := match e with FlushEvent => true | ReloadEvent => false end.
Lemma inv_step runtime b log auth fl e s s' :
  sys_inv runtime b log auth fl s -> sys_step from_yaml from_toml causes runtime e s s' ->
  sys_inv runtime b log auth (fl || is_flush e) s'.
Proof.
  intros Hi Hst. revert Hi. destruct Hst as [p ts|p ts1 t ts2 p' t' Hs|p ts]; intros Hi; cbn [is_flush]; rewrite ?orb_false_r, ?orb_true_r.
  - destruct Hi as [Hl Ha Hc Hb Hu (evs & He & Hp) Ht]. split; try done.
    + exists evs. split; [done|]. cbn [sy_tasks]. rewrite Hp, finished_app. by rewrite app_nil_r.
    + apply Forall_app. split; [done|]. by repeat constructor.
  - inversion Hs; subst; first [by eapply inv_store|by eapply inv_audited|idtac].
    all: eapply inv_quiet; [exact Hi|..]; try done; try (apply bounded_classify); try apply warn_on_restart_only_drift_keeps.
    + by eexists _, _.
    + intros e [= <-]. simpl. tauto.
    + intros e [= <-]. simpl. tauto.
  - destruct Hi as [Hl Ha Hc Hb Hu Hev Ht]. unfold invalidate_tokens. simpl in Hl, Hu.
    destruct (built_handles _ _ Hl) as (_ & _ & Hs). rewrite Hs, Hc.
    destruct auth as [a|]; simpl; [|split; try done; simpl in *; by destruct fl].
    split; simpl; try done. rewrite Hu. destruct fl; simpl; by rewrite alter_singleton_eq.
Qed.

Lemma inv_run runtime b log auth fl evs s s' :
  sys_inv runtime b log auth fl s -> sys_run from_yaml from_toml causes runtime evs s s' ->
  sys_inv runtime b log auth (fl || existsb is_flush evs) s'.
Proof.
  intros Hi Hr. revert fl Hi. induction Hr as [s|e es s1 s2 s3 Hs _ IH]; intros fl Hi; cbn [existsb]; [by rewrite orb_false_r|].
  rewrite orb_assoc. apply IH. by eapply inv_step.
Qed.

Lemma startup_inv env cfg runtime p :
  startup from_yaml open_budget open_log open_tokens env cfg = Ok (runtime, p) ->
  exists b log auth, open_objects open_budget open_log open_tokens cfg = Ok (b, log, auth) /\
    sys_inv runtime b log auth false (mkSys p []) /\
    ps_heap p = mkHeap (singleton_opt 1%positive b) (singleton_opt 2%positive log) (singleton_opt 3%positive auth).
Proof.
  unfold startup. intros E. destruct (pool _) as [[view ws]|]; [|done].
  destruct (open_objects _ _ _ cfg) as [[[b log] auth]|]; [|done].
  destruct (build_app_state _ _ _ _) as [s|] eqn:Es; [|done]. injection E as <- <-.
  exists b, log, auth. split; [done|]. split; [|done]. split; simpl; try done.
  - by eexists _, _.
  - exists []. by destruct log.
Qed.


(** One reload is a run of those steps, with no flush among them:
    [execute_reload] takes the process where an uninterrupted task takes it,
    with the same outcome. *)
Theorem execute_reload_steps env runtime panicked ck p r p' :
  execute_reload from_yaml from_toml causes env runtime panicked ck p = (r, p') ->
  exists n, sys_run from_yaml from_toml causes runtime (replicate n ReloadEvent) (mkSys p [Requested]) (mkSys p' [Finished r]).
Proof.
  assert (Hstep : forall n (q : @Process _ _ _ _ B) t (q' : @Process _ _ _ _ B) t' s, task_step from_yaml from_toml causes runtime (q, t) (q', t') ->
    sys_run from_yaml from_toml causes runtime (replicate n ReloadEvent) (mkSys q' [t']) s ->
    sys_run from_yaml from_toml causes runtime (replicate (S n) ReloadEvent) (mkSys q [t]) s).
  { intros n q t q' t' s' Ht. by apply run_cons, (sys_task _ _ _ _ _ [] _ []). }
  assert (Haudit : forall (q : @Process _ _ _ _ B) r0,
    sys_run from_yaml from_toml causes runtime (replicate 1 ReloadEvent) (mkSys q [Reported r0])
      (mkSys (emit_reload_audit ck (outcome_ok r0) (outcome_label r0) q) [Finished r0])).
  { intros. apply (Hstep 0) with (1 := task_audit _ _ _ _ ck _ _). constructor. }
  unfold execute_reload, reload_once. destruct panicked.
  { intros [= <- <-]. exists 2. eapply Hstep; [apply task_read_panics|]. apply Haudit. }
  destruct (from_env_or_default from_toml env) as [cfg|e] eqn:Ec.
  2: { intros [= <- <-]. exists 2. eapply Hstep; [by eapply task_read_fails|]. apply (Haudit p (Err _)). }
  intros E. revert E. destruct (build_app_state from_yaml env cfg runtime) as [c|e] eqn:Eb; intros [= <- <-].
  - exists 4. eapply Hstep; [by eapply task_read|]. eapply Hstep; [by eapply task_build|]. eapply Hstep; [eapply task_store|].
    apply (Haudit _ (Ok tt)).
  - exists 3. eapply Hstep; [by eapply task_read|]. eapply Hstep; [by eapply task_build_fails|]. apply (Haudit _ (Err _)).
Qed.

Lemma emit_keeps ck ok e p :
  ps_live (emit_reload_audit ck ok e p) = ps_live p /\
  hp_budget (ps_heap (emit_reload_audit ck ok e p)) = hp_budget (ps_heap p) /\
  hp_client_auth (ps_heap (emit_reload_audit ck ok e p)) = hp_client_auth (ps_heap p).
Proof. unfold emit_reload_audit. by destruct (sn_audit _). Qed.

(** A reload is all or nothing: it succeeds exactly when the configuration was
    read and every part of the state could be built from it, and then that state
    is live; otherwise the live state stays and the caller is told one of the
    fixed labels.  Either way the budget store and the token runtime, its
    cache included, are not touched. *)
Theorem reload_all_or_nothing env runtime panicked ck p :
  let '(r, p') := execute_reload from_yaml from_toml causes env runtime panicked ck p in
  match r with
  | Ok _ => panicked = false /\ exists cfg s, from_env_or_default from_toml env = Ok cfg /\
              build_app_state from_yaml env cfg runtime = Ok s /\ ps_live p' = s
  | Err label => In label reload_labels /\ ps_live p' = ps_live p /\
              (panicked = true \/ forall cfg s, from_env_or_default from_toml env = Ok cfg ->
                 build_app_state from_yaml env cfg runtime <> Ok s)
  end /\
  hp_budget (ps_heap p') = hp_budget (ps_heap p) /\ hp_client_auth (ps_heap p') = hp_client_auth (ps_heap p).
Proof.
  unfold execute_reload, reload_once. destruct panicked.
  { destruct (emit_keeps ck false (Some "build_failed") p) as (-> & -> & ->). simpl. tauto. }
  destruct (from_env_or_default from_toml env) as [cfg|e].
  2: { destruct (emit_keeps ck false (Some (classify_reload_error (causes e))) p) as (-> & -> & ->).
       split_and!; try done; [apply classify_label|by right]. }
  destruct (warn_on_restart_only_drift_keeps cfg p) as [Hl Hh]. simpl.
  destruct (build_app_state from_yaml env cfg runtime) as [s|e] eqn:Eb;
    match goal with |- context [emit_reload_audit ck ?ok ?l ?q] => destruct (emit_keeps ck ok l q) as (-> & -> & ->) end;
    simpl; rewrite Hh.
  - split_and!; try done. by exists cfg, s.
  - rewrite Hl. split_and!; try done; [apply classify_label|]. right. intros c s [= <-]. by rewrite Eb.
Qed.

Lemma reload_label env runtime panicked ck p label :
  (execute_reload from_yaml from_toml causes env runtime panicked ck p).1 = Err label -> In label reload_labels.
Proof.
  unfold execute_reload. destruct panicked; [intros [= <-]; simpl; tauto|].
  destruct (reload_once _ _ _ _ _) as [[]]; [done|]. intros [= <-]. apply classify_label.
Qed.

(** The two ends of the reload socket agree: what the console reports is what
    the proxy's reload did, the proxy's label included, and a token flush sent
    over the socket is acknowledged after the cache was emptied. *)
Theorem socket_reload_roundtrip env runtime panicked ck p kill_hup read_pid cfg path :
  re_socket cfg = Some path ->
  let proxy payload := socket_command from_yaml from_toml causes env runtime panicked ck (Ok payload) p in
  let exchange (_ payload : string) := Ok (proxy payload).1 in
  trigger_reload exchange kill_hup read_pid cfg =
    match (execute_reload from_yaml from_toml causes env runtime panicked ck p).1 with
    | Ok _ => mkReloadOutcome true "socket" None
    | Err label => mkReloadOutcome false "socket" (Some ("proxy returned error: " +:+ label))
    end /\
  (proxy ("RELOAD" +:+ one nl)).2 = (execute_reload from_yaml from_toml causes env runtime panicked ck p).2 /\
  trigger_invalidate_tokens exchange kill_hup read_pid cfg = mkReloadOutcome true "socket" None /\
  (proxy ("INVALIDATE_TOKENS" +:+ one nl)).2 = invalidate_tokens p.
Proof.
  intros Hp proxy exchange. unfold trigger_reload, trigger_invalidate_tokens, dispatch_blocking. rewrite Hp.
  assert (H1' : proxy ("RELOAD" +:+ one nl) = match execute_reload from_yaml from_toml causes env runtime panicked ck p with
    | (Ok _, p') => ("OK" +:+ one nl, p') | (Err reason, p') => ("ERR " +:+ reason +:+ one nl, p') end) by reflexivity.
  assert (H2' : proxy ("INVALIDATE_TOKENS" +:+ one nl) = ("OK" +:+ one nl, invalidate_tokens p)) by reflexivity.
  unfold trigger_via_socket, exchange. rewrite H1', H2'.
  pose proof (reload_label env runtime panicked ck p) as Hlab.
  destruct (execute_reload _ _ _ _ _ _ _ _) as [[[]|label] p']; [done|].
  split; [|done]. cbn [fst]. specialize (Hlab label eq_refl). unfold reload_labels in Hlab.
  repeat (destruct Hlab as [<-|Hlab]; [vm_compute; reflexivity|]). done.
Qed.
End ReloadProps.

(** ** Properties: the state that is built *)

Section BuildProps.
Context `{Unicode} `{RegexEngine} `{AhoCorasickLaws} `{Iword} `{Serde} `{JsonSchema} `{Sha256} `{SerdeStruct}
  `{Disk} {B : Type} `{BudgetStore B}.
Context {W : Type} (send : W -> ChatRequest -> result string Upstream * W)
  (hash_order : list (string * string) -> list (string * string)).
Context (from_yaml : string -> result string Policy).

Lemma merge_policy_keeps env cfg0 cfg idx :
  merge_policy from_yaml env cfg0 = Ok (cfg, idx) ->
  in_pii (cf_input cfg) = in_pii (cf_input cfg0) /\ cf_output cfg = cf_output cfg0 /\ cf_tools cfg = cf_tools cfg0 /\
  in_enabled (cf_input cfg) = in_enabled (cf_input cfg0) /\ in_shadow (cf_input cfg) = in_shadow (cf_input cfg0) /\
  kc_engine (in_keyword (cf_input cfg)) = kc_engine (in_keyword (cf_input cfg0)) /\
  kc_normalize (in_keyword (cf_input cfg)) = kc_normalize (in_keyword (cf_input cfg0)) /\
  incl (kc_inline_block (in_keyword (cf_input cfg0))) (kc_inline_block (in_keyword (cf_input cfg))).
Proof.
  unfold merge_policy. destruct (po_bundle_path _) as [path|]; [|intros [= <- <-]; split_and!; done || apply incl_refl].
  destruct (String.eqb path ""); [intros [= <- <-]; split_and!; done || apply incl_refl|].
  destruct (from_path _ _ _) as [policy|]; [|done]. intros [= <- <-].
  unfold merge_into_keyword_config. rewrite merge_rules_spec. split_and!; try done. simpl. apply incl_appl, incl_refl.
Qed.

(** What a keyword in the final configuration does to a request. *)
Lemma built_keyword_blocks env cfg0 rt s kw client ck body w :
  build_app_state from_yaml env cfg0 rt = Ok s ->
  in_enabled (cf_input cfg0) = true -> in_shadow (cf_input cfg0) = false ->
  kc_engine (in_keyword (cf_input cfg0)) = "aho-corasick" ->
  In kw (kc_inline_block (in_keyword (cf_input (sn_config s)))) ->
  let norm := normalize_with (kc_normalize (in_keyword (cf_input cfg0))) in
  contains (norm kw) (norm (extract_messages_text body)) = true ->
  exists word w', handle send hash_order (sn_app s) client ck body w =
    (Some (ReplyJson 400 (blocked_body ("prompt injection detected (`" +:+ word +:+ "`)"))), w') /\
    w_http w' = w_http w /\ w_budget w' = w_budget w.
Proof.
  intros Hb Hen Hsh Hk Hin norm Hc. apply build_inv in Hb as (cfg & idx & view & ws & Hm & _ & <- & Hc1 & _ & _ & Hmt & _).
  apply merge_policy_keeps in Hm as (_ & _ & _ & He & Hs & Hke & Hn & _).
  unfold matchers_build in Hmt. rewrite Hke, Hk in Hmt. subst norm. rewrite <-Hn in Hc.
  destruct (inline_block_hits _ _ _ _ _ Hmt Hin Hc) as [word Hw].
  pose proof (blocked_handled send hash_order (sn_app s) client ck body w word) as Hb. rewrite Hc1 in Hb. simpl in Hb.
  specialize (Hb ltac:(congruence) ltac:(congruence) Hw).
  destruct (handle _ _ _ _ _ _ _) as [reply w']. destruct Hb as (-> & ? & ? & _). by exists word, w'.
Qed.

(** C14: A literal block rule of the configured policy bundle is enforced by the
    state built from that configuration, when input scanning is enabled, not in
    shadow mode and on the aho-corasick engine, and the bundle path is set and
    the bundle loads: a chat request whose scanned text (the string contents of
    its messages) contains the rule's pattern, up to normalisation, is answered
    with the 400 content-filter error, nothing is sent upstream and nothing is
    charged. *)
Theorem bundle_rule_blocks env cfg rt s path policy rule client ck body w :
  build_app_state from_yaml env cfg rt = Ok s ->
  in_enabled (cf_input cfg) = true -> in_shadow (cf_input cfg) = false ->
  kc_engine (in_keyword (cf_input cfg)) = "aho-corasick" ->
  po_bundle_path (cf_policies cfg) = Some path -> path <> "" ->
  from_path from_yaml (read_to_string env) path = Ok policy ->
  In rule (policy_rules policy) -> rule_action rule = ABlock -> regex_body (rule_pattern rule) = None ->
  let norm := normalize_with (kc_normalize (in_keyword (cf_input cfg))) in
  contains (norm (rule_pattern rule)) (norm (extract_messages_text body)) = true ->
  exists word w', handle send hash_order (sn_app s) client ck body w =
    (Some (ReplyJson 400 (blocked_body ("prompt injection detected (`" +:+ word +:+ "`)"))), w') /\
    w_http w' = w_http w /\ w_budget w' = w_budget w.
Proof.
  intros Hb Hen Hsh Hk Hp Hne Hf Hin Ha Hr norm Hc.
  eapply (built_keyword_blocks _ _ _ _ (rule_pattern rule)); [exact Hb|done..| |exact Hc].
  apply build_inv in Hb as (cfg' & idx & view & ws & Hm & _ & -> & _).
  unfold merge_policy in Hm. rewrite Hp, Hf in Hm. destruct (String.eqb_spec path ""); [done|]. injection Hm as <- <-.
  simpl. unfold merge_into_keyword_config. rewrite merge_rules_spec. simpl. apply in_or_app. right.
  apply list_elem_of_In, list_elem_of_omap. exists rule. split; [by apply list_elem_of_In|].
  by rewrite !bool_decide_eq_true_2.
Qed.

(** The redactor of a built state: it is built from the PII section alone, so
    no policy bundle changes it; in reversible mode its placeholders are
    numbered; the tool gate masks with the same redactor; and every entity it
    knows has exactly one action, the override or else the default. *)
Theorem built_redactor env cfg rt s e :
  build_app_state from_yaml env cfg rt = Ok s ->
  let pii := in_pii (cf_input cfg) in
  let r := st_redactor (sn_app s) in
  let acts := st_pii_actions (sn_app s) in
  build_with_style (read_to_string env) default_inline_patterns (pii_dict_paths pii) (redactor_style pii) = Ok r /\
  (pii_reversible pii = true -> rd_style r <> PlaceholderStyle.Bare) /\
  (forall g, st_tool_gate (sn_app s) = Some g -> tg_redactor g = r) /\
  (e ∈ entity_names r -> default (pii_action pii) (pii_entities pii !! e) = Mask <-> e ∈ ap_mask acts) /\
  (e ∈ ap_mask acts -> e ∉ ap_reject acts /\ e ∉ ap_log acts) /\
  (e ∈ ap_mask acts ∪ ap_reject acts ∪ ap_log acts <-> e ∈ entity_names r).
Proof.
  intros Hb. apply build_inv in Hb as (cfg' & idx & view & ws & Hm & _ & _ & _ & _ & _ & _ & Hr & Ha & Ht & _).
  apply merge_policy_keeps in Hm as (Hp & _). rewrite Hp in Hr, Ha. split; [done|]. split.
  { intros Hrev. unfold build_with_style in Hr. destruct (compile_all _ _); [|done]. destruct (load_all _ _ _); [|done].
    injection Hr as Er. rewrite <-Er. simpl. unfold redactor_style. rewrite Hrev. by destruct (PlaceholderStyle.parse_name _). }
  split.
  { intros g Hg. rewrite Hg in Ht. unfold build_tool_gate in Ht. destruct (to_enabled _); [|done].
    destruct (load_tool_schemas _ _ _); [|done]. by injection Ht as <-. }
  rewrite Ha. pose proof (partition_by_action_spec (entity_names (st_redactor (sn_app s)))
    (pii_entities (in_pii (cf_input cfg))) (pii_action (in_pii (cf_input cfg))) e) as (H1' & H2' & H3').
  clear -H1' H2' H3'. rewrite !elem_of_union, H1', H2', H3'. destruct (default _ _); naive_solver.
Qed.

(** With no configuration file the keyword guard is off: the built-in block list
    is loaded, the scanner would block, and the request passes the guard all the
    same, because the derived default of the section has [enabled = false]. *)
Theorem default_config_unguarded from_toml env rt s kw ck key model text (w : @World _ B W) :
  path_exists env (config_path env) = false ->
  build_app_state from_yaml env (env_config env) rt = Ok s ->
  In kw ["ignore previous instructions"; "disregard your instructions"; "jailbreak"; "dan mode"; "you are now"] ->
  contains (normalize_with normalize_default kw) (normalize_with normalize_default text) = true ->
  from_env_or_default from_toml env = Ok (env_config env) /\
  (exists word, check_input (st_matchers (sn_app s)) text = Some (Blocked word)) /\
  guard_keywords (sn_app s) ck key model text w = (Next tt, w).
Proof.
  intros He Hb Hin Hc. split; [unfold from_env_or_default; by rewrite He|].
  apply build_inv in Hb as (cfg' & idx & view & ws & Hm & _ & _ & Hcfg & _ & _ & Hmt & _).
  apply merge_policy_keeps in Hm as (_ & _ & _ & Hen & _ & Hk & Hn & Hincl). simpl in *.
  split.
  - unfold matchers_build in Hmt. rewrite Hk in Hmt. eapply inline_block_hits; [exact Hmt| |rewrite Hn; exact Hc].
    by apply Hincl.
  - unfold guard_keywords. rewrite Hcfg. simpl. by rewrite Hen.
Qed.
End BuildProps.

(** ** Properties: what a restart would change *)

Section DriftProps.
Context `{Disk} {B : Type}.
Context (open_budget : string -> result string B) (open_log : string -> result string disk)
  (open_tokens : string -> result string Db).

Lemma changed_nil b key : changed b key = [] <-> b = false.
Proof. by destruct b. Qed.

(** The restart-only warning covers what was opened at start-up, but for one
    key: when it lists nothing and [audit.fsync_every_write] is the same, the
    new configuration opens the same objects as the live one, so the reload
    ignored nothing that a restart would honour. *)
Theorem drift_complete live new :
  restart_only_drift live new = [] ->
  ac_fsync_every_write (cf_audit live) = ac_fsync_every_write (cf_audit new) ->
  open_objects open_budget open_log open_tokens new = open_objects open_budget open_log open_tokens live /\
  cf_nanoguard new = cf_nanoguard live.
Proof.
  unfold restart_only_drift. intros Hd Hf.
  repeat (let K := fresh "K" in apply app_eq_nil in Hd as [K Hd]; apply changed_nil, negb_false_iff in K).
  apply changed_nil, negb_false_iff in Hd.
  repeat match goal with
  | E : String.eqb _ _ = true |- _ => apply String.eqb_eq in E
  | E : Bool.eqb _ _ = true |- _ => apply Bool.eqb_prop in E
  | E : Nat.eqb _ _ = true |- _ => apply Nat.eqb_eq in E
  | E : Z.eqb _ _ = true |- _ => apply Z.eqb_eq in E
  end.
  destruct live as [[] ? ? ? ? ? [] [] ? ? [] ? ?], new as [[] ? ? ? ? ? [] [] ? ? [] ? ?].
  simpl in *. by subst.
Qed.
End DriftProps.

(** ** Concrete runs *)

#[local] Existing Instances demo_unicode literal_engine demo_ac demo_iword demo_serde demo_schema demo_sha
  count_struct mem_disk.

Definition demo_live_config (bundle : option string) (fsync : bool) : Config :=
  let d := env_config bare_env in
  mkConfig (cf_nanoguard d) (cf_backend d) (cf_backends d) (cf_routing d)
    (mkInput true false keyword_default (mkPii true Mask [] "bare" ∅ true "exact") spotlight_section_default)
    (cf_output d) (mkBudgetConfig true "nanoguard.db" None) (mkAuditConfig true "audit.jsonl" true fsync)
    (cf_tools d) (mkPolicies bundle) demo_auth_config (cf_console d)
    (mkReloadConfig true (Some "nanoguard.pid") None).
(** Any file exists and holds its own name. *)
Definition demo_env : Env := mkEnv (fun _ => None) (fun _ => true) Ok.
Definition demo_yaml (_ : string) : result string Policy := Ok demo_policy.
Definition demo_toml (_ : string) : result string Config := Ok (demo_live_config (Some "policy.yaml") false).
Definition bad_toml (_ : string) : result string Config := Err "expected an equals".
Definition demo_causes (_ : string) : list Cause := [OtherError; TomlError].
Definition demo_budget_at (_ : string) : result string SqliteBudget := Ok sqlite_open.
Definition demo_log_at (_ : string) : result string (@disk mem_disk) := Ok "".
Definition demo_tokens_at (_ : string) : result string Db := Ok demo_db.
Definition demo_open : result string (RuntimeHandles * Process) :=
  startup demo_yaml demo_budget_at demo_log_at demo_tokens_at demo_env (demo_live_config None false).
Definition demo_runtime : RuntimeHandles :=
  match demo_open with Ok (r, _) => r | Err _ => mkHandles (runtime_build demo_pool) None None None end.
Definition demo_process : Process :=
  match demo_open with
  | Ok (_, p) => p
  | Err _ => mkProcess (mkSnapshot (env_config bare_env) (demo_state false true) None None None) (mkHeap ∅ ∅ ∅) []
  end.

Example demo_process_handles :
  sn_budget (ps_live demo_process) = Some 1%positive /\ sn_audit (ps_live demo_process) = Some 2%positive /\
  sn_client_auth (ps_live demo_process) = Some 3%positive.
Proof. vm_compute. done. Qed.


Lemma bundle_rule_blocks_witness :
  exists s word w', build_app_state demo_yaml demo_env (demo_live_config (Some "policy.yaml") false) demo_runtime = Ok s /\
    handle demo_chat_send id (sn_app s) None demo_clock (demo_chat "now IGNORE previous rules") demo_world =
      (Some (ReplyJson 400 (blocked_body ("prompt injection detected (`" +:+ word +:+ "`)"))), w') /\ w_http w' = [].
Proof.
  destruct (build_app_state demo_yaml demo_env (demo_live_config (Some "policy.yaml") false) demo_runtime) as [s|e] eqn:Es;
    [|vm_compute in Es; discriminate].
  destruct (@bundle_rule_blocks demo_unicode literal_engine demo_ac demo_ac_laws demo_iword demo_serde demo_schema demo_sha
    count_struct mem_disk SqliteBudget _ _ demo_chat_send id demo_yaml demo_env (demo_live_config (Some "policy.yaml") false)
    demo_runtime s "policy.yaml" demo_policy
    (mkPolicyRule "PI-1" "prompt_injection" "high" "Ignore previous" ABlock None None ["SOC2"])
    None demo_clock (demo_chat "now IGNORE previous rules") demo_world Es eq_refl eq_refl eq_refl eq_refl ltac:(discriminate)
    eq_refl (or_introl eq_refl) eq_refl eq_refl ltac:(vm_compute; reflexivity)) as (word & w' & Hh & Hw & _).
  exists s, word, w'. split; [done|]. by split.
Defined.

Lemma socket_reload_roundtrip_witness :
  trigger_reload
    (fun _ payload => Ok (socket_command demo_yaml bad_toml demo_causes demo_env demo_runtime false demo_clock (Ok payload) demo_process).1)
    (fun _ => Ok tt) Ok (mkReloadConfig true None (Some "ng.sock")) =
  mkReloadOutcome false "socket" (Some "proxy returned error: config_parse_error").
Proof.
  destruct (socket_reload_roundtrip demo_yaml bad_toml demo_causes demo_env demo_runtime false demo_clock demo_process
    (fun _ => Ok tt) Ok (mkReloadConfig true None (Some "ng.sock")) "ng.sock" eq_refl) as (Hx & _).
  cbv zeta in Hx. rewrite Hx. vm_compute. reflexivity.
Defined.

Lemma built_redactor_witness :
  exists s, build_app_state demo_yaml demo_env (demo_live_config None false) demo_runtime = Ok s /\
    rd_style (st_redactor (sn_app s)) <> PlaceholderStyle.Bare.
Proof.
  destruct (build_app_state demo_yaml demo_env (demo_live_config None false) demo_runtime) as [s|e] eqn:Es;
    [|vm_compute in Es; discriminate].
  exists s. split; [done|]. by apply (built_redactor demo_yaml demo_env (demo_live_config None false) demo_runtime s "EMAIL" Es).
Defined.

Lemma drift_complete_witness :
  open_objects demo_budget_at demo_log_at demo_tokens_at (demo_live_config (Some "policy.yaml") false) =
  open_objects demo_budget_at demo_log_at demo_tokens_at (demo_live_config None false).
Proof.
  apply (drift_complete demo_budget_at demo_log_at demo_tokens_at (demo_live_config None false)
    (demo_live_config (Some "policy.yaml") false)); reflexivity.
Defined.

(** Turning [audit.fsync_every_write] on is ignored by a reload without a
    warning: nothing is reported as restart-only, the reload succeeds, and the
    log in use still does not sync. *)
Theorem fsync_drift_silent :
  let new := demo_live_config None true in
  restart_only_drift (sn_config (ps_live demo_process)) new = [] /\
  let '(r, p) := execute_reload demo_yaml (fun _ => Ok new) demo_causes demo_env demo_runtime false demo_clock demo_process in
  r = Ok tt /\ ps_warned p = [] /\ ac_fsync_every_write (cf_audit (sn_config (ps_live p))) = true /\
  (al_fsync <$> hp_audit (ps_heap p) !! 2%positive) = Some false.
Proof. vm_compute. done. Qed.

(** A token the console revoked in the database stays accepted after the SIGHUP
    that [trigger_invalidate_tokens] falls back to: the console reports the
    flush as triggered, the reload succeeds, and the cached row still answers;
    the socket command does flush it. *)
Theorem sighup_keeps_revoked_token :
  let serve p a := verify_request no_time 2 (hp_client_auth (ps_heap p) !! a) demo_req in
  let cached := (serve demo_process 3%positive).2 in
  let revoked := match cached with
                 | Some ca => Some (mkAuth (store_revoke (ca_db ca) "2026-01-02T00:00:00Z" 1).2 (ca_cache ca) (ca_config ca))
                 | None => None
                 end in
  let p0 := mkProcess (ps_live demo_process)
    (mkHeap (hp_budget (ps_heap demo_process)) (hp_audit (ps_heap demo_process)) (singleton_opt 3%positive revoked)) [] in
  let '(r, p1) := execute_reload demo_yaml demo_toml demo_causes demo_env demo_runtime false demo_clock p0 in
  trigger_invalidate_tokens (fun _ _ => Err "") (fun _ => Ok tt) (fun _ => Ok "123") (cf_reload (sn_config (ps_live demo_process)))
    = mkReloadOutcome true "sighup" None /\
  r = Ok tt /\
  (exists v, (serve p1 3%positive).1 = Pass (Some v)) /\
  (serve (invalidate_tokens p0) 3%positive).1 = Refuse 401 "token revoked".
Proof. vm_compute. split_and!; try done. by eexists. Qed.
