(* ===== verification/RustFs.v ===== *)
(** * Paths and files

    [std::path] on Unix, on the text of a path, and [std::fs] as an interface:
    a state that answers reads and directory listings, and operations that may
    fail.  A file is found under the components of its path. *)

From S2P Require Import Prelude RustStr.

(** ** Paths *)

Inductive Component := RootDir | CurDir | ParentDir | Normal (name : string).
#[export] Instance Component_eq_dec : EqDecision Component.
Proof. solve_decision. Defined.

Definition first_component (s : string) : Component :=
  if String.eqb s "." then CurDir else if String.eqb s ".." then ParentDir else Normal s.
Definition junk (s : string) : bool := String.eqb s "" || String.eqb s ".".
Definition seg_component (s : string) : option Component :=
  if junk s then None else if String.eqb s ".." then Some ParentDir else Some (Normal s).
Definition segments (p : string) : list string := split_byte "/" p.
Definition components_of (segs : list string) : list Component :=
  match segs with
  | [] => []
  | s0 :: rest =>
      if String.eqb s0 "" then (match rest with [] => [] | _ => RootDir :: omap seg_component rest end)
      else first_component s0 :: omap seg_component rest
  end.
Definition components (p : string) : list Component := components_of (segments p).

Definition file_name (p : string) : option string :=
  match last (components p) with Some (Normal n) => Some n | _ => None end.

Definition strip_junk (segs : list string) : list string := rev (drop_while junk (rev segs)).
Definition parent_of (segs : list string) : option string :=
  match segs with
  | [] => None
  | s0 :: rest =>
      match rev (strip_junk rest) with
      | [] => if String.eqb s0 "" then None else Some ""
      | _ :: before =>
          let pre := s0 :: strip_junk (rev before) in
          Some (if bool_decide (pre = [""]) then "/" else join "/" pre)
      end
  end.
Definition parent (p : string) : option string := parent_of (segments p).

(** Stem and extension of a file name: split at the last dot, unless it leads. *)
Definition split_name (n : string) : string * option string :=
  if String.eqb n ".." then (n, None)
  else match rsplit_once "." n with
       | Some (before, after) => if String.eqb before "" then (n, None) else (before, Some after)
       | None => (n, None)
       end.
Definition file_stem (p : string) : string := match file_name p with Some n => (split_name n).1 | None => "" end.
Definition extension (p : string) : string :=
  match file_name p with Some n => default "" (split_name n).2 | None => "" end.

(** [dir.join(name)] for a relative name and a non-empty directory. *)
Definition path_join (dir name : string) : string :=
  if ends_with "/" dir then dir +:+ name else dir +:+ "/" +:+ name.

(** The place of a path in the tree. *)
Definition fkey (p : string) : list Component := List.filter (fun c => negb (bool_decide (c = CurDir))) (components p).

(** ** Files *)

(** [DirEntry]: the name, and the modification time and length when the
    metadata can be read. *)
Record DirEntry := mkEntry { de_name : string; de_meta : option (Z * Z) }.

Class Fs := {
  fs : Type;
  (** What is at a place: the bytes and the modification time. *)
  fs_at : fs -> list Component -> option (string * Z);
  read_to_string : fs -> string -> result string string;
  fs_exists : fs -> string -> bool;
  create_dir_all : fs -> string -> result string unit * fs;
  (** [std::fs::write], at a time. *)
  write_file : fs -> Z -> string -> string -> result string unit * fs;
  (** [File::open] and [sync_all] on the open file. *)
  open_file : fs -> string -> result string unit;
  sync_file : fs -> string -> result string unit;
  rename : fs -> string -> string -> result string unit * fs;
  remove_file : fs -> string -> result string unit * fs;
  read_dir : fs -> string -> result string (list DirEntry);
}.

(** The laws of a tree without symbolic (or hard) links, where a path and its
    lexical place are the same: [std::fs] follows links, and on a tree with
    links below the working directory a write through one changes another
    place, so what is proved from this class is about trees without them.  A
    failed write may leave anything at its own place, and nothing else. *)
Class SymlinkFreeFs `{Fs} := {
  read_at s p c : read_to_string s p = Ok c -> exists t, fs_at s (fkey p) = Some (c, t);
  read_exists s p c : read_to_string s p = Ok c -> fs_exists s p = true;
  mkdir_at s p k : fs_at (create_dir_all s p).2 k = fs_at s k;
  write_ok s t p c s' : write_file s t p c = (Ok tt, s') -> fs_at s' (fkey p) = Some (c, t);
  write_other s t p c k : k <> fkey p -> fs_at (write_file s t p c).2 k = fs_at s k;
  rename_ok s a b s' : rename s a b = (Ok tt, s') -> fkey a <> fkey b ->
    fs_at s' (fkey b) = fs_at s (fkey a);
  rename_other s a b k : k <> fkey a -> k <> fkey b -> fs_at (rename s a b).2 k = fs_at s k;
  rename_err s a b e s' : rename s a b = (Err e, s') -> forall k, fs_at s' k = fs_at s k;
  remove_other s p k : k <> fkey p -> fs_at (remove_file s p).2 k = fs_at s k;
  (** A listing gives each name once, with the file's own time. *)
  dir_names s p l : read_dir s p = Ok l -> NoDup (map de_name l);
  dir_meta s p l n t len : read_dir s p = Ok l -> In (mkEntry n (Some (t, len))) l ->
    forall c t', fs_at s (fkey p ++ [Normal n]) = Some (c, t') -> t' = t;
  dir_plain s p l e : read_dir s p = Ok l -> In e l -> junk (de_name e) = false /\ de_name e <> ".." /\
    sall (fun c => negb (Ascii.eqb c "/")) (de_name e) = true;
}.

(** ** Lemmas: segments *)

Definition no_slash (s : string) : bool := sall (fun c => negb (Ascii.eqb c "/")) s.

Lemma split_no_sep b s : Forall (fun x => sall (fun c => negb (Ascii.eqb c b)) x = true) (split_byte b s).
Proof.
  induction s as [|c s IH]; simpl; [by constructor|]. destruct (Ascii.eqb c b) eqn:E; [by constructor|].
  destruct (split_byte b s) as [|h t]; [constructor; [simpl; by rewrite E|constructor]|].
  inversion IH as [|? ? Hh Ht]; subst. constructor; [simpl; by rewrite E|done].
Qed.

Lemma split_nonempty b s : split_byte b s <> [].
Proof. destruct s as [|c s]; simpl; [done|]. destruct (Ascii.eqb c b); [done|]. by destruct (split_byte b s). Qed.

Lemma split_app b x y : split_byte b (x +:+ String b y) = split_byte b x ++ split_byte b y.
Proof.
  induction x as [|c x IH]; simpl; [by rewrite Ascii.eqb_refl|]. destruct (Ascii.eqb c b); [by rewrite IH|].
  rewrite IH. pose proof (split_nonempty b x). by destruct (split_byte b x).
Qed.

Lemma split_plain b x : sall (fun c => negb (Ascii.eqb c b)) x = true -> split_byte b x = [x].
Proof.
  induction x as [|c x IH]; simpl; [done|]. intros [Hc Hx]%andb_prop. apply negb_true_iff in Hc. by rewrite Hc, IH.
Qed.

Lemma split_join b l :
  l <> [] -> Forall (fun x => sall (fun c => negb (Ascii.eqb c b)) x = true) l -> split_byte b (join (one b) l) = l.
Proof.
  intros Hl Hf. induction Hf as [|x l Hx Hf IH]; [done|]. destruct l as [|y l]; [by apply split_plain|].
  change (join (one b) (x :: y :: l)) with (x +:+ String b (join (one b) (y :: l))).
  rewrite split_app, split_plain, IH by done. done.
Qed.

Lemma split_empty b p : split_byte b p = [""] -> p = "".
Proof.
  destruct p as [|c p]; simpl; [done|]. destruct (Ascii.eqb c b); [|by destruct (split_byte b p)].
  intros [= E]. by apply split_nonempty in E.
Qed.

Definition plain_name (n : string) : Prop := junk n = false /\ n <> ".." /\ no_slash n = true.

Lemma seg_plain n : plain_name n -> seg_component n = Some (Normal n).
Proof. intros (Hj & Hd & _). unfold seg_component. rewrite Hj. by destruct (String.eqb_spec n ".."). Qed.

Lemma fkey_join d n : d <> "" -> plain_name n -> fkey (path_join d n) = fkey d ++ [Normal n].
Proof.
  intros Hd Hn. assert (Hp : exists d', segments (path_join d n) = d' ++ [n] /\
    (d' = segments d \/ segments d = d' ++ [""]) /\ d' <> []).
  { destruct Hn as (_ & _ & Hs). unfold path_join, segments. destruct (ends_with "/" d) eqn:E.
    - apply ends_with_true in E as [r ->]. exists (split_byte "/" r).
      change (r +:+ "/") with (r +:+ String "/" ""). rewrite <-sapp_assoc. change (String "/" "" +:+ n) with (String "/" n).
      rewrite !split_app, (split_plain _ n) by done. split; [done|]. split; [by right|apply split_nonempty].
    - exists (split_byte "/" d). change ("/" +:+ n) with (String "/" n). rewrite split_app, (split_plain _ n) by done.
      split; [done|]. split; [by left|apply split_nonempty]. }
  destruct Hp as (d' & E & Hd' & Hne). unfold fkey, components. rewrite E.
  assert (Hc : components_of (d' ++ [n]) = components_of (segments d) ++ [Normal n] /\ components_of (segments d) <> []
    \/ d' = [""] /\ segments d = [""]).
  { assert (Hsnoc : forall l, omap seg_component (l ++ [n]) = omap seg_component l ++ [Normal n])
      by (intros l; rewrite omap_app; cbn; by rewrite seg_plain).
    destruct d' as [|s0 rest]; [done|]. simpl. destruct Hd' as [Hd'|Hd'].
    - rewrite <-Hd'. simpl. destruct (String.eqb_spec s0 "") as [->|Hs0].
      + destruct rest as [|r0 rest]; [by right|]. left. split; [|done]. by rewrite <-app_comm_cons, app_comm_cons, Hsnoc.
      + left. split; [|done]. by rewrite Hsnoc.
    - rewrite Hd'. simpl. left. assert (Hx : omap seg_component (rest ++ [n]) = omap seg_component (rest ++ [""]) ++ [Normal n]).
      { rewrite Hsnoc, omap_app. cbn. by rewrite app_nil_r. }
      destruct (String.eqb s0 ""); [|by rewrite Hx]. rewrite Hx. destruct rest; done. }
  destruct Hc as [[-> _]|[-> Hs]]; [by rewrite List.filter_app|]. by apply split_empty in Hs.
Qed.

(** ** Lemmas: the parent of a relative path *)

Definition relative (p : string) : Prop := Forall (fun c => c <> RootDir) (components p).
(** [path.parent()] when it is not empty, the current directory otherwise. *)
Definition dir_of (p : string) : string :=
  match parent p with Some d => if String.eqb d "" then "." else d | None => "." end.

Lemma strip_junk_snoc_junk l x : junk x = true -> strip_junk (l ++ [x]) = strip_junk l.
Proof. intros Hx. unfold strip_junk. rewrite rev_app_distr. simpl. by rewrite Hx. Qed.

Lemma strip_junk_snoc l x : junk x = false -> strip_junk (l ++ [x]) = l ++ [x].
Proof. intros Hx. unfold strip_junk. rewrite rev_app_distr. simpl. rewrite Hx. simpl. by rewrite rev_involutive. Qed.

Lemma strip_junk_omap l : omap seg_component (strip_junk l) = omap seg_component l.
Proof.
  induction l as [|x l IH] using rev_ind; [done|]. destruct (junk x) eqn:E.
  - rewrite strip_junk_snoc_junk, IH, omap_app by done. cbn. unfold seg_component. rewrite E. by rewrite app_nil_r.
  - by rewrite strip_junk_snoc.
Qed.

Lemma strip_junk_sub (P : string -> Prop) l : Forall P l -> Forall P (strip_junk l).
Proof.
  intros Hl. induction l as [|x l IH] using rev_ind; [done|]. destruct (junk x) eqn:E.
  - rewrite strip_junk_snoc_junk by done. apply IH. by apply Forall_app in Hl as [? _].
  - by rewrite strip_junk_snoc.
Qed.

(** The last segment that counts. *)
Lemma strip_junk_last l : strip_junk l = [] \/ exists l' x, strip_junk l = l' ++ [x] /\ junk x = false.
Proof.
  induction l as [|x l IH] using rev_ind; [by left|]. destruct (junk x) eqn:E; [by rewrite strip_junk_snoc_junk|].
  right. rewrite strip_junk_snoc by done. by exists l, x.
Qed.

Lemma relative_head p : relative p -> p <> "" -> exists s0 rest, segments p = s0 :: rest /\ s0 <> "" /\
  components p = first_component s0 :: omap seg_component rest.
Proof.
  unfold relative, components. intros Hr Hp. destruct (segments p) as [|s0 rest] eqn:E; [by apply split_nonempty in E|].
  exists s0, rest. simpl in *. destruct (String.eqb_spec s0 "") as [->|]; [|done].
  destruct rest; [by apply split_empty in E|]. by inversion Hr.
Qed.

Lemma first_normal s0 n : s0 <> "" -> no_slash s0 = true -> first_component s0 = Normal n -> n = s0 /\ plain_name n.
Proof.
  unfold first_component, plain_name, junk. intros Hs Hn. destruct (String.eqb_spec s0 "."), (String.eqb_spec s0 ".."); [done..|].
  intros [= <-]. destruct (String.eqb_spec s0 ""); [done|]. by destruct (String.eqb_spec s0 ".").
Qed.

Lemma seg_normal s n : no_slash s = true -> seg_component s = Some (Normal n) -> n = s /\ plain_name n.
Proof.
  unfold seg_component, plain_name. intros Hn. destruct (junk s) eqn:E; [done|]. destruct (String.eqb_spec s ".."); [done|].
  intros [= <-]. done.
Qed.

Lemma fkey_dir p f :
  relative p -> file_name p = Some f ->
  plain_name f /\ dir_of p <> "" /\ fkey p = fkey (dir_of p) ++ [Normal f].
Proof.
  intros Hr Hf. assert (Hp : p <> "") by (by intros ->).
  destruct (relative_head p Hr Hp) as (s0 & rest & E & Hs0 & Hc). unfold file_name in Hf. rewrite Hc in Hf.
  assert (Hsl : Forall (fun x => no_slash x = true) (s0 :: rest)) by (rewrite <-E; apply split_no_sep).
  inversion Hsl as [|? ? Hsl0 Hslr]; subst.
  unfold dir_of, parent. rewrite E. cbn [parent_of]. unfold fkey. rewrite Hc.
  rewrite <-(strip_junk_omap rest) in *. apply strip_junk_sub in Hslr.
  destruct (strip_junk_last rest) as [Hn|(l & x & Hx & Hj)].
  - rewrite Hn in *. simpl in Hf |- *. destruct (String.eqb_spec s0 ""); [done|]. simpl.
    destruct (first_component s0) eqn:Ef; [done..|]. injection Hf as ->.
    apply first_normal in Ef as [-> Hpl]; [|done..]. split; [done|]. by split.
  - rewrite Hx in *. rewrite rev_app_distr. cbn [rev app]. rewrite rev_involutive.
    apply Forall_app in Hslr as [Hl Hslx]. inversion Hslx as [|? ? Hx' _]; subst.
    rewrite omap_app in *. assert (Hseg : exists y, seg_component x = Some y)
      by (unfold seg_component; rewrite Hj; destruct (String.eqb x ".."); eauto).
    destruct Hseg as [y Hy]. cbn [omap list_omap] in *. rewrite Hy in *. rewrite app_comm_cons, last_snoc in Hf.
    destruct y as [| | |n]; [done..|]. injection Hf as ->. apply seg_normal in Hy as [-> Hpl]; [|done]. split; [done|].
    rewrite bool_decide_false by (intros [= ->]; done).
    assert (Hspl : segments (join "/" (s0 :: strip_junk l)) = s0 :: strip_junk l).
    { apply split_join; [done|]. constructor; [done|]. by apply strip_junk_sub. }
    destruct (String.eqb_spec (join "/" (s0 :: strip_junk l)) "") as [Hj'|Hj'];
      [by rewrite Hj' in Hspl; injection Hspl as <- _|].
    split; [done|]. unfold components. rewrite Hspl. cbn [components_of]. destruct (String.eqb_spec s0 ""); [done|].
    rewrite strip_junk_omap. rewrite app_comm_cons, List.filter_app. done.
Qed.
