(* ===== verification/RustNet.v ===== *)
(** * [std::net]: parsing a socket address

    [SocketAddr::from_str] as the standard library's recursive-descent parser
    has it: an IPv4 address of four decimal octets without leading zeros, or a
    bracketed IPv6 address with one run of zeros elided, an embedded IPv4 tail
    and a scope, followed by a port. *)

From S2P Require Import Prelude RustStr.

(** What is left of the input goes with the result. *)
Definition parser (A : Type) : Type := string -> option (A * string).

Definition to_digit (radix : Z) (c : ascii) : option Z :=
  let n := Z.of_N (bval c) in
  let d := (if (48 <=? n) && (n <=? 57) then n - 48
            else if (97 <=? n) && (n <=? 122) then n - 87
            else if (65 <=? n) && (n <=? 90) then n - 55
            else 36)%Z in
  if (d <? radix)%Z then Some d else None.
Fixpoint read_digits (radix : Z) (s : string) : list Z * string :=
  match s with
  | "" => ([], "")
  | String c s' =>
      match to_digit radix c with
      | Some d => let '(ds, rest) := read_digits radix s' in (d :: ds, rest)
      | None => ([], s)
      end
  end.
Definition number (radix : Z) (ds : list Z) : Z := foldl (fun acc d => acc * radix + d)%Z 0%Z ds.
(** [limit]: the largest value of the integer type. *)
Definition read_number (radix : Z) (max_digits : option nat) (allow_zero_prefix : bool) (limit : Z) : parser Z := fun s =>
  let '(ds, rest) := read_digits radix s in
  let too_long := match max_digits with Some m => Nat.ltb m (length ds) | None => false end in
  let zero_prefix := match ds with 0%Z :: _ :: _ => true | _ => false end in
  match ds with
  | [] => None
  | _ => if too_long || (negb allow_zero_prefix && zero_prefix) || (limit <? number radix ds)%Z then None
         else Some (number radix ds, rest)
  end.
Definition read_given_char (c : ascii) : parser unit := fun s =>
  match s with String c' s' => if Ascii.eqb c' c then Some (tt, s') else None | "" => None end.
Definition read_separator {A} (sep : ascii) (index : nat) (inner : parser A) : parser A := fun s =>
  match index with
  | O => inner s
  | S _ => match read_given_char sep s with Some (_, s') => inner s' | None => None end
  end.

Fixpoint read_octets (n i : nat) : parser (list Z) := fun s =>
  match n with
  | O => Some ([], s)
  | S n' =>
      match read_separator "." i (read_number 10 (Some 3) false 255) s with
      | None => None
      | Some (o, s') => match read_octets n' (S i) s' with Some (os, s'') => Some (o :: os, s'') | None => None end
      end
  end.
Definition read_ipv4_addr : parser (list Z) := read_octets 4 0.
(** Up to [left] groups, the next one the [i]-th; whether an IPv4 tail ended
    them. *)
Fixpoint read_groups (left i : nat) (s : string) : list Z * bool * string :=
  match left with
  | O => ([], false, s)
  | S left' =>
      match (if Nat.ltb 0 left' then read_separator ":" i read_ipv4_addr s else None) with
      | Some ([a; b; c; d], s') => ([a * 256 + b; c * 256 + d]%Z, true, s')
      | _ =>
          match read_separator ":" i (read_number 16 (Some 4) true 65535) s with
          | Some (g, s') => let '(gs, v4, s'') := read_groups left' (S i) s' in (g :: gs, v4, s'')
          | None => ([], false, s)
          end
      end
  end.
Definition read_ipv6_addr : parser (list Z) := fun s =>
  let '(head, head_v4, s1) := read_groups 8 0 s in
  if Nat.eqb (length head) 8 then Some (head, s1)
  else if head_v4 then None
  else match read_given_char ":" s1 with
  | None => None
  | Some (_, s2) =>
      match read_given_char ":" s2 with
      | None => None
      | Some (_, s3) =>
          let '(tail, _, s4) := read_groups (8 - (length head + 1)) 0 s3 in
          Some (head ++ replicate (8 - length head - length tail) 0%Z ++ tail, s4)
      end
  end.
Definition read_port : parser Z := fun s =>
  match read_given_char ":" s with Some (_, s') => read_number 10 None true 65535 s' | None => None end.
Definition read_scope_id : parser Z := fun s =>
  match read_given_char "%" s with Some (_, s') => read_number 10 None true u32_max s' | None => None end.

Inductive SocketAddr := V4 (octets : list Z) (port : Z) | V6 (groups : list Z) (scope_id port : Z).
Definition read_socket_addr_v4 : parser SocketAddr := fun s =>
  match read_ipv4_addr s with
  | None => None
  | Some (os, s') => match read_port s' with Some (p, s'') => Some (V4 os p, s'') | None => None end
  end.
Definition read_socket_addr_v6 : parser SocketAddr := fun s =>
  match read_given_char "[" s with
  | None => None
  | Some (_, s1) =>
      match read_ipv6_addr s1 with
      | None => None
      | Some (gs, s2) =>
          let '(scope, s3) := match read_scope_id s2 with Some x => x | None => (0%Z, s2) end in
          match read_given_char "]" s3 with
          | None => None
          | Some (_, s4) => match read_port s4 with Some (p, s5) => Some (V6 gs scope p, s5) | None => None end
          end
      end
  end.
Definition parse_socket_addr (s : string) : result string SocketAddr :=
  match (match read_socket_addr_v4 s with Some x => Some x | None => read_socket_addr_v6 s end) with
  | Some (a, "") => Ok a
  | _ => Err "invalid socket address syntax"
  end.

(** [addr.ip().is_loopback()]. *)
Definition is_loopback (a : SocketAddr) : bool :=
  match a with
  | V4 os _ => match os with o :: _ => Z.eqb o 127 | [] => false end
  | V6 gs _ _ => bool_decide (gs = [0; 0; 0; 0; 0; 0; 0; 1]%Z)
  end.

Example socket_addr_runs :
  parse_socket_addr "127.0.0.1:8081" = Ok (V4 [127; 0; 0; 1]%Z 8081) /\
  parse_socket_addr "0.0.0.0:80" = Ok (V4 [0; 0; 0; 0]%Z 80) /\
  parse_socket_addr "[::1]:8081" = Ok (V6 [0; 0; 0; 0; 0; 0; 0; 1]%Z 0 8081) /\
  parse_socket_addr "[::]:1" = Ok (V6 (replicate 8 0%Z) 0 1) /\
  parse_socket_addr "[fe80::1%3]:1" = Ok (V6 [65152; 0; 0; 0; 0; 0; 0; 1]%Z 3 1) /\
  parse_socket_addr "[::ffff:127.0.0.1]:1" = Ok (V6 [0; 0; 0; 0; 0; 65535; 32512; 1]%Z 0 1) /\
  is_ok (parse_socket_addr "localhost:8081") = false /\ is_ok (parse_socket_addr "127.0.0.01:1") = false /\
  is_ok (parse_socket_addr "256.0.0.1:1") = false /\ is_ok (parse_socket_addr "1.2.3.4:65536") = false /\
  is_ok (parse_socket_addr "1.2.3.4") = false /\ is_ok (parse_socket_addr "[1:2]:3") = false.
Proof. vm_compute. done. Qed.

(** ** Lemmas: printed IPv4 addresses *)

Definition stops (radix : Z) (s : string) : Prop :=
  match s with "" => True | String c _ => to_digit radix c = None end.

Lemma read_digits_app radix s ds rest :
  read_digits radix s = (ds, "") -> stops radix rest -> read_digits radix (s +:+ rest) = (ds, rest).
Proof.
  revert ds. induction s as [|c s IH]; simpl; intros ds.
  - intros [= <-] Hr. destruct rest as [|c rest]; simpl in *; [done|]. by rewrite Hr.
  - destruct (to_digit radix c); [|done]. destruct (read_digits radix s) as [ds' rest'] eqn:E. intros [= <- ->] Hr.
    by rewrite (IH ds').
Qed.

Lemma read_number_app radix m z limit s n rest :
  read_number radix m z limit s = Some (n, "") -> stops radix rest -> read_number radix m z limit (s +:+ rest) = Some (n, rest).
Proof.
  unfold read_number. destruct (read_digits radix s) as [ds r] eqn:E. intros Hs Hr.
  assert (r = "") as -> by (destruct ds; [done|]; destruct (_ || _ || _); [done|]; by injection Hs).
  rewrite (read_digits_app _ _ ds rest) by done. destruct ds; [done|]. destruct (_ || _ || _); [done|]. by injection Hs as ->.
Qed.

(** A check of every integer of a type, by computation. *)
Fixpoint all_below (P : Z -> bool) (start : Z) (len : nat) : bool :=
  match len with O => true | S len' => P start && all_below P (start + 1) len' end.
Lemma all_below_spec P start len n :
  all_below P start len = true -> (start <= n < start + Z.of_nat len)%Z -> P n = true.
Proof.
  revert start. induction len as [|len IH]; simpl; intros start; [lia|]. intros [Hs Hl]%andb_prop Hn.
  destruct (Z.eq_dec n start) as [->|]; [done|]. apply (IH (start + 1)%Z Hl). lia.
Qed.
Lemma below_forall (limit : Z) (P : Z -> bool) :
  (0 <= limit)%Z -> all_below P 0 (Z.to_nat limit) = true -> forall n, (0 <= n < limit)%Z -> P n = true.
Proof. intros Hl H n Hn. apply (all_below_spec P 0 _ n H). lia. Qed.
Lemma read_octet n rest :
  (0 <= n <= 255)%Z -> stops 10 rest -> read_number 10 (Some 3) false 255 (show_Z n +:+ rest) = Some (n, rest).
Proof.
  intros Hn. apply read_number_app.
  apply (bool_decide_unpack _).
  pose proof (below_forall 256 (fun n => bool_decide (read_number 10 (Some 3) false 255 (show_Z n) = Some (n, "")))) as Hf.
  rewrite Hf; [done|lia| |lia]. by vm_compute.
Qed.
Lemma digit_of_char d : (d < 10)%N -> to_digit 10 (pretty_N_char d) = Some (Z.of_N d).
Proof.
  intros Hd. assert (d = 0 \/ d = 1 \/ d = 2 \/ d = 3 \/ d = 4 \/ d = 5 \/ d = 6 \/ d = 7 \/ d = 8 \/ d = 9)%N as Hc by lia.
  repeat (destruct Hc as [->|Hc]; [done|]). by subst.
Qed.
Lemma read_pretty x s ds :
  read_digits 10 s = (ds, "") -> exists ds', read_digits 10 (pretty_N_go x s) = (ds' ++ ds, "") /\ number 10 ds' = Z.of_N x.
Proof.
  revert s ds. induction (N.lt_wf_0 x) as [x _ IH]; intros s ds Hs.
  assert (x = 0 ∨ 0 < x)%N as [->|Hx] by lia; [by exists []|]. rewrite pretty_N_go_step by done.
  destruct (IH (x `div` 10)%N (N.div_lt x 10 Hx ltac:(lia)) (String (pretty_N_char (x `mod` 10)) s) (Z.of_N (x `mod` 10) :: ds))
    as (ds' & Hd & Hn).
  { simpl. rewrite digit_of_char by (by apply N.mod_lt). by rewrite Hs. }
  exists (ds' ++ [Z.of_N (x `mod` 10)]). rewrite Hd, <-app_assoc. split; [done|]. unfold number in *.
  rewrite foldl_app. simpl. rewrite Hn. pose proof (N.div_mod x 10 ltac:(done)). lia.
Qed.
Lemma read_port_number n : (0 <= n <= 65535)%Z -> read_number 10 None true 65535 (show_Z n) = Some (n, "").
Proof.
  intros Hn. unfold read_number. destruct n as [|p|p]; [done| |lia].
  unfold show_Z, pretty, pretty_Z, pretty, pretty_positive, pretty, pretty_N. rewrite decide_False by done.
  destruct (read_pretty (N.pos p) "" [] ltac:(done)) as (ds & -> & Hd). rewrite app_nil_r. destruct ds as [|d ds]; [by simpl in Hd|].
  rewrite Hd. simpl. destruct (Z.ltb_spec 65535 (Z.pos p)); [lia|done].
Qed.

(** A printed IPv4 socket address parses back. *)
Definition show_v4 (a b c d port : Z) : string :=
  show_Z a +:+ "." +:+ show_Z b +:+ "." +:+ show_Z c +:+ "." +:+ show_Z d +:+ ":" +:+ show_Z port.
Lemma parse_show_v4 a b c d port :
  Forall (fun o => 0 <= o <= 255)%Z [a; b; c; d] -> (0 <= port <= 65535)%Z ->
  parse_socket_addr (show_v4 a b c d port) = Ok (V4 [a; b; c; d] port).
Proof.
  intros [Ha [Hb [Hc [Hd _]%Forall_cons]%Forall_cons]%Forall_cons]%Forall_cons Hp.
  assert (Hip : read_socket_addr_v4 (show_v4 a b c d port) = Some (V4 [a; b; c; d] port, "")).
  { unfold read_socket_addr_v4, read_ipv4_addr, show_v4, read_port. cbn -[read_number show_Z]. rewrite read_octet by done.
    cbn -[read_number show_Z]. rewrite read_octet by done. cbn -[read_number show_Z]. rewrite read_octet by done.
    cbn -[read_number show_Z]. rewrite read_octet by done. cbn -[read_number show_Z]. by rewrite read_port_number. }
  unfold parse_socket_addr. by rewrite Hip.
Qed.

(** ** Lemmas: printed integers *)

Lemma digit_char c d : to_digit 10 c = Some d -> is_ascii_digit c = true /\ d = (Z.of_N (bval c) - 48)%Z /\ (0 <= d < 10)%Z.
Proof.
  unfold to_digit, is_ascii_digit. intros E. set (n := bval c) in *.
  destruct ((48 <=? Z.of_N n) && (Z.of_N n <=? 57))%Z eqn:E1.
  { apply andb_prop in E1 as [H1%Z.leb_le H2%Z.leb_le]. destruct (Z.ltb_spec (Z.of_N n - 48) 10); [|done]. injection E as <-.
    split; [apply andb_true_intro; split; apply N.leb_le; lia|]. lia. }
  destruct ((97 <=? Z.of_N n) && (Z.of_N n <=? 122))%Z eqn:E2.
  { apply andb_prop in E2 as [H1%Z.leb_le H2%Z.leb_le]. destruct (Z.ltb_spec (Z.of_N n - 87) 10); [lia|done]. }
  destruct ((65 <=? Z.of_N n) && (Z.of_N n <=? 90))%Z eqn:E3; [|done].
  apply andb_prop in E3 as [H1%Z.leb_le H2%Z.leb_le]. destruct (Z.ltb_spec (Z.of_N n - 55) 10); [lia|done].
Qed.

Lemma number_grows ds acc :
  Forall (fun d => 0 <= d < 10)%Z ds -> (0 <= acc)%Z -> (acc <= foldl (fun acc d => acc * 10 + d) acc ds)%Z.
Proof.
  revert acc. induction ds as [|d ds IH]; intros acc; simpl; [lia|]. intros [Hd Hds]%Forall_cons Ha.
  etransitivity; [|apply IH; [done|lia]]. lia.
Qed.
Lemma read_digits_range s ds rest : read_digits 10 s = (ds, rest) -> Forall (fun d => 0 <= d < 10)%Z ds.
Proof.
  revert ds rest. induction s as [|c s IH]; simpl; intros ds rest; [by intros [= <- <-]|].
  destruct (to_digit 10 c) as [d|] eqn:E; [|by intros [= <- <-]]. destruct (read_digits 10 s) as [ds' r']. intros [= <- <-].
  apply digit_char in E as (_ & _ & Hd). constructor; [done|]. by eapply IH.
Qed.
Lemma parse_digits_read lo hi acc s ds :
  (lo <= 0)%Z -> (0 <= acc)%Z -> read_digits 10 s = (ds, "") -> (foldl (fun acc d => acc * 10 + d) acc ds <= hi)%Z ->
  parse_digits false lo hi acc s = Ok (foldl (fun acc d => acc * 10 + d)%Z acc ds).
Proof.
  intros Hlo. revert acc ds. induction s as [|c s IH]; simpl; intros acc ds Ha; [by intros [= <-]|].
  destruct (to_digit 10 c) as [d|] eqn:E; [|done]. destruct (read_digits 10 s) as [ds' r'] eqn:Er. intros [= <- ->] Hhi.
  apply digit_char in E as (-> & -> & Hd). simpl in Hhi. pose proof (read_digits_range _ _ _ Er) as Hr.
  pose proof (number_grows ds' _ Hr (ltac:(lia) : (0 <= acc * 10 + (Z.of_N (bval c) - 48))%Z)) as Hg.
  destruct (Z.ltb_spec hi (acc * 10 + (Z.of_N (bval c) - 48))); [lia|].
  destruct (Z.ltb_spec (acc * 10 + (Z.of_N (bval c) - 48)) lo); [lia|].
  simpl. apply IH; [lia|done..].
Qed.

Lemma parse_int_digit lo hi c s : is_ascii_digit c = true -> parse_int lo hi (String c s) = parse_digits false lo hi 0 (String c s).
Proof. destruct c as [[] [] [] [] [] [] [] []]; intros Hc; try discriminate Hc; reflexivity. Qed.
(** A printed positive integer parses back at any type that holds it. *)
Lemma parse_int_show lo hi n : (lo <= 0)%Z -> (0 < n <= hi)%Z -> parse_int lo hi (show_Z n) = Ok n.
Proof.
  intros Hlo Hn. destruct n as [|p|p]; [lia| |lia]. pose proof (show_Z_digits (Z.pos p) ltac:(lia)) as Hd.
  assert (Hr : exists ds, read_digits 10 (show_Z (Z.pos p)) = (ds, "") /\ number 10 ds = Z.pos p).
  { unfold show_Z, pretty, pretty_Z, pretty, pretty_positive, pretty, pretty_N. rewrite decide_False by done.
    destruct (read_pretty (N.pos p) "" [] ltac:(done)) as (ds & E & Hds). exists ds. by rewrite app_nil_r in E. }
  destruct Hr as (ds & Hr & Hv). unfold number in Hv.
  assert (Hpd : parse_digits false lo hi 0 (show_Z (Z.pos p)) = Ok (Z.pos p)).
  { rewrite (parse_digits_read lo hi 0 _ ds); [by rewrite Hv|done..|]. rewrite Hv. lia. }
  destruct (show_Z (Z.pos p)) as [|c s]; [simpl in Hr; injection Hr as <-; simpl in Hv; done|].
  simpl in Hd. apply andb_prop in Hd as [Hc _].
  by rewrite parse_int_digit.
Qed.

Lemma chars_digits s : sall is_ascii_digit s = true -> chars s = map one (String.list_ascii_of_string s) /\ is_utf8 s = true.
Proof.
  induction s as [|c s IH]; [done|]. simpl sall. intros [Hc Hs]%andb_prop. destruct (IH Hs) as [IHc IHu].
  assert (Hone : is_utf8 (one c) = true /\ chars (one c) = [one c]).
  { pose proof (byte_forall (fun c => implb (is_ascii_digit c) (is_utf8 (one c) && bool_decide (chars (one c) = [one c])))
      ltac:(by vm_compute) c) as Hb. cbv beta in Hb. rewrite Hc in Hb. simpl in Hb. apply andb_prop in Hb as [H1 H2].
    split; [done|]. by apply bool_decide_eq_true in H2. }
  destruct Hone as [Hu Ho]. change (String c s) with (one c +:+ s). split.
  - rewrite chars_app by done. rewrite Ho, IHc. done.
  - by apply is_utf8_app.
Qed.
(** A number on a line of its own. *)
Lemma trim_line n : (0 <= n)%Z -> trim (show_Z n +:+ one nl) = show_Z n.
Proof.
  intros Hn. pose proof (show_Z_digits n Hn) as Hd. destruct (chars_digits _ Hd) as [Hc Hu]. set (s := show_Z n) in *.
  assert (Hw : Forall (fun ch => is_whitespace ch = false) (chars s)).
  { rewrite Hc. clear -Hd. induction s as [|c s IH]; simpl in *; [constructor|]. apply andb_prop in Hd as [Hc Hs].
    constructor; [|by apply IH]. pose proof (byte_forall (fun c => implb (is_ascii_digit c) (negb (is_whitespace (one c))))
      ltac:(by vm_compute) c) as Hb. cbv beta in Hb. rewrite Hc in Hb. by apply negb_true_iff in Hb. }
  assert (Hdrop : forall l, Forall (fun ch => is_whitespace ch = false) l -> drop_while is_whitespace l = l).
  { intros l [|x l' Hx _]; simpl; [done|]. by rewrite Hx. }
  assert (Hne : chars s <> []).
  { intros E. assert (s = "") as Es by (rewrite <-(sconcat_chars s), E; done). unfold s in Es. destruct n as [|p|p]; [done| |lia].
    pose proof (parse_int_show 0 (Z.pos p) (Z.pos p) ltac:(lia) ltac:(lia)) as E'. by rewrite Es in E'. }
  unfold trim. rewrite chars_app by done. change (chars (one nl)) with [one nl].
  destruct (chars s) as [|x l] eqn:El; [done|]. assert (Hx : is_whitespace x = false) by (by inversion Hw).
  simpl. rewrite Hx. rewrite app_comm_cons, rev_app_distr. change (rev [one nl] ++ rev (x :: l)) with (one nl :: rev (x :: l)).
  cbn [drop_while]. change (is_whitespace (one nl)) with true. cbv iota. rewrite Hdrop by (by apply Forall_rev).
  rewrite rev_involutive, <-El. apply sconcat_chars.
Qed.
