(* ===== verification/ConsoleDb.v ===== *)
(** * The console's database and sessions ([src/console/db.rs],
    [src/console/auth.rs])

    Users, sessions and login attempts as tables; password hashing and cookie
    signing as interfaces; the two extractors that admit a request: a session
    that is neither expired nor idle, and for mutations the session's CSRF
    token. *)

From S2P Require Import Prelude RustStr Json Matcher ClientAuth Schema AuditTrail Config.

(** ** Time

    Instants in nanoseconds since the epoch.  [text_lt] is SQLite's comparison
    of TEXT values. *)
Class Rfc3339 := {
  to_rfc3339 : Z -> string;
  parse_from_rfc3339 : string -> option Z;
  text_lt : string -> string -> bool;
}.
(** Up to the year 9999 UTC timestamps round-trip, and their text order is
    their order in time: all carry the offset [+00:00], and a fraction only
    adds digits. *)
Definition max_instant : Z := 253402300800000000000.
Definition instant (t : Z) : Prop := (0 <= t < max_instant)%Z.
Class Rfc3339Laws `{Rfc3339} := {
  parse_to t : instant t -> parse_from_rfc3339 (to_rfc3339 t) = Some t;
  text_lt_to a b : instant a -> instant b -> text_lt (to_rfc3339 a) (to_rfc3339 b) = (a <? b)%Z;
}.
Definition minutes (n : Z) : Z := (n * 60000000000)%Z.
Definition hours (n : Z) : Z := (n * 3600000000000)%Z.

(** ** Tables *)

Record User := mkUser {
  us_id : Z;
  us_username : string;
  us_display_name : option string;
  us_email : option string;
  us_role : string;
  us_service_account : bool;
  us_disabled : bool;
  us_allowed_models : string;
  us_budget_limit : option Z;
  us_oidc_sub : option string;
  us_password_hash : option string;
  us_locked_until : option string;
  us_created_at : string;
  us_last_login_at : option string;
}.
Record Session := mkSession {
  se_id : string;
  se_user_id : Z;
  se_created_at : string;
  se_expires_at : string;
  se_last_seen_at : string;
  se_user_agent : option string;
  se_ip : option string;
  se_csrf_token : option string;
}.
(** A row of [login_attempts]. *)
Record Attempt := mkAttempt { at_username : string; at_ip : option string; at_attempted_at : string }.

Record ConsoleDb := mkConsoleDb {
  cd_users : list User;
  cd_sessions : list Session;
  cd_attempts : list Attempt;
  cd_tokens : Db;
}.
Definition with_users (us : list User) (d : ConsoleDb) := mkConsoleDb us (cd_sessions d) (cd_attempts d) (cd_tokens d).
Definition with_sessions (ss : list Session) (d : ConsoleDb) := mkConsoleDb (cd_users d) ss (cd_attempts d) (cd_tokens d).
Definition with_attempts (l : list Attempt) (d : ConsoleDb) := mkConsoleDb (cd_users d) (cd_sessions d) l (cd_tokens d).
Definition with_tokens (t : Db) (d : ConsoleDb) := mkConsoleDb (cd_users d) (cd_sessions d) (cd_attempts d) t.

(** ** Users *)

Definition user_by_id (d : ConsoleDb) (id : Z) : option User := List.find (fun u => Z.eqb (us_id u) id) (cd_users d).
Definition user_by_username (d : ConsoleDb) (username : string) : option User :=
  List.find (fun u => String.eqb (us_username u) username) (cd_users d).

(** [UPDATE users SET .. WHERE id = ?]: the number of rows and the table. *)
Definition update_users (f : User -> User) (id : Z) (d : ConsoleDb) : Z * ConsoleDb :=
  (Z.of_nat (length (List.filter (fun u => Z.eqb (us_id u) id) (cd_users d))),
   with_users (map (fun u => if Z.eqb (us_id u) id then f u else u) (cd_users d)) d).

Definition next_user_id (us : list User) : Z := (foldr (fun u m => Z.max (us_id u) m) 0 us + 1)%Z.
Definition insert_user (d : ConsoleDb) (now username : string) (display_name email : option string) (role : string)
    (password_hash : option string) : result string (Z * ConsoleDb) :=
  match user_by_username d username with
  | Some _ => Err "UNIQUE constraint failed: users.username"
  | None =>
      let id := next_user_id (cd_users d) in
      Ok (id, with_users (cd_users d ++ [mkUser id username display_name email role false false "[]" None None
                                           password_hash None now None]) d)
  end.
Definition set_last_login (now : string) (u : User) : User :=
  mkUser (us_id u) (us_username u) (us_display_name u) (us_email u) (us_role u) (us_service_account u) (us_disabled u)
    (us_allowed_models u) (us_budget_limit u) (us_oidc_sub u) (us_password_hash u) (us_locked_until u) (us_created_at u)
    (Some now).
Definition update_last_login (d : ConsoleDb) (now : string) (id : Z) : ConsoleDb :=
  (update_users (set_last_login now) id d).2.
Definition set_lock (until : option string) (u : User) : User :=
  mkUser (us_id u) (us_username u) (us_display_name u) (us_email u) (us_role u) (us_service_account u) (us_disabled u)
    (us_allowed_models u) (us_budget_limit u) (us_oidc_sub u) (us_password_hash u) until (us_created_at u)
    (us_last_login_at u).
Definition set_locked_until (d : ConsoleDb) (id : Z) (until : option string) : ConsoleDb :=
  (update_users (set_lock until) id d).2.
Definition set_hash (hash : string) (u : User) : User :=
  mkUser (us_id u) (us_username u) (us_display_name u) (us_email u) (us_role u) (us_service_account u) (us_disabled u)
    (us_allowed_models u) (us_budget_limit u) (us_oidc_sub u) (Some hash) (us_locked_until u) (us_created_at u)
    (us_last_login_at u).
Definition set_password_hash (d : ConsoleDb) (id : Z) (hash : string) : ConsoleDb := (update_users (set_hash hash) id d).2.

Record UserUpdate := mkUpdate {
  up_display_name : option string;
  up_email : option string;
  up_role : option string;
  up_disabled : option bool;
  up_allowed_models : option string;
  up_budget_limit : option (option Z);
}.
(** One [UPDATE] per field given. *)
Definition patch_field {A} (v : option A) (set : A -> User -> User) (id : Z) (nd : Z * ConsoleDb) : Z * ConsoleDb :=
  match v with
  | None => nd
  | Some a => let '(n, d') := update_users (set a) id nd.2 in ((nd.1 + n)%Z, d')
  end.
Definition set_display_name (v : string) (u : User) : User :=
  mkUser (us_id u) (us_username u) (Some v) (us_email u) (us_role u) (us_service_account u) (us_disabled u)
    (us_allowed_models u) (us_budget_limit u) (us_oidc_sub u) (us_password_hash u) (us_locked_until u) (us_created_at u)
    (us_last_login_at u).
Definition set_email (v : string) (u : User) : User :=
  mkUser (us_id u) (us_username u) (us_display_name u) (Some v) (us_role u) (us_service_account u) (us_disabled u)
    (us_allowed_models u) (us_budget_limit u) (us_oidc_sub u) (us_password_hash u) (us_locked_until u) (us_created_at u)
    (us_last_login_at u).
Definition set_role (v : string) (u : User) : User :=
  mkUser (us_id u) (us_username u) (us_display_name u) (us_email u) v (us_service_account u) (us_disabled u)
    (us_allowed_models u) (us_budget_limit u) (us_oidc_sub u) (us_password_hash u) (us_locked_until u) (us_created_at u)
    (us_last_login_at u).
Definition set_disabled (v : bool) (u : User) : User :=
  mkUser (us_id u) (us_username u) (us_display_name u) (us_email u) (us_role u) (us_service_account u) v
    (us_allowed_models u) (us_budget_limit u) (us_oidc_sub u) (us_password_hash u) (us_locked_until u) (us_created_at u)
    (us_last_login_at u).
Definition set_allowed_models (v : string) (u : User) : User :=
  mkUser (us_id u) (us_username u) (us_display_name u) (us_email u) (us_role u) (us_service_account u) (us_disabled u)
    v (us_budget_limit u) (us_oidc_sub u) (us_password_hash u) (us_locked_until u) (us_created_at u) (us_last_login_at u).
Definition set_budget_limit (v : option Z) (u : User) : User :=
  mkUser (us_id u) (us_username u) (us_display_name u) (us_email u) (us_role u) (us_service_account u) (us_disabled u)
    (us_allowed_models u) v (us_oidc_sub u) (us_password_hash u) (us_locked_until u) (us_created_at u) (us_last_login_at u).
Definition update_user (d : ConsoleDb) (id : Z) (p : UserUpdate) : Z * ConsoleDb :=
  patch_field (up_budget_limit p) set_budget_limit id
    (patch_field (up_allowed_models p) set_allowed_models id
      (patch_field (up_disabled p) set_disabled id
        (patch_field (up_role p) set_role id
          (patch_field (up_email p) set_email id
            (patch_field (up_display_name p) set_display_name id (0%Z, d)))))).

Definition maybe_bootstrap_admin (d : ConsoleDb) (now username password_hash : string) : result string (bool * ConsoleDb) :=
  if (0 <? Z.of_nat (length (cd_users d)))%Z then Ok (false, d)
  else
    let? (_, d') := insert_user d now username (Some username) None "admin" (Some password_hash) in
    Ok (true, d').

(** ** Login attempts *)

Section Attempts.
Context `{Rfc3339}.

Definition record_login_attempt (d : ConsoleDb) (now : Z) (username : string) (ip : option string) : ConsoleDb :=
  with_attempts (cd_attempts d ++ [mkAttempt username ip (to_rfc3339 now)]) d.
(** [attempted_at > since]. *)
Definition recent (since : Z) (a : Attempt) : bool := text_lt (to_rfc3339 since) (at_attempted_at a).
Definition count_recent_login_attempts (d : ConsoleDb) (now : Z) (username : string) (window_minutes : Z) : Z :=
  Z.of_nat (length (List.filter (fun a => String.eqb (at_username a) username && recent (now - minutes window_minutes) a)
    (cd_attempts d))).
Definition count_recent_login_attempts_by_ip (d : ConsoleDb) (now : Z) (ip : string) (window_minutes : Z) : Z :=
  Z.of_nat (length (List.filter (fun a => bool_decide (at_ip a = Some ip) && recent (now - minutes window_minutes) a)
    (cd_attempts d))).
Definition clear_login_attempts (d : ConsoleDb) (username : string) : ConsoleDb :=
  with_attempts (List.filter (fun a => negb (String.eqb (at_username a) username)) (cd_attempts d)) d.
Definition prune_old_login_attempts (d : ConsoleDb) (now window_minutes : Z) : ConsoleDb :=
  with_attempts (List.filter (fun a => negb (text_lt (at_attempted_at a) (to_rfc3339 (now - minutes window_minutes))))
    (cd_attempts d)) d.

(** ** Sessions *)

Definition session_by_id (d : ConsoleDb) (id : string) : option Session :=
  List.find (fun s => String.eqb (se_id s) id) (cd_sessions d).
Definition create_session (d : ConsoleDb) (now : Z) (id : string) (user_id : Z) (expires_at : string)
    (user_agent ip : option string) (csrf_token : string) : result string ConsoleDb :=
  match session_by_id d id with
  | Some _ => Err "UNIQUE constraint failed: user_sessions.id"
  | None => Ok (with_sessions (cd_sessions d ++ [mkSession id user_id (to_rfc3339 now) expires_at (to_rfc3339 now)
                                                  user_agent ip (Some csrf_token)]) d)
  end.
Definition set_csrf (t : string) (s : Session) : Session :=
  mkSession (se_id s) (se_user_id s) (se_created_at s) (se_expires_at s) (se_last_seen_at s) (se_user_agent s) (se_ip s) (Some t).
Definition set_last_seen (t : string) (s : Session) : Session :=
  mkSession (se_id s) (se_user_id s) (se_created_at s) (se_expires_at s) t (se_user_agent s) (se_ip s) (se_csrf_token s).
Definition update_sessions (f : Session -> Session) (id : string) (d : ConsoleDb) : Z * ConsoleDb :=
  (Z.of_nat (length (List.filter (fun s => String.eqb (se_id s) id) (cd_sessions d))),
   with_sessions (map (fun s => if String.eqb (se_id s) id then f s else s) (cd_sessions d)) d).
Definition rotate_csrf_token (d : ConsoleDb) (id new_token : string) : Z * ConsoleDb :=
  update_sessions (set_csrf new_token) id d.
Definition touch_session (d : ConsoleDb) (now : Z) (id : string) : ConsoleDb :=
  (update_sessions (set_last_seen (to_rfc3339 now)) id d).2.
Definition delete_session (d : ConsoleDb) (id : string) : ConsoleDb :=
  with_sessions (List.filter (fun s => negb (String.eqb (se_id s) id)) (cd_sessions d)) d.
Definition delete_user_sessions (d : ConsoleDb) (user_id : Z) : ConsoleDb :=
  with_sessions (List.filter (fun s => negb (Z.eqb (se_user_id s) user_id)) (cd_sessions d)) d.
Definition prune_expired_sessions (d : ConsoleDb) (now : Z) : ConsoleDb :=
  with_sessions (List.filter (fun s => negb (text_lt (se_expires_at s) (to_rfc3339 now))) (cd_sessions d)) d.
Definition prune_idle_sessions (d : ConsoleDb) (now idle_timeout_hours : Z) : ConsoleDb :=
  with_sessions (List.filter (fun s => negb (text_lt (se_last_seen_at s) (to_rfc3339 (now - hours idle_timeout_hours))))
    (cd_sessions d)) d.
End Attempts.

(** ** Hex, passwords, cookies ([auth.rs]) *)

Definition hex_val (c : ascii) : option N :=
  let n := bval c in
  if (48 <=? n)%N && (n <=? 57)%N then Some (n - 48)%N
  else if (97 <=? n)%N && (n <=? 102)%N then Some (n - 87)%N
  else if (65 <=? n)%N && (n <=? 70)%N then Some (n - 55)%N
  else None.
(** [hex::decode]. *)
Fixpoint hex_decode (s : string) : option string :=
  match s with
  | "" => Some ""
  | String a (String b s') =>
      hi ← hex_val a; lo ← hex_val b; rest ← hex_decode s'; Some (String (byte (hi * 16 + lo)) rest)
  | String _ "" => None
  end.
Definition encode_csrf_token (raw : string) : string := hex_bytes raw.
Definition decode_csrf_token (s : string) : option string := hex_decode (trim s).
Definition csrf_tokens_match (provided stored : string) : bool :=
  if negb (Nat.eqb (String.length provided) (String.length stored)) then false else String.eqb provided stored.

Definition COMMON_PASSWORDS : list string :=
  ["password123456"; "123456789012"; "qwertyuiop[]"; "letmein1234567"; "welcome1234567"; "adminadminadmin"; "nanoguard12345"].
(** [str::to_lowercase], but for the final sigma, which no listed password
    contains. *)
Definition str_to_lowercase `{Unicode} (s : string) : string := sconcat (concat (map char_to_lowercase (chars s))).
Definition is_common_password `{Unicode} (password : string) : bool :=
  let lower := str_to_lowercase password in
  existsb (fun p => String.eqb (str_to_lowercase p) lower) COMMON_PASSWORDS.

(** Argon2id: hashing under a salt, and verification of a stored hash, which
    fails on bytes that are no encoded hash. *)
Class Argon2 := {
  argon2_hash : string -> string -> result string string;
  argon2_verify : string -> string -> bool;
}.
Class Argon2Laws `{Argon2} := {
  argon2_verify_hash salt p h : argon2_hash salt p = Ok h -> argon2_verify p h = true;
  (** The encoded hash is a [String]. *)
  argon2_utf8 salt p h : is_utf8 p = true -> argon2_hash salt p = Ok h -> is_utf8 h = true;
}.
Definition verify_password `{Argon2} (password hash : string) : bool :=
  is_utf8 hash && argon2_verify password hash.

(** The cookie crate: parsing one [name=value] pair, the signature a jar puts
    before a value and its check, and the printed header. *)
Class CookieCrate := {
  cookie_parse : string -> option (string * string);
  sign_value : string -> string -> string -> string;
  verify_value : string -> string -> string -> option string;
  print_cookie : string -> string -> bool -> option Z -> string;
}.
Definition cookie_octet (c : ascii) : bool :=
  is_ascii_alphanumeric c || Ascii.eqb c "+" || Ascii.eqb c "/" || Ascii.eqb c "=".
(** A signed value is a base64 digest followed by the value. *)
Class CookieLaws `{CookieCrate} := {
  cookie_parse_pair v : sall cookie_octet v = true -> cookie_parse ("ng_session=" +:+ v) = Some ("ng_session", v);
  sign_octets secret v : sall is_ascii_alphanumeric v = true -> sall cookie_octet (sign_value secret "ng_session" v) = true;
  verify_sign secret v : sall is_ascii_alphanumeric v = true ->
    verify_value secret "ng_session" (sign_value secret "ng_session" v) = Some v;
  (** A cookie prints as its pair, then its attributes, each after a semicolon. *)
  print_pair v secure max_age : exists attrs, print_cookie "ng_session" v secure max_age = "ng_session=" +:+ v +:+ attrs /\
    (attrs = "" \/ exists rest, attrs = String ";" rest);
}.

Section Auth.
Context `{Rfc3339} `{CookieCrate}.

(** The value of the cookie [build_session_cookie] sets. *)
Definition session_cookie_value (secret session_id : string) : string := sign_value secret "ng_session" (hex_bytes session_id).
Definition build_session_cookie (session_id secret : string) (secure : bool) : string :=
  print_cookie "ng_session" (session_cookie_value secret session_id) secure None.
Definition build_logout_cookie (secret : string) (secure : bool) : string :=
  print_cookie "ng_session" (sign_value secret "ng_session" "") secure (Some 0%Z).

(** The [Cookie] header, when it is valid text: a later pair of the same name
    replaces an earlier one in the jar. *)
Definition jar_of (header : string) : gmap string string :=
  foldl (fun jar part => match cookie_parse (trim part) with Some (n, v) => <[n := v]> jar | None => jar end)
    ∅ (split_byte ";" header).
Definition extract_session_id (cookie_header : option string) (secret : string) : option string :=
  header ← cookie_header;
  signed ← jar_of header !! "ng_session";
  value ← verify_value secret "ng_session" signed;
  hex_decode value.

Definition idle_hours (c : ConsoleConfig) : Z := default (co_session_ttl_hours c) (co_session_idle_timeout_hours c).
(** A timestamp that does not parse counts as the epoch. *)
Definition time_or_epoch (s : string) : Z := default 0%Z (parse_from_rfc3339 s).

(** The lookup both extractors run: [None] for a session that is missing,
    expired or idle; the two latter are deleted, a live one is touched. *)
Definition load_session (c : ConsoleConfig) (now : Z) (d : ConsoleDb) (session_id : string)
    : option (option User * option string) * ConsoleDb :=
  match session_by_id d session_id with
  | None => (None, d)
  | Some session =>
      if (time_or_epoch (se_expires_at session) <? now)%Z then (None, delete_session d session_id)
      else if (time_or_epoch (se_last_seen_at session) <? now - hours (idle_hours c))%Z
      then (None, delete_session d session_id)
      else
        let d' := touch_session d now session_id in
        (Some (user_by_id d' (se_user_id session), se_csrf_token session), d')
  end.

(** A rejection is a status and a message. *)
Definition current_user (c : ConsoleConfig) (now : Z) (cookie_header : option string) (d : ConsoleDb)
    : result (Z * string) User * ConsoleDb :=
  match extract_session_id cookie_header (co_session_secret c) with
  | None => (Err (401%Z, "no session"), d)
  | Some session_id =>
      match load_session c now d session_id with
      | (None, d') => (Err (401%Z, "session expired"), d')
      | (Some (None, _), d') => (Err (401%Z, "user not found"), d')
      | (Some (Some user, _), d') =>
          if us_disabled user then (Err (401%Z, "account disabled"), d') else (Ok user, d')
      end
  end.
Definition mutating_user (c : ConsoleConfig) (now : Z) (cookie_header csrf_header : option string) (d : ConsoleDb)
    : result (Z * string) (User * string) * ConsoleDb :=
  match extract_session_id cookie_header (co_session_secret c) with
  | None => (Err (401%Z, "no session"), d)
  | Some session_id =>
      let provided_header := csrf_header ≫= decode_csrf_token in
      match load_session c now d session_id with
      | (None, d') => (Err (401%Z, "session expired"), d')
      | (Some (None, _), d') => (Err (401%Z, "user not found"), d')
      | (Some (Some user, session_csrf), d') =>
          if us_disabled user then (Err (401%Z, "account disabled"), d')
          else match session_csrf with
          | None => (Err (403%Z, "csrf token missing from session"), d')
          | Some stored =>
              match provided_header with
              | None => (Err (403%Z, "csrf token missing"), d')
              | Some provided =>
                  if csrf_tokens_match provided stored then (Ok (user, session_id), d')
                  else (Err (403%Z, "csrf token mismatch"), d')
              end
          end
      end
  end.
End Auth.

(** ** Lemmas: hex *)

Lemma hex_val_digit n : (n < 16)%N -> hex_val (hex_digit n) = Some n.
Proof.
  intros Hn. assert (Hc : forallb (fun k => bool_decide (hex_val (hex_digit k) = Some k)) (map N.of_nat (seq 0 16)) = true)
    by (vm_compute; reflexivity).
  rewrite forallb_forall in Hc. specialize (Hc n). apply bool_decide_eq_true in Hc; [done|].
  apply in_map_iff. exists (N.to_nat n). rewrite N2Nat.id. split; [done|]. apply in_seq. lia.
Qed.

Lemma hex_digit_alnum n : (n < 16)%N -> is_ascii_alphanumeric (hex_digit n) = true.
Proof.
  intros Hn. assert (Hc : forallb (fun k => is_ascii_alphanumeric (hex_digit k)) (map N.of_nat (seq 0 16)) = true)
    by (vm_compute; reflexivity).
  rewrite forallb_forall in Hc. apply Hc. apply in_map_iff. exists (N.to_nat n). rewrite N2Nat.id. split; [done|].
  apply in_seq. lia.
Qed.

Lemma nibbles c : (bval c / 16 < 16)%N /\ (bval c mod 16 < 16)%N.
Proof.
  pose proof (N_ascii_bounded c) as Hb. unfold bval. split; [|by apply N.mod_lt].
  apply N.Div0.div_lt_upper_bound. lia.
Qed.

Lemma hex_roundtrip s : hex_decode (hex_bytes s) = Some s.
Proof.
  induction s as [|c s IH]; [done|]. cbn [hex_bytes hex_decode]. destruct (nibbles c) as [Hh Hl].
  rewrite !hex_val_digit by done. simpl. rewrite IH. simpl. do 2 f_equal.
  replace (bval c / 16 * 16 + bval c mod 16)%N with (bval c) by (rewrite (N.div_mod (bval c) 16) at 1; lia).
  unfold byte, bval. apply ascii_N_embedding.
Qed.

Lemma hex_alnum s : sall is_ascii_alphanumeric (hex_bytes s) = true.
Proof.
  induction s as [|c s IH]; [done|]. cbn [hex_bytes sall]. destruct (nibbles c) as [Hh Hl].
  by rewrite !hex_digit_alnum, IH.
Qed.

(** ** Lemmas: cookies *)

Lemma drop_while_none {A} (p : A -> bool) l : Forall (fun x => p x = false) l -> drop_while p l = l.
Proof. intros [|x l' Hx _]; simpl; [done|]. by rewrite Hx. Qed.

Lemma trim_visible s : sall visible s = true -> trim s = s.
Proof.
  intros Hs. assert (Hw : Forall (fun ch => is_whitespace ch = false) (chars s)).
  { induction s as [|c s IH]; [constructor|]. simpl in Hs. apply andb_prop in Hs as [Hc Hs].
    apply visible_spec in Hc as [Hb Hc]. rewrite chars_ascii by done. constructor; [done|]. by apply IH. }
  unfold trim. rewrite (drop_while_none _ (chars s)) by done.
  rewrite drop_while_none by (by apply Forall_rev). rewrite rev_involutive. apply sconcat_chars.
Qed.

Lemma octet_visible c : cookie_octet c = true -> visible c = true /\ Ascii.eqb c ";" = false.
Proof.
  intros Hc. assert (E : implb (cookie_octet c) (visible c && negb (Ascii.eqb c ";")) = true).
  { apply (byte_forall (fun c => implb (cookie_octet c) (visible c && negb (Ascii.eqb c ";")))). by vm_compute. }
  rewrite Hc in E. simpl in E. apply andb_prop in E as [E1 E2]. split; [done|]. by apply negb_true_iff.
Qed.

Lemma octets_plain v :
  sall cookie_octet v = true -> sall visible v = true /\ sall (fun c => negb (Ascii.eqb c ";")) v = true.
Proof.
  induction v as [|c v IH]; simpl; [done|]. intros [Hc Hv]%andb_prop.
  destruct (octet_visible c Hc) as [-> ->]. destruct (IH Hv) as [-> ->]. done.
Qed.

Lemma pair_plain v :
  sall cookie_octet v = true -> trim ("ng_session=" +:+ v) = "ng_session=" +:+ v /\
    split_byte ";" ("ng_session=" +:+ v) = ["ng_session=" +:+ v].
Proof.
  intros [Hv Hs]%octets_plain. split.
  - apply trim_visible. simpl. by rewrite Hv.
  - apply split_byte_single. simpl. by rewrite Hs.
Qed.

(** ** Lemmas: tables *)

(** The tables' keys are unique. *)
Record console_wf (d : ConsoleDb) : Prop := {
  wf_user_ids : NoDup (map us_id (cd_users d));
  wf_usernames : NoDup (map us_username (cd_users d));
  wf_session_ids : NoDup (map se_id (cd_sessions d));
}.

Lemma find_key_In {A} (q : A -> bool) l x : List.find q l = Some x -> In x l /\ q x = true.
Proof. apply find_some. Qed.

Lemma find_filter_out {A} (q r : A -> bool) l :
  (forall x, q x = true -> r x = false) -> List.find q (List.filter r l) = None.
Proof.
  intros Hq. destruct (List.find q _) as [x|] eqn:E; [|done]. apply find_some in E as [Hin Hx].
  apply filter_In in Hin as [_ Hr]. rewrite Hq in Hr by done. done.
Qed.

Lemma find_map_key {A K} (key : A -> K) (eqb : K -> K -> bool) (f : A -> A) k l :
  (forall x, key (f x) = key x) ->
  List.find (fun x => eqb (key x) k) (map (fun x => if eqb (key x) k then f x else x) l) =
    f <$> List.find (fun x => eqb (key x) k) l.
Proof.
  intros Hf. induction l as [|x l IH]; simpl; [done|]. destruct (eqb (key x) k) eqn:E; simpl.
  - rewrite Hf, E. done.
  - by rewrite E.
Qed.

Lemma find_map_other {A} (q r : A -> bool) (f : A -> A) l :
  (forall x, q (f x) = q x) -> (forall x, q x = true -> r x = false) ->
  List.find q (map (fun x => if r x then f x else x) l) = List.find q l.
Proof.
  intros Hq Hr. induction l as [|x l IH]; simpl; [done|]. destruct (r x) eqn:E; rewrite ?Hq.
  - destruct (q x) eqn:Ex; [|done]. rewrite Hr in E by done. done.
  - destruct (q x); [done|apply IH].
Qed.

Lemma touch_keeps_users `{Rfc3339} d now id : cd_users (touch_session d now id) = cd_users d.
Proof. done. Qed.

(** ** Properties *)

Section SessionProps.
Context `{Rfc3339Laws} `{CookieLaws}.
Implicit Types c : ConsoleConfig.

(** The session cookie identifies the session: whatever the 32 bytes of the
    session id, sending back the cookie that login set yields that id, under
    the same secret. *)
Theorem session_cookie_roundtrip secret session_id :
  extract_session_id (Some ("ng_session=" +:+ session_cookie_value secret session_id)) secret = Some session_id.
Proof.
  unfold extract_session_id, session_cookie_value, jar_of. cbn [mbind option_bind].
  pose proof (hex_alnum session_id) as Ha. pose proof (sign_octets secret _ Ha) as Ho.
  destruct (pair_plain _ Ho) as [Ht Hs]. rewrite Hs. cbn [foldl]. rewrite Ht, cookie_parse_pair by done.
  rewrite lookup_insert_eq. cbn [mbind option_bind]. rewrite verify_sign by done. apply hex_roundtrip.
Qed.

(** When a session counts as live at [now]. *)
Definition live (c : ConsoleConfig) (now : Z) (s : Session) : Prop :=
  (now <= time_or_epoch (se_expires_at s) /\ now - hours (idle_hours c) <= time_or_epoch (se_last_seen_at s))%Z.

#[local] Instance live_dec c now s : Decision (live c now s).
Proof. unfold live. apply _. Defined.

Lemma load_session_live c now d id s :
  session_by_id d id = Some s ->
  (live c now s -> load_session c now d id =
     (Some (user_by_id d (se_user_id s), se_csrf_token s), touch_session d now id)) /\
  (~ live c now s -> load_session c now d id = (None, delete_session d id)).
Proof.
  intros Hs. unfold load_session, live. rewrite Hs.
  destruct (Z.ltb_spec (time_or_epoch (se_expires_at s)) now); [split; [lia|done]|].
  destruct (Z.ltb_spec (time_or_epoch (se_last_seen_at s)) (now - hours (idle_hours c))); [split; [lia|done]|].
  split; [done|lia].
Qed.

Lemma load_session_Some c now d id u t d' :
  load_session c now d id = (Some (u, t), d') ->
  exists s, session_by_id d id = Some s /\ live c now s /\ user_by_id d (se_user_id s) = u /\ se_csrf_token s = t /\
    d' = touch_session d now id.
Proof.
  intros El. destruct (session_by_id d id) as [s|] eqn:Es; [|unfold load_session in El; by rewrite Es in El].
  destruct (load_session_live c now d id s Es) as [Hl Hn].
  destruct (decide (live c now s)) as [Hv|Hv]; [rewrite Hl in El by done|rewrite Hn in El by done; done].
  injection El as <- <- <-. by exists s.
Qed.

Lemma csrf_match_eq a b : csrf_tokens_match a b = true <-> a = b.
Proof.
  unfold csrf_tokens_match. destruct (Nat.eqb_spec (String.length a) (String.length b)); simpl; [apply String.eqb_eq|].
  split; [done|]. by intros ->.
Qed.

(** A read request is admitted exactly when its signed cookie names a session
    that is neither past its expiry nor idle for longer than allowed and whose
    user exists and is not disabled. *)
Theorem current_user_accepts c now cookie d u :
  (current_user c now cookie d).1 = Ok u <->
  exists id s, extract_session_id cookie (co_session_secret c) = Some id /\ session_by_id d id = Some s /\
    live c now s /\ user_by_id d (se_user_id s) = Some u /\ us_disabled u = false.
Proof.
  split.
  - unfold current_user. intros E. destruct (extract_session_id _ _) as [id|]; [|done].
    destruct (load_session c now d id) as [[[[u'|] tok]|] d'] eqn:El; [|done..].
    destruct (us_disabled u') eqn:Ed; [done|]. injection E as <-.
    apply load_session_Some in El as (s & Hs & Hv & Hu & _). by exists id, s.
  - intros (id & s & Hid & Hs & Hv & Hu & Hd). unfold current_user. rewrite Hid.
    destruct (load_session_live c now d id s Hs) as [-> _]; [|done]. by rewrite Hu, Hd.
Qed.

Lemma mutating_user_iff c now cookie csrf d u id :
  (mutating_user c now cookie csrf d).1 = Ok (u, id) <->
  extract_session_id cookie (co_session_secret c) = Some id /\
  exists s t h, session_by_id d id = Some s /\ live c now s /\ user_by_id d (se_user_id s) = Some u /\
    us_disabled u = false /\ se_csrf_token s = Some t /\ csrf = Some h /\ decode_csrf_token h = Some t.
Proof.
  split.
  - unfold mutating_user. intros E. destruct (extract_session_id _ _) as [id'|]; [|done].
    destruct (load_session c now d id') as [[[[u'|] tok]|] d'] eqn:El; [|done..].
    destruct (us_disabled u') eqn:Ed; [done|]. destruct tok as [t|]; [|done].
    destruct csrf as [h|]; simpl in E; [|done]. destruct (decode_csrf_token h) as [p|] eqn:Ep; [|done].
    destruct (csrf_tokens_match p t) eqn:Em; [|done]. injection E as <- <-. apply csrf_match_eq in Em as ->.
    apply load_session_Some in El as (s & Hs & Hv & Hu & Ht & _). split; [done|]. by exists s, t, h.
  - intros (Hid & s & t & h & Hs & Hv & Hu & Hd & Ht & -> & Hh). unfold mutating_user. rewrite Hid.
    destruct (load_session_live c now d id s Hs) as [-> _]; [|done]. rewrite Hu, Hd, Ht. simpl. rewrite Hh.
    by rewrite (proj2 (csrf_match_eq t t)).
Qed.

(** A mutating request is admitted exactly when the same session check passes
    and its CSRF header decodes to the token stored in that session. *)
Theorem mutating_user_accepts c now cookie csrf d u id :
  (mutating_user c now cookie csrf d).1 = Ok (u, id) <->
  extract_session_id cookie (co_session_secret c) = Some id /\
  exists s t h, session_by_id d id = Some s /\ live c now s /\ user_by_id d (se_user_id s) = Some u /\
    us_disabled u = false /\ se_csrf_token s = Some t /\ csrf = Some h /\ decode_csrf_token h = Some t.
Proof. apply mutating_user_iff. Qed.

(** The stamps of a row were written by this program. *)
Definition stamped (s : Session) : Prop :=
  exists e l, instant e /\ instant l /\ se_expires_at s = to_rfc3339 e /\ se_last_seen_at s = to_rfc3339 l.

(** The background pruner, which compares timestamps as text, deletes exactly
    the sessions the request check, which compares parsed times, would refuse:
    it never logs out a live session and leaves no dead one. *)
Theorem prune_agrees c now d s :
  Forall stamped (cd_sessions d) -> instant now -> instant (now - hours (idle_hours c)) ->
  In s (cd_sessions (prune_idle_sessions (prune_expired_sessions d now) now (idle_hours c))) <->
  In s (cd_sessions d) /\ live c now s.
Proof.
  intros Hst Hn Hi. unfold prune_idle_sessions, prune_expired_sessions. simpl. rewrite !filter_In, !negb_true_iff.
  split.
  - intros ((Hin & He) & Hl). split; [done|]. rewrite Forall_forall in Hst. apply list_elem_of_In in Hin.
    destruct (Hst s Hin) as (e & l & Ie & Il & Ee & El). unfold live, time_or_epoch.
    rewrite Ee, El in *. rewrite !text_lt_to in * by done. rewrite !parse_to by done. simpl. lia.
  - intros (Hin & He & Hl). rewrite Forall_forall in Hst. pose proof Hin as Hin'. apply list_elem_of_In in Hin'.
    destruct (Hst s Hin') as (e & l & Ie & Il & Ee & El). unfold time_or_epoch in He, Hl.
    rewrite Ee, El in *. rewrite !parse_to in * by done. simpl in *. rewrite !text_lt_to by done.
    split; [split; [done|]|]; apply Z.ltb_ge; lia.
Qed.
End SessionProps.
