(* ===== verification/ConsoleApi.v ===== *)
(** * The console's account and token endpoints ([src/console/handlers.rs],
    [src/console/audit.rs])

    Login with its lockout, logout, the users' administration and the proxy
    tokens a user manages, over the console's database and its audit log.  Each
    mutating endpoint runs behind the extractor [mutating_user] and rotates the
    session's CSRF token when it succeeds. *)

From S2P Require Import Prelude RustStr Json Matcher ClientAuth AuditTrail Proxy Admin Config Reload ConsoleDb.

(** ** The audit log *)

Record MutationRecord := mkMutation {
  mr_request_id : string;
  mr_timestamp : string;
  mr_actor : string;
  mr_actor_id : string;
  mr_action : string;
  mr_target : option string;
  mr_before : option value;
  mr_after : option value;
  mr_summary : string;
}.
Definition skip_value (k : string) (o : option value) : list (string * value) :=
  match o with Some v => [(k, v)] | None => [] end.
Definition mutation_fields (r : MutationRecord) : list (string * value) :=
  [("request_id", Str (mr_request_id r)); ("timestamp", Str (mr_timestamp r)); ("actor", Str (mr_actor r));
   ("actor_id", Str (mr_actor_id r)); ("action", Str (mr_action r))] ++
  skip_none "target" (mr_target r) ++ skip_value "before" (mr_before r) ++ skip_value "after" (mr_after r) ++
  [("summary", Str (mr_summary r))].

(** The shape the file-edit records had; no handler writes it any more. *)
Record EditRecord := mkEditRecord {
  er_timestamp : string;
  er_actor : string;
  er_action : string;
  er_file : string;
  er_before_hash : string;
  er_after_hash : string;
  er_summary : string;
}.
Definition edit_fields (r : EditRecord) : list (string * value) :=
  [("timestamp", Str (er_timestamp r)); ("actor", Str (er_actor r)); ("action", Str (er_action r)); ("file", Str (er_file r));
   ("before_hash", Str (er_before_hash r)); ("after_hash", Str (er_after_hash r)); ("summary", Str (er_summary r))].

Section Audit.
Context `{SerdeStruct} `{Disk}.
(** [writeln!] and [sync_all]; each step ends the write when it fails. *)
Definition console_write_line (file : disk) (line : string) : result string unit * disk :=
  match append file line with
  | (Err _, f) => (Err "writing console audit log", f)
  | (Ok _, f) => match append f (one nl) with
                 | (Err _, f') => (Err "writing console audit log", f')
                 | (Ok _, f') => match sync_all f' with
                                 | (Err _, f'') => (Err "fsync console audit log", f'')
                                 | (Ok _, f'') => (Ok tt, f'')
                                 end
                 end
  end.
Definition write_fields (file : disk) (fields : list (string * value)) : result string unit * disk :=
  match struct_to_string fields with
  | Ok line => console_write_line file line
  | Err _ => (Err "serializing audit record", file)
  end.
Definition write_edit (file : disk) (r : EditRecord) : result string unit * disk := write_fields file (edit_fields r).
Definition write_mutation (file : disk) (r : MutationRecord) : result string unit * disk := write_fields file (mutation_fields r).
(** Best effort: a failure is only logged. *)
Definition record_mutation (file : disk) (r : MutationRecord) : disk := (write_mutation file r).2.
End Audit.

(** ** Requests and replies *)

(** The raw header values the console reads. *)
Record ConsoleHeaders := mkConsoleHeaders {
  ch_cookie : option string;
  ch_csrf : option string;
  ch_forwarded_for : option string;
  ch_real_ip : option string;
  ch_user_agent : option string;
}.
Record LoginRequest := mkLogin { lg_username : string; lg_password : string }.
Record CreateUserRequest := mkCreateUser { cu_username : string; cu_password : string; cu_role : option string }.
Record CreateTokenRequest := mkCreateToken { ct_req_label : string; ct_req_expires_at : option string }.

Record ConsoleReply := mkConsoleReply {
  cr_status : Z;
  cr_headers : list (string * string);
  cr_body : value;
}.
Definition json_error (status : Z) (message : string) : ConsoleReply :=
  mkConsoleReply status [] (obj [("error", Str message)]).

Definition user_response (u : User) : value :=
  obj [("id", int_value (us_id u)); ("username", Str (us_username u)); ("display_name", opt_value (us_display_name u));
       ("email", opt_value (us_email u)); ("role", Str (us_role u)); ("service_account", Bool (us_service_account u));
       ("disabled", Bool (us_disabled u)); ("allowed_models", Str (us_allowed_models u));
       ("budget_limit", match us_budget_limit u with Some n => int_value n | None => Null end);
       ("locked_until", opt_value (us_locked_until u)); ("created_at", Str (us_created_at u));
       ("last_login_at", opt_value (us_last_login_at u))].

Definition csrf_next_headers (token : option string) : list (string * string) :=
  match token with Some t => [("x-csrf-token-next", t)] | None => [] end.
Definition outcome_value (o : ReloadOutcome) : value :=
  obj [("triggered", Bool (ro_triggered o)); ("method", Str (ro_method o)); ("error", opt_value (ro_error o))].

Section Api.
Context `{Unicode} `{Rfc3339} `{Argon2} `{CookieCrate} `{SerdeStruct} `{Disk} `{Sha256}.

(** [ConsoleState]: the configuration and the cookie flag; the database and the
    log are the world. *)
Record ConsoleState := mkConsoleState { cs_config : Config; cs_secure_cookie : bool }.
Definition cs_console (st : ConsoleState) : ConsoleConfig := cf_console (cs_config st).
Record ConsoleWorld := mkConsoleWorld { cw_db : ConsoleDb; cw_audit : option disk }.
Definition with_db (d : ConsoleDb) (w : ConsoleWorld) : ConsoleWorld := mkConsoleWorld d (cw_audit w).

(** What a request draws: the time, fresh request ids, and random bytes for the
    session, the CSRF token and the password salt. *)
Record Draw := mkDraw {
  dr_now : Z;
  dr_request_id : nat -> string;
  dr_session_id : string;
  dr_csrf : string;
  dr_salt : string;
}.

Definition audit_mutation (dr : Draw) (k : nat) (user : User) (action : string) (target : option string)
    (before after : option value) (summary : string) (w : ConsoleWorld) : ConsoleWorld :=
  mkConsoleWorld (cw_db w)
    ((fun f => record_mutation f (mkMutation (dr_request_id dr k) (to_rfc3339 (dr_now dr)) (us_username user)
        (show_Z (us_id user)) action target before after summary)) <$> cw_audit w).

Definition rotate_csrf (dr : Draw) (session_id : string) (w : ConsoleWorld) : option string * ConsoleWorld :=
  let '(n, d') := rotate_csrf_token (cw_db w) session_id (dr_csrf dr) in
  (if (0 <? n)%Z then Some (encode_csrf_token (dr_csrf dr)) else None, with_db d' w).
(** The answer of a mutation that succeeded. *)
Definition reply_rotated (dr : Draw) (session_id : string) (status : Z) (headers : list (string * string)) (body : value)
    (w : ConsoleWorld) : ConsoleReply * ConsoleWorld :=
  let '(next, w') := rotate_csrf dr session_id w in
  (mkConsoleReply status (headers ++ csrf_next_headers next) body, w').

(** A mutating endpoint runs behind its extractor. *)
Definition mutating (st : ConsoleState) (dr : Draw) (h : ConsoleHeaders)
    (run : User -> string -> ConsoleWorld -> ConsoleReply * ConsoleWorld) (w : ConsoleWorld) : ConsoleReply * ConsoleWorld :=
  match mutating_user (cs_console st) (dr_now dr) (ch_cookie h ≫= header_to_str) (ch_csrf h ≫= header_to_str) (cw_db w) with
  | (Err (status, message), d') => (json_error status message, with_db d' w)
  | (Ok (user, session_id), d') => run user session_id (with_db d' w)
  end.
Definition require_console_admin (user : User) : option ConsoleReply :=
  if negb (String.eqb (us_role user) "admin") then Some (json_error 403 "admin required") else None.

(** ** Login and logout *)

Definition client_ip (h : ConsoleHeaders) : option string :=
  (match ch_forwarded_for h with Some v => Some v | None => ch_real_ip h end) ≫= header_to_str.

Definition api_login (st : ConsoleState) (dr : Draw) (h : ConsoleHeaders) (body : LoginRequest) (w : ConsoleWorld)
    : ConsoleReply * ConsoleWorld :=
  let c := cs_console st in
  let now := dr_now dr in
  let d := cw_db w in
  let ip := client_ip h in
  let max_attempts := co_max_login_attempts c in
  let lockout_minutes := co_lockout_duration_minutes c in
  if String.eqb (co_session_secret c) "" then (json_error 503 "console session_secret not configured", w)
  else if (match ip with
           | Some ip_str => (max_attempts <=? count_recent_login_attempts_by_ip d now ip_str lockout_minutes)%Z
           | None => false
           end)
  then (json_error 429 "too many requests from this IP", w)
  else match user_by_username d (lg_username body) with
  | None => (json_error 401 "invalid credentials", with_db (record_login_attempt d now (lg_username body) ip) w)
  | Some user =>
      if (match us_locked_until user ≫= parse_from_rfc3339 with Some dt => (now <? dt)%Z | None => false end)
      then (json_error 429 "account locked", w)
      else if us_disabled user then (json_error 401 "account disabled", w)
      else match us_password_hash user with
      | None => (json_error 401 "invalid credentials", with_db (record_login_attempt d now (us_username user) ip) w)
      | Some hash =>
          if negb (verify_password (lg_password body) hash) then
            let d1 := record_login_attempt d now (us_username user) ip in
            if (max_attempts <=? count_recent_login_attempts d1 now (us_username user) lockout_minutes)%Z then
              let until := to_rfc3339 (now + minutes lockout_minutes) in
              (json_error 429 "account locked", with_db (set_locked_until d1 (us_id user) (Some until)) w)
            else (json_error 401 "invalid credentials", with_db d1 w)
          else
            let d1 := clear_login_attempts d (us_username user) in
            let d2 := set_locked_until d1 (us_id user) None in
            let d3 := update_last_login d2 (to_rfc3339 now) (us_id user) in
            let expires := to_rfc3339 (now + hours (co_session_ttl_hours c)) in
            match create_session d3 now (dr_session_id dr) (us_id user) expires (ch_user_agent h ≫= header_to_str) ip
                    (dr_csrf dr) with
            | Err _ => (json_error 500 "session creation failed", with_db d3 w)
            | Ok d4 =>
                let w' := audit_mutation dr 0 user "login" (Some (us_username user)) None None
                            (us_username user +:+ " logged in") (with_db d4 w) in
                (mkConsoleReply 200
                   [("set-cookie", build_session_cookie (dr_session_id dr) (co_session_secret c) (cs_secure_cookie st))]
                   (obj [("ok", Bool true); ("user", user_response user); ("csrf_token", Str (encode_csrf_token (dr_csrf dr)))]),
                 w')
            end
      end
  end.

Definition api_logout (st : ConsoleState) (dr : Draw) (h : ConsoleHeaders) : ConsoleWorld -> ConsoleReply * ConsoleWorld :=
  mutating st dr h (fun user session_id w =>
    let w1 := with_db (delete_user_sessions (cw_db w) (us_id user)) w in
    let w2 := audit_mutation dr 0 user "logout" (Some (us_username user)) None None
                (us_username user +:+ " logged out") w1 in
    reply_rotated dr session_id 200
      [("set-cookie", build_logout_cookie (co_session_secret (cs_console st)) (cs_secure_cookie st))]
      (obj [("ok", Bool true)]) w2).

(** ** Users *)

Definition weak_password (password : string) : option ConsoleReply :=
  if Nat.ltb (String.length password) 12 then Some (json_error 400 "password must be at least 12 characters")
  else if is_common_password password then Some (json_error 400 "password is too common")
  else None.

Definition api_create_user (st : ConsoleState) (dr : Draw) (h : ConsoleHeaders) (body : CreateUserRequest)
    : ConsoleWorld -> ConsoleReply * ConsoleWorld :=
  mutating st dr h (fun admin session_id w =>
    match require_console_admin admin with
    | Some e => (e, w)
    | None =>
        let username := trim (cu_username body) in
        if String.eqb username "" then (json_error 400 "username is required", w)
        else match weak_password (cu_password body) with
        | Some e => (e, w)
        | None =>
            match argon2_hash (dr_salt dr) (cu_password body) with
            | Err _ => (json_error 500 "password hash failed", w)
            | Ok hash =>
                let role := default "user" (cu_role body) in
                match insert_user (cw_db w) (to_rfc3339 (dr_now dr)) username None None role (Some hash) with
                | Ok (id, d') =>
                    let after := obj [("id", int_value id); ("username", Str username); ("role", Str role)] in
                    let w1 := audit_mutation dr 0 admin "user_create" (Some username) None (Some after)
                      (us_username admin +:+ " created user " +:+ username +:+ " (" +:+ role +:+ ")") (with_db d' w) in
                    reply_rotated dr session_id 201 [] after w1
                | Err msg =>
                    if contains "UNIQUE constraint failed" msg then (json_error 409 "username already exists", w)
                    else (json_error 500 "failed to create user", w)
                end
            end
        end
    end).

(** The fields the caller touched, before and after. *)
Definition touched {A} (v : option A) (k : string) (old : value) (new : A -> value) : list (string * (value * value)) :=
  match v with Some a => [(k, (old, new a))] | None => [] end.
Definition old_opt (u : option User) (f : User -> option string) : value := opt_value (u ≫= f).
Definition old_str (u : option User) (f : User -> string) : value := opt_value (f <$> u).
Definition limit_value (o : option Z) : value := match o with Some n => int_value n | None => Null end.
Definition update_diff (p : UserUpdate) (before : option User) : list (string * (value * value)) :=
  touched (up_display_name p) "display_name" (old_opt before us_display_name) Str ++
  touched (up_email p) "email" (old_opt before us_email) Str ++
  touched (up_role p) "role" (old_str before us_role) Str ++
  touched (up_disabled p) "disabled" (match before with Some u => Bool (us_disabled u) | None => Null end) Bool ++
  touched (up_allowed_models p) "allowed_models" (old_str before us_allowed_models) Str ++
  touched (up_budget_limit p) "budget_limit" (limit_value (before ≫= us_budget_limit)) limit_value.

Definition role_changed (p : UserUpdate) (before : option User) : bool :=
  match up_role p, before with
  | Some new, Some b => negb (String.eqb new (us_role b))
  | _, _ => false
  end.

Definition api_update_user (st : ConsoleState) (dr : Draw) (h : ConsoleHeaders) (id : Z) (body : UserUpdate)
    : ConsoleWorld -> ConsoleReply * ConsoleWorld :=
  mutating st dr h (fun admin session_id w =>
    match require_console_admin admin with
    | Some e => (e, w)
    | None =>
        let before_user := user_by_id (cw_db w) id in
        let '(n, d1) := update_user (cw_db w) id body in
        let d2 := match before_user with
                  | Some target => if role_changed body before_user then delete_user_sessions d1 (us_id target) else d1
                  | None => d1
                  end in
        let w1 := with_db d2 w in
        let target_name := match before_user with Some u => us_username u | None => "user#" +:+ show_Z id end in
        let w2 := if role_changed body before_user then
            audit_mutation dr 0 admin "user_role_change" (Some target_name)
              (Some (obj [("role", old_str before_user us_role)])) (Some (obj [("role", opt_value (up_role body))]))
              (us_username admin +:+ " changed role for " +:+ target_name +:+ " from " +:+
               default "?" (us_role <$> before_user) +:+ " to " +:+ default "?" (up_role body)) w1
          else w1 in
        let diff := update_diff body before_user in
        let k := if role_changed body before_user then 1 else 0 in
        let summary := match diff with
          | [] => us_username admin +:+ " updated " +:+ target_name +:+ " (no fields changed)"
          | _ => us_username admin +:+ " updated " +:+ target_name +:+ " (" +:+ show_Z (Z.of_nat (length diff)) +:+
                 " field" +:+ (if Nat.eqb (length diff) 1 then "" else "s") +:+ ")"
          end in
        let before := match diff with [] => None | _ => Some (obj (map (fun e => (e.1, e.2.1)) diff)) end in
        let after := match diff with [] => None | _ => Some (obj (map (fun e => (e.1, e.2.2)) diff)) end in
        let w3 := audit_mutation dr k admin "user_update" (Some target_name) before after summary w2 in
        reply_rotated dr session_id 200 [] (obj [("affected", int_value n)]) w3
    end).

(** One transaction: the hash and the sessions change together. *)
Definition api_reset_user_password (st : ConsoleState) (dr : Draw) (h : ConsoleHeaders) (id : Z) (password : string)
    : ConsoleWorld -> ConsoleReply * ConsoleWorld :=
  mutating st dr h (fun admin session_id w =>
    match require_console_admin admin with
    | Some e => (e, w)
    | None =>
        match weak_password password with
        | Some e => (e, w)
        | None =>
            match user_by_id (cw_db w) id with
            | None => (json_error 404 "user not found", w)
            | Some target =>
                match argon2_hash (dr_salt dr) password with
                | Err _ => (json_error 500 "password hash failed", w)
                | Ok hash =>
                    let d1 := delete_user_sessions (set_password_hash (cw_db w) (us_id target) hash) (us_id target) in
                    let w1 := audit_mutation dr 0 admin "user_password_reset" (Some (us_username target)) None None
                      (us_username admin +:+ " reset password for " +:+ us_username target +:+ " (sessions invalidated)")
                      (with_db d1 w) in
                    reply_rotated dr session_id 200 []
                      (obj [("user_id", int_value (us_id target)); ("username", Str (us_username target));
                            ("sessions_invalidated", Bool true)]) w1
                end
            end
        end
    end).

(** ** Tokens *)

(** [trigger_invalidate_tokens] on the configured channel; [order_by_created] is
    SQLite's order of equal timestamps. *)
Context (exchange : string -> string -> result string string) (kill_hup : Z -> result string unit)
  (read_pid_file : string -> result string string) (order_by_created : list ClientTokenRow -> list ClientTokenRow).
Definition flush_proxy (st : ConsoleState) : ReloadOutcome :=
  trigger_invalidate_tokens exchange kill_hup read_pid_file (cf_reload (cs_config st)).

Definition api_force_revoke_user_tokens (st : ConsoleState) (dr : Draw) (h : ConsoleHeaders) (id : Z)
    : ConsoleWorld -> ConsoleReply * ConsoleWorld :=
  mutating st dr h (fun admin session_id w =>
    match require_console_admin admin with
    | Some e => (e, w)
    | None =>
        match user_by_id (cw_db w) id with
        | None => (json_error 404 "user not found", w)
        | Some target =>
            let '(revoked, t') := revoke_all_for_user (cd_tokens (cw_db w)) (to_rfc3339 (dr_now dr)) id in
            let w1 := audit_mutation dr 0 admin "user_force_revoke_all" (Some (us_username target)) None
              (Some (obj [("revoked_count", int_value revoked)]))
              (us_username admin +:+ " force-revoked all tokens for " +:+ us_username target +:+ " (" +:+
               show_Z revoked +:+ " affected)") (with_db (with_tokens t' (cw_db w)) w) in
            reply_rotated dr session_id 200 []
              (obj [("user_id", int_value id); ("username", Str (us_username target)); ("revoked", int_value revoked);
                    ("reload", outcome_value (flush_proxy st))]) w1
        end
    end).

(** [rng k]: the secret bytes of mint attempt [k]. *)
Definition api_create_token (st : ConsoleState) (dr : Draw) (rng : nat -> string) (h : ConsoleHeaders)
    (body : CreateTokenRequest) : ConsoleWorld -> ConsoleReply * ConsoleWorld :=
  mutating st dr h (fun user session_id w =>
    let label := trim (ct_req_label body) in
    if String.eqb label "" then (json_error 400 "label is required", w)
    else if (match ct_req_expires_at body with
             | Some e => match parse_from_rfc3339 e with Some _ => false | None => true end
             | None => false
             end)
    then (json_error 400 "expires_at must be RFC3339", w)
    else match mint MAX_MINT_ATTEMPTS rng 0 (cd_tokens (cw_db w)) (to_rfc3339 (dr_now dr))
                 (au_env_marker (cf_auth (cs_config st))) (us_id user) label (ct_req_expires_at body) with
    | None => (json_error 500 "failed to persist token", w)
    | Some (id, token, t') =>
        let w1 := audit_mutation dr 0 user "token_create" (Some (us_username user)) None
          (Some (obj [("id", int_value id); ("prefix", Str (tk_prefix token)); ("label", Str label);
                      ("expires_at", opt_value (ct_req_expires_at body))]))
          (us_username user +:+ " created token " +:+ one (byte 34) +:+ label +:+ one (byte 34))
          (with_db (with_tokens t' (cw_db w)) w) in
        reply_rotated dr session_id 201 []
          (obj [("id", int_value id); ("prefix", Str (tk_prefix token)); ("token", Str (tk_wire token));
                ("warning", Str "Store this token now — it is not recoverable from any later API call.");
                ("label", Str label); ("expires_at", opt_value (ct_req_expires_at body))]) w1
    end).

Definition api_revoke_token (st : ConsoleState) (dr : Draw) (h : ConsoleHeaders) (id : Z)
    : ConsoleWorld -> ConsoleReply * ConsoleWorld :=
  mutating st dr h (fun user session_id w =>
    match List.find (fun r => Z.eqb (ct_id r) id) (list_for_user order_by_created (cd_tokens (cw_db w)) (us_id user)) with
    | None => (json_error 403 "token does not belong to you", w)
    | Some row =>
        let '(affected, t') := store_revoke (cd_tokens (cw_db w)) (to_rfc3339 (dr_now dr)) id in
        let shared := [("id", int_value (ct_id row)); ("prefix", Str (ct_prefix row)); ("label", opt_value (ct_label row))] in
        let w1 := audit_mutation dr 0 user "token_revoke" (Some (us_username user))
          (Some (obj (shared ++ [("revoked_at", opt_value (ct_revoked_at row))])))
          (Some (obj (shared ++ [("revoked", Bool true)])))
          (us_username user +:+ " revoked token " +:+ one (byte 34) +:+ default (ct_prefix row) (ct_label row) +:+
           one (byte 34)) (with_db (with_tokens t' (cw_db w)) w) in
        reply_rotated dr session_id 200 []
          (obj [("id", int_value id); ("status", Str "revoked"); ("affected", int_value affected);
                ("reload", outcome_value (flush_proxy st))]) w1
    end).
End Api.

(** ** Lemmas: what each table operation leaves alone *)

Lemma update_users_by_id f id d k :
  (forall u, us_id (f u) = us_id u) ->
  user_by_id (update_users f id d).2 k = if Z.eqb k id then f <$> user_by_id d k else user_by_id d k.
Proof.
  intros Hf. unfold user_by_id, update_users. simpl. destruct (Z.eqb_spec k id) as [->|Hne].
  - apply (find_map_key us_id Z.eqb). done.
  - apply find_map_other; [intros u; by rewrite Hf|]. intros u Hu. apply Z.eqb_eq in Hu. apply Z.eqb_neq. congruence.
Qed.

Lemma update_users_by_name f id d name :
  (forall u, us_username (f u) = us_username u) ->
  user_by_username (update_users f id d).2 name =
    (fun u => if Z.eqb (us_id u) id then f u else u) <$> user_by_username d name.
Proof.
  intros Hf. unfold user_by_username, update_users. simpl. induction (cd_users d) as [|u us IH]; simpl; [done|].
  destruct (Z.eqb (us_id u) id) eqn:E; rewrite ?Hf; destruct (String.eqb (us_username u) name); simpl; rewrite ?E; done.
Qed.

Lemma update_users_wf f id d :
  (forall u, us_id (f u) = us_id u /\ us_username (f u) = us_username u) ->
  console_wf d -> console_wf (update_users f id d).2.
Proof.
  intros Hf [W1 W2 W3]. split; simpl; [..|done]; rewrite map_map.
  - erewrite map_ext; [exact W1|]. intros u. by case_match; [apply Hf|].
  - erewrite map_ext; [exact W2|]. intros u. by case_match; [apply Hf|].
Qed.

Lemma update_users_keeps f id d :
  cd_sessions (update_users f id d).2 = cd_sessions d /\ cd_attempts (update_users f id d).2 = cd_attempts d /\
  cd_tokens (update_users f id d).2 = cd_tokens d.
Proof. done. Qed.

(** With unique keys a user found by name is the one found by its id. *)
Lemma by_name_by_id d name u :
  console_wf d -> user_by_username d name = Some u -> us_username u = name /\ user_by_id d (us_id u) = Some u.
Proof.
  intros [W _ _] Hu. apply find_some in Hu as [Hin Hn]. apply String.eqb_eq in Hn. split; [done|].
  unfold user_by_id. induction (cd_users d) as [|x us IH]; [done|]. simpl in *. apply NoDup_cons in W as [Hx W].
  destruct Hin as [->|Hin]; [by rewrite Z.eqb_refl|].
  destruct (Z.eqb_spec (us_id x) (us_id u)) as [E|_]; [|by apply IH].
  destruct Hx. rewrite E. apply list_elem_of_In. by apply in_map.
Qed.

Lemma by_name_distinct d n1 n2 u1 u2 :
  console_wf d -> user_by_username d n1 = Some u1 -> user_by_username d n2 = Some u2 -> n1 <> n2 -> us_id u1 <> us_id u2.
Proof.
  intros W H1 H2 Hne E. apply by_name_by_id in H1 as [<- H1]; [|done]. apply by_name_by_id in H2 as [<- H2]; [|done].
  rewrite E, H2 in H1. congruence.
Qed.

Lemma session_after_create `{Rfc3339} d now id uid e ua ip t d' :
  create_session d now id uid e ua ip t = Ok d' ->
  session_by_id d' id = Some (mkSession id uid (to_rfc3339 now) e (to_rfc3339 now) ua ip (Some t)) /\ cd_users d' = cd_users d.
Proof.
  unfold create_session. destruct (session_by_id d id) eqn:E; [done|]. intros [= <-]. split; [|done].
  unfold session_by_id in *. simpl. revert E. induction (cd_sessions d) as [|s ss IH]; simpl.
  - by rewrite String.eqb_refl.
  - destruct (String.eqb (se_id s) id); [done|apply IH].
Qed.

(** ** Properties: login *)

Section LoginProps.
Context `{Unicode} `{Rfc3339Laws} `{Argon2} `{CookieLaws} `{SerdeStruct} `{Disk}.
Implicit Types w : ConsoleWorld.

(** The branches of a login that reads the user row. *)
Lemma login_success st dr h body w reply w' :
  api_login st dr h body w = (reply, w') -> cr_status reply = 200%Z ->
  exists user hash d3 d4, let c := cs_console st in
    user_by_username (cw_db w) (lg_username body) = Some user /\ us_disabled user = false /\
    us_password_hash user = Some hash /\ verify_password (lg_password body) hash = true /\
    d3 = update_last_login (set_locked_until (clear_login_attempts (cw_db w) (us_username user)) (us_id user) None)
           (to_rfc3339 (dr_now dr)) (us_id user) /\
    create_session d3 (dr_now dr) (dr_session_id dr) (us_id user) (to_rfc3339 (dr_now dr + hours (co_session_ttl_hours c)))
      (ch_user_agent h ≫= header_to_str) (client_ip h) (dr_csrf dr) = Ok d4 /\
    cw_db w' = d4 /\
    reply = mkConsoleReply 200
      [("set-cookie", build_session_cookie (dr_session_id dr) (co_session_secret c) (cs_secure_cookie st))]
      (obj [("ok", Bool true); ("user", user_response user); ("csrf_token", Str (encode_csrf_token (dr_csrf dr)))]).
Proof.
  unfold api_login. intros E Hs.
  destruct (String.eqb _ ""); [by injection E as <- <-|].
  match type of E with (if ?b then _ else _) = _ => destruct b; [by injection E as <- <-|] end.
  destruct (user_by_username _ _) as [user|] eqn:Eu; [|by injection E as <- <-].
  match type of E with (if ?b then _ else _) = _ => destruct b; [by injection E as <- <-|] end.
  destruct (us_disabled user) eqn:Ed; [by injection E as <- <-|].
  destruct (us_password_hash user) as [hash|] eqn:Eh; [|by injection E as <- <-].
  destruct (verify_password _ hash) eqn:Ev; cbn [negb] in E.
  2: { match type of E with (if ?b then _ else _) = _ => destruct b; by injection E as <- <- end. }
  destruct (create_session _ _ _ _ _ _ _ _) as [d4|] eqn:Ec; injection E as <- <-; [|done].
  eexists user, hash, _, d4. cbv zeta. by split_and!.
Qed.

(** What a browser sends back of a [Set-Cookie] header: the pair before the
    attributes. *)
Definition sent_back (set_cookie : string) : string := default "" (head (split_byte ";" set_cookie)).
Lemma split_byte_head b v rest :
  sall (fun c => negb (Ascii.eqb c b)) v = true -> (rest = "" \/ exists r, rest = String b r) ->
  head (split_byte b (v +:+ rest)) = Some v.
Proof.
  induction v as [|c v IH]; simpl; intros Hv Hr.
  - destruct Hr as [->|[r ->]]; [done|]. simpl. by rewrite Ascii.eqb_refl.
  - apply andb_prop in Hv as [Hc Hv]. apply negb_true_iff in Hc. rewrite Hc. specialize (IH Hv Hr).
    destruct (split_byte b (v +:+ rest)); [done|]. injection IH as ->. done.
Qed.
Lemma session_cookie_sent_back secret sid secure :
  sent_back (build_session_cookie sid secret secure) = "ng_session=" +:+ session_cookie_value secret sid.
Proof.
  unfold sent_back, build_session_cookie. destruct (print_pair (session_cookie_value secret sid) secure None) as (attrs & -> & Ha).
  rewrite sapp_assoc, (split_byte_head ";" ("ng_session=" +:+ session_cookie_value secret sid) attrs); [done| |done].
  pose proof (sign_octets secret _ (hex_alnum sid)) as Ho. apply octets_plain in Ho as [_ Ho].
  unfold session_cookie_value. rewrite sall_app. by rewrite Ho.
Qed.

(** C24: A login that succeeds checked the password of an enabled user and opens a
    session: the reply sets a cookie and carries a CSRF token, and the next
    request, made before the session expires or goes idle with the cookie a
    browser sends back and that token, is accepted by every mutating endpoint
    as that user; and the failed attempts and the lock of the account are gone.
    (A request in between that rotates the token, or ends the session, is not
    considered.) *)
Theorem login_opens_session st dr h body w reply w' later :
  let c := cs_console st in
  console_wf (cw_db w) -> api_login st dr h body w = (reply, w') -> cr_status reply = 200%Z ->
  instant (dr_now dr) -> instant (dr_now dr + hours (co_session_ttl_hours c)) ->
  (later <= dr_now dr + hours (co_session_ttl_hours c) /\ later <= dr_now dr + hours (idle_hours c))%Z ->
  exists user hash cookie wire,
    user_by_username (cw_db w) (lg_username body) = Some user /\ us_password_hash user = Some hash /\
    verify_password (lg_password body) hash = true /\
    header_get "set-cookie" (cr_headers reply) = Some cookie /\ get_str "csrf_token" (cr_body reply) = Some wire /\
    (mutating_user c later (Some (sent_back cookie)) (Some wire) (cw_db w')).1 =
      Ok (set_last_login (to_rfc3339 (dr_now dr)) (set_lock None user), dr_session_id dr) /\
    List.filter (fun a => String.eqb (at_username a) (us_username user)) (cd_attempts (cw_db w')) = [].
Proof.
  intros c Hwf E Hs Hn He Hl.
  destruct (login_success _ _ _ _ _ _ _ E Hs) as (user & hash & d3 & d4 & Hu & Hd & Hh & Hv & Ed3 & Hc & Hw & ->).
  exists user, hash, (build_session_cookie (dr_session_id dr) (co_session_secret c) (cs_secure_cookie st)), (encode_csrf_token (dr_csrf dr)).
  split; [done|]. split; [done|]. split; [done|]. split; [done|]. split; [done|].
  destruct (by_name_by_id _ _ _ Hwf Hu) as [Hn' Hid]. rewrite Hw.
  pose proof (session_after_create _ _ _ _ _ _ _ _ _ Hc) as [Hsess Husers]. split.
  - rewrite session_cookie_sent_back. apply mutating_user_iff. split; [apply session_cookie_roundtrip|].
    eexists _, (dr_csrf dr), (encode_csrf_token (dr_csrf dr)). split; [exact Hsess|]. split_and!.
    + subst c. split; cbn [se_expires_at se_last_seen_at]; unfold time_or_epoch; rewrite parse_to by done;
        cbn [default from_option id]; unfold id; lia.
    + unfold user_by_id. rewrite Husers. change (List.find _ (cd_users d3)) with (user_by_id d3 (us_id user)).
      subst d3. unfold update_last_login, set_locked_until. rewrite !update_users_by_id, Z.eqb_refl by done.
      change (user_by_id (clear_login_attempts _ _) (us_id user)) with (user_by_id (cw_db w) (us_id user)). by rewrite Hid.
    + by simpl.
    + done.
    + done.
    + unfold decode_csrf_token, encode_csrf_token. rewrite trim_visible; [apply hex_roundtrip|].
      eapply sall_impl; [|apply hex_alnum]. intros x Hx.
      destruct (octet_visible x) as [? _]; [unfold cookie_octet; by rewrite Hx|done].
  - unfold create_session in Hc. destruct (session_by_id d3 _); [done|]. injection Hc as <-. subst d3. simpl.
    induction (cd_attempts (cw_db w)) as [|a l IH]; simpl; [done|].
    destruct (String.eqb (at_username a) (us_username user)) eqn:Ea; simpl; [done|]. by rewrite Ea.
Qed.

(** ** Lemmas: what a login changes of another account *)

Definition rows_of (name : string) (d : ConsoleDb) : list Attempt :=
  List.filter (fun a => String.eqb (at_username a) name) (cd_attempts d).

(** [d'] agrees with [d] on the account [name]. *)
Definition same_account (name : string) (d d' : ConsoleDb) : Prop :=
  console_wf d' /\ user_by_username d' name = user_by_username d name /\ rows_of name d' = rows_of name d.

Lemma same_account_refl name d : console_wf d -> same_account name d d.
Proof. intros W. by split. Qed.

Lemma same_account_trans name d1 d2 d3 : same_account name d1 d2 -> same_account name d2 d3 -> same_account name d1 d3.
Proof. intros (_ & Hu & Hr) (W & Hu' & Hr'). split; [done|]. by rewrite Hu', Hr'. Qed.

Lemma record_same name d now other ip :
  console_wf d -> other <> name -> same_account name d (record_login_attempt d now other ip).
Proof.
  intros [W1 W2 W3] Hne. split; [by split|]. split; [done|]. unfold rows_of. simpl. rewrite List.filter_app. simpl.
  destruct (String.eqb_spec other name); [done|]. apply app_nil_r.
Qed.

Lemma clear_same name d other : console_wf d -> other <> name -> same_account name d (clear_login_attempts d other).
Proof.
  intros [W1 W2 W3] Hne. split; [by split|]. split; [done|]. unfold rows_of. simpl.
  induction (cd_attempts d) as [|a l IH]; simpl; [done|].
  destruct (String.eqb_spec (at_username a) other) as [E|E]; simpl; [|destruct (String.eqb (at_username a) name); by rewrite IH].
  rewrite IH. destruct (String.eqb_spec (at_username a) name); [congruence|done].
Qed.

Lemma update_same name d other u f :
  console_wf d -> user_by_username d other = Some u -> other <> name ->
  (forall x, us_id (f x) = us_id x /\ us_username (f x) = us_username x) ->
  same_account name d (update_users f (us_id u) d).2.
Proof.
  intros W Hu Hne Hf. split; [by apply update_users_wf|]. split; [|done].
  rewrite update_users_by_name by apply Hf. destruct (user_by_username d name) as [v|] eqn:Hv; [|done]. simpl.
  destruct (Z.eqb_spec (us_id v) (us_id u)) as [E|]; [|done].
  by destruct (by_name_distinct d name other v u W Hv Hu ltac:(congruence)).
Qed.

Lemma create_same name d now id uid e ua ip t d' :
  console_wf d -> create_session d now id uid e ua ip t = Ok d' -> same_account name d d'.
Proof.
  intros [W1 W2 W3]. unfold create_session. destruct (session_by_id d id) eqn:E; [done|]. intros [= <-].
  split; [|done]. split; simpl; [done..|]. rewrite map_app. apply NoDup_app. split; [done|]. split.
  - intros x Hx Hs. simpl in Hs. apply list_elem_of_singleton in Hs as ->. apply list_elem_of_In, in_map_iff in Hx as (s & Es & Hin).
    unfold session_by_id in E. apply (find_none _ _ E) in Hin. simpl in Hin. rewrite Es, String.eqb_refl in Hin. done.
  - apply NoDup_singleton.
Qed.

Lemma login_other st dr h body w name :
  console_wf (cw_db w) -> lg_username body <> name ->
  same_account name (cw_db w) (cw_db (api_login st dr h body w).2).
Proof.
  intros W Hne. pose proof (same_account_refl name _ W) as Hrefl. unfold api_login.
  destruct (String.eqb _ ""); [done|]. match goal with |- context [if ?b then (json_error 429 _, _) else _] => destruct b; [done|] end.
  destruct (user_by_username _ _) as [user|] eqn:Hu; [|by apply record_same].
  match goal with |- context [if ?b then (json_error 429 "account locked", w) else _] => destruct b; [done|] end.
  destruct (us_disabled user); [done|]. destruct (by_name_by_id _ _ _ W Hu) as [Hn _].
  pose proof (record_same name (cw_db w) (dr_now dr) (us_username user) (client_ip h) W ltac:(congruence)) as Hrec.
  destruct (us_password_hash user) as [hash|]; [|done].
  destruct (negb (verify_password _ hash)).
  { match goal with |- context [if ?b then _ else _] => destruct b; [|done] end. simpl.
    eapply same_account_trans; [exact Hrec|]. eapply update_same; [apply Hrec|exact Hu|done|done]. }
  set (d1 := clear_login_attempts _ _). assert (H1' : same_account name (cw_db w) d1) by (apply clear_same; congruence).
  assert (Hu1 : user_by_username d1 (lg_username body) = Some user) by exact Hu.
  set (d2 := set_locked_until d1 _ _).
  assert (H2' : same_account name (cw_db w) d2)
    by (eapply same_account_trans; [exact H1'|]; eapply update_same; [apply H1'|exact Hu1|done|done]).
  assert (Hu2 : user_by_username d2 (lg_username body) = Some (set_lock None user)).
  { unfold d2, set_locked_until. rewrite update_users_by_name, Hu1 by done. simpl. by rewrite Z.eqb_refl. }
  set (d3 := update_last_login d2 _ _).
  assert (H3' : same_account name (cw_db w) d3)
    by (eapply same_account_trans; [exact H2'|]; eapply (update_same name d2 _ _ _ (proj1 H2') Hu2); done).
  destruct (create_session d3 _ _ _ _ _ _ _) as [d4|] eqn:Ec; [|done]. simpl.
  eapply same_account_trans; [exact H3'|]. eapply create_same; [apply H3'|exact Ec].
Qed.

(** ** Guessing a password *)

(** A reply that tells a caller its password was wrong. *)
Definition wrong_credentials (r : ConsoleReply) : bool :=
  bool_decide (get_str "error" (cr_body r) = Some "invalid credentials").

(** The password guesses against [name] that get an answer, in a run of logins
    of any accounts from any addresses. *)
Fixpoint guesses (st : ConsoleState) (name : string) (reqs : list (Draw * ConsoleHeaders * LoginRequest)) (w : ConsoleWorld)
    : nat :=
  match reqs with
  | [] => 0
  | (dr, h, body) :: rest =>
      let '(r, w') := api_login st dr h body w in
      (if String.eqb (lg_username body) name && wrong_credentials r then 1 else 0) + guesses st name rest w'
  end.

(** A row recorded at some instant of the period that starts at [t0]. *)
Definition since (t0 : Z) (a : Attempt) : bool :=
  match parse_from_rfc3339 (at_attempted_at a) with
  | Some t => (t0 <=? t)%Z && (t <? max_instant)%Z && String.eqb (to_rfc3339 t) (at_attempted_at a)
  | None => false
  end.
Definition recorded (t0 : Z) (name : string) (d : ConsoleDb) : nat := length (List.filter (since t0) (rows_of name d)).

Lemma filter_length_impl {A} (q r : A -> bool) l :
  (forall x, q x = true -> r x = true) -> length (List.filter q l) <= length (List.filter r l).
Proof.
  intros Hqr. induction l as [|x l IH]; simpl; [done|]. destruct (q x) eqn:E; [rewrite Hqr by done; simpl; lia|].
  destruct (r x); simpl; lia.
Qed.

Lemma filter_filter {A} (q r : A -> bool) l : List.filter q (List.filter r l) = List.filter (fun x => r x && q x) l.
Proof. induction l as [|x l IH]; simpl; [done|]. destruct (r x); simpl; [destruct (q x)|]; by rewrite IH. Qed.

(** Within one lockout window of [t0] every such row counts. *)
Lemma recorded_count t0 L name d now :
  instant t0 -> instant (now - minutes L) -> (now < t0 + minutes L)%Z ->
  (Z.of_nat (recorded t0 name d) <= count_recent_login_attempts d now name L)%Z.
Proof.
  intros Ht Hn Hlt. unfold recorded, count_recent_login_attempts, rows_of. rewrite filter_filter.
  apply inj_le, filter_length_impl. intros a [Hname Hs]%andb_prop. rewrite Hname. simpl. unfold since in Hs.
  destruct (parse_from_rfc3339 _) as [t|]; [|done]. apply andb_prop in Hs as [Hs He]. apply andb_prop in Hs as [Hs Hm].
  apply String.eqb_eq in He. apply Z.leb_le in Hs. apply Z.ltb_lt in Hm. unfold recent. rewrite <-He.
  unfold instant in *. rewrite text_lt_to by (unfold instant; lia). apply Z.ltb_lt. lia.
Qed.

Lemma recorded_record t0 name d now ip :
  instant t0 -> instant now -> (t0 <= now)%Z ->
  recorded t0 name (record_login_attempt d now name ip) = S (recorded t0 name d).
Proof.
  intros Ht Hn Hle. unfold recorded, rows_of, record_login_attempt. simpl. rewrite List.filter_app. simpl.
  rewrite String.eqb_refl, List.filter_app. simpl.
  assert (since t0 (mkAttempt name ip (to_rfc3339 now)) = true) as ->.
  { unfold since. simpl. rewrite parse_to, String.eqb_refl by done. unfold instant in Hn.
    rewrite andb_true_r. apply andb_true_intro. split; [apply Z.leb_le|apply Z.ltb_lt]; lia. }
  rewrite length_app. simpl. lia.
Qed.

(** A request of the period, which does not carry the account's password. *)
Definition attack (st : ConsoleState) (t0 : Z) (name hash : string) (q : Draw * ConsoleHeaders * LoginRequest) : Prop :=
  let '(dr, _, body) := q in
  let L := minutes (co_lockout_duration_minutes (cs_console st)) in
  (t0 <= dr_now dr < t0 + L)%Z /\ instant (dr_now dr - L) /\ instant (dr_now dr + L) /\
  (lg_username body = name -> verify_password (lg_password body) hash = false).

(** After [k] answered guesses the account is locked beyond the period, or the
    table holds [k] attempts of the period. *)
Definition guarded (st : ConsoleState) (t0 : Z) (name hash : string) (k : nat) (d : ConsoleDb) : Prop :=
  console_wf d /\ (k < Z.to_nat (co_max_login_attempts (cs_console st))) /\
  exists u, user_by_username d name = Some u /\ us_password_hash u = Some hash /\
    ((exists until, us_locked_until u = Some (to_rfc3339 until) /\ instant until /\
        (t0 + minutes (co_lockout_duration_minutes (cs_console st)) <= until)%Z) \/
     k <= recorded t0 name d).

Lemma guarded_same st t0 name hash k d d' :
  guarded st t0 name hash k d -> same_account name d d' -> guarded st t0 name hash k d'.
Proof. intros (_ & Hk & Hu) (W & Eu & Er). unfold guarded, recorded in *. by rewrite Eu, Er. Qed.

Lemma record_wf d now name ip : console_wf d -> console_wf (record_login_attempt d now name ip).
Proof. intros [W1 W2 W3]. by split. Qed.

Lemma guarded_step st t0 name hash k dr h body w :
  instant t0 -> attack st t0 name hash (dr, h, body) -> guarded st t0 name hash k (cw_db w) ->
  let '(r, w') := api_login st dr h body w in
  guarded st t0 name hash ((if String.eqb (lg_username body) name && wrong_credentials r then 1 else 0) + k) (cw_db w').
Proof.
  intros Ht (Hnow & Hlo & Hhi & Hpw) Hg.
  destruct (String.eqb_spec (lg_username body) name) as [En|Hne]; cbn [andb].
  2: { pose proof (login_other st dr h body w name (proj1 Hg) Hne) as Hs.
       destruct (api_login st dr h body w) as [r w']. by eapply guarded_same. }
  assert (Hin : instant (dr_now dr)) by (unfold instant in *; lia).
  specialize (Hpw En). pose proof Hg as (W & Hk & u & Hu & Hh & Hlock). unfold api_login.
  destruct (String.eqb _ ""); [done|]. match goal with |- context [if ?b then (json_error 429 _, _) else _] => destruct b; [done|] end.
  rewrite En, Hu. destruct (by_name_by_id _ _ _ W Hu) as [Eun _].
  match goal with |- context [if ?b then (json_error 429 "account locked", w) else _] => destruct b eqn:El; [done|] end.
  destruct (us_disabled u); [done|]. rewrite Hh, Hpw, Eun. cbn [negb].
  assert (Hrec : k <= recorded t0 name (cw_db w)).
  { destruct Hlock as [(until & Hl & Hi & Hge)|?]; [|done]. rewrite Hl in El. cbn [mbind option_bind] in El.
    rewrite parse_to in El by done. apply Z.ltb_ge in El. lia. }
  set (d1 := record_login_attempt _ _ _ _).
  assert (Hd1 : S k <= recorded t0 name d1) by (unfold d1; rewrite recorded_record by (done || lia); lia).
  pose proof (recorded_count t0 _ name d1 (dr_now dr) Ht Hlo ltac:(lia)) as Hc.
  destruct (Z.leb_spec (co_max_login_attempts (cs_console st))
    (count_recent_login_attempts d1 (dr_now dr) name (co_lockout_duration_minutes (cs_console st)))) as [Hmax|Hmax].
  - cbn [wrong_credentials json_error]. simpl. split; [apply update_users_wf; [done|by apply record_wf]|]. split; [done|].
    exists (set_lock (Some (to_rfc3339 (dr_now dr + minutes (co_lockout_duration_minutes (cs_console st))))) u).
    unfold set_locked_until. rewrite update_users_by_name by done.
    change (user_by_username d1 name) with (user_by_username (cw_db w) name). rewrite Hu. simpl. rewrite Z.eqb_refl.
    split; [done|]. split; [done|]. left. eexists. split; [done|]. split; [done|]. lia.
  - simpl. split; [by apply record_wf|]. split; [lia|]. exists u. split; [done|]. split; [done|]. by right.
Qed.

(** C23: Guessing is bounded: in any period as long as the lockout in which nobody
    logs in to the account with its password (a success clears the attempts),
    whatever wrong guesses at it and whatever logins of other accounts arrive
    from whatever addresses, fewer than [max_login_attempts] guesses are
    answered as wrong; every further one is answered without looking at the
    password. *)
Theorem guesses_bounded st t0 name hash u reqs w :
  console_wf (cw_db w) -> user_by_username (cw_db w) name = Some u -> us_password_hash u = Some hash ->
  (0 < co_max_login_attempts (cs_console st))%Z -> instant t0 -> Forall (attack st t0 name hash) reqs ->
  (Z.of_nat (guesses st name reqs w) < co_max_login_attempts (cs_console st))%Z.
Proof.
  intros W Hu Hh Hmax Ht Hreqs.
  assert (Hg : guarded st t0 name hash 0 (cw_db w)).
  { split; [done|]. split; [lia|]. exists u. split; [done|]. split; [done|]. right. lia. }
  enough (Hn : forall k, guarded st t0 name hash k (cw_db w) ->
    guesses st name reqs w + k < Z.to_nat (co_max_login_attempts (cs_console st))).
  { specialize (Hn 0 Hg). lia. }
  clear W Hu Hg. revert w. induction Hreqs as [|[[dr h] body] reqs Hq _ IH]; intros w k Hg; simpl; [apply Hg|].
  pose proof (guarded_step st t0 name hash k dr h body w Ht Hq Hg) as Hs.
  destruct (api_login st dr h body w) as [r w']. specialize (IH w' _ Hs). lia.
Qed.
End LoginProps.

(** ** Properties: the mutating endpoints *)

Section EndpointProps.
Context `{Unicode} `{Rfc3339} `{Argon2} `{CookieCrate} `{SerdeStruct} `{Disk} `{Sha256}.
Implicit Types w : ConsoleWorld.

Notation admits st dr h w := (mutating_user (cs_console st) (dr_now dr) (ch_cookie h ≫= header_to_str)
  (ch_csrf h ≫= header_to_str) (cw_db w)).

(** The extractor touches at most the session table. *)
Lemma mutating_user_tables c now cookie csrf d :
  let d' := (mutating_user c now cookie csrf d).2 in
  cd_users d' = cd_users d /\ cd_tokens d' = cd_tokens d.
Proof.
  unfold mutating_user, load_session. destruct (extract_session_id _ _) as [id|]; [|done].
  destruct (session_by_id d id) as [s|]; [|done].
  destruct (Z.ltb _ _); [done|]. destruct (Z.ltb _ _); [done|]. cbn [fst snd].
  repeat match goal with |- context [match ?x with _ => _ end] => destruct x end; done.
Qed.

(** What holds of the endpoint body's answers holds of the endpoint. *)
Lemma mutating_elim (P : ConsoleReply -> ConsoleWorld -> Prop) st dr h run w :
  (forall status message d', (admits st dr h w) = (Err (status, message), d') -> P (json_error status message) (with_db d' w)) ->
  (forall user sid d', (admits st dr h w) = (Ok (user, sid), d') ->
     let '(r, w') := run user sid (with_db d' w) in P r w') ->
  let '(r, w') := mutating st dr h run w in P r w'.
Proof.
  intros He Hok. unfold mutating. destruct (admits st dr h w) as [[[user sid]|[status message]] d'] eqn:E.
  - by apply Hok.
  - by apply He.
Qed.

(** A rejection is never a success. *)
Lemma mutating_user_status c now cookie csrf d status message d' :
  mutating_user c now cookie csrf d = (Err (status, message), d') -> (400 <= status)%Z.
Proof.
  unfold mutating_user. destruct (extract_session_id _ _) as [id|]; [|intros [= <- <- <-]; lia].
  destruct (load_session _ _ _ _) as [[[[u|] t]|] d1]; [|intros [= <- <- <-]; lia..].
  destruct (us_disabled u); [intros [= <- <- <-]; lia|]. destruct t; [|intros [= <- <- <-]; lia].
  destruct (csrf ≫= decode_csrf_token); [|intros [= <- <- <-]; lia]. destruct (csrf_tokens_match _ _); [done|].
  intros [= <- <- <-]. lia.
Qed.

Lemma weak_password_status p e : weak_password p = Some e -> cr_status e = 400%Z.
Proof. unfold weak_password. destruct (Nat.ltb _ _); [by intros [= <-]|]. destruct (is_common_password _); [by intros [= <-]|done]. Qed.
Lemma require_admin_status u e : require_console_admin u = Some e -> cr_status e = 403%Z.
Proof. unfold require_console_admin. destruct (negb _); [by intros [= <-]|done]. Qed.

(** *** Sessions that must end *)

(** No cookie is admitted as user [id] any more. *)
Definition logged_out (id : Z) (d : ConsoleDb) : Prop :=
  forall c later cookie u, (current_user c later cookie d).1 = Ok u -> us_id u <> id.

Lemma no_session_logged_out id d : Forall (fun s => se_user_id s <> id) (cd_sessions d) -> logged_out id d.
Proof.
  intros Hf c later cookie u Hu. apply current_user_accepts in Hu as (sid & s & _ & Hs & _ & Hu & _).
  apply find_some in Hs as [Hin _]. apply find_some in Hu as [_ Hid]. apply Z.eqb_eq in Hid. rewrite Hid.
  rewrite Forall_forall in Hf. apply Hf. by apply list_elem_of_In.
Qed.

Lemma delete_user_sessions_none id d : Forall (fun s => se_user_id s <> id) (cd_sessions (delete_user_sessions d id)).
Proof.
  apply Forall_forall. intros s Hs. apply list_elem_of_In, filter_In in Hs as [_ Hs].
  apply negb_true_iff, Z.eqb_neq in Hs. done.
Qed.

Lemma rotated_sessions dr sid status hs body w id :
  Forall (fun s => se_user_id s <> id) (cd_sessions (cw_db w)) ->
  Forall (fun s => se_user_id s <> id) (cd_sessions (cw_db (reply_rotated dr sid status hs body w).2)).
Proof.
  intros Hf. unfold reply_rotated, rotate_csrf, rotate_csrf_token, update_sessions. simpl.
  apply Forall_fmap. eapply Forall_impl; [exact Hf|]. intros s Hs. simpl. by case_match.
Qed.

Lemma admin_role user : require_console_admin user = None -> us_role user = "admin".
Proof. unfold require_console_admin. destruct (String.eqb_spec (us_role user) "admin"); by simpl. Qed.

(** C26: Sessions end when they must: after a logout none of the caller's sessions is
    admitted anywhere, after a password reset or a change of role none of the
    target's, and the reset installed a hash of the new password. *)
Theorem sessions_forced_out st dr h id up password target role w :
  (forall reply w', api_logout st dr h w = (reply, w') -> cr_status reply = 200%Z ->
     exists u sid, (admits st dr h w).1 = Ok (u, sid) /\ logged_out (us_id u) (cw_db w')) /\
  (forall reply w', api_reset_user_password st dr h id password w = (reply, w') -> cr_status reply = 200%Z ->
     logged_out id (cw_db w') /\
     exists hash, argon2_hash (dr_salt dr) password = Ok hash /\
       us_password_hash <$> user_by_id (cw_db w') id = Some (Some hash)) /\
  (forall reply w', user_by_id (cw_db w) id = Some target -> up_role up = Some role -> role <> us_role target ->
     api_update_user st dr h id up w = (reply, w') -> cr_status reply = 200%Z -> logged_out id (cw_db w')).
Proof.
  split_and!.
  - intros reply w' E Hs. unfold api_logout, mutating in E.
    destruct (admits st dr h w) as [[[u sid]|[status m]] d'] eqn:Ea.
    2: { injection E as <- <-. apply mutating_user_status in Ea. simpl in Hs. lia. }
    exists u, sid. split; [done|]. apply no_session_logged_out. apply (f_equal snd) in E. cbn [snd] in E. rewrite <-E.
    apply rotated_sessions, delete_user_sessions_none.
  - intros reply w' E Hs. unfold api_reset_user_password, mutating in E.
    destruct (admits st dr h w) as [[[u sid]|[status m]] d'] eqn:Ea.
    2: { injection E as <- <-. apply mutating_user_status in Ea. simpl in Hs. lia. }
    destruct (require_console_admin u) eqn:Er; [injection E as <- <-; apply require_admin_status in Er; lia|].
    destruct (weak_password _) eqn:Ew; [injection E as <- <-; apply weak_password_status in Ew; lia|].
    destruct (user_by_id (cw_db (with_db d' w)) id) as [t|] eqn:Et; [|by injection E as <- <-].
    destruct (argon2_hash (dr_salt dr) password) as [hash|]; [|by injection E as <- <-].
    assert (Hid : us_id t = id) by (pose proof Et as Ht; apply find_some in Ht as [_ Ht]; by apply Z.eqb_eq in Ht).
    rewrite Hid in E.
    apply (f_equal snd) in E. cbn [snd] in E. rewrite <-E. split.
    + apply no_session_logged_out, rotated_sessions, delete_user_sessions_none.
    + exists hash. split; [done|].
      change (user_by_id _ id) with (user_by_id (set_password_hash d' id hash) id).
      unfold set_password_hash. rewrite update_users_by_id, Z.eqb_refl by done.
      change (user_by_id d' id) with (user_by_id (cw_db (with_db d' w)) id). by rewrite Et.
  - intros reply w' Ht Hrole Hne E Hs. unfold api_update_user, mutating in E.
    pose proof (mutating_user_tables (cs_console st) (dr_now dr) (ch_cookie h ≫= header_to_str)
      (ch_csrf h ≫= header_to_str) (cw_db w)) as [Hus _].
    destruct (admits st dr h w) as [[[u sid]|[status m]] d'] eqn:Ea.
    2: { injection E as <- <-. apply mutating_user_status in Ea. simpl in Hs. lia. }
    destruct (require_console_admin u) eqn:Er; [injection E as <- <-; apply require_admin_status in Er; lia|].
    assert (Et : user_by_id (cw_db (with_db d' w)) id = Some target)
      by (unfold user_by_id; simpl in Hus |- *; by rewrite Hus).
    rewrite Et in E. assert (us_id target = id) as Hid by (apply find_some in Ht as [_ Ht]; by apply Z.eqb_eq in Ht).
    assert (Hch : role_changed up (Some target) = true)
      by (unfold role_changed; rewrite Hrole; apply negb_true_iff, String.eqb_neq; done).
    destruct (update_user _ id up) as [n d1]. rewrite Hch, Hid in E.
    apply (f_equal snd) in E. cbn [snd] in E. rewrite <-E.
    apply no_session_logged_out, rotated_sessions, delete_user_sessions_none.
Qed.

(** *** CSRF rotation *)

Context (exchange : string -> string -> result string string) (kill_hup : Z -> result string unit)
  (read_pid_file : string -> result string string) (order_by_created : list ClientTokenRow -> list ClientTokenRow).

(** The account and token endpoints of this file that change the database, each
    with its argument; the other mutating routes are in the files of the editor,
    the budgets, the backends and the playground. *)
Definition account_endpoints (st : ConsoleState) (dr : Draw) (rng : nat -> string) (h : ConsoleHeaders) (cu : CreateUserRequest)
    (id : Z) (up : UserUpdate) (password : string) (ct : CreateTokenRequest)
    : list (ConsoleWorld -> ConsoleReply * ConsoleWorld) :=
  [api_logout st dr h; api_create_user st dr h cu; api_update_user st dr h id up;
   api_reset_user_password st dr h id password;
   api_force_revoke_user_tokens exchange kill_hup read_pid_file st dr h id;
   api_create_token st dr rng h ct;
   api_revoke_token exchange kill_hup read_pid_file order_by_created st dr h id].

Lemma session_after_update f id d :
  (forall s, se_id (f s) = se_id s) -> session_by_id (update_sessions f id d).2 id = f <$> session_by_id d id.
Proof. intros Hf. apply (find_map_key se_id String.eqb). exact Hf. Qed.

(** *** Who may change what *)

(** Only an admin's request changes the users or another user's tokens: when one
    of the administrative endpoints changed either table, the caller was
    admitted by the extractor and has the role [admin]. *)
Theorem admin_tables_guarded st dr h cu id up password e w reply w' :
  In e [api_create_user st dr h cu; api_update_user st dr h id up; api_reset_user_password st dr h id password;
        api_force_revoke_user_tokens exchange kill_hup read_pid_file st dr h id] ->
  e w = (reply, w') ->
  (cd_users (cw_db w'), cd_tokens (cw_db w')) <> (cd_users (cw_db w), cd_tokens (cw_db w)) ->
  exists admin sid, (admits st dr h w).1 = Ok (admin, sid) /\ us_role admin = "admin".
Proof.
  intros Hin He Hch. pose proof (mutating_user_tables (cs_console st) (dr_now dr) (ch_cookie h ≫= header_to_str)
    (ch_csrf h ≫= header_to_str) (cw_db w)) as [Hus Hts].
  assert (Hrun : exists run, e = mutating st dr h run /\
    forall u sid w0 r, require_console_admin u = Some r -> run u sid w0 = (r, w0)).
  { destruct Hin as [<-|[<-|[<-|[<-|[]]]]]; eexists; (split; [reflexivity|]); intros u sid w0 r Hr;
      cbv beta zeta; by rewrite Hr. }
  destruct Hrun as (run & -> & Hrun). unfold mutating in He.
  destruct (admits st dr h w) as [[[u sid]|[status m]] d'] eqn:Ea.
  2: { injection He as <- <-. simpl in *. congruence. }
  destruct (require_console_admin u) as [r|] eqn:Er.
  { rewrite (Hrun u sid _ r Er) in He. injection He as <- <-. simpl in *. congruence. }
  exists u, sid. split; [done|]. by apply admin_role.
Qed.

Lemma Forall2_map_in {A C} (P : A -> C -> Prop) f l : (forall a, In a l -> P a (f a)) -> Forall2 P l (map f l).
Proof. induction l as [|a l IH]; intros Hf; simpl; constructor; [apply Hf; by left|]. apply IH. intros b Hb. apply Hf. by right. Qed.

Lemma NoDup_key {A K} (key : A -> K) l a b : NoDup (map key l) -> In a l -> In b l -> key a = key b -> a = b.
Proof.
  induction l as [|x l IH]; simpl; [done|]. intros [Hx Hl]%NoDup_cons Ha Hb E.
  assert (Hn : forall y, In y l -> key y <> key x)
    by (intros y Hy Ey; apply Hx; rewrite <-Ey; apply list_elem_of_In; by apply in_map).
  destruct Ha as [<-|Ha], Hb as [<-|Hb]; [done|by destruct (Hn b Hb)|by destruct (Hn a Ha)|by apply IH].
Qed.

Lemma find_owned rows uid id :
  (forall l, order_by_created l ≡ₚ l) ->
  is_Some (List.find (fun r => Z.eqb (ct_id r) id) (list_for_user order_by_created rows uid)) <->
  exists r hash, In (r, hash) rows /\ ct_id r = id /\ ct_user_id r = uid.
Proof.
  intros Hperm. unfold list_for_user. set (l := List.filter _ _).
  assert (Hl : forall r, In r (order_by_created l) <-> In r l) by (intros r; rewrite <-!list_elem_of_In; by rewrite Hperm).
  split.
  - intros [r Hr]. apply find_some in Hr as [Hin Hid]. apply Hl in Hin. apply filter_In in Hin as [Hin Hu].
    apply in_map_iff in Hin as ([r' hash] & <- & Hin). exists r', hash. simpl in *.
    split; [done|]. split; by apply Z.eqb_eq.
  - intros (r & hash & Hin & Hid & Hu). destruct (List.find _ _) eqn:E; [done|].
    apply find_none with (x := r) in E; [by rewrite Hid, Z.eqb_refl in E|]. apply Hl, filter_In. split; [|by apply Z.eqb_eq].
    apply in_map_iff. by exists (r, hash).
Qed.

(** A user revokes its own tokens and no other: the request succeeds exactly for
    a token of the caller, that row is marked revoked, and every other row stays
    as it was. *)
Theorem token_revoke_own st dr h id w reply w' :
  (forall l, order_by_created l ≡ₚ l) -> NoDup (map (fun rh => ct_id rh.1) (cd_tokens (cw_db w))) ->
  api_revoke_token exchange kill_hup read_pid_file order_by_created st dr h id w = (reply, w') ->
  match (admits st dr h w).1 with
  | Err _ => cd_tokens (cw_db w') = cd_tokens (cw_db w)
  | Ok (user, _) =>
      (cr_status reply = 200%Z <->
         exists r hash, In (r, hash) (cd_tokens (cw_db w)) /\ ct_id r = id /\ ct_user_id r = us_id user) /\
      Forall2 (fun a b => b = a \/ (ct_id a.1 = id /\ ct_user_id a.1 = us_id user /\
                                   b = (set_revoked (to_rfc3339 (dr_now dr)) a.1, a.2)))
        (cd_tokens (cw_db w)) (cd_tokens (cw_db w'))
  end.
Proof.
  intros Hperm Hnd E. pose proof (mutating_user_tables (cs_console st) (dr_now dr) (ch_cookie h ≫= header_to_str)
    (ch_csrf h ≫= header_to_str) (cw_db w)) as [_ Hts].
  unfold api_revoke_token, mutating in E. destruct (admits st dr h w) as [[[u sid]|[status m]] d'] eqn:Ea; simpl in Hts |- *.
  2: { by injection E as <- <-. }
  cbn [cw_db with_db] in E. rewrite Hts in E. pose proof (find_owned (cd_tokens (cw_db w)) (us_id u) id Hperm) as Hown.
  destruct (List.find _ _) as [row|] eqn:Ef.
  - destruct (proj1 Hown ltac:(done)) as (r & hash & Hin & Hid & Hu).
    apply (f_equal (fun x => (cr_status x.1, cd_tokens (cw_db x.2)))) in E. cbn in E. injection E as Es Et. split.
    + rewrite <-Es. split; [|done]. intros _. by exists r, hash.
    + rewrite <-Et. apply Forall2_map_in. intros a Ha. destruct (Z.eqb_spec (ct_id a.1) id) as [E|]; [|by left]. right.
      rewrite <-Hid in E. pose proof (NoDup_key (fun rh => ct_id rh.1) _ _ _ Hnd Ha Hin E) as ->. by simpl.
  - injection E as <- <-. simpl. split; [|rewrite Hts; rewrite <-(map_id (cd_tokens (cw_db w))) at 2; apply Forall2_map_in; by left].
    split; [done|]. intros Hx. by apply Hown in Hx as [? ?].
Qed.
End EndpointProps.
