(* ===== verification/AdminCli.v ===== *)
(** * The offline administration tool ([src/bin/nanoguard-admin.rs])

    Resetting a user's password in the console's database without a login, and
    listing the users.  The terminal's settings are part of the state: the
    prompt turns the echo off while a password is typed. *)

From S2P Require Import Prelude RustStr Json Matcher ClientAuth AuditTrail Proxy Admin Config Reload ConsoleDb ConsoleApi.

(** ** Text *)

Definition ellipsis : string := "…".
(** [n.saturating_sub(1)] characters and an ellipsis. *)
Definition cli_truncate (s : string) (n : nat) : string :=
  if Nat.leb (char_count s) n then s else sconcat (take (n - 1) (chars s)) +:+ ellipsis.
(** One trailing newline, and a carriage return before it. *)
Definition strip_newline (line : string) : string :=
  match strip_suffix (one nl) line with
  | Some l => default l (strip_suffix (one (byte 13)) l)
  | None => line
  end.

(** ** Arguments *)

Record PasswordArgs := mkPasswordArgs { pa_username : option string; pa_inline : option string; pa_stdin : bool }.
Fixpoint parse_set_password (args : list string) (a : PasswordArgs) : result string PasswordArgs :=
  match args with
  | [] => Ok a
  | arg :: rest =>
      if String.eqb arg "--password" then
        match rest with
        | v :: rest' => parse_set_password rest' (mkPasswordArgs (pa_username a) (Some v) (pa_stdin a))
        | [] => Err "--password requires a value"
        end
      else if String.eqb arg "--password-stdin" then parse_set_password rest (mkPasswordArgs (pa_username a) (pa_inline a) true)
      else if negb (starts_with "--" arg) then
        match pa_username a with
        | Some _ => Err ("unexpected positional argument: " +:+ arg)
        | None => parse_set_password rest (mkPasswordArgs (Some arg) (pa_inline a) (pa_stdin a))
        end
      else Err ("unknown flag: " +:+ arg)
  end.

(** ** The process *)

(** The database, the local flags of the terminal, and the lines printed. *)
Record CliWorld := mkCli { cl_db : ConsoleDb; cl_lflag : Z; cl_out : list string }.
Definition println (line : string) (w : CliWorld) : CliWorld := mkCli (cl_db w) (cl_lflag w) (cl_out w ++ [line]).
Definition set_lflag (f : Z) (w : CliWorld) : CliWorld := mkCli (cl_db w) f (cl_out w).
Definition set_cli_db (d : ConsoleDb) (w : CliWorld) : CliWorld := mkCli d (cl_lflag w) (cl_out w).

(** What standard input is, the line read from it, and whether the calls on its
    settings succeed: reading them, turning the echo off, restoring them. *)
Record Stdin := mkStdin {
  in_terminal : bool;
  in_line : result string string;
  in_get : bool;
  in_set : bool;
  in_restore : bool;
}.

Section Cli.
Context `{Unicode} `{Rfc3339} `{Argon2}.
Context (ECHO : Z).
(** The configuration, the opening of the database, and which statement of the
    transaction fails, if any. *)
Context (load_config : result string Config) (open_fails : option string) (fails : string -> option string)
  (salt : string) (stdin : Stdin) (users_by_created : list User -> list User).

Definition read_password_from_stdin : result string string :=
  match in_line stdin with Ok line => Ok (strip_newline line) | Err _ => Err "reading password from stdin" end.
(** [EchoGuard::off], the read, and the guard's drop. *)
Definition prompt_password_tty (username : string) (w : CliWorld) : result string string * CliWorld :=
  if negb (in_terminal stdin) then (Err "stdin is not a TTY; pass --password-stdin or --password instead", w)
  else if negb (in_get stdin) then (Err "tcgetattr(stdin)", w)
  else if negb (in_set stdin) then (Err "tcsetattr(stdin, ECHO off)", w)
  else
    let saved := cl_lflag w in
    let w1 := set_lflag (Z.land saved (Z.lnot ECHO)) w in
    let drop w := if in_restore stdin then set_lflag saved w else w in
    match in_line stdin with
    | Err _ => (Err "reading password from tty", drop w1)
    | Ok line => (Ok (strip_newline line), drop (println "" w1))
    end.

Definition pick_password (username : string) (a : PasswordArgs) (w : CliWorld) : result string string * CliWorld :=
  match pa_inline a, pa_stdin a with
  | Some p, false => (Ok p, w)
  | None, true => (read_password_from_stdin, w)
  | None, false => prompt_password_tty username w
  | Some _, true => (Err "--password and --password-stdin are mutually exclusive", w)
  end.

(** A statement of the transaction, and the rollback when it fails. *)
Definition reset_password (db_path username hash : string) (d : ConsoleDb) : result string (Z * ConsoleDb) :=
  let stmt name := match fails name with Some e => Err e | None => Ok tt end in
  let? _ := stmt "SELECT" in
  match user_by_username d username with
  | None => Err ("no user named '" +:+ username +:+ "' in " +:+ db_path)
  | Some user =>
      let? _ := stmt "BEGIN" in
      let? _ := stmt "UPDATE" in
      let d1 := set_password_hash d (us_id user) hash in
      let? _ := stmt "DELETE" in
      let d2 := delete_user_sessions d1 (us_id user) in
      let? _ := stmt "COMMIT" in
      Ok (us_id user, d2)
  end.

Definition cmd_set_password (args : list string) (w : CliWorld) : result string unit * CliWorld :=
  match parse_set_password args (mkPasswordArgs None None false) with
  | Err e => (Err e, w)
  | Ok a =>
      match pa_username a with
      | None => (Err "set-password requires a <username>; see --help", w)
      | Some username =>
          match pick_password username a w with
          | (Err e, w1) => (Err e, w1)
          | (Ok password, w1) =>
              if String.eqb password "" then (Err "password is empty", w1)
              else if is_common_password password
              then (Err "password matches a well-known weak password list; pick something stronger", w1)
              else match load_config, open_fails with
              | Err _, _ => (Err "loading config to discover [budget].db_path", w1)
              | Ok cfg, Some _ => (Err ("opening console DB at " +:+ bu_db_path (cf_budget cfg)), w1)
              | Ok cfg, None =>
                  match argon2_hash salt password with
                  | Err _ => (Err "hashing password", w1)
                  | Ok hash =>
                      match reset_password (bu_db_path (cf_budget cfg)) username hash (cl_db w1) with
                      | Err e => (Err e, w1)
                      | Ok (id, d) =>
                          (Ok tt, println ("password updated for '" +:+ username +:+ "' (id=" +:+ show_Z id +:+
                                           "); existing sessions invalidated") (set_cli_db d w1))
                      end
                  end
              end
          end
      end
  end.

Definition user_line (id username role disabled created last : string) : string :=
  join "  " [pad_right 4 id; pad_right 24 username; pad_right 8 role; pad_right 10 disabled; pad_right 24 created; last].
Definition cmd_list_users (w : CliWorld) : result string unit * CliWorld :=
  match load_config, open_fails with
  | Err e, _ => (Err e, w)
  | Ok _, Some e => (Err e, w)
  | Ok cfg, None =>
      match users_by_created (cd_users (cl_db w)) with
      | [] => (Ok tt, println ("(no users in " +:+ bu_db_path (cf_budget cfg) +:+ ")") w)
      | users =>
          (Ok tt, foldl (fun w u => println (user_line (show_Z (us_id u)) (cli_truncate (us_username u) 24) (us_role u)
                                       (if us_disabled u then "true" else "false") (us_created_at u)
                                       (default "—" (us_last_login_at u))) w)
                    (println (user_line "id" "username" "role" "disabled" "created_at" "last_login_at") w) users)
      end
  end.

(** [main], with the exit status. *)
Definition admin_main (args : list string) (w : CliWorld) : Z * CliWorld :=
  let finish '(r, w') := (match r with Ok _ => 0%Z | Err _ => 1%Z end, w') in
  match args with
  | [] => (2%Z, w)
  | sub :: rest =>
      if String.eqb sub "set-password" then finish (cmd_set_password rest w)
      else if String.eqb sub "list-users" then finish (cmd_list_users w)
      else if String.eqb sub "-h" || String.eqb sub "--help" || String.eqb sub "help" then (0%Z, w)
      else (2%Z, w)
  end.
End Cli.

(** ** Properties *)

Section CliProps.
Context `{Unicode} `{Rfc3339} `{Argon2} `{CookieCrate}.
Context (ECHO : Z) (load_config : result string Config) (open_fails : option string) (fails : string -> option string)
  (salt : string) (stdin : Stdin) (users_by_created : list User -> list User).

Lemma pick_password_spec username a w r w' :
  pick_password ECHO stdin username a w = (r, w') ->
  cl_db w' = cl_db w /\ (in_restore stdin = true -> cl_lflag w' = cl_lflag w).
Proof.
  unfold pick_password, prompt_password_tty. intros E.
  destruct (pa_inline a), (pa_stdin a); try (by injection E as <- <-).
  destruct (in_terminal stdin); [|by injection E as <- <-]. destruct (in_get stdin); [|by injection E as <- <-].
  destruct (in_set stdin); [|by injection E as <- <-]. simpl in E. destruct (in_line stdin); injection E as <- <-.
  all: by destruct (in_restore stdin).
Qed.

Lemma reset_password_spec path username hash d id d' :
  reset_password fails path username hash d = Ok (id, d') ->
  exists u, user_by_username d username = Some u /\ id = us_id u /\
    d' = delete_user_sessions (set_password_hash d (us_id u) hash) (us_id u).
Proof.
  unfold reset_password. intros E. destruct (fails "SELECT"); [done|]. simpl in E. destruct (user_by_username d username) as [u|]; [|done].
  destruct (fails "BEGIN"), (fails "UPDATE"), (fails "DELETE"), (fails "COMMIT"); simpl in E; try done.
  injection E as <- <-. by exists u.
Qed.

(** C32: An offline password reset happens in full or not at all, and leaves the
    terminal as it was.  With exit status 0 the named user has a hash of a
    password that is neither empty nor common, no session of that user is
    admitted any more, and the rest of the database is untouched; with any other
    status the database is as before, whichever statement failed.  Wherever the
    tool stops, the echo is back on if the terminal takes the restoring call. *)
Theorem set_password_all_or_nothing args w code w' :
  admin_main ECHO load_config open_fails fails salt stdin users_by_created ("set-password" :: args) w = (code, w') ->
  (in_restore stdin = true -> cl_lflag w' = cl_lflag w) /\
  (code <> 0%Z -> cl_db w' = cl_db w) /\
  (code = 0%Z -> exists username password hash u,
     user_by_username (cl_db w) username = Some u /\ password <> "" /\ is_common_password password = false /\
     argon2_hash salt password = Ok hash /\
     cl_db w' = delete_user_sessions (set_password_hash (cl_db w) (us_id u) hash) (us_id u) /\
     us_password_hash <$> user_by_id (cl_db w') (us_id u) = Some (Some hash) /\ logged_out (us_id u) (cl_db w')).
Proof.
  intros E. unfold admin_main in E. simpl in E. unfold cmd_set_password in E.
  destruct (parse_set_password _ _) as [a|]; [|injection E as <- <-; naive_solver].
  destruct (pa_username a) as [username|]; [|injection E as <- <-; naive_solver].
  destruct (pick_password _ _ _ _ _) as [r w1] eqn:Ep. apply pick_password_spec in Ep as [Hd Ht].
  destruct r as [password|]; [|injection E as <- <-; naive_solver].
  destruct (String.eqb_spec password "") as [|Hne]; [injection E as <- <-; naive_solver|].
  destruct (is_common_password password) eqn:Ec; [injection E as <- <-; naive_solver|].
  destruct load_config as [cfg|]; [|injection E as <- <-; naive_solver].
  destruct open_fails; [injection E as <- <-; naive_solver|].
  destruct (argon2_hash salt password) as [hash|] eqn:Eh; [|injection E as <- <-; naive_solver].
  destruct (reset_password _ _ _ _ _) as [[id d]|] eqn:Er; [|injection E as <- <-; naive_solver].
  injection E as <- <-. split; [done|]. split; [done|]. intros _. rewrite Hd in Er.
  apply reset_password_spec in Er as (u & Hu & -> & ->). exists username, password, hash, u. do 5 (split; [done|]). split.
  - change (user_by_id _ (us_id u)) with (user_by_id (set_password_hash (cl_db w) (us_id u) hash) (us_id u)).
    unfold set_password_hash. rewrite update_users_by_id, Z.eqb_refl by done. apply find_some in Hu as [Hin _].
    destruct (user_by_id (cl_db w) (us_id u)) as [u'|] eqn:Eu; [done|]. pose proof (find_none _ _ Eu u Hin) as Hn.
    simpl in Hn. by rewrite Z.eqb_refl in Hn.
  - apply no_session_logged_out. apply delete_user_sessions_none.
Qed.

End CliProps.
