(* ===== verification/ConsoleInv.v ===== *)
(** * The invariant of the console's database

    Every operation of the console keeps the tables' keys unique and keeps every
    session owned by a user that exists, equipped with a CSRF token and stamped
    with valid times.  So the answers "user not found" and "csrf token missing
    from session" of the extractors are never given. *)

From S2P Require Import Prelude RustStr Json Matcher ClientAuth AuditTrail Proxy Admin Config Reload ConsoleDb ConsoleApi.

Section Invariant.
Context `{Unicode} `{Rfc3339Laws} `{Argon2} `{CookieCrate} `{SerdeStruct} `{Disk} `{Sha256}.
Implicit Types d : ConsoleDb.

Record session_ok (d : ConsoleDb) (s : Session) : Prop := {
  so_owner : is_Some (user_by_id d (se_user_id s));
  so_csrf : is_Some (se_csrf_token s);
  so_stamped : stamped s;
}.
Record console_inv (d : ConsoleDb) : Prop := {
  ci_wf : console_wf d;
  ci_sessions : Forall (session_ok d) (cd_sessions d);
}.

(** ** Table operations *)

Lemma session_ok_users d d' s :
  (forall id, is_Some (user_by_id d id) -> is_Some (user_by_id d' id)) -> session_ok d s -> session_ok d' s.
Proof. intros Hu [Ho Hc Hs]. split; auto. Qed.

Lemma inv_attempts l d : console_inv d -> console_inv (with_attempts l d).
Proof. intros [[W1 W2 W3] Hs]. split; [by split|]. eapply Forall_impl; [exact Hs|]. intros s. by apply session_ok_users. Qed.

Lemma inv_tokens t d : console_inv d -> console_inv (with_tokens t d).
Proof. intros [[W1 W2 W3] Hs]. split; [by split|]. eapply Forall_impl; [exact Hs|]. intros s. by apply session_ok_users. Qed.

Lemma inv_update_users f id d :
  (forall u, us_id (f u) = us_id u /\ us_username (f u) = us_username u) -> console_inv d ->
  console_inv (update_users f id d).2.
Proof.
  intros Hf [W Hs]. split; [by apply update_users_wf|]. eapply Forall_impl; [exact Hs|]. intros s.
  apply session_ok_users. intros k Hk. rewrite update_users_by_id by apply Hf. case_match; [by apply fmap_is_Some|done].
Qed.

Lemma inv_filter q d : console_inv d -> console_inv (with_sessions (List.filter q (cd_sessions d)) d).
Proof.
  intros [[W1 W2 W3] Hs]. split.
  - split; simpl; [done..|]. clear Hs. induction (cd_sessions d) as [|s l IH]; simpl in *; [done|].
    apply NoDup_cons in W3 as [Hn W3]. destruct (q s); simpl; [|by apply IH]. apply NoDup_cons. split; [|by apply IH].
    rewrite list_elem_of_In, in_map_iff in *. intros (x & Ex & Hx). apply filter_In in Hx as [Hx _]. eauto.
  - simpl. apply Forall_forall. intros s Hin. apply list_elem_of_In, filter_In in Hin as [Hin _]. rewrite Forall_forall in Hs.
    eapply session_ok_users; [|apply Hs; by apply list_elem_of_In]. done.
Qed.

Lemma inv_update_sessions f id d :
  (forall s, session_ok d s -> session_ok d (f s)) -> (forall s, se_id (f s) = se_id s) -> console_inv d ->
  console_inv (update_sessions f id d).2.
Proof.
  intros Hf Hi [[W1 W2 W3] Hs]. split.
  - split; simpl; [done..|]. rewrite map_map. erewrite map_ext; [exact W3|]. intros s. by case_match.
  - simpl. apply Forall_fmap. eapply Forall_impl; [exact Hs|]. intros s Hok. simpl.
    apply (session_ok_users d); [done|]. case_match; auto.
Qed.

Lemma inv_csrf d id t : console_inv d -> console_inv (rotate_csrf_token d id t).2.
Proof. apply inv_update_sessions; [|done]. intros s [Ho Hc Hs]. by split. Qed.

Lemma inv_touch d now id : instant now -> console_inv d -> console_inv (touch_session d now id).
Proof.
  intros Hn. apply inv_update_sessions; [|done]. intros s [Ho Hc (e & l & He & Hl & Ee & El)]. split; [done..|].
  by exists e, now.
Qed.

Lemma inv_create_session d now id uid e ua ip t d' :
  instant now -> instant e -> is_Some (user_by_id d uid) -> console_inv d ->
  create_session d now id uid (to_rfc3339 e) ua ip t = Ok d' -> console_inv d'.
Proof.
  intros Hn He Hu [W Hs] E. split; [by eapply (create_same "")|]. unfold create_session in E.
  destruct (session_by_id d id); [done|]. injection E as <-. simpl. apply Forall_app. split.
  - eapply Forall_impl; [exact Hs|]. intros s. by apply session_ok_users.
  - constructor; [|constructor]. split; simpl; [done..|]. by exists e, now.
Qed.

Lemma next_user_id_fresh us : Forall (fun u => (us_id u < next_user_id us)%Z) us.
Proof.
  unfold next_user_id. set (m := foldr _ _ _). enough (Hm : Forall (fun u => (us_id u <= m)%Z) us)
    by (eapply Forall_impl; [exact Hm|]; simpl; lia).
  subst m. induction us as [|u us IH]; simpl; constructor; [lia|]. eapply Forall_impl; [exact IH|]. simpl. lia.
Qed.

Lemma NoDup_map_snoc {A K} (key : A -> K) l x :
  NoDup (map key l) -> Forall (fun y => key y <> key x) l -> NoDup (map key (l ++ [x])).
Proof.
  intros Hl Hx. rewrite map_app. apply NoDup_app. split; [done|]. split; [|apply NoDup_singleton].
  intros k Hk Hs. simpl in Hs. apply list_elem_of_singleton in Hs as ->.
  apply list_elem_of_In, in_map_iff in Hk as (y & Ey & Hy). rewrite Forall_forall in Hx.
  apply (Hx y); [by apply list_elem_of_In|done].
Qed.

Lemma find_app_l {A} (q : A -> bool) l l' x : List.find q l = Some x -> List.find q (l ++ l') = Some x.
Proof. induction l as [|y l IH]; simpl; [done|]. by destruct (q y). Qed.

Lemma inv_insert_user d now name dn em role ph id d' :
  insert_user d now name dn em role ph = Ok (id, d') -> console_inv d -> console_inv d'.
Proof.
  unfold insert_user. destruct (user_by_username d name) eqn:E; [done|]. intros [= <- <-] [[W1 W2 W3] Hs]. split.
  - split; simpl; [..|done].
    + apply NoDup_map_snoc; [done|]. eapply Forall_impl; [apply next_user_id_fresh|]. simpl. lia.
    + apply NoDup_map_snoc; [done|]. apply Forall_forall. intros u Hu. simpl. intros En.
      apply list_elem_of_In in Hu. pose proof (find_none _ _ E u Hu) as Hf. simpl in Hf. by rewrite En, String.eqb_refl in Hf.
  - simpl. eapply Forall_impl; [exact Hs|]. intros s. apply session_ok_users. intros k [u Hu].
    unfold user_by_id in *. simpl. by rewrite (find_app_l _ _ _ u Hu).
Qed.

Lemma inv_update_user d id p : console_inv d -> console_inv (update_user d id p).2.
Proof.
  intros Hd. unfold update_user.
  assert (Hp : forall {A} (v : option A) set nd, (forall a u, us_id (set a u) = us_id u /\ us_username (set a u) = us_username u) ->
    console_inv nd.2 -> console_inv (patch_field v set id nd).2).
  { intros A v set [n d0] Hset Hnd. destruct v as [a|]; simpl; [|done]. by apply inv_update_users. }
  repeat (apply Hp; [done|]). exact Hd.
Qed.

(** ** The endpoints *)

Lemma inv_load_session c now d sid : instant now -> console_inv d -> console_inv (load_session c now d sid).2.
Proof.
  intros Hn Hd. unfold load_session. destruct (session_by_id d sid); [|done].
  destruct (Z.ltb _ _); [by apply inv_filter|]. destruct (Z.ltb _ _); [by apply inv_filter|]. by apply inv_touch.
Qed.

Lemma inv_mutating_user c now cookie csrf d :
  instant now -> console_inv d -> console_inv (mutating_user c now cookie csrf d).2.
Proof.
  intros Hn Hd. unfold mutating_user. destruct (extract_session_id _ _) as [sid|]; [|done].
  pose proof (inv_load_session c now d sid Hn Hd) as Hl. destruct (load_session c now d sid) as [[[[u|] t]|] d']; simpl in Hl |- *.
  all: repeat match goal with |- context [match ?x with _ => _ end] => destruct x end; done.
Qed.

Lemma inv_current_user c now cookie d :
  instant now -> console_inv d -> console_inv (current_user c now cookie d).2.
Proof.
  intros Hn Hd. unfold current_user. destruct (extract_session_id _ _) as [sid|]; [|done].
  pose proof (inv_load_session c now d sid Hn Hd) as Hl. destruct (load_session c now d sid) as [[[[u|] t]|] d']; simpl in Hl |- *.
  all: repeat match goal with |- context [match ?x with _ => _ end] => destruct x end; done.
Qed.

Lemma inv_reply dr sid status hs body w :
  console_inv (cw_db w) -> console_inv (cw_db (reply_rotated dr sid status hs body w).2).
Proof. intros Hd. by apply (inv_csrf (cw_db w) sid (dr_csrf dr)). Qed.

Lemma inv_mutating st dr h run w :
  instant (dr_now dr) ->
  (forall u sid w0, console_inv (cw_db w0) -> console_inv (cw_db (run u sid w0).2)) ->
  console_inv (cw_db w) -> console_inv (cw_db (mutating st dr h run w).2).
Proof.
  intros Hn Hrun Hd. unfold mutating.
  pose proof (inv_mutating_user (cs_console st) (dr_now dr) (ch_cookie h ≫= header_to_str) (ch_csrf h ≫= header_to_str)
    (cw_db w) Hn Hd) as Hm.
  destruct (mutating_user _ _ _ _ _) as [[[u sid]|[status m]] d']; [by apply Hrun|done].
Qed.

Context (exchange : string -> string -> result string string) (kill_hup : Z -> result string unit)
  (read_pid_file : string -> result string string) (order_by_created : list ClientTokenRow -> list ClientTokenRow).

Lemma inv_endpoint st dr rng h cu id up password ct e w :
  instant (dr_now dr) ->
  In e (account_endpoints exchange kill_hup read_pid_file order_by_created st dr rng h cu id up password ct) ->
  console_inv (cw_db w) -> console_inv (cw_db (e w).2).
Proof.
  intros Hn Hin. destruct Hin as [<-|[<-|[<-|[<-|[<-|[<-|[<-|[]]]]]]]]; apply inv_mutating; try done; intros u sid w0 Hd; cbv beta zeta.
  - apply inv_reply. by apply inv_filter.
  - destruct (require_console_admin u); [done|]. destruct (String.eqb _ ""); [done|]. destruct (weak_password _); [done|].
    destruct (argon2_hash _ _); [|done]. destruct (insert_user _ _ _ _ _ _ _) as [[id' d']|] eqn:E; [|by destruct (contains _ _)].
    apply inv_reply. by eapply inv_insert_user.
  - destruct (require_console_admin u); [done|]. pose proof (inv_update_user (cw_db w0) id up Hd) as Hu.
    destruct (update_user _ id up) as [n d1]. simpl in Hu. apply inv_reply. destruct (role_changed _ _); simpl.
    + destruct (user_by_id _ _); [by apply inv_filter|done].
    + by destruct (user_by_id _ _).
  - destruct (require_console_admin u); [done|]. destruct (weak_password _); [done|]. destruct (user_by_id _ _); [|done].
    destruct (argon2_hash _ _); [|done]. apply inv_reply. apply inv_filter. by apply inv_update_users.
  - destruct (require_console_admin u); [done|]. destruct (user_by_id _ _); [|done].
    destruct (revoke_all_for_user _ _ _). apply inv_reply. by apply inv_tokens.
  - destruct (String.eqb _ ""); [done|]. match goal with |- context [if ?b then _ else _] => destruct b; [done|] end.
    destruct (mint _ _ _ _ _ _ _ _ _) as [[[id' tok] t']|]; [|done]. apply inv_reply. by apply inv_tokens.
  - destruct (List.find _ _); [|done]. destruct (store_revoke _ _ _). apply inv_reply. by apply inv_tokens.
Qed.

Lemma inv_login st dr h body w :
  instant (dr_now dr) -> instant (dr_now dr + hours (co_session_ttl_hours (cs_console st))) ->
  console_inv (cw_db w) -> console_inv (cw_db (api_login st dr h body w).2).
Proof.
  intros Hn He Hd. unfold api_login.
  destruct (String.eqb _ ""); [done|]. match goal with |- context [if ?b then (json_error 429 _, _) else _] => destruct b; [done|] end.
  destruct (user_by_username _ _) as [user|] eqn:Hu; [|by apply inv_attempts].
  match goal with |- context [if ?b then (json_error 429 "account locked", w) else _] => destruct b; [done|] end.
  destruct (us_disabled user); [done|]. destruct (us_password_hash user) as [hash|]; [|by apply inv_attempts].
  destruct (negb (verify_password _ hash)).
  { match goal with |- context [if ?b then _ else _] => destruct b end; simpl; [|by apply inv_attempts].
    apply inv_update_users; [done|]. by apply inv_attempts. }
  set (d3 := update_last_login _ _ _).
  assert (Hd3 : console_inv d3) by (apply inv_update_users; [done|]; apply inv_update_users; [done|]; by apply inv_attempts).
  destruct (create_session d3 _ _ _ _ _ _ _) as [d4|] eqn:E; [|done].
  eapply (inv_create_session d3); [exact Hn|exact He| |exact Hd3|exact E].
  destruct (by_name_by_id _ _ _ (ci_wf _ Hd) Hu) as [_ Hid]. unfold d3, update_last_login, set_locked_until.
  rewrite !update_users_by_id, Z.eqb_refl by done.
  change (user_by_id (clear_login_attempts _ _) (us_id user)) with (user_by_id (cw_db w) (us_id user)). by rewrite Hid.
Qed.

(** ** The running console *)

(** One round of the background task, each statement at its own time. *)
Definition prune_tick (c : ConsoleConfig) (n1 n2 n3 : Z) (d : ConsoleDb) : ConsoleDb :=
  prune_old_login_attempts (prune_idle_sessions (prune_expired_sessions d n1) n2 (idle_hours c)) n3
    (co_lockout_duration_minutes c * 2).

(** In such a database two of the extractors' rejections are never given. *)
Lemma inv_rejections d c later cookie csrf e :
  console_inv d -> (mutating_user c later cookie csrf d).1 = Err e ->
  e <> (401%Z, "user not found") /\ e <> (403%Z, "csrf token missing from session").
Proof.
  intros Hd He. unfold mutating_user in He.
  destruct (extract_session_id _ _) as [sid|]; [|simpl in He; naive_solver].
  destruct (load_session c later d sid) as [[[u t]|] d'] eqn:El; [|simpl in He; naive_solver].
  apply load_session_Some in El as (s & Hs & _ & Hu & Ht & _). apply find_some in Hs as [Hin _].
  destruct Hd as [_ Hf]. rewrite Forall_forall in Hf. destruct (Hf s) as [[u' Ho] [t' Hc] _]; [by apply list_elem_of_In|].
  rewrite Ho in Hu. rewrite Hc in Ht. subst u t.
  repeat case_match; simpl in He; naive_solver.
Qed.

Lemma inv_empty : console_inv (mkConsoleDb [] [] [] []).
Proof. split; [split; constructor|constructor]. Qed.
End Invariant.
