(* ===== verification/ConsoleEdit.v ===== *)
(** * The console's file editor ([src/console/edit.rs], the file endpoints of
    [src/console/handlers.rs])

    Validation of dictionaries, policies and the configuration; atomic writes
    with backups and their pruning; reverting to a backup; the endpoints, which
    confine an administrator to a few directories. *)

From S2P Require Import Prelude RustStr Json Regex Redact Matcher Policy ClientAuth AuditTrail Proxy Admin Config Reload RustFs ConsoleDb ConsoleApi.

(** ** Validation *)

Record ValidationResult := mkValidation { vr_valid : bool; vr_error : option string }.
Definition validation_of (r : result string unit) : ValidationResult :=
  match r with Ok _ => mkValidation true None | Err e => mkValidation false (Some e) end.

Section Validate.
Context `{RegexEngine}.

(** Errors as [{e:#}] prints them: the context, then its cause. *)
Definition validate_dict_line (idx : nat) (raw_line : string) : result string unit :=
  let at_ := "line " +:+ show_Z (Z.of_nat idx + 1) in
  let line := trim raw_line in
  if String.eqb line "" || starts_with "#" line then Ok tt
  else match map trim (split_byte tab line) with
  | [] => Ok tt
  | pattern :: rest =>
      if String.eqb pattern "" then Ok tt
      else match rest with
      | [] => Err (at_ +:+ ": missing key")
      | key :: _ =>
          match parse_int 0 u32_max key with
          | Err e => Err (at_ +:+ ": invalid key `" +:+ key +:+ "`: " +:+ int_error_text e)
          | Ok k =>
              if negb ((0 <=? k)%Z && (k <=? 2)%Z) then Err (at_ +:+ ": unsupported key `" +:+ show_Z k +:+ "`")
              else match strip_prefix "/" pattern ≫= strip_suffix "/" with
              | Some body =>
                  if String.eqb body "" then Ok tt
                  else match regex_build true body with
                       | Ok _ => Ok tt
                       | Err e => Err (at_ +:+ ": invalid regex `" +:+ body +:+ "`: " +:+ e)
                       end
              | None => Ok tt
              end
          end
      end
  end.
Definition validate_pii_line (idx : nat) (raw_line : string) : result string unit :=
  let line := trim raw_line in
  if String.eqb line "" || starts_with "#" line then Ok tt
  else match split_byte tab line with
  | [] => Ok tt
  | pattern_field :: _ =>
      match strip_prefix "/" pattern_field ≫= rsplit_once "/" with
      | None => Ok tt
      | Some (stripped, _) =>
          if String.eqb stripped "" then Ok tt
          else match regex_build false stripped with
               | Ok _ => Ok tt
               | Err e => Err ("line " +:+ show_Z (Z.of_nat idx + 1) +:+ ": invalid regex `" +:+ stripped +:+ "`: " +:+ e)
               end
      end
  end.
Fixpoint validate_lines (f : nat -> string -> result string unit) (idx : nat) (ls : list string) : result string unit :=
  match ls with
  | [] => Ok tt
  | l :: ls' => let? _ := f idx l in validate_lines f (S idx) ls'
  end.
Definition validate_dict (content : string) : ValidationResult :=
  validation_of (validate_lines validate_dict_line 0 (lines content)).
Definition validate_pii_dict (content : string) : ValidationResult :=
  validation_of (validate_lines validate_pii_line 0 (lines content)).

Context (from_yaml : string -> result string Policy) (from_toml : string -> result string Config).

Definition validate_policy (content : string) : ValidationResult :=
  validation_of match from_yaml content with
                | Err e => Err ("parsing policy YAML: " +:+ e)
                | Ok policy => validate policy
                end.
Definition validate_toml (content : string) : ValidationResult :=
  validation_of match from_toml content with
                | Err e => Err ("parsing config TOML: " +:+ e)
                | Ok _ => Ok tt
                end.
Definition validate_by_path (path content : string) : ValidationResult :=
  let lower := to_ascii_lowercase path in
  if ends_with ".yaml" lower || ends_with ".yml" lower then validate_policy content
  else if ends_with ".toml" lower then validate_toml content
  else if contains "pii" lower && ends_with ".txt" lower then validate_pii_dict content
  else if ends_with ".txt" lower then validate_dict content
  else mkValidation false (Some ("unknown file type for `" +:+ path +:+ "`")).
End Validate.

(** ** Writing *)

(** What a write draws: the process id, a nonce, the clock in nanoseconds, the
    backup's time stamp, and the time of the file system. *)
Record EditDraw := mkEditDraw { ed_pid : Z; ed_nonce : Z; ed_nanos : Z; ed_ts : string; ed_now : Z }.

(** A stable sort, the greatest key first. *)
Fixpoint insert_desc {A} (key : A -> Z) (x : A) (l : list A) : list A :=
  match l with
  | [] => [x]
  | y :: l' => if (key y <=? key x)%Z then x :: l else y :: insert_desc key x l'
  end.
Definition sort_desc {A} (key : A -> Z) (l : list A) : list A := foldr (insert_desc key) [] l.

Section Write.
Context `{Fs} `{Sha256} (debug : string -> string).

(** An [anyhow::Error]: the contexts, the outermost first, and the cause.  [{e}]
    prints the first, [{e:#}] all of them. *)
Definition Chain : Type := list string.
Definition display (e : Chain) : string := default "" (head e).
Definition alternate (e : Chain) : string := join ": " e.

(** Steps that may fail, threading the file system. *)
Definition io (A : Type) : Type := fs -> result Chain A * fs.
Definition io_bind {A B} (m : io A) (k : A -> io B) : io B :=
  fun s => match m s with (Ok a, s') => k a s' | (Err e, s') => (Err e, s') end.
Definition io_ret {A} (a : A) : io A := fun s => (Ok a, s).
Definition io_of {A} (r : fs -> result string A) : io A :=
  fun s => (match r s with Ok a => Ok a | Err e => Err [e] end, s).
Definition io_op {A} (f : fs -> result string A * fs) : io A :=
  fun s => match f s with (Ok a, s') => (Ok a, s') | (Err e, s') => (Err [e], s') end.
(** [with_context]. *)
Definition io_context {A} (msg : string) (m : io A) : io A :=
  fun s => match m s with (Err e, s') => (Err (msg :: e), s') | (Ok a, s') => (Ok a, s') end.
#[local] Notation "'let!' x ':=' m 'in' k" := (io_bind m (fun x => k)) (at level 200, x name, m at level 100, k at level 200).

Definition hash_content (content : string) : string := hex_bytes (sha256_of content).

Definition backup_dir (path : string) : string :=
  match parent path with
  | Some p => if String.eqb p "" then ".nanoguard-backups" else path_join p ".nanoguard-backups"
  | None => ".nanoguard-backups"
  end.
Definition backup_name (path ts : string) : string :=
  if String.eqb (extension path) "" then file_stem path +:+ ".bak." +:+ ts
  else file_stem path +:+ ".bak." +:+ ts +:+ "." +:+ extension path.
Definition is_backup_of (stem name : string) : bool := starts_with (stem +:+ ".") name && contains ".bak." name.

Definition remove_all (dir : string) (names : list string) (s : fs) : fs :=
  foldl (fun s n => (remove_file s (path_join dir n)).2) s names.
Definition prune_backups (dir stem : string) (limit : nat) : io unit :=
  let! listing := io_of (fun s => read_dir s dir) in
  let entries := omap (fun e => (fun m => (de_name e, m.1)) <$> de_meta e)
                   (List.filter (fun e => is_backup_of stem (de_name e)) listing) in
  fun s => (Ok tt, remove_all dir (map fst (drop limit (sort_desc snd entries))) s).
Definition backup_file (d : EditDraw) (path content : string) (limit : nat) : io unit :=
  let dir := backup_dir path in
  let! _ := io_op (fun s => create_dir_all s dir) in
  let backup_path := path_join dir (backup_name path (ed_ts d)) in
  let! _ := io_context ("writing backup " +:+ debug backup_path) (io_op (fun s => write_file s (ed_now d) backup_path content)) in
  if Nat.ltb 0 limit then prune_backups dir (file_stem path) limit else io_ret tt.

Definition tmp_name (d : EditDraw) (path : string) : string :=
  "." +:+ default "" (file_name path) +:+ ".tmp." +:+ show_Z (ed_pid d) +:+ "." +:+ show_Z (ed_nonce d) +:+ "." +:+
  show_Z (ed_nanos d).
Definition ensure_parent (path : string) : io unit :=
  match parent path with
  | Some p => if String.eqb p "" then io_ret tt else io_op (fun s => create_dir_all s p)
  | None => io_ret tt
  end.
(** [std::fs::read_to_string(path).unwrap_or_default()]. *)
Definition read_or_empty (s : fs) (path : string) : string := match read_to_string s path with Ok c => c | Err _ => "" end.

Definition atomic_write_with_limit (d : EditDraw) (path content : string) (validator : string -> ValidationResult)
    (backup_limit : nat) : io (string * string) :=
  fun s0 =>
  let before := read_or_empty s0 path in
  let v := validator content in
  if negb (vr_valid v) then (Err ["validation failed: " +:+ default "" (vr_error v)], s0)
  else (
    let! _ := ensure_parent path in
    let! _ := (if String.eqb before "" then io_ret tt else backup_file d path before backup_limit) in
    let dir := dir_of path in
    let tmp_path := path_join dir (tmp_name d path) in
    let! _ := io_context ("writing temp file " +:+ debug tmp_path) (io_op (fun s => write_file s (ed_now d) tmp_path content)) in
    let! _ := io_context ("opening temp file " +:+ debug tmp_path +:+ " for fsync") (io_of (fun s => open_file s tmp_path)) in
    let! _ := io_context ("fsync temp file " +:+ debug tmp_path) (io_of (fun s => sync_file s tmp_path)) in
    let! _ := io_context ("opening directory " +:+ debug dir +:+ " for fsync") (io_of (fun s => open_file s dir)) in
    let! _ := io_context ("renaming " +:+ debug tmp_path +:+ " to " +:+ debug path) (io_op (fun s => rename s tmp_path path)) in
    io_ret (hash_content before, hash_content content)) s0.
Definition DEFAULT_BACKUP_LIMIT : nat := 20.
Definition atomic_write (d : EditDraw) (path content : string) (validator : string -> ValidationResult) : io (string * string) :=
  atomic_write_with_limit d path content validator DEFAULT_BACKUP_LIMIT.

(** ** Backups *)

Record BackupInfo := mkBackup { bi_name : string; bi_path : string; bi_size : Z; bi_created_at : Z }.
Definition list_backups (s : fs) (path : string) : list BackupInfo :=
  match read_dir s (backup_dir path) with
  | Err _ => []
  | Ok dir =>
      sort_desc bi_created_at (omap (fun e =>
        if negb (is_backup_of (file_stem path) (de_name e)) then None
        else (fun m => mkBackup (de_name e) (path_join (backup_dir path) (de_name e)) m.2 (Z.max 0 m.1 / 1000000000))
             <$> de_meta e) dir)
  end.

Definition climbs (p : string) : bool :=
  existsb (fun c => bool_decide (c = ParentDir) || bool_decide (c = RootDir)) (components p).
Definition revert_to_backup (d : EditDraw) (path backup : string) : io string :=
  if climbs backup then io_of (fun _ => Err ("invalid backup name: " +:+ backup))
  else match file_name backup with
  | None => io_of (fun _ => Err "invalid backup name")
  | Some name =>
      let backup_path := path_join (backup_dir path) name in
      fun s0 =>
      if negb (fs_exists s0 backup_path) then (Err ["backup not found: " +:+ backup], s0)
      else (
        let! content := io_context ("reading backup " +:+ debug backup_path) (io_of (fun s => read_to_string s backup_path)) in
        let dir := dir_of path in
        let tmp_path := path_join dir (tmp_name d path) in
        let! _ := (io_op (fun s => write_file s (ed_now d) tmp_path content)) in
        let! _ := io_of (fun s => open_file s tmp_path) in
        let! _ := io_of (fun s => sync_file s tmp_path) in
        let! _ := (io_op (fun s => rename s tmp_path path)) in
        let! _ := io_context ("opening directory " +:+ debug dir +:+ " for fsync") (io_of (fun s => open_file s dir)) in
        io_ret content) s0
  end.
Definition read_backup (s : fs) (path : string) : result string string :=
  match read_to_string s path with Ok c => Ok c | Err _ => Err ("reading backup " +:+ debug path) end.
End Write.

(** ** Endpoints *)

Definition is_safe_editable_path (path : string) : bool :=
  if climbs path then false
  else starts_with "dicts/" path || starts_with "policies/" path || String.eqb path "nanoguard.toml".
Record EditFileRequest := mkEdit { ef_path : string; ef_content : string; ef_summary : option string }.
Definition validation_value (v : ValidationResult) : value :=
  obj [("valid", Bool (vr_valid v)); ("error", opt_value (vr_error v))].
Definition backup_value (b : BackupInfo) : value :=
  obj [("name", Str (bi_name b)); ("path", Str (bi_path b)); ("size", int_value (bi_size b));
       ("created_at", int_value (bi_created_at b))].

Section EditApi.
Context `{Rfc3339} `{CookieCrate} `{SerdeStruct} `{Disk} `{Sha256} `{RegexEngine} `{Fs} (debug : string -> string).
Context (from_yaml : string -> result string Policy) (from_toml : string -> result string Config).
Context (exchange : string -> string -> result string string) (kill_hup : Z -> result string unit)
  (read_pid_file : string -> result string string).

(** The database and the log, and the files. *)
Definition World : Type := ConsoleWorld * fs.

(** [CurrentUser] and [MutatingUser] as the first step of a handler. *)
Definition reading {E} (st : ConsoleState) (now : Z) (h : ConsoleHeaders) (run : User -> ConsoleWorld * E -> ConsoleReply)
    (w : ConsoleWorld * E) : ConsoleReply * (ConsoleWorld * E) :=
  match current_user (cs_console st) now (ch_cookie h ≫= header_to_str) (cw_db w.1) with
  | (Err (status, message), d') => (json_error status message, (with_db d' w.1, w.2))
  | (Ok user, d') => let w' := (with_db d' w.1, w.2) in (run user w', w')
  end.
Definition mutating_with {E} (st : ConsoleState) (dr : Draw) (h : ConsoleHeaders)
    (run : User -> string -> ConsoleWorld * E -> ConsoleReply * (ConsoleWorld * E)) (w : ConsoleWorld * E)
    : ConsoleReply * (ConsoleWorld * E) :=
  match mutating_user (cs_console st) (dr_now dr) (ch_cookie h ≫= header_to_str) (ch_csrf h ≫= header_to_str) (cw_db w.1) with
  | (Err (status, message), d') => (json_error status message, (with_db d' w.1, w.2))
  | (Ok (user, session_id), d') => run user session_id (with_db d' w.1, w.2)
  end.
(** The path a request names, or why it is refused. *)
Definition editable (admin : User) (raw refusal : string) : result ConsoleReply string :=
  match require_console_admin admin with
  | Some e => Err e
  | None =>
      let path := trim raw in
      if String.eqb path "" then Err (json_error 400 "path is required")
      else if negb (is_safe_editable_path path) then Err (json_error 403 refusal)
      else Ok path
  end.
Definition reloaded (st : ConsoleState) : value :=
  outcome_value (trigger_reload exchange kill_hup read_pid_file (cf_reload (cs_config st))).

Definition api_edit_file (st : ConsoleState) (dr : Draw) (ed : EditDraw) (h : ConsoleHeaders) (body : EditFileRequest)
    : World -> ConsoleReply * World :=
  mutating_with st dr h (fun admin session_id w =>
    match editable admin (ef_path body) "editing this file is not allowed" with
    | Err e => (e, w)
    | Ok path =>
        match atomic_write_with_limit debug ed path (ef_content body) (validate_by_path from_yaml from_toml path)
                (co_backup_limit (cs_console st)) w.2 with
        | (Err e, f) => (json_error 400 (display e), (w.1, f))
        | (Ok (before_hash, after_hash), f) =>
            let w1 := audit_mutation dr 0 admin "edit" (Some path) (Some (obj [("hash", Str before_hash)]))
              (Some (obj [("hash", Str after_hash)])) (default ("edited " +:+ path) (ef_summary body)) w.1 in
            let '(r, w2) := reply_rotated dr session_id 200 []
              (obj [("ok", Bool true); ("before_hash", Str before_hash); ("after_hash", Str after_hash);
                    ("reload", reloaded st)]) w1 in
            (r, (w2, f))
        end
    end).

Definition api_revert_file (st : ConsoleState) (dr : Draw) (ed : EditDraw) (h : ConsoleHeaders) (raw backup : string)
    : World -> ConsoleReply * World :=
  mutating_with st dr h (fun admin session_id w =>
    match editable admin raw "editing this file is not allowed" with
    | Err e => (e, w)
    | Ok path =>
        let before_hash := hash_content (read_or_empty w.2 path) in
        match revert_to_backup debug ed path backup w.2 with
        | (Err e, f) => (json_error 400 (display e), (w.1, f))
        | (Ok content, f) =>
            let w1 := audit_mutation dr 0 admin "revert" (Some path) (Some (obj [("hash", Str before_hash)]))
              (Some (obj [("hash", Str (hash_content content)); ("backup", Str backup)]))
              ("reverted " +:+ path +:+ " to backup " +:+ backup) w.1 in
            let '(r, w2) := reply_rotated dr session_id 200 [] (obj [("ok", Bool true); ("reload", reloaded st)]) w1 in
            (r, (w2, f))
        end
    end).

Definition api_validate_file (st : ConsoleState) (now : Z) (h : ConsoleHeaders) (raw content : string)
    : World -> ConsoleReply * World :=
  reading st now h (fun admin _ =>
    match editable admin raw "validating this file is not allowed" with
    | Err e => e
    | Ok path => mkConsoleReply 200 [] (validation_value (validate_by_path from_yaml from_toml path content))
    end).
Definition api_list_backups (st : ConsoleState) (now : Z) (h : ConsoleHeaders) (raw : string) : World -> ConsoleReply * World :=
  reading st now h (fun admin w =>
    match editable admin raw "editing this file is not allowed" with
    | Err e => e
    | Ok path => mkConsoleReply 200 [] (obj [("data", Arr (map backup_value (list_backups w.2 path)))])
    end).
Definition api_trigger_reload (st : ConsoleState) (dr : Draw) (h : ConsoleHeaders) : ConsoleWorld -> ConsoleReply * ConsoleWorld :=
  mutating st dr h (fun admin session_id w =>
    match require_console_admin admin with
    | Some e => (e, w)
    | None => reply_rotated dr session_id 200 [] (reloaded st) w
    end).
End EditApi.

(** ** Lemmas: the validators against the loaders *)

Section Loaders.
Context `{Unicode} `{RegexEngine}.

Lemma validate_dict_line_spec opts at_ idx l rules :
  validate_dict_line idx l = Ok tt <-> exists rules', load_dict_line opts at_ l rules = Ok rules'.
Proof.
  unfold validate_dict_line, load_dict_line. destruct (_ || _); [naive_solver|].
  destruct (map trim (split_byte tab (trim l))) as [|pattern rest]; [naive_solver|].
  destruct (String.eqb pattern ""); [naive_solver|]. destruct rest as [|key rest]; [naive_solver|]. unfold parse_u32.
  destruct (parse_int 0 u32_max key) as [k|]; [|naive_solver]. unfold parse_regex_pattern.
  assert (Hk : (0 <=? k)%Z && (k <=? 2)%Z = Z.eqb k 0 || Z.eqb k 1 || Z.eqb k 2) by lia.
  rewrite Hk. destruct (Z.eqb k 0), (Z.eqb k 1), (Z.eqb k 2); cbn [orb negb]; [..|naive_solver].
  all: destruct (strip_prefix "/" pattern ≫= strip_suffix "/") as [body|]; cbn [mbind option_bind]; [|naive_solver].
  all: destruct (String.eqb body ""); [naive_solver|]; destruct (regex_build true body); naive_solver.
Qed.

Lemma validate_dict_lines_spec opts path idx ls rules :
  validate_lines validate_dict_line idx ls = Ok tt <-> exists rules', load_dict_lines opts path idx ls rules = Ok rules'.
Proof.
  revert idx rules. induction ls as [|l ls IH]; intros idx rules; simpl; [naive_solver|].
  pose proof (validate_dict_line_spec opts (path +:+ ":" +:+ show_Z (Z.of_nat idx + 1)) idx l rules) as Hl.
  destruct (load_dict_line _ _ l rules) as [r1|e]; [|destruct (validate_dict_line idx l) as [[]|]; simpl; naive_solver].
  rewrite (proj2 Hl) by eauto. simpl. apply IH.
Qed.

(** C30: The editor accepts a keyword dictionary exactly when the proxy's loader
    will load it, whatever was loaded before and under whatever normalisation:
    no accepted edit makes the next reload fail on that file, and no file the
    proxy can load is refused. *)
Theorem dict_validator_exact opts path content rules :
  vr_valid (validate_dict content) = true <->
  exists rules', load_ac_dict_file (fun _ => Ok content) opts path rules = Ok rules'.
Proof.
  unfold validate_dict, load_ac_dict_file. rewrite <-(validate_dict_lines_spec opts path 0 _ rules).
  destruct (validate_lines _ _ _) as [[]|]; simpl; naive_solver.
Qed.

(** The regex of a line of a PII dictionary, when it is a rule. *)
Definition pii_pattern (raw_line : string) : option string :=
  let line := trim raw_line in
  if String.eqb line "" || starts_with "#" line then None
  else field ← head (split_byte tab line);
       '(stripped, _) ← strip_prefix "/" field ≫= rsplit_once "/";
       if String.eqb stripped "" then None else Some stripped.

Lemma validate_pii_line_pattern idx l :
  validate_pii_line idx l = Ok tt <-> forall p, pii_pattern l = Some p -> exists re, regex_build false p = Ok re.
Proof.
  unfold validate_pii_line, pii_pattern. destruct (_ || _); [naive_solver|].
  destruct (split_byte tab (trim l)) as [|field rest]; [simpl; naive_solver|]. cbn [head mbind option_bind].
  destruct (strip_prefix "/" field ≫= rsplit_once "/") as [[stripped x]|]; simpl; [|naive_solver].
  destruct (String.eqb stripped ""); [naive_solver|]. destruct (regex_build false stripped) as [re|] eqn:E; split; try done.
  - intros _ p [= <-]. by exists re.
  - intros Hp. destruct (Hp stripped eq_refl) as [re Hre]. congruence.
Qed.

Lemma load_redactor_line_length rules idx l :
  length (load_redactor_line rules idx l) =
    length rules + match pii_pattern l with
                   | Some p => match regex_build false p with Ok _ => 1 | Err _ => 0 end
                   | None => 0
                   end.
Proof.
  unfold load_redactor_line, pii_pattern. destruct (_ || _); [lia|].
  destruct (split_byte tab (trim l)) as [|field rest]; [simpl; lia|]. cbn [head mbind option_bind].
  destruct (strip_prefix "/" field ≫= rsplit_once "/") as [[stripped x]|]; simpl; [|lia].
  destruct (String.eqb stripped ""); [lia|]. unfold compile. destruct (regex_build false stripped); [|simpl; lia].
  rewrite length_app. simpl. lia.
Qed.

Lemma load_redactor_lines_length rules idx ls :
  length (load_redactor_lines rules idx ls) <= length rules + length (omap pii_pattern ls) /\
  (length (load_redactor_lines rules idx ls) = length rules + length (omap pii_pattern ls) <->
   validate_lines validate_pii_line idx ls = Ok tt).
Proof.
  revert rules idx. induction ls as [|l ls IH]; intros rules idx; simpl; [split; [lia|]; split; [done|lia]|].
  pose proof (validate_pii_line_pattern idx l) as Hv. pose proof (load_redactor_line_length rules idx l) as Hl.
  destruct (IH (load_redactor_line rules idx l) (S idx)) as [Hle Heq].
  unfold omap in *. destruct (pii_pattern l) as [p|].
  - destruct (regex_build false p) as [re|] eqn:Er; simpl.
    + rewrite (proj2 Hv) by (intros ? [= <-]; eauto). split; [lia|]. rewrite <-Heq. lia.
    + split; [lia|]. destruct (validate_pii_line idx l) as [[]|].
      * destruct (proj1 Hv eq_refl p eq_refl) as [re Hre]. congruence.
      * split; [lia|done].
  - rewrite (proj2 Hv) by done. simpl. split; [lia|]. rewrite <-Heq. lia.
Qed.

(** The editor accepts a PII dictionary exactly when the redactor's loader,
    which skips rules that do not compile, skips none of them. *)
Theorem pii_validator_exact content rules :
  vr_valid (validate_pii_dict content) = true <->
  length (load_redactor_lines rules 0 (lines content)) = length rules + length (omap pii_pattern (lines content)).
Proof.
  rewrite (proj2 (load_redactor_lines_length rules 0 (lines content))). unfold validate_pii_dict.
  destruct (validate_lines _ _ _) as [[]|]; simpl; naive_solver.
Qed.
End Loaders.

(** ** Lemmas: sorting *)

Lemma insert_desc_perm {A} (key : A -> Z) x l : insert_desc key x l ≡ₚ x :: l.
Proof. induction l as [|y l IH]; simpl; [done|]. destruct (_ <=? _)%Z; [done|]. rewrite IH. by constructor. Qed.

Lemma sort_desc_perm {A} (key : A -> Z) l : sort_desc key l ≡ₚ l.
Proof. induction l as [|x l IH]; simpl; [done|]. by rewrite insert_desc_perm, IH. Qed.

(** The greatest element comes first. *)
Lemma sort_desc_max {A} (key : A -> Z) x l :
  In x l -> (forall y, In y l -> y = x \/ (key y < key x)%Z) -> exists l', sort_desc key l = x :: l'.
Proof.
  induction l as [|y l IH]; [done|]. intros Hin Hmax. simpl.
  destruct (Hmax y ltac:(by left)) as [->|Hlt].
  - exists (sort_desc key l). destruct (sort_desc key l) as [|z zs] eqn:E; [done|]. simpl.
    destruct (Z.leb_spec (key z) (key x)); [done|]. assert (Hz : In z l).
    { apply list_elem_of_In. rewrite <-(sort_desc_perm key l), E. by left. }
    destruct (Hmax z ltac:(by right)) as [->|]; lia.
  - destruct Hin as [->|Hin]; [lia|]. destruct (IH Hin ltac:(intros z Hz; apply Hmax; by right)) as [l' ->]. simpl.
    destruct (Z.leb_spec (key x) (key y)); [lia|]. by eexists.
Qed.

Lemma elem_of_drop_to {A} (x : A) n l : x ∈ drop n l -> x ∈ l.
Proof. intros Hx. rewrite <-(take_drop n l). apply elem_of_app. by right. Qed.

(** ** Lemmas: what a step leaves alone *)

Section Steps.
Context `{SymlinkFreeFs} `{Sha256} (debug : string -> string).
Implicit Types (k : list Component) (s : fs).

Definition preserves {A} k (m : io A) : Prop := forall s, fs_at (m s).2 k = fs_at s k.

Lemma io_bind_assoc {A C D} (m : io A) (f : A -> io C) (g : C -> io D) s :
  io_bind (io_bind m f) g s = io_bind m (fun a => io_bind (f a) g) s.
Proof. unfold io_bind. by destruct (m s) as [[a|e] s1]. Qed.

Lemma preserves_bind {A C} k (m : io A) (f : A -> io C) : preserves k m -> (forall a, preserves k (f a)) -> preserves k (io_bind m f).
Proof. intros Hm Hf s. unfold io_bind. specialize (Hm s). destruct (m s) as [[a|e] s1]; [|done]. simpl in Hm. by rewrite Hf. Qed.
Lemma preserves_ret {A} k (a : A) : preserves k (io_ret a).
Proof. done. Qed.
Lemma preserves_of {A} k (r : fs -> result string A) : preserves k (io_of r).
Proof. done. Qed.
Lemma preserves_context {A} k msg (m : io A) : preserves k m -> preserves k (io_context msg m).
Proof. intros Hm s. unfold io_context. specialize (Hm s). by destruct (m s) as [[a|e] s1]. Qed.
Lemma preserves_mkdir k p : preserves k (io_op (fun s => create_dir_all s p)).
Proof. intros s. unfold io_op. pose proof (mkdir_at s p k). by destruct (create_dir_all s p) as [[]]. Qed.
Lemma preserves_write k t p c : k <> fkey p -> preserves k (io_op (fun s => write_file s t p c)).
Proof. intros Hk s. unfold io_op. pose proof (write_other s t p c k Hk). by destruct (write_file s t p c) as [[]]. Qed.
Lemma preserves_rename k a b : k <> fkey a -> k <> fkey b -> preserves k (io_op (fun s => rename s a b)).
Proof. intros Ha Hb s. unfold io_op. pose proof (rename_other s a b k Ha Hb). by destruct (rename s a b) as [[]]. Qed.

Lemma remove_all_other k dir names s :
  Forall (fun n => k <> fkey (path_join dir n)) names -> fs_at (remove_all dir names s) k = fs_at s k.
Proof.
  revert s. induction names as [|n ns IH]; intros s; [done|]. intros [Hn Hns]%Forall_cons. 
  change (remove_all dir (n :: ns) s) with (remove_all dir ns (remove_file s (path_join dir n)).2). rewrite IH by done. by apply remove_other.
Qed.
End Steps.

#[local] Hint Resolve preserves_bind preserves_ret preserves_of preserves_context preserves_mkdir preserves_write
  preserves_rename : nanoguard.

(** ** Lemmas: the names an edit uses *)

Lemma sall_stake p n s : sall p s = true -> sall p (stake n s) = true.
Proof.
  revert n. induction s as [|c s IH]; intros [|n]; simpl; [done..|]. intros [Hc Hs]%andb_prop. rewrite Hc. by apply IH.
Qed.
Lemma sall_sdrop p n s : sall p s = true -> sall p (sdrop n s) = true.
Proof. revert n. induction s as [|c s IH]; intros [|n]; simpl; [done..|]. intros [Hc Hs]%andb_prop. by apply IH. Qed.

Lemma split_name_slash n : no_slash n = true -> no_slash (split_name n).1 = true /\ no_slash (default "" (split_name n).2) = true.
Proof.
  intros Hn. unfold split_name, rsplit_once. destruct (String.eqb n ".."); [done|].
  destruct (rfind_byte _ n) as [i|]; [|done]. destruct (String.eqb (stake i n) ""); [done|].
  split; [by apply sall_stake|]. change (no_slash (sdrop (S i) n) = true). by apply sall_sdrop.
Qed.

Lemma long_plain n : (3 <= String.length n)%nat -> no_slash n = true -> plain_name n.
Proof.
  intros Hl Hs. unfold plain_name, junk. destruct (String.eqb_spec n "") as [->|]; [simpl in Hl; lia|].
  destruct (String.eqb_spec n ".") as [->|]; [simpl in Hl; lia|]. split; [done|]. split; [|done]. by intros ->; simpl in Hl; lia.
Qed.

Lemma backup_name_plain path ts f :
  file_name path = Some f -> no_slash f = true -> no_slash ts = true -> plain_name (backup_name path ts).
Proof.
  intros Hf Hs Ht. destruct (split_name_slash f Hs) as [H1 H2]. unfold backup_name, file_stem, extension. rewrite Hf.
  unfold no_slash in *.
  destruct (String.eqb _ ""); apply long_plain; rewrite ?slen_app; try (simpl; lia); unfold no_slash; rewrite !sall_app;
    rewrite H1, Ht, ?H2; done.
Qed.

Lemma show_Z_slash n : no_slash (show_Z n) = true.
Proof.
  assert (Hd : forall m, (0 <= m)%Z -> no_slash (show_Z m) = true).
  { intros m Hm. eapply sall_impl; [|by apply show_Z_digits]. intros c Hc. destruct (Ascii.eqb_spec c "/") as [->|]; done. }
  destruct n as [|p|p]; [by apply Hd|by apply Hd|]. change (show_Z (Zneg p)) with ("-" +:+ show_Z (Zpos p)).
  pose proof (Hd (Zpos p) ltac:(done)) as Hp. unfold no_slash in *. rewrite sall_app. by rewrite Hp.
Qed.

Lemma tmp_name_plain d path f : file_name path = Some f -> no_slash f = true -> plain_name (tmp_name d path) /\ tmp_name d path <> f.
Proof.
  intros Hf Hs. unfold tmp_name. rewrite Hf. cbn [default from_option id]. unfold id. split.
  - pose proof show_Z_slash as Hz. unfold no_slash in *.
    apply long_plain; [rewrite !slen_app; simpl; lia|]. unfold no_slash. rewrite !sall_app, Hs, !Hz. done.
  - intros E. apply (f_equal String.length) in E. rewrite !slen_app in E. simpl in E. lia.
Qed.

(** ** Properties: writing *)

Section EditProps.
Context `{SymlinkFreeFs} `{Sha256} (debug : string -> string).

(** A path that names a file below the working directory. *)
Record target (path f : string) : Prop := {
  tg_relative : relative path;
  tg_name : file_name path = Some f;
}.

Lemma backup_dir_key path f :
  target path f -> backup_dir path <> "" /\ fkey (backup_dir path) = fkey (dir_of path) ++ [Normal ".nanoguard-backups"].
Proof.
  intros [Hr Hf]. destruct (fkey_dir path f Hr Hf) as (_ & Hd & _). unfold backup_dir, dir_of in *.
  assert (Hp : plain_name ".nanoguard-backups") by done.
  destruct (parent path) as [p|]; [|done]. destruct (String.eqb_spec p ""); [done|]. split; [|by apply fkey_join].
  unfold path_join. destruct (ends_with "/" p); by destruct p.
Qed.

(** The places an edit works on: the file, its temporary, a backup. *)
Record places (d : EditDraw) (path f : string) : Prop := {
  pl_name : plain_name f;
  pl_path : fkey path = fkey (dir_of path) ++ [Normal f];
  pl_tmp : fkey (path_join (dir_of path) (tmp_name d path)) = fkey (dir_of path) ++ [Normal (tmp_name d path)];
  pl_tmp_ne : tmp_name d path <> f;
  pl_bak : forall n, plain_name n -> fkey (path_join (backup_dir path) n) =
             fkey (dir_of path) ++ [Normal ".nanoguard-backups"; Normal n];
}.

Lemma target_places d path f : target path f -> places d path f.
Proof.
  intros Ht. pose proof Ht as [Hr Hf]. destruct (fkey_dir path f Hr Hf) as (Hp & Hd & Hk). destruct Hp as (Hj & Hdd & Hs).
  destruct (tmp_name_plain d path f Hf Hs) as [Htp Hne]. split; [by split|done|by apply fkey_join|done|].
  intros n Hn. destruct (backup_dir_key path f Ht) as [Hb Hbk]. rewrite fkey_join by done. rewrite Hbk. by rewrite <-app_assoc.
Qed.

Lemma prune_other k dir stem limit :
  (forall n, plain_name n -> k <> fkey (path_join dir n)) -> preserves k (prune_backups dir stem limit).
Proof.
  intros Hk s. unfold prune_backups, io_bind, io_of. destruct (read_dir s dir) as [l|] eqn:E; [|done]. simpl.
  apply remove_all_other. apply Forall_fmap, Forall_drop. rewrite sort_desc_perm. apply Forall_forall.
  intros [n t] Hin. apply list_elem_of_omap in Hin as (e & He & Em). apply list_elem_of_In, filter_In in He as [He _].
  destruct (dir_plain _ _ _ _ E He) as (Hj & Hd & Hs). destruct (de_meta e); [|done]. injection Em as <- <-.
  apply Hk. by split.
Qed.

Lemma backup_preserves k d path f content limit :
  target path f -> no_slash (ed_ts d) = true -> (forall n, plain_name n -> k <> fkey (path_join (backup_dir path) n)) ->
  preserves k (backup_file debug d path content limit).
Proof.
  intros [Hr Hf] Hts Hk. destruct (fkey_dir path f Hr Hf) as ((_ & _ & Hs) & _).
  apply preserves_bind; [auto with nanoguard|]. intros _. apply preserves_bind.
  - apply preserves_context, preserves_write, Hk. by eapply backup_name_plain.
  - intros _. destruct (Nat.ltb 0 limit); [by apply prune_other|auto with nanoguard].
Qed.

(** The steps from the temporary file on. *)
Lemma install_ok d path f content msg1 msg2 msg3 msg4 msg5 {A} (a : A) s r s' :
  target path f ->
  (let tmp := path_join (dir_of path) (tmp_name d path) in
   io_bind (io_context msg1 (io_op (fun s => write_file s (ed_now d) tmp content))) (fun _ =>
   io_bind (io_context msg2 (io_of (fun s => open_file s tmp))) (fun _ =>
   io_bind (io_context msg3 (io_of (fun s => sync_file s tmp))) (fun _ =>
   io_bind (io_context msg4 (io_of (fun s => open_file s (dir_of path)))) (fun _ =>
   io_bind (io_context msg5 (io_op (fun s => rename s tmp path))) (fun _ => io_ret a)))))) s = (r, s') ->
  match r with
  | Ok a' => a' = a /\ fs_at s' (fkey path) = Some (content, ed_now d)
  | Err _ => fs_at s' (fkey path) = fs_at s (fkey path)
  end.
Proof.
  intros Ht. destruct (target_places d path f Ht) as [_ Hp Htmp Hne _].
  set (tmp := path_join (dir_of path) (tmp_name d path)) in *. cbv zeta.
  assert (Hk : fkey tmp <> fkey path) by (rewrite Hp, Htmp; intros [_ [= E]]%app_inj_2; done).
  unfold io_bind at 1, io_context at 1, io_op at 1. pose proof (write_other s (ed_now d) tmp content (fkey path) ltac:(done)) as Hw.
  destruct (write_file s (ed_now d) tmp content) as [[[]|e] s1] eqn:Ew; [|intros [= <- <-]; done]. simpl in Hw.
  apply write_ok in Ew. unfold io_bind, io_context, io_of, io_op.
  destruct (open_file s1 tmp) as [[]|]; [|intros [= <- <-]; done].
  destruct (sync_file s1 tmp) as [[]|]; [|intros [= <- <-]; done].
  destruct (open_file s1 (dir_of path)) as [[]|]; [|intros [= <- <-]; done].
  destruct (rename s1 tmp path) as [[[]|e] s2] eqn:Er; intros [= <- <-].
  - split; [done|]. by rewrite (rename_ok _ _ _ _ Er Hk).
  - by rewrite (rename_err _ _ _ _ _ Er).
Qed.

Lemma install_other {A} k d path content msg1 msg2 msg3 msg4 msg5 (a : A) :
  let tmp := path_join (dir_of path) (tmp_name d path) in
  k <> fkey tmp -> k <> fkey path ->
  preserves k
   (io_bind (io_context msg1 (io_op (fun s => write_file s (ed_now d) tmp content))) (fun _ =>
    io_bind (io_context msg2 (io_of (fun s => open_file s tmp))) (fun _ =>
    io_bind (io_context msg3 (io_of (fun s => sync_file s tmp))) (fun _ =>
    io_bind (io_context msg4 (io_of (fun s => open_file s (dir_of path)))) (fun _ =>
    io_bind (io_context msg5 (io_op (fun s => rename s tmp path))) (fun _ => io_ret a)))))).
Proof. intros tmp Ht Hp. auto 20 with nanoguard. Qed.

(** The preparation: the parent directory, and the backup of what is there. *)
Definition prepare (d : EditDraw) (path before : string) (limit : nat) : io unit :=
  io_bind (ensure_parent path) (fun _ => if String.eqb before "" then io_ret tt else backup_file debug d path before limit).

Lemma prepare_other k d path f before limit :
  target path f -> no_slash (ed_ts d) = true -> (forall n, plain_name n -> k <> fkey (path_join (backup_dir path) n)) ->
  preserves k (prepare d path before limit).
Proof.
  intros Ht Hts Hk. apply preserves_bind.
  - unfold ensure_parent. destruct (parent path) as [p|]; [destruct (String.eqb p "")|]; auto with nanoguard.
  - intros _. destruct (String.eqb before ""); [auto with nanoguard|]. by eapply backup_preserves.
Qed.

Lemma backup_not_file (d : EditDraw) path f n : target path f -> plain_name n -> fkey path <> fkey (path_join (backup_dir path) n).
Proof.
  intros Ht Hn. destruct (target_places d path f Ht) as [_ Hp _ _ Hb]. rewrite Hp, Hb by done.
  intros E%(f_equal length). rewrite !length_app in E. simpl in E. lia.
Qed.

(** The write: refused content changes nothing, a failure at any step leaves the
    file as it was, success installs the content; the rest of the tree is left
    alone but for the temporary and the backups. *)
Lemma atomic_write_spec d path f content v limit s r s' :
  target path f -> no_slash (ed_ts d) = true ->
  atomic_write_with_limit debug d path content v limit s = (r, s') ->
  (vr_valid (v content) = false -> s' = s) /\
  match r with
  | Ok hs => vr_valid (v content) = true /\ fs_at s' (fkey path) = Some (content, ed_now d) /\
             hs = (hash_content (read_or_empty s path), hash_content content)
  | Err _ => fs_at s' (fkey path) = fs_at s (fkey path)
  end /\
  (forall k, k <> fkey path -> k <> fkey (dir_of path) ++ [Normal (tmp_name d path)] ->
     (forall n, k <> fkey (dir_of path) ++ [Normal ".nanoguard-backups"; Normal n]) -> fs_at s' k = fs_at s k).
Proof.
  intros Ht Hts E. unfold atomic_write_with_limit in E. destruct (vr_valid (v content)); cbn [negb] in E.
  2: { injection E as <- <-. done. }
  split; [done|]. destruct (target_places d path f Ht) as [_ Hp Htmp Hne Hb].
  set (before := read_or_empty s path) in *.
  assert (Hpre : forall k, (forall n, plain_name n -> k <> fkey (path_join (backup_dir path) n)) ->
    fs_at (prepare d path before limit s).2 k = fs_at s k) by (intros k Hk; by eapply prepare_other).
  assert (Hpath := Hpre (fkey path) ltac:(intros n Hn; by eapply backup_not_file)).
  unfold prepare in *. rewrite <-io_bind_assoc in E. unfold io_bind at 1 in E.
  destruct (io_bind (ensure_parent path) _ s) as [[[]|e] s1].
  2: { injection E as <- <-. split; [done|]. intros k Hk _ Hkb. apply Hpre. intros n Hn. rewrite Hb by done. apply Hkb. }
  cbn [snd] in Hpath, Hpre. split.
  - apply (install_ok d path f) in E; [|done]. destruct r; naive_solver congruence.
  - intros k Hk Hkt Hkb. rewrite <-Hpre by (intros n Hn; rewrite Hb by done; apply Hkb).
    apply (f_equal snd) in E. cbn [snd] in E. rewrite <-E. apply install_other; [by rewrite Htmp|done].
Qed.
(** ** Properties: backups *)

(** The state in which the backup has just been written. *)
Definition backed_up (d : EditDraw) (path before : string) (s : fs) : fs :=
  (write_file (create_dir_all s (backup_dir path)).2 (ed_now d)
     (path_join (backup_dir path) (backup_name path (ed_ts d))) before).2.
(** The clock of the file system moved on: every other backup is older. *)
Definition newest (d : EditDraw) (path before : string) (s : fs) : Prop :=
  forall l n t len, read_dir (backed_up d path before s) (backup_dir path) = Ok l -> In (mkEntry n (Some (t, len))) l ->
    n <> backup_name path (ed_ts d) -> (t < ed_now d)%Z.

Lemma prune_keeps dir stem limit name now c s :
  dir <> "" -> plain_name name -> 0 < limit -> fs_at s (fkey (path_join dir name)) = Some (c, now) ->
  (forall l n t len, read_dir s dir = Ok l -> In (mkEntry n (Some (t, len))) l -> n <> name -> (t < now)%Z) ->
  fs_at (prune_backups dir stem limit s).2 (fkey (path_join dir name)) = Some (c, now).
Proof.
  intros Hdir Hname Hlim Hat Hnew. unfold prune_backups, io_bind, io_of. destruct (read_dir s dir) as [l|] eqn:E; [|done].
  simpl. rewrite remove_all_other; [done|]. set (entries := omap _ _).
  assert (Hent : forall n t, In (n, t) entries -> plain_name n /\ exists len, In (mkEntry n (Some (t, len))) l).
  { intros n t Hin. apply list_elem_of_In, list_elem_of_omap in Hin as (e & He & Em).
    apply list_elem_of_In, filter_In in He as [He _]. destruct (dir_plain _ _ _ _ E He) as (Hj & Hd & Hs).
    destruct e as [n' [[t' len]|]]; [|done]. injection Em as <- <-. split; [by split|]. by exists len. }
  assert (Hnd : NoDup (map fst entries)).
  { pose proof (dir_names _ _ _ E) as Hn. unfold entries. clear -Hn. induction l as [|e l IH]; simpl; [constructor|].
    simpl in Hn. apply NoDup_cons in Hn as [He Hn]. destruct (is_backup_of stem (de_name e)); [|by apply IH]. simpl.
    destruct (de_meta e); simpl; [|by apply IH]. apply NoDup_cons. split; [|by apply IH]. intros Hin. apply He.
    apply list_elem_of_In, in_map_iff in Hin as ([n t] & <- & Hin). apply list_elem_of_In, list_elem_of_omap in Hin as (e' & He' & Em).
    apply list_elem_of_In, filter_In in He' as [He' _]. destruct (de_meta e'); [|done]. injection Em as <- _.
    simpl. apply list_elem_of_In. by apply (in_map de_name). }
  apply Forall_fmap, Forall_forall. intros [n t] Hin. simpl.
  assert (Hi : In (n, t) entries)
    by (apply list_elem_of_In; rewrite <-(sort_desc_perm snd entries); by eapply elem_of_drop_to).
  destruct (Hent n t Hi) as [Hp [len Hl]]. rewrite !fkey_join by done. intros [_ [= <-]]%app_inj_2; [|done].
  rewrite fkey_join in Hat by done. pose proof (dir_meta _ _ _ _ _ _ E Hl _ _ Hat) as <-.
  destruct (sort_desc_max snd (name, now) entries Hi) as [l' Hsort].
  { intros [n' t'] Hin'. destruct (decide (n' = name)) as [->|Hn'].
    - left. by apply (NoDup_key fst entries).
    - right. destruct (Hent n' t' Hin') as [_ [len' Hl']]. simpl. by eapply Hnew. }
  rewrite Hsort in Hin. destruct limit as [|limit]; [lia|]. simpl in Hin. apply elem_of_drop_to in Hin.
  assert (Hnd' : NoDup (map fst ((name, now) :: l'))) by (rewrite <-Hsort; by rewrite sort_desc_perm).
  simpl in Hnd'. apply NoDup_cons in Hnd' as [Hx _]. apply Hx. apply list_elem_of_In, in_map_iff. exists (name, now).
  split; [done|]. by apply list_elem_of_In.
Qed.

Lemma climbs_relative p : climbs p = false -> relative p.
Proof.
  unfold climbs, relative. intros Hc. apply Forall_forall. intros c Hin ->. apply list_elem_of_In in Hin.
  rewrite existsb_false_iff in Hc. by specialize (Hc _ Hin).
Qed.

Lemma plain_components n : plain_name n -> climbs n = false /\ file_name n = Some n.
Proof.
  intros (Hj & Hd & Hs). assert (Hc : components n = [Normal n]).
  { unfold components, segments. rewrite split_plain by done. simpl. unfold junk in Hj. apply orb_false_iff in Hj as [H1' H2'].
    rewrite H1'. unfold first_component. rewrite H2'. by destruct (String.eqb_spec n ".."). }
  unfold climbs, file_name. by rewrite Hc.
Qed.

Lemma edit_keeps_backup d path f content v limit s hs s' :
  target path f -> no_slash (ed_ts d) = true ->
  atomic_write_with_limit debug d path content v limit s = (Ok hs, s') ->
  read_or_empty s path <> "" -> newest d path (read_or_empty s path) (ensure_parent path s).2 ->
  fs_at s' (fkey (path_join (backup_dir path) (backup_name path (ed_ts d)))) = Some (read_or_empty s path, ed_now d).
Proof.
  intros Ht Hts E Hne Hnew. unfold atomic_write_with_limit in E. destruct (vr_valid (v content)); cbn [negb] in E; [|done].
  destruct (target_places d path f Ht) as [(_ & _ & Hfs) Hp Htmp _ Hb].
  assert (Hpl : plain_name (backup_name path (ed_ts d))) by (eapply backup_name_plain; [apply Ht|done..]).
  destruct (backup_dir_key path f Ht) as [Hdir _]. set (before := read_or_empty s path) in *.
  set (bk := fkey (path_join (backup_dir path) (backup_name path (ed_ts d)))).
  unfold io_bind at 1 in E. destruct (ensure_parent path s) as [[[]|e] s1]; [|done]. cbn [snd] in Hnew.
  destruct (String.eqb_spec before ""); [done|]. unfold io_bind at 1 in E.
  assert (Hbf : forall s3, backup_file debug d path before limit s1 = (Ok tt, s3) -> fs_at s3 bk = Some (before, ed_now d)).
  { unfold backup_file, io_bind, io_context, io_op. unfold newest, backed_up in Hnew. intros s3.
    destruct (create_dir_all s1 (backup_dir path)) as [[[]|e] sd]; [|done]. cbn [snd] in Hnew.
    destruct (write_file sd _ _ before) as [[[]|e] s2] eqn:Ew; [|done]. cbn [snd] in Hnew. apply write_ok in Ew.
    destruct (Nat.ltb_spec 0 limit) as [Hl|Hl].
    - intros Eb. apply (f_equal snd) in Eb. cbn [snd] in Eb. rewrite <-Eb. by apply prune_keeps.
    - by intros [= <-]. }
  destruct (backup_file debug d path before limit s1) as [[[]|e] s3]; [|done]. specialize (Hbf s3 eq_refl).
  apply (f_equal snd) in E. cbn [snd] in E. rewrite <-E. rewrite install_other; [done|..].
  - unfold bk. rewrite Htmp, Hb by done. intros Hx%(f_equal length). rewrite !length_app in Hx. simpl in Hx. lia.
  - symmetry. by eapply backup_not_file.
Qed.

(** What reverting does: it installs exactly the content of the named backup of
    this directory, or fails.  A failure leaves the file alone, unless it is the
    last step, when the backup is already installed.  No other file changes but
    the temporary. *)
Lemma revert_spec d path f backup s r s' :
  target path f -> revert_to_backup debug d path backup s = (r, s') ->
  match r with
  | Ok c => exists n t, file_name backup = Some n /\ fs_at s (fkey (path_join (backup_dir path) n)) = Some (c, t) /\
              fs_at s' (fkey path) = Some (c, ed_now d)
  | Err _ => fs_at s' (fkey path) = fs_at s (fkey path) \/
             exists n c t, file_name backup = Some n /\ fs_at s (fkey (path_join (backup_dir path) n)) = Some (c, t) /\
               fs_at s' (fkey path) = Some (c, ed_now d)
  end /\
  (forall k, k <> fkey path -> k <> fkey (dir_of path) ++ [Normal (tmp_name d path)] -> fs_at s' k = fs_at s k).
Proof.
  intros Ht. destruct (target_places d path f Ht) as [_ Hp Htmp Hne _]. unfold revert_to_backup.
  set (tmp := path_join (dir_of path) (tmp_name d path)) in *. rewrite <-Htmp.
  assert (Hk : fkey path <> fkey tmp) by (rewrite Hp, Htmp; intros [_ [= E]]%app_inj_2; done).
  destruct (climbs backup); [intros [= <- <-]; split; [by left|done]|].
  destruct (file_name backup) as [n|]; [|intros [= <- <-]; split; [by left|done]].
  destruct (negb _); [intros [= <- <-]; split; [by left|done]|]. unfold io_bind, io_context, io_of, io_op.
  destruct (read_to_string s _) as [c|] eqn:Er; [|intros [= <- <-]; split; [by left|done]]. apply read_at in Er as [t Hat].
  pose proof (fun k => write_other s (ed_now d) tmp c k) as Hw.
  destruct (write_file s (ed_now d) tmp c) as [[[]|e] s1] eqn:Ew; simpl in Hw; [|intros [= <- <-]; split; [left; by apply Hw|auto]].
  destruct (open_file s1 tmp) as [[]|]; [|intros [= <- <-]; split; [left; by apply Hw|auto]].
  destruct (sync_file s1 tmp) as [[]|]; [|intros [= <- <-]; split; [left; by apply Hw|auto]].
  pose proof (fun k => rename_other s1 tmp path k) as Hr. apply write_ok in Ew.
  destruct (rename s1 tmp path) as [[[]|e] s2] eqn:En; simpl in Hr.
  2: { intros [= <- <-]. pose proof (rename_err _ _ _ _ _ En) as Hx. split; [left; rewrite Hx; by apply Hw|].
       intros k _ Hkt. rewrite Hx. by apply Hw. }
  pose proof (rename_ok _ _ _ _ En ltac:(done)) as Hins. rewrite Ew in Hins.
  destruct (open_file s2 (dir_of path)) as [[]|]; intros [= <- <-]; (split; [|intros k Hkp Hkt; rewrite Hr by done; by apply Hw]).
  - by exists n, t.
  - right. by exists n, c, t.
Qed.

End EditProps.

(** ** Properties: the endpoints *)

(** The files the console may touch: under [dicts/], [policies/] and the backup
    directory, the configuration, and the temporaries of these. *)
Definition families : list string := ["dicts"; "policies"; "nanoguard.toml"].
Definition confined (k : list Component) : Prop :=
  exists names, k = map Normal names /\
    match names with
    | [] => False
    | [x] => In x families \/ exists y, In y families /\ starts_with ("." +:+ y +:+ ".tmp.") x = true
    | x :: _ :: _ => In x ["dicts"; "policies"; ".nanoguard-backups"]
    end.

Lemma safe_names p : is_safe_editable_path p = true ->
  exists names, components p = map Normal names /\
    (names = ["nanoguard.toml"] \/ exists x tl, names = x :: tl /\ (x = "dicts" \/ x = "policies")).
Proof.
  unfold is_safe_editable_path. destruct (climbs p) eqn:Hc; [done|]. intros Hp.
  assert (Hdir : forall x r, p = x +:+ String "/" r -> plain_name x ->
    exists tl, components p = map Normal (x :: tl)).
  { intros x r -> (Hj & Hd & Hs). unfold components, segments in *. unfold climbs, components, segments in Hc.
    rewrite split_app, split_plain in * by done. simpl in *. unfold junk in Hj. apply orb_false_iff in Hj as [Hj1 Hj2].
    rewrite Hj1 in *. unfold first_component in *. rewrite Hj2 in *. destruct (String.eqb_spec x ".."); [done|].
    simpl in Hc. clear -Hc. induction (split_byte "/" r) as [|y l IH]; [by exists []|]. simpl in *.
    destruct (seg_component y) as [c|] eqn:Ey; [|by apply IH]. simpl in Hc. apply orb_false_iff in Hc as [Hp Hc].
    destruct (IH Hc) as [tl Htl]. exists (y :: tl). injection Htl as Htl. unfold omap in Htl. simpl. rewrite Htl. unfold seg_component in Ey.
    destruct (junk y); [done|]. by destruct (String.eqb y ".."); injection Ey as <-. }
  apply orb_prop in Hp as [Hp|Hp]; [apply orb_prop in Hp as [Hp|Hp]|].
  - apply starts_with_true in Hp as [r ->]. destruct (Hdir "dicts" r) as [tl Htl]; [by sapp|done|]. exists ("dicts" :: tl).
    split; [done|]. right. exists "dicts", tl. auto.
  - apply starts_with_true in Hp as [r ->]. destruct (Hdir "policies" r) as [tl Htl]; [by sapp|done|]. exists ("policies" :: tl).
    split; [done|]. right. exists "policies", tl. auto.
  - apply String.eqb_eq in Hp as ->. exists ["nanoguard.toml"]. split; [done|]. by left.
Qed.

Lemma filter_normal names : List.filter (fun c => negb (bool_decide (c = CurDir))) (map Normal names) = map Normal names.
Proof. induction names as [|n ns IH]; simpl; [done|]. by rewrite IH. Qed.

Lemma safe_target p : is_safe_editable_path p = true ->
  exists f names, target p f /\ fkey p = map Normal (names ++ [f]) /\ fkey (dir_of p) = map Normal names /\
    match names with [] => In f families | x :: _ => x = "dicts" \/ x = "policies" end.
Proof.
  intros Hs. destruct (safe_names p Hs) as (all & Hc & Hall). assert (Hne : all <> []) by naive_solver.
  destruct (exists_last Hne) as (names & f & ->). exists f, names.
  assert (Ht : target p f).
  { split.
    - unfold relative. rewrite Hc. apply Forall_fmap, Forall_forall. done.
    - unfold file_name. rewrite Hc, map_app. simpl. by rewrite last_snoc. }
  split; [done|]. destruct Ht as [Hr Hf]. destruct (fkey_dir p f Hr Hf) as (_ & _ & Hk).
  assert (Hk' : fkey p = map Normal (names ++ [f])) by (unfold fkey; by rewrite Hc, filter_normal). split; [done|].
  rewrite Hk', map_app in Hk. apply app_inj_2 in Hk as [Hk _]; [|done]. split; [done|].
  destruct names as [|x names]; simpl in *.
  - unfold families. destruct Hall as [[= ->]|(x & tl & [= -> _] & [->| ->])]; simpl; auto.
  - destruct Hall as [[= _ E]|(y & tl & [= <- _] & Hy)]; [by destruct names|done].
Qed.

Lemma safe_confined p : is_safe_editable_path p = true ->
  confined (fkey p) /\ (forall d, confined (fkey (dir_of p) ++ [Normal (tmp_name d p)])) /\
  (forall n, confined (fkey (dir_of p) ++ [Normal ".nanoguard-backups"; Normal n])).
Proof.
  intros Hs. destruct (safe_target p Hs) as (f & names & [_ Hf] & Hk & Hd & Hn). rewrite Hk, Hd. split_and!.
  - exists (names ++ [f]). split; [done|]. destruct names as [|x [|y names]]; simpl in *; [by left|naive_solver..].
  - intros d. exists (names ++ [tmp_name d p]). rewrite map_app. split; [done|].
    destruct names as [|x [|y names]]; simpl in *; [|naive_solver..]. right. exists f. split; [done|]. unfold tmp_name.
    rewrite Hf. cbn [default from_option id]. unfold id. apply starts_with_true.
    exists (show_Z (ed_pid d) +:+ "." +:+ show_Z (ed_nonce d) +:+ "." +:+ show_Z (ed_nanos d)). rewrite <-?sapp_assoc. simpl. rewrite <-?sapp_assoc. done.
  - intros n. exists (names ++ [".nanoguard-backups"; n]). rewrite map_app. split; [done|].
    destruct names as [|x [|y names]]; simpl in *; naive_solver.
Qed.

Lemma snoc_place (D : list Component) c k : (exists n, k = D ++ [c; Normal n]) \/ (forall n, k <> D ++ [c; Normal n]).
Proof.
  assert (Hl : forall n, k = D ++ [c; Normal n] -> last k = Some (Normal n)).
  { intros n ->. change [c; Normal n] with ([c] ++ [Normal n]). rewrite app_assoc. apply last_snoc. }
  destruct (last k) as [[| | |n]|] eqn:E; [right; intros n' Hk%Hl; done..| |right; intros n' Hk%Hl; done].
  destruct (decide (k = D ++ [c; Normal n])) as [->|Hne]; [left; by exists n|]. right. intros n' Hk. pose proof (Hl _ Hk). congruence.
Qed.

Section EditEndpoints.
Context `{Rfc3339} `{CookieCrate} `{SerdeStruct} `{Disk} `{Sha256} `{RegexEngine} `{SymlinkFreeFs} (debug : string -> string).
Context (from_yaml : string -> result string Policy) (from_toml : string -> result string Config).
Context (exchange : string -> string -> result string string) (kill_hup : Z -> result string unit)
  (read_pid_file : string -> result string string).
Implicit Types w : World.

Notation admits st dr h w := (mutating_user (cs_console st) (dr_now dr) (ch_cookie h ≫= header_to_str)
  (ch_csrf h ≫= header_to_str) (cw_db w.1)).

Lemma editable_ok admin raw refusal path :
  editable admin raw refusal = Ok path -> us_role admin = "admin" /\ path = trim raw /\ is_safe_editable_path path = true.
Proof.
  unfold editable. destruct (require_console_admin admin) eqn:Er; [done|]. apply admin_role in Er.
  destruct (String.eqb _ ""); [done|]. destruct (is_safe_editable_path (trim raw)) eqn:Es; [|done]. by intros [= <-].
Qed.
Lemma editable_err admin raw refusal e : editable admin raw refusal = Err e -> (400 <= cr_status e)%Z.
Proof.
  unfold editable. destruct (require_console_admin admin) eqn:Er; [intros [= <-]; apply require_admin_status in Er; lia|].
  destruct (String.eqb _ ""); [intros [= <-]; simpl; lia|]. destruct (negb _); [intros [= <-]; simpl; lia|done].
Qed.

(** What an edit request comes to: refused before the files are touched, or a
    write of the trimmed path by an administrator. *)
Lemma edit_cases st dr ed h body w r w' :
  api_edit_file debug from_yaml from_toml exchange kill_hup read_pid_file st dr ed h body w = (r, w') ->
  ((400 <= cr_status r)%Z /\ w'.2 = w.2) \/
  exists admin sid res, let path := trim (ef_path body) in
    (admits st dr h w).1 = Ok (admin, sid) /\ us_role admin = "admin" /\ is_safe_editable_path path = true /\
    atomic_write_with_limit debug ed path (ef_content body) (validate_by_path from_yaml from_toml path)
      (co_backup_limit (cs_console st)) w.2 = (res, w'.2) /\
    cr_status r = match res with Ok _ => 200%Z | Err _ => 400%Z end.
Proof.
  unfold api_edit_file, mutating_with. destruct (admits st dr h w) as [[[admin sid]|[status m]] d'] eqn:Ea.
  2: { intros [= <- <-]. left. split; [|done]. by apply mutating_user_status in Ea. }
  destruct (editable admin _ _) as [path|e] eqn:Ee; [|intros [= <- <-]; left; split; [by eapply editable_err|done]].
  apply editable_ok in Ee as (Hadm & -> & Hs). cbn [snd fst].
  destruct (atomic_write_with_limit _ _ _ _ _ _ _) as [[[h1 h2]|e] f] eqn:Ew.
  - intros [= <- <-]. right. by exists admin, sid, (Ok (h1, h2)).
  - intros [= <- <-]. right. by exists admin, sid, (Err e).
Qed.

(** C27: An edit is all or nothing.  A request answered 200 came from an admitted
    administrator, its content passed the validator of that file type, and the
    file now holds it.  Any other answer, whichever step failed (the validation,
    the directory, the backup, the pruning, the temporary file, a sync, the
    rename), leaves the file as it was.  (On a tree without symbolic links,
    [SymlinkFreeFs].) *)
Theorem edit_all_or_nothing st dr ed h body w r w' :
  no_slash (ed_ts ed) = true ->
  api_edit_file debug from_yaml from_toml exchange kill_hup read_pid_file st dr ed h body w = (r, w') ->
  let path := trim (ef_path body) in
  if Z.eqb (cr_status r) 200 then
    (exists admin sid, (admits st dr h w).1 = Ok (admin, sid) /\ us_role admin = "admin") /\
    is_safe_editable_path path = true /\
    vr_valid (validate_by_path from_yaml from_toml path (ef_content body)) = true /\
    fs_at w'.2 (fkey path) = Some (ef_content body, ed_now ed)
  else fs_at w'.2 (fkey path) = fs_at w.2 (fkey path).
Proof.
  intros Hts E path. apply edit_cases in E as [[Hr Hw]|(admin & sid & res & Ha & Hadm & Hs & Ew & Hr)].
  - destruct (Z.eqb_spec (cr_status r) 200); [lia|]. by rewrite Hw.
  - destruct (safe_target path Hs) as (f & names & Ht & _).
    destruct (atomic_write_spec debug ed path f _ _ _ _ res _ Ht Hts Ew) as (_ & Hres & _). rewrite Hr.
    destruct res as [hs|e]; simpl; [|done]. destruct Hres as (Hv & Hat & _). split; [by eauto|]. by split_and!.
Qed.

(** C28: Administrators are confined, on a tree without symbolic links
    ([SymlinkFreeFs]): whatever path and backup name an edit or a revert request
    carries, the only places that can change ([confined]) are below [dicts/],
    [policies/] and the working directory's backup directory
    [.nanoguard-backups/], the files named [nanoguard.toml], [dicts] and
    [policies] themselves, and the temporary files [.<name>.tmp.*] of these
    three; nothing else in the working directory, and nothing above it. *)
Theorem edits_confined st dr ed h body raw backup w r w' k :
  no_slash (ed_ts ed) = true ->
  (api_edit_file debug from_yaml from_toml exchange kill_hup read_pid_file st dr ed h body w = (r, w') \/
   api_revert_file debug exchange kill_hup read_pid_file st dr ed h raw backup w = (r, w')) ->
  fs_at w'.2 k <> fs_at w.2 k -> confined k.
Proof.
  intros Hts [E|E] Hk.
  - apply edit_cases in E as [[_ Hw]|(admin & sid & res & _ & _ & Hs & Ew & _)]; [by rewrite Hw in Hk|].
    destruct (safe_target _ Hs) as (f & names & Ht & _). destruct (safe_confined _ Hs) as (Hc1 & Hc2 & Hc3).
    destruct (atomic_write_spec debug ed _ f _ _ _ _ res _ Ht Hts Ew) as (_ & _ & Hrest).
    destruct (decide (k = fkey (trim (ef_path body)))) as [->|H1']; [done|].
    destruct (decide (k = fkey (dir_of (trim (ef_path body))) ++ [Normal (tmp_name ed (trim (ef_path body)))])) as [->|H2']; [done|].
    destruct (snoc_place (fkey (dir_of (trim (ef_path body)))) (Normal ".nanoguard-backups") k) as [[n ->]|H3']; [done|].
    destruct Hk. by apply Hrest.
  - unfold api_revert_file, mutating_with in E. destruct (admits st dr h w) as [[[admin sid]|[status m]] d'] eqn:Ea;
      [|by injection E as <- <-]. destruct (editable admin raw _) as [path|e] eqn:Ee; [|by injection E as <- <-].
    apply editable_ok in Ee as (_ & -> & Hs). cbn [snd fst] in E.
    destruct (safe_target _ Hs) as (f & names & Ht & _). destruct (safe_confined _ Hs) as (Hc1 & Hc2 & Hc3).
    destruct (revert_to_backup _ _ _ _ _) as [res fs'] eqn:Ew. apply (revert_spec debug ed _ f) in Ew as [_ Hrest]; [|done].
    assert (Hw : w'.2 = fs') by (destruct res; by injection E as <- <-). rewrite Hw in Hk.
    destruct (decide (k = fkey (trim raw))) as [->|H1']; [done|].
    destruct (decide (k = fkey (dir_of (trim raw)) ++ [Normal (tmp_name ed (trim raw))])) as [->|H2']; [done|].
    destruct Hk. by apply Hrest.
Qed.
End EditEndpoints.
