(* ===== verification/ConsoleViews.v ===== *)
(** * The console's views and its budget endpoints ([src/console/handlers.rs],
    [src/console/reload.rs])

    What a session may read (itself, its tokens, the users, both audit logs, the
    budgets, the outcome of a reload) and the budget writes, which go to the
    tables the proxy accounts in. *)

From S2P Require Import Prelude RustStr Json Matcher ClientAuth Budget AuditTrail Proxy Admin Config Reload ConsoleDb ConsoleApi ConsoleEdit.

(** [std::fs::read_to_string] on a log, with the error kinds told apart. *)
Inductive LogRead := LogText (content : string) | LogNotFound | LogFailed.

Definition data_reply (l : list value) : ConsoleReply := mkConsoleReply 200 [] (obj [("data", Arr l)]).

(** ** Reading audit logs *)

Section Logs.
Context `{Serde}.

(** The object on a line, unless the line is blank or no JSON. *)
Definition parse_entry (raw_line : string) : option value :=
  let line := trim raw_line in
  if String.eqb line "" then None else match from_str line with Ok v => Some v | Err _ => None end.
(** The loop: keep what passes, stop once [limit] entries are kept. *)
Fixpoint collect (keep : value -> bool) (limit : nat) (acc : list value) (ls : list string) : list value :=
  match ls with
  | [] => acc
  | l :: ls' =>
      match parse_entry l with
      | None => collect keep limit acc ls'
      | Some v =>
          if keep v then
            let acc' := acc ++ [v] in
            if Nat.leb limit (length acc') then acc' else collect keep limit acc' ls'
          else collect keep limit acc ls'
      end
  end.
Definition field_is (k : string) (want : option string) (v : value) : bool :=
  match want with Some s => bool_decide (get_str k v = Some s) | None => true end.

Definition filter_console_audit_entries (content : string) (action actor target : option string) (limit : nat) : list value :=
  let scan_lines := rev (lines content) in
  let cap := match action, actor, target with
             | None, None, None => Nat.min (Z.to_nat (Z.min (Z.of_nat limit * 2) u64_max)) (length scan_lines)
             | _, _, _ => length scan_lines
             end in
  collect (fun v => field_is "action" action v && field_is "actor" actor v &&
                    (field_is "target" target v || field_is "file" target v)) limit [] (take cap scan_lines).

(** [limit * 2] wraps. *)
Definition audit_entries (user : User) (verdict : option string) (limit : nat) (content : string) : list value :=
  collect (fun v => field_is "verdict" verdict v &&
                    (String.eqb (us_role user) "admin" || field_is "user_id" (Some (show_Z (us_id user))) v)) limit []
    (take (Z.to_nat (u64_wrap (Z.of_nat limit * 2))) (rev (lines content))).
End Logs.

Record ConsoleAuditQuery := mkAuditQuery {
  aq_action : option string; aq_verdict : option string; aq_actor : option string; aq_target : option string;
  aq_limit : option nat;
}.

(** ** The outcome of a reload *)

(** Seconds as a double, of an instant in nanoseconds, and their order. *)
Class Seconds := { secs_f64 : Type; as_secs_f64 : Z -> secs_f64; secs_le : secs_f64 -> secs_f64 -> bool }.
Class SecondsLaws `{Seconds} := { secs_mono a b : (a <= b)%Z -> secs_le (as_secs_f64 a) (as_secs_f64 b) = true }.

Section Poll.
Context `{Serde} `{Rfc3339} `{Seconds}.

Definition reload_line (after : Z) (raw_line : string) : option bool :=
  obj ← parse_entry raw_line;
  ts ← get_str "timestamp" obj;
  dt ← parse_from_rfc3339 ts;
  if secs_le (as_secs_f64 dt) (as_secs_f64 after) then None
  else match get_str "verdict" obj with
       | Some v => if String.eqb v "reload_ok" then Some true else if String.eqb v "reload_failed" then Some false else None
       | None => None
       end.
Fixpoint first_reload (after : Z) (ls : list string) : option bool :=
  match ls with
  | [] => None
  | l :: ls' => match reload_line after l with Some b => Some b | None => first_reload after ls' end
  end.
Definition poll_reload_status (audit_log : LogRead) (after : Z) (max_lines : nat) : option bool :=
  match audit_log with
  | LogText content => first_reload after (take max_lines (rev (lines content)))
  | _ => None
  end.
(** The log at each retry. *)
Record ReloadPollResult := mkPoll { rp_ready : bool; rp_ok : option bool; rp_error : option string }.
Fixpoint wait_for_reload_status (after : Z) (retries : list LogRead) : ReloadPollResult :=
  match retries with
  | [] => mkPoll false None (Some "timeout waiting for reload outcome")
  | log :: rest =>
      match poll_reload_status log after 200 with
      | Some ok => mkPoll true (Some ok) None
      | None => wait_for_reload_status after rest
      end
  end.
End Poll.

(** ** The endpoints *)

Section ViewApi.
Context `{Serde} `{Rfc3339} `{Seconds} `{CookieCrate} `{SerdeStruct} `{Disk}.
(** The audit logs on disk, and SQLite's orders by time and by usage. *)
Context (read_log : string -> LogRead) (order_by_created : list ClientTokenRow -> list ClientTokenRow)
  (users_by_created : list User -> list User) (by_usage : list (string * Z) -> list (string * Z)).

Definition opt_bool (o : option bool) : value := match o with Some b => Bool b | None => Null end.
Definition limit_json (o : option Z) : value := match o with Some n => Num (PosInt n) | None => Null end.

Definition api_me {E} (st : ConsoleState) (now : Z) (h : ConsoleHeaders) : ConsoleWorld * E -> ConsoleReply * (ConsoleWorld * E) :=
  reading st now h (fun user w =>
    let csrf := (sid ← extract_session_id (ch_cookie h ≫= header_to_str) (co_session_secret (cs_console st));
                 s ← session_by_id (cw_db w.1) sid; se_csrf_token s) in
    let body := match user_response user with Obj m => m | _ => [] end in
    mkConsoleReply 200 [] (Obj match csrf with
                               | Some raw => map_insert "csrf_token" (Str (encode_csrf_token raw)) body
                               | None => body
                               end)).
Definition token_item (r : ClientTokenRow) : value :=
  obj [("id", int_value (ct_id r)); ("prefix", Str (ct_prefix r)); ("label", opt_value (ct_label r));
       ("created_at", Str (ct_created_at r)); ("expires_at", opt_value (ct_expires_at r));
       ("revoked_at", opt_value (ct_revoked_at r)); ("last_used_at", opt_value (ct_last_used_at r))].
Definition api_list_tokens {E} (st : ConsoleState) (now : Z) (h : ConsoleHeaders)
    : ConsoleWorld * E -> ConsoleReply * (ConsoleWorld * E) :=
  reading st now h (fun user w =>
    data_reply (map token_item (list_for_user order_by_created (cd_tokens (cw_db w.1)) (us_id user)))).
Definition api_list_users {E} (st : ConsoleState) (now : Z) (h : ConsoleHeaders)
    : ConsoleWorld * E -> ConsoleReply * (ConsoleWorld * E) :=
  reading st now h (fun user w =>
    match require_console_admin user with
    | Some e => e
    | None => data_reply (map user_response (users_by_created (cd_users (cw_db w.1))))
    end).

Definition api_audit {E} (st : ConsoleState) (now : Z) (h : ConsoleHeaders) (verdict : option string) (limit : option nat)
    : ConsoleWorld * E -> ConsoleReply * (ConsoleWorld * E) :=
  reading st now h (fun user _ =>
    match read_log (ac_path (cf_audit (cs_config st))) with
    | LogNotFound => data_reply []
    | LogFailed => json_error 500 "failed to read audit log"
    | LogText content => data_reply (audit_entries user verdict (default 100 limit) content)
    end).
Definition api_console_audit {E} (st : ConsoleState) (now : Z) (h : ConsoleHeaders) (q : ConsoleAuditQuery)
    : ConsoleWorld * E -> ConsoleReply * (ConsoleWorld * E) :=
  reading st now h (fun user _ =>
    match require_console_admin user with
    | Some e => e
    | None =>
        match read_log (co_audit_path (cs_console st)) with
        | LogNotFound => data_reply []
        | LogFailed => json_error 500 "failed to read console audit log"
        | LogText content =>
            data_reply (filter_console_audit_entries content
              (match aq_action q with Some a => Some a | None => aq_verdict q end) (aq_actor q) (aq_target q)
              (default 100 (aq_limit q)))
        end
    end).
(** [since]: an instant, or a number that is negative or not finite. *)
Definition api_reload_status {E} (st : ConsoleState) (now : Z) (h : ConsoleHeaders) (since : option (result unit Z))
    : ConsoleWorld * E -> ConsoleReply * (ConsoleWorld * E) :=
  reading st now h (fun user _ =>
    match require_console_admin user with
    | Some e => e
    | None =>
        match default (if (now <? 30000000000)%Z then Err tt else Ok (now - 30000000000)%Z) since with
        | Err _ => json_error 400 "since must be a non-negative finite number"
        | Ok after =>
            let r := poll_reload_status (read_log (ac_path (cf_audit (cs_config st)))) after 200 in
            mkConsoleReply 200 [] (obj [("ready", Bool (match r with Some _ => true | None => false end));
                                        ("ok", opt_bool r); ("error", Null)])
        end
    end).

(** ** Budgets *)

(** The budget database, when it can be opened. *)
Definition BudgetWorld : Type := ConsoleWorld * option SqliteBudget.

Definition budget_item (api_key : string) (usage : Z) (limit : option Z) : value :=
  obj [("api_key", Str api_key); ("usage", Num (PosInt usage)); ("limit", limit_json limit)].
(** A total beyond [i64] does not read back: that row is left out of the
    administrator's list, and counts as zero in a user's. *)
Definition admin_budget (b : SqliteBudget) : list value :=
  omap (fun ku => if (ku.2 <=? i64_max)%Z then Some (budget_item ku.1 ku.2 (sb_limits b !! ku.1)) else None)
    (by_usage (map (fun kv => (kv.1, kv.2.1)) (map_to_list (sb_usage b)))).
Definition user_budget (b : SqliteBudget) (rows : list ClientTokenRow) : list value :=
  map (fun r => budget_item (ct_prefix r) (match sqlite_get_usage b (ct_prefix r) with Ok n => n | Err _ => 0%Z end)
                  (sb_limits b !! ct_prefix r)) rows.
Definition api_budget (st : ConsoleState) (now : Z) (h : ConsoleHeaders) : BudgetWorld -> ConsoleReply * BudgetWorld :=
  reading st now h (fun user w =>
    match w.2 with
    | None => json_error 503 "budget database unavailable"
    | Some b =>
        data_reply (if String.eqb (us_role user) "admin" then admin_budget b
                    else user_budget b (list_for_user order_by_created (cd_tokens (cw_db w.1)) (us_id user)))
    end).

(** The writes, on the proxy's tables. *)
Definition console_set_limit (b : SqliteBudget) (api_key : string) (limit : option Z) : result string SqliteBudget :=
  match limit with
  | Some l =>
      let? l' := bind_u64 l in
      Ok (mkSqlite (<[api_key := l']> (sb_limits b))
            (match sb_usage b !! api_key with Some _ => sb_usage b | None => <[api_key := (0%Z, None)]> (sb_usage b) end)
            (sb_logs b))
  | None => Ok (mkSqlite (delete api_key (sb_limits b)) (sb_usage b) (sb_logs b))
  end.
Definition console_reset (b : SqliteBudget) (api_key : string) : SqliteBudget :=
  mkSqlite (sb_limits b)
    (<[api_key := (0%Z, match sb_usage b !! api_key with Some (_, at_) => at_ | None => None end)]> (sb_usage b)) (sb_logs b).

Definition budget_mutation (st : ConsoleState) (dr : Draw) (h : ConsoleHeaders) (raw : string)
    (run : User -> string -> string -> SqliteBudget -> ConsoleWorld -> ConsoleReply * (ConsoleWorld * SqliteBudget))
    : BudgetWorld -> ConsoleReply * BudgetWorld :=
  mutating_with st dr h (fun admin session_id w =>
    match require_console_admin admin with
    | Some e => (e, w)
    | None =>
        let api_key := trim raw in
        if String.eqb api_key "" then (json_error 400 "api_key is required", w)
        else match w.2 with
        | None => (json_error 503 "budget database unavailable", w)
        | Some b => let '(r, (cw, b')) := run admin session_id api_key b w.1 in (r, (cw, Some b'))
        end
    end).
Definition api_set_budget_limit (st : ConsoleState) (dr : Draw) (h : ConsoleHeaders) (raw : string) (limit : option Z)
    : BudgetWorld -> ConsoleReply * BudgetWorld :=
  budget_mutation st dr h raw (fun admin session_id api_key b cw =>
    match console_set_limit b api_key limit with
    | Err _ => (json_error 500 "failed to write budget limit", (cw, b))
    | Ok b' =>
        let body := obj [("api_key", Str api_key); ("limit", limit_json limit)] in
        let cw1 := audit_mutation dr 0 admin "budget_set_limit" (Some api_key) None (Some body)
          (us_username admin +:+ " set budget limit for `" +:+ api_key +:+ "` to " +:+
           match limit with Some n => show_Z n | None => "unlimited" end) cw in
        let '(r, cw2) := reply_rotated dr session_id 200 [] body cw1 in (r, (cw2, b'))
    end).
Definition api_reset_budget_usage (st : ConsoleState) (dr : Draw) (h : ConsoleHeaders) (raw : string)
    : BudgetWorld -> ConsoleReply * BudgetWorld :=
  budget_mutation st dr h raw (fun admin session_id api_key b cw =>
    let cw1 := audit_mutation dr 0 admin "budget_reset_usage" (Some api_key) None None
      (us_username admin +:+ " reset budget usage for `" +:+ api_key +:+ "`") cw in
    let '(r, cw2) := reply_rotated dr session_id 200 [] (obj [("api_key", Str api_key); ("reset", Bool true)]) cw1 in
    (r, (cw2, console_reset b api_key))).
End ViewApi.

(** ** Properties: the logs *)

Section LogProps.
Context `{Serde}.

Lemma collect_spec keep limit acc ls :
  length acc < Nat.max 1 limit ->
  collect keep limit acc ls = acc ++ take (Nat.max 1 limit - length acc) (List.filter keep (omap parse_entry ls)).
Proof.
  revert acc. induction ls as [|l ls IH]; intros acc Hacc; simpl; [by rewrite take_nil, app_nil_r|].
  destruct (parse_entry l) as [v|]; simpl; [|by apply IH]. destruct (keep v); [|by apply IH].
  destruct (Nat.leb_spec limit (length (acc ++ [v]))) as [Hl|Hl]; rewrite length_app in Hl; simpl in Hl.
  - replace (Nat.max 1 limit - length acc) with 1 by lia. done.
  - rewrite IH by (rewrite length_app; simpl; lia). rewrite length_app, <-app_assoc. simpl.
    destruct (Nat.max 1 limit - length acc) as [|n] eqn:E; [lia|]. simpl. do 3 f_equal. lia.
Qed.

(** The filtered view of the console's log is exact: with any filter set, it is
    the newest [limit] of all the entries that carry the asked action, actor and
    target (the latter under either of its two names), newest first, however far
    back they are; blank and malformed lines are skipped. *)
Theorem console_audit_filtered content action actor target limit :
  (action, actor, target) <> (None, None, None) -> 0 < limit ->
  filter_console_audit_entries content action actor target limit =
  take limit (List.filter (fun v => field_is "action" action v && field_is "actor" actor v &&
                                    (field_is "target" target v || field_is "file" target v))
    (omap parse_entry (rev (lines content)))).
Proof.
  intros Hf Hl. unfold filter_console_audit_entries.
  assert (Hcap : (match action, actor, target with
    | None, None, None => Nat.min (Z.to_nat (Z.min (Z.of_nat limit * 2) u64_max)) (length (rev (lines content)))
    | _, _, _ => length (rev (lines content)) end) = length (rev (lines content)))
    by (destruct action, actor, target; done).
  rewrite Hcap, firstn_all, collect_spec by (simpl; lia). simpl. f_equal. lia.
Qed.

Lemma collect_keep keep limit ls v : In v (collect keep limit [] ls) -> keep v = true.
Proof.
  rewrite collect_spec by (simpl; lia). simpl. intros Hin%list_elem_of_In%elem_of_take.
  destruct Hin as (i & Hi & _). apply list_elem_of_lookup_2, list_elem_of_In, filter_In in Hi as [_ Hk]. done.
Qed.

Lemma filter_none {A} (q : A -> bool) l : (forall x, In x l -> q x = false) -> List.filter q l = [].
Proof.
  induction l as [|x l IH]; intros Hq; simpl; [done|]. rewrite (Hq x) by (by left). apply IH. intros y Hy. apply Hq. by right.
Qed.

Lemma map_get_foldl k l m :
  Forall (fun kv => kv.1 <> k) l -> map_get k (foldl (fun m kv => map_insert kv.1 kv.2 m) m l) = map_get k m.
Proof.
  revert m. induction l as [|[k' v] l IH]; intros m; [done|]. intros [Hk Hl]%Forall_cons. simpl.
  rewrite IH by done. apply map_get_insert_ne. done.
Qed.

(** The lines the proxy writes. *)
Definition proxy_line (v : value) : Prop := (exists e, v = obj (entry_fields e)) \/ (exists e, v = obj (reload_fields e)).

Lemma proxy_line_user v : proxy_line v -> get_str "user_id" v = None.
Proof.
  intros [[e ->]|[e ->]]; unfold get_str, get, obj.
  - rewrite map_get_foldl; [done|]. unfold entry_fields, skip_none.
    repeat (apply Forall_app; split); repeat case_match; repeat constructor; done.
  - rewrite map_get_foldl; [done|]. unfold reload_fields, skip_none.
    repeat (apply Forall_app; split); repeat case_match; repeat constructor; done.
Qed.

(** Whoever is no administrator sees nothing of the audit log: the view keeps
    the entries that carry the reader's user id, and no entry the proxy writes
    carries one. *)
Theorem audit_view_empty user verdict limit content :
  us_role user <> "admin" -> Forall proxy_line (omap parse_entry (lines content)) ->
  audit_entries user verdict limit content = [].
Proof.
  intros Hr Hp. unfold audit_entries. set (keep := fun v => _). set (ls := take _ _).
  rewrite collect_spec by (simpl; lia). simpl.
  assert (Hnone : List.filter keep (omap parse_entry ls) = []); [|by rewrite Hnone, take_nil].
  apply filter_none. intros v Hv.
  assert (Hv' : v ∈ omap parse_entry (lines content)).
  { apply list_elem_of_In, list_elem_of_omap in Hv as (l & Hl & El). apply list_elem_of_omap. exists l. split; [|done].
    unfold ls in Hl. apply elem_of_take in Hl as (i & Hi & _). apply list_elem_of_lookup_2 in Hi.
    apply list_elem_of_In. apply list_elem_of_In in Hi. by apply in_rev. }
  rewrite Forall_forall in Hp. specialize (Hp v Hv'). apply proxy_line_user in Hp. unfold keep, field_is. rewrite Hp.
  destruct (String.eqb_spec (us_role user) "admin"); [done|]. simpl. apply andb_false_r.
Qed.
End LogProps.

Section PollProps.
Context `{Serde} `{Rfc3339} `{Seconds}.

(** Polling reports the newest finished reload: among the last [max_lines]
    lines, the last one that records a reload later than the trigger decides,
    whatever other traffic the log holds. *)
Theorem poll_newest_reload content after max_lines b :
  poll_reload_status (LogText content) after max_lines = Some b <->
  exists pre l post, lines content = pre ++ l :: post /\ length post < max_lines /\
    reload_line after l = Some b /\ Forall (fun l' => reload_line after l' = None) post.
Proof.
  unfold poll_reload_status.
  assert (Hf : forall ls, first_reload after ls = Some b <->
    exists i l, ls !! i = Some l /\ reload_line after l = Some b /\ Forall (fun l' => reload_line after l' = None) (take i ls)).
  { induction ls as [|l ls IH]; simpl; [split; [done|intros (i & l & E & _); by destruct i]|].
    destruct (reload_line after l) as [b'|] eqn:E.
    - split; [intros [= ->]; by exists 0, l|]. intros ([|i] & l' & El & Hb & Ha); simpl in *; [congruence|].
      inversion Ha; congruence.
    - rewrite IH. split; intros (i & l' & El & Hb & Ha).
      + exists (S i), l'. split; [done|]. split; [done|]. simpl. by constructor.
      + destruct i as [|i]; simpl in *; [congruence|]. exists i, l'. split; [done|]. split; [done|]. by inversion Ha. }
  rewrite Hf. split.
  - intros (i & l & El & Hb & Ha). apply lookup_take_Some in El as [El Hi].
    rewrite take_take, Nat.min_l in Ha by lia. apply take_drop_middle in El.
    exists (rev (drop (S i) (rev (lines content)))), l, (rev (take i (rev (lines content)))). split_and!.
    + rewrite <-(rev_involutive (lines content)) at 1. rewrite <-El at 1. rewrite rev_app_distr. simpl. by rewrite <-app_assoc.
    + rewrite length_rev, length_take. lia.
    + done.
    + by apply Forall_rev.
  - intros (pre & l & post & E & Hlen & Hb & Ha). rewrite E, rev_app_distr. simpl. rewrite <-app_assoc. simpl.
    exists (length post), l. assert (Hlr : length (rev post) = length post) by apply length_rev. split_and!.
    + apply lookup_take_Some. split; [|done]. rewrite lookup_app_r by lia. by rewrite Hlr, Nat.sub_diag.
    + done.
    + rewrite take_take, Nat.min_l by lia. rewrite take_app_le by lia. rewrite firstn_all2 by lia. by apply Forall_rev.
Qed.
End PollProps.

(** ** Properties: budgets *)

(** The console's budget writes mean what the proxy's own endpoints mean: after
    setting a limit or resetting a key, every key has the same limit, the same
    usage and the same verdict of the budget check as after the proxy's
    operation; and a limit the console clears lets the key through. *)
Theorem console_budget_agrees b api_key n now k :
  (forall b1 b2, console_set_limit b api_key (Some n) = Ok b1 -> sqlite_set_limit b api_key n = Ok b2 ->
     get_limit b1 k = get_limit b2 k /\ get_usage b1 k = get_usage b2 k /\ budget_check b1 k = budget_check b2 k) /\
  (is_ok (console_set_limit b api_key (Some n)) = is_ok (sqlite_set_limit b api_key n)) /\
  (forall b2, sqlite_reset_usage b now api_key = Ok b2 ->
     get_usage (console_reset b api_key) k = get_usage b2 k /\ budget_check (console_reset b api_key) k = budget_check b2 k) /\
  (forall b1, console_set_limit b api_key None = Ok b1 -> budget_check b1 api_key = Ok Unlimited).
Proof.
  assert (Hcheck : forall b1 b2 : SqliteBudget, get_limit b1 k = get_limit b2 k -> get_usage b1 k = get_usage b2 k ->
    budget_check b1 k = budget_check b2 k) by (intros b1 b2 Hl Hu; unfold budget_check; by rewrite Hl, Hu).
  unfold console_set_limit, sqlite_set_limit, sqlite_reset_usage. split_and!.
  - intros b1 b2. destruct (bind_u64 n) as [l|]; [|done]. intros [= <-] [= <-].
    assert (Hu : sqlite_get_usage (mkSqlite (<[api_key := l]> (sb_limits b))
        (match sb_usage b !! api_key with Some _ => sb_usage b | None => <[api_key := (0%Z, None)]> (sb_usage b) end) (sb_logs b)) k =
      sqlite_get_usage (mkSqlite (<[api_key := l]> (sb_limits b)) (sb_usage b) (sb_logs b)) k).
    { unfold sqlite_get_usage. simpl. destruct (sb_usage b !! api_key) eqn:E; [done|].
      destruct (decide (k = api_key)) as [->|]; [by rewrite lookup_insert_eq, E|by rewrite lookup_insert_ne]. }
    split; [done|]. split; [exact Hu|]. by apply Hcheck.
  - by destruct (bind_u64 n).
  - intros b2 [= <-].
    assert (Hu : sqlite_get_usage (console_reset b api_key) k = sqlite_get_usage (mkSqlite (sb_limits b)
      (match sb_usage b !! api_key with Some _ => <[api_key := (0%Z, Some now)]> (sb_usage b) | None => sb_usage b end)
      (sb_logs b)) k).
    { unfold sqlite_get_usage, console_reset. simpl. destruct (decide (k = api_key)) as [->|].
      - rewrite lookup_insert_eq. destruct (sb_usage b !! api_key) eqn:E; [by rewrite lookup_insert_eq|by rewrite E].
      - rewrite lookup_insert_ne by done. destruct (sb_usage b !! api_key); [by rewrite lookup_insert_ne|done]. }
    split; [exact Hu|]. by apply Hcheck.
  - intros b1 [= <-]. unfold budget_check. simpl. unfold sqlite_get_limit. simpl. by rewrite lookup_delete_eq.
Qed.

(** A user's budget view does not move: the proxy charges a token's requests to
    the bucket [token:<id>], the view looks under the token's prefix, so no
    spending shows. *)
Theorem user_budget_blind b rows id r b' :
  sp_api_key r = "token:" +:+ show_Z id -> Forall (fun row => starts_with "token:" (ct_prefix row) = false) rows ->
  sqlite_record_spend b r = Ok b' -> user_budget b' rows = user_budget b rows.
Proof.
  intros Hk Hrows Hs. unfold sqlite_record_spend in Hs. destruct (bind_u64 _); [|done]. destruct (bind_u64 _); [|done].
  destruct (bind_u64 _); [|done]. injection Hs as <-. unfold user_budget. apply map_ext_in. intros row Hin.
  rewrite Forall_forall in Hrows. specialize (Hrows row ltac:(by apply list_elem_of_In)).
  assert (Hne : ct_prefix row <> sp_api_key r) by (intros E; rewrite E, Hk, starts_with_app in Hrows; done).
  unfold sqlite_get_usage. simpl. destruct (sb_usage b !! sp_api_key r) as [[old at_]|]; by rewrite lookup_insert_ne.
Qed.
