(* ===== verification/ConsoleBackends.v ===== *)
(** * The console's backend and routing endpoints ([src/console/handlers.rs])

    They rewrite [\[backends.*\]] and [\[routing\]] in the configuration file
    through [toml_edit], by the same atomic write as the editor, and ask the
    proxy to reload.  The theorems follow a change from the request through the
    file to the pool the proxy resolves from it. *)

From S2P Require Import Prelude RustStr Json Regex Redact Matcher Policy Routing ClientAuth AuditTrail Proxy Admin Config Reload RustFs ConsoleDb ConsoleApi ConsoleEdit.

(** ** TOML documents

    The contents of a [toml_edit] document, without its comments and spacing:
    [as_table_mut] sees headed tables only, not inline ones. *)
Inductive item :=
| TStr (s : string)
| TArr (l : list item)
| TInline (t : list (string * item))
| TTable (t : list (string * item))
| TOther.
Definition table : Type := list (string * item).

Definition tbl_get (k : string) (t : table) : option item := snd <$> List.find (fun e => String.eqb e.1 k) t.
(** In place when the key is there, at the end otherwise. *)
Fixpoint tbl_insert (k : string) (v : item) (t : table) : table :=
  match t with
  | [] => [(k, v)]
  | (k', v') :: t' => if String.eqb k' k then (k', v) :: t' else (k', v') :: tbl_insert k v t'
  end.
Definition tbl_remove (k : string) (t : table) : table := List.filter (fun e => negb (String.eqb e.1 k)) t.
Definition as_table (i : item) : option table := match i with TTable t => Some t | _ => None end.

(** Parsing and printing; [decor] is what the contents leave out. *)
Class TomlEdit := {
  decor : Type;
  doc_parse : string -> result string (table * decor);
  doc_print : table * decor -> string;
}.

(** ** Requests *)

Record BackendUpsertRequest := mkUpsert {
  bu_provider : string;
  bu_endpoint : string;
  bu_api_key : option (option string);
  bu_model : option string;
}.
(** [RoutingUpdateRequest], with the rules as the configuration has them. *)
Record RoutingUpdateRequest := mkRoutingUpdate { ru_default : string; ru_rules : list RoutingRule }.

Definition normalize_rule (r : RoutingRule) : RoutingRule :=
  mkRouting (trim (rt_model r)) (trim (rt_backend r))
    (List.filter (fun f => negb (String.eqb f "")) (map trim (rt_fallback r))).
Definition normalize_routing (body : RoutingUpdateRequest) : RoutingUpdateRequest :=
  mkRoutingUpdate (trim (ru_default body)) (map normalize_rule (ru_rules body)).

Definition idx (what : string) (i : nat) : string := what +:+ "[" +:+ show_Z (Z.of_nat i) +:+ "]".
Fixpoint validate_fallbacks (backends : gmap string BackendConfig) (i : nat) (backend : string) (fi : nat) (seen : gset string)
    (fbs : list string) : result string unit :=
  match fbs with
  | [] => Ok tt
  | raw :: rest =>
      let fb := trim raw in
      let at_ := idx "rule" i +:+ "." +:+ idx "fallback" fi in
      if String.eqb fb "" then Err (at_ +:+ " cannot be empty")
      else if negb (known backends fb) then Err (at_ +:+ " = `" +:+ fb +:+ "` is not a configured backend")
      else if String.eqb fb backend then Err (at_ +:+ " = `" +:+ fb +:+ "` is the same as the rule's primary backend")
      else if bool_decide (fb ∈ seen) then Err (at_ +:+ " = `" +:+ fb +:+ "` is repeated in the same rule")
      else validate_fallbacks backends i backend (S fi) ({[fb]} ∪ seen) rest
  end.
Fixpoint validate_rules_body (backends : gmap string BackendConfig) (i : nat) (seen : gset string) (rules : list RoutingRule)
    : result string unit :=
  match rules with
  | [] => Ok tt
  | r :: rest =>
      let model := trim (rt_model r) in
      let backend := trim (rt_backend r) in
      if String.eqb model "" then Err (idx "rule" i +:+ ".model cannot be empty")
      else if String.eqb backend "" then Err (idx "rule" i +:+ ".backend cannot be empty")
      else if negb (known backends backend)
      then Err (idx "rule" i +:+ ".backend = `" +:+ backend +:+ "` is not a configured backend")
      else
        let? _ := validate_fallbacks backends i backend 0 ∅ (rt_fallback r) in
        if bool_decide (model ∈ seen)
        then Err (idx "rule" i +:+ ".model = `" +:+ model +:+ "` is duplicated; later occurrence would never fire")
        else validate_rules_body backends (S i) ({[model]} ∪ seen) rest
  end.
Definition validate_routing_body (body : RoutingUpdateRequest) (cfg : Config) : result string unit :=
  let d := trim (ru_default body) in
  if String.eqb d "" then Err "routing.default cannot be empty"
  else if negb (known (cf_backends cfg) d) then Err ("routing.default = `" +:+ d +:+ "` is not a configured backend")
  else validate_rules_body (cf_backends cfg) 0 ∅ (ru_rules body).

Definition validate_backend_name (name : string) : result string unit :=
  if String.eqb name "" then Err "backend name cannot be empty"
  else if Nat.ltb 64 (String.length name) then Err "backend name too long (max 64 chars)"
  else if negb (sall (fun c => is_ascii_alphanumeric c || Ascii.eqb c "-" || Ascii.eqb c "_") name)
  then Err "backend name must match [A-Za-z0-9_-]+"
  else Ok tt.
Definition validate_backend_body (body : BackendUpsertRequest) : result string unit :=
  if negb (String.eqb (bu_provider body) "openai" || String.eqb (bu_provider body) "anthropic" ||
           String.eqb (bu_provider body) "ollama")
  then Err ("unknown provider `" +:+ bu_provider body +:+ "` (openai|anthropic|ollama)")
  else
    let endpoint := trim (bu_endpoint body) in
    if String.eqb endpoint "" then Err "endpoint cannot be empty"
    else if negb (starts_with "http://" endpoint) && negb (starts_with "https://" endpoint)
    then Err "endpoint must start with http:// or https://"
    else Ok tt.

(** ** Rewriting the file *)

Definition rule_item (r : RoutingRule) : item :=
  TInline ([("model", TStr (rt_model r)); ("backend", TStr (rt_backend r))] ++
    match rt_fallback r with [] => [] | fbs => [("fallback", TArr (map TStr fbs))] end).
(** [doc.entry(k).or_insert_with(Table::new)] taken as a table. *)
Definition section_of (k : string) (t : table) : option table :=
  match tbl_get k t with Some i => as_table i | None => Some [] end.
Definition set_routing_doc (path : string) (body : RoutingUpdateRequest) (t : table) : result string table :=
  match section_of "routing" t with
  | None => Err ("[routing] in " +:+ path +:+ " is not a table")
  | Some r =>
      Ok (tbl_insert "routing" (TTable (tbl_insert "rules" (TArr (map rule_item (ru_rules body)))
            (tbl_insert "default" (TStr (ru_default body)) r))) t)
  end.
Definition upsert_entry (body : BackendUpsertRequest) (existing : table) : table :=
  let e1 := tbl_insert "endpoint" (TStr (bu_endpoint body)) (tbl_insert "provider" (TStr (bu_provider body)) existing) in
  let e2 := match bu_api_key body with
            | None => e1
            | Some None => tbl_remove "api_key" e1
            | Some (Some k) => tbl_insert "api_key" (TStr k) e1
            end in
  match bu_model body with Some m => tbl_insert "model" (TStr m) e2 | None => e2 end.
Definition upsert_backend_doc (path name : string) (body : BackendUpsertRequest) (t : table) : result string table :=
  match section_of "backends" t with
  | None => Err ("[backends] in " +:+ path +:+ " is not a table")
  | Some b =>
      let existing := default [] (tbl_get name b ≫= as_table) in
      Ok (tbl_insert "backends" (TTable (tbl_insert name (TTable (upsert_entry body existing)) b)) t)
  end.
Definition delete_backend_doc (name : string) (t : table) : table :=
  match tbl_get "backends" t ≫= as_table with
  | Some b => tbl_insert "backends" (TTable (tbl_remove name b)) t
  | None => t
  end.

Section Rewrite.
Context `{TomlEdit} `{Fs} `{Sha256} (debug : string -> string) (from_toml : string -> result string Config).
(** The environment variables. *)
Context (vars : string -> option string).

Definition env_of (s : fs) : Env := mkEnv vars (fs_exists s) (RustFs.read_to_string s).
Definition toml_path : string := default "nanoguard.toml" (vars "NANOGUARD_CONFIG").
Definition fresh_config (s : fs) : result string Config := from_env_or_default from_toml (env_of s).

(** Read, parse, change, print, write atomically. *)
Definition rewrite_toml (d : EditDraw) (edit : table -> result string table) (s : fs) : result Chain unit * fs :=
  match RustFs.read_to_string s toml_path with
  | Err e => (Err ["reading " +:+ toml_path +:+ ": " +:+ e], s)
  | Ok original =>
      match doc_parse original with
      | Err e => (Err ["parsing " +:+ toml_path +:+ ": " +:+ e], s)
      | Ok (t, dec) =>
          match edit t with
          | Err e => (Err [e], s)
          | Ok t' =>
              match atomic_write debug d toml_path (doc_print (t', dec)) (fun _ => mkValidation true None) s with
              | (Ok _, s') => (Ok tt, s')
              | (Err e, s') => (Err e, s')
              end
          end
      end
  end.
Definition write_routing_to_toml (d : EditDraw) (body : RoutingUpdateRequest) : fs -> result Chain unit * fs :=
  rewrite_toml d (set_routing_doc toml_path body).
Definition upsert_backend_in_toml (d : EditDraw) (name : string) (body : BackendUpsertRequest) : fs -> result Chain unit * fs :=
  rewrite_toml d (upsert_backend_doc toml_path name body).
Definition delete_backend_in_toml (d : EditDraw) (name : string) : fs -> result Chain unit * fs :=
  rewrite_toml d (fun t => Ok (delete_backend_doc name t)).
End Rewrite.

(** ** The endpoints *)

Section BackendApi.
Context `{Rfc3339} `{CookieCrate} `{SerdeStruct} `{Disk} `{TomlEdit} `{Fs} `{Sha256}
  (debug : string -> string) (from_toml : string -> result string Config) (vars : string -> option string).
Context (exchange : string -> string -> result string string) (kill_hup : Z -> result string unit)
  (read_pid_file : string -> result string string).

(** The error of [fresh_config] with its cause. *)
Definition fresh_error (s : fs) : string :=
  let path := toml_path vars in
  match RustFs.read_to_string s path with
  | Err e => "reading config " +:+ debug path +:+ ": " +:+ e
  | Ok content => match from_toml content with Err e => "parsing config TOML: " +:+ e | Ok _ => "" end
  end.

Definition backend_item (default_backend : string) (nb : string * BackendConfig) : value :=
  let '(name, b) := nb in
  obj [("name", Str name); ("provider", Str (bc_provider b)); ("endpoint", Str (bc_endpoint b));
       ("model", opt_value (bc_model b));
       ("has_api_key", Bool (match bc_api_key b with Some k => negb (String.eqb k "") | None => false end));
       ("is_default", Bool (String.eqb name default_backend))].
(** [sorted]: the order of a [BTreeMap]. *)
Definition api_list_backends (sorted : list (string * BackendConfig) -> list (string * BackendConfig)) (st : ConsoleState)
    (now : Z) (h : ConsoleHeaders) : World -> ConsoleReply * World :=
  reading st now h (fun user w =>
    match require_console_admin user with
    | Some e => e
    | None =>
        match fresh_config from_toml vars w.2 with
        | Err e => json_error 500 ("re-parse failed: " +:+ e)
        | Ok cfg =>
            match pool (pool_config cfg) with
            | Err e => json_error 500 ("config invalid: " +:+ e)
            | Ok (view, _) =>
                mkConsoleReply 200 []
                  (obj [("data", Arr (map (backend_item (bp_default_backend view)) (sorted (map_to_list (bp_backends view)))));
                        ("default", Str (bp_default_backend view))])
            end
        end
    end).

Definition action_verb (action : string) : string := default action (strip_prefix "backend_" action).
Definition backend_after (name : string) (b : BackendUpsertRequest) : value :=
  obj [("name", Str name); ("provider", Str (bu_provider b)); ("endpoint", Str (bu_endpoint b));
       ("api_key_intent", Str match bu_api_key b with None => "keep" | Some None => "clear" | Some (Some _) => "replace" end);
       ("model", opt_value (bu_model b))].
Definition record_backend_mutation (dr : Draw) (admin : User) (action name : string) (body : option BackendUpsertRequest)
    : ConsoleWorld -> ConsoleWorld :=
  audit_mutation dr 0 admin action (Some name) None (backend_after name <$> body)
    (us_username admin +:+ " " +:+ action_verb action +:+ " backend `" +:+ name +:+ "`").

(** What follows a successful write. *)
Definition backend_done (st : ConsoleState) (dr : Draw) (session_id : string) (status : Z) (name : string) (cw : ConsoleWorld)
    : ConsoleReply * ConsoleWorld :=
  reply_rotated dr session_id status []
    (obj [("name", Str name); ("restart_required", Bool false);
          ("reload", reloaded exchange kill_hup read_pid_file st)]) cw.
(** The write, its audit record and the answer. *)
Definition backend_write (st : ConsoleState) (dr : Draw) (session_id : string) (admin : User) (action name : string)
    (body : option BackendUpsertRequest) (status : Z) (write : fs -> result Chain unit * fs) (w : World) : ConsoleReply * World :=
  match write w.2 with
  | (Err e, f) => (json_error 500 (alternate e), (w.1, f))
  | (Ok _, f) =>
      let '(r, cw) := backend_done st dr session_id status name (record_backend_mutation dr admin action name body w.1) in
      (r, (cw, f))
  end.

Definition api_create_backend (st : ConsoleState) (dr : Draw) (ed : EditDraw) (h : ConsoleHeaders) (raw : string)
    (body : BackendUpsertRequest) : World -> ConsoleReply * World :=
  mutating_with st dr h (fun admin session_id w =>
    match require_console_admin admin with
    | Some e => (e, w)
    | None =>
        let name := trim raw in
        if String.eqb name "" then (json_error 400 "name query parameter is required", w)
        else match validate_backend_name name with
        | Err msg => (json_error 400 msg, w)
        | Ok _ =>
            match validate_backend_body body with
            | Err msg => (json_error 400 msg, w)
            | Ok _ =>
                match fresh_config from_toml vars w.2 with
                | Err _ => (json_error 500 (fresh_error w.2), w)
                | Ok cfg =>
                    if known (cf_backends cfg) name
                    then (json_error 409 ("backend `" +:+ name +:+ "` already exists; PUT to update"), w)
                    else backend_write st dr session_id admin "backend_create" name (Some body) 201
                           (upsert_backend_in_toml debug vars ed name body) w
                end
            end
        end
    end).
Definition api_update_backend (st : ConsoleState) (dr : Draw) (ed : EditDraw) (h : ConsoleHeaders) (name : string)
    (body : BackendUpsertRequest) : World -> ConsoleReply * World :=
  mutating_with st dr h (fun admin session_id w =>
    match require_console_admin admin with
    | Some e => (e, w)
    | None =>
        match validate_backend_name name with
        | Err msg => (json_error 400 msg, w)
        | Ok _ =>
            match validate_backend_body body with
            | Err msg => (json_error 400 msg, w)
            | Ok _ =>
                match fresh_config from_toml vars w.2 with
                | Err _ => (json_error 500 (fresh_error w.2), w)
                | Ok cfg =>
                    if negb (known (cf_backends cfg) name) then (json_error 404 ("backend `" +:+ name +:+ "` not found"), w)
                    else backend_write st dr session_id admin "backend_update" name (Some body) 200
                           (upsert_backend_in_toml debug vars ed name body) w
                end
            end
        end
    end).
Definition api_delete_backend (st : ConsoleState) (dr : Draw) (ed : EditDraw) (h : ConsoleHeaders) (name : string)
    : World -> ConsoleReply * World :=
  mutating_with st dr h (fun admin session_id w =>
    match require_console_admin admin with
    | Some e => (e, w)
    | None =>
        match fresh_config from_toml vars w.2 with
        | Err _ => (json_error 500 (fresh_error w.2), w)
        | Ok cfg =>
            if negb (known (cf_backends cfg) name) then (json_error 404 ("backend `" +:+ name +:+ "` not found"), w)
            else if bool_decide (rc_default (cf_routing cfg) = Some name)
            then (json_error 409 ("cannot delete backend `" +:+ name +:+
                    "`: it is the routing default. Change [routing].default first."), w)
            else if existsb (fun r => String.eqb (rt_backend r) name) (rc_rules (cf_routing cfg))
            then (json_error 409 ("cannot delete backend `" +:+ name +:+
                    "`: at least one [routing] rule references it. Update the rules first."), w)
            else backend_write st dr session_id admin "backend_delete" name None 200 (delete_backend_in_toml debug vars ed name) w
        end
    end).

Definition rule_value (r : RoutingRule) : value :=
  obj [("model", Str (rt_model r)); ("backend", Str (rt_backend r)); ("fallback", Arr (map Str (rt_fallback r)))].
Definition record_routing_mutation (dr : Draw) (admin : User) (body : RoutingUpdateRequest) (prev : RoutingConfig)
    : ConsoleWorld -> ConsoleWorld :=
  audit_mutation dr 0 admin "routing_update" (Some "routing") None
    (Some (obj [("default", Str (ru_default body)); ("rules", Arr (map rule_value (ru_rules body)))]))
    (us_username admin +:+ " updated [routing]: default `" +:+ default "(unset)" (rc_default prev) +:+ "` → `" +:+
     ru_default body +:+ "`, rules " +:+ show_Z (Z.of_nat (length (rc_rules prev))) +:+ " → " +:+
     show_Z (Z.of_nat (length (ru_rules body)))).
Definition api_update_routing (st : ConsoleState) (dr : Draw) (ed : EditDraw) (h : ConsoleHeaders) (raw : RoutingUpdateRequest)
    : World -> ConsoleReply * World :=
  mutating_with st dr h (fun admin session_id w =>
    match require_console_admin admin with
    | Some e => (e, w)
    | None =>
        let body := normalize_routing raw in
        match fresh_config from_toml vars w.2 with
        | Err _ => (json_error 500 (fresh_error w.2), w)
        | Ok cfg =>
            match validate_routing_body body cfg with
            | Err msg => (json_error 400 msg, w)
            | Ok _ =>
                match write_routing_to_toml debug vars ed body w.2 with
                | (Err e, f) => (json_error 500 (alternate e), (w.1, f))
                | (Ok _, f) =>
                    let cw1 := record_routing_mutation dr admin body (cf_routing cfg) w.1 in
                    let '(r, cw2) := reply_rotated dr session_id 200 []
                      (obj [("default", Str (ru_default body)); ("rules", Arr (map rule_value (ru_rules body)));
                            ("restart_required", Bool false); ("reload", reloaded exchange kill_hup read_pid_file st)]) cw1 in
                    (r, (cw2, f))
                end
            end
        end
    end).
End BackendApi.

(** ** What the file means

    [toml::from_str] at type [Config], on the contents of a document: the two
    sections the console rewrites are read as their types say, and the others do
    not depend on them. *)

Definition de_str (i : item) : result string string := match i with TStr s => Ok s | _ => Err "invalid type: expected a string" end.
Definition de_table (i : item) : result string table :=
  match i with TTable t => Ok t | TInline t => Ok t | _ => Err "invalid type: expected a table" end.
Definition de_seq (i : item) : result string (list item) := match i with TArr l => Ok l | _ => Err "invalid type: expected a sequence" end.
Definition de_opt {A} (de : item -> result string A) (o : option item) : result string (option A) :=
  match o with Some i => let? a := de i in Ok (Some a) | None => Ok None end.
Definition de_req {A} (k : string) (de : item -> result string A) (t : table) : result string A :=
  match tbl_get k t with Some i => de i | None => Err ("missing field `" +:+ k +:+ "`") end.
Fixpoint de_all {A} (de : item -> result string A) (l : list item) : result string (list A) :=
  match l with [] => Ok [] | i :: l' => let? a := de i in let? r := de_all de l' in Ok (a :: r) end.
Definition de_list {A} (de : item -> result string A) (i : item) : result string (list A) := let? l := de_seq i in de_all de l.

Definition de_rule (i : item) : result string RoutingRule :=
  let? t := de_table i in
  let? model := de_req "model" de_str t in
  let? backend := de_req "backend" de_str t in
  let? fallback := de_opt (de_list de_str) (tbl_get "fallback" t) in
  Ok (mkRouting model backend (default [] fallback)).
Definition de_routing (i : item) : result string RoutingConfig :=
  let? t := de_table i in
  let? d := de_opt de_str (tbl_get "default" t) in
  let? rules := de_opt (de_list de_rule) (tbl_get "rules" t) in
  Ok (mkRoutingConfig d (default [] rules)).
Definition de_backend (i : item) : result string BackendConfig :=
  let? t := de_table i in
  let? provider := de_req "provider" de_str t in
  let? endpoint := de_req "endpoint" de_str t in
  let? api_key := de_opt de_str (tbl_get "api_key" t) in
  let? model := de_opt de_str (tbl_get "model" t) in
  Ok (mkBackend provider endpoint api_key model).
Fixpoint de_entries (t : table) : result string (gmap string BackendConfig) :=
  match t with
  | [] => Ok ∅
  | (name, i) :: t' => let? b := de_backend i in let? m := de_entries t' in Ok (<[name := b]> m)
  end.
Definition de_backends (i : item) : result string (gmap string BackendConfig) := let? t := de_table i in de_entries t.

Definition with_routing (rc : RoutingConfig) (c : Config) : Config :=
  mkConfig (cf_nanoguard c) (cf_backend c) (cf_backends c) rc (cf_input c) (cf_output c) (cf_budget c) (cf_audit c)
    (cf_tools c) (cf_policies c) (cf_auth c) (cf_console c) (cf_reload c).
Definition with_backends (bs : gmap string BackendConfig) (c : Config) : Config :=
  mkConfig (cf_nanoguard c) (cf_backend c) bs (cf_routing c) (cf_input c) (cf_output c) (cf_budget c) (cf_audit c)
    (cf_tools c) (cf_policies c) (cf_auth c) (cf_console c) (cf_reload c).

(** The document and the deserialiser read the same text, and a section decides
    its own field and no other. *)
Class TomlLaws `{TomlEdit} (from_toml : string -> result string Config) := {
  de_config : table -> result string Config;
  parse_de s t dec : doc_parse s = Ok (t, dec) -> from_toml s = de_config t;
  print_de t dec : from_toml (doc_print (t, dec)) = de_config t;
  de_routing_at t c : de_config t = Ok c ->
    match tbl_get "routing" t with Some i => de_routing i = Ok (cf_routing c) | None => cf_routing c = mkRoutingConfig None [] end;
  de_backends_at t c : de_config t = Ok c ->
    match tbl_get "backends" t with Some i => de_backends i = Ok (cf_backends c) | None => cf_backends c = ∅ end;
  de_routing_set t c i rc : de_config t = Ok c -> de_routing i = Ok rc ->
    de_config (tbl_insert "routing" i t) = Ok (with_routing rc c);
  de_backends_set t c i bs : de_config t = Ok c -> de_backends i = Ok bs ->
    de_config (tbl_insert "backends" i t) = Ok (with_backends bs c);
}.

(** ** Lemmas: tables *)

Lemma tbl_get_insert k k' v t : tbl_get k (tbl_insert k' v t) = if String.eqb k' k then Some v else tbl_get k t.
Proof.
  unfold tbl_get. induction t as [|[k0 v0] t IH]; simpl; [by destruct (String.eqb k' k)|].
  destruct (String.eqb_spec k0 k') as [->|Hne]; simpl.
  - destruct (String.eqb_spec k' k); done.
  - destruct (String.eqb_spec k0 k) as [->|]; simpl; [|exact IH]. by destruct (String.eqb_spec k' k).
Qed.

Lemma tbl_get_remove k k' t : tbl_get k (tbl_remove k' t) = if String.eqb k' k then None else tbl_get k t.
Proof.
  unfold tbl_get, tbl_remove. induction t as [|[k0 v0] t IH]; simpl; [by destruct (String.eqb k' k)|].
  destruct (String.eqb_spec k0 k') as [->|Hne]; simpl.
  - rewrite IH. by destruct (String.eqb_spec k' k).
  - destruct (String.eqb_spec k0 k) as [->|]; simpl; [|exact IH]. destruct (String.eqb_spec k' k); [congruence|done].
Qed.

Lemma de_entries_insert name i b t m :
  de_entries t = Ok m -> de_backend i = Ok b -> de_entries (tbl_insert name i t) = Ok (<[name := b]> m).
Proof.
  intros Ht Hb. revert m Ht. induction t as [|[k v] t IH]; intros m Ht; simpl in *.
  - injection Ht as <-. by rewrite Hb.
  - destruct (de_backend v) as [bv|] eqn:Ev; [|done]. destruct (de_entries t) as [mt|] eqn:Et; [|done]. injection Ht as <-.
    destruct (String.eqb_spec k name) as [->|Hne]; simpl.
    + rewrite Hb, Et. by rewrite insert_insert_eq.
    + rewrite Ev. rewrite (IH mt) by done. by rewrite insert_insert_ne.
Qed.

Lemma de_entries_remove name t m : de_entries t = Ok m -> de_entries (tbl_remove name t) = Ok (delete name m).
Proof.
  revert m. induction t as [|[k v] t IH]; intros m Ht; simpl in *.
  - injection Ht as <-. by rewrite delete_empty.
  - destruct (de_backend v) as [bv|] eqn:Ev; [|done]. destruct (de_entries t) as [mt|] eqn:Et; [|done]. injection Ht as <-.
    unfold tbl_remove in IH |- *. simpl. destruct (String.eqb_spec k name) as [->|Hne]; simpl.
    + rewrite (IH mt) by done. by rewrite delete_insert_eq.
    + rewrite Ev. rewrite (IH mt) by done. by rewrite delete_insert_ne.
Qed.

Lemma de_entries_at name t m i :
  de_entries t = Ok m -> tbl_get name t = Some i -> exists b, de_backend i = Ok b /\ m !! name = Some b.
Proof.
  revert m. unfold tbl_get. induction t as [|[k v] t IH]; intros m Ht Hg; simpl in *; [done|].
  destruct (de_backend v) as [bv|] eqn:Ev; [|done]. destruct (de_entries t) as [mt|] eqn:Et; [|done]. injection Ht as <-.
  destruct (String.eqb_spec k name) as [->|Hne]; simpl in Hg.
  - injection Hg as <-. exists bv. by rewrite lookup_insert_eq.
  - destruct (IH mt eq_refl Hg) as (b & Hb & Hm). exists b. by rewrite lookup_insert_ne.
Qed.

(** ** Lemmas: what is written reads back *)

Lemma de_all_map {A B} (de : item -> result string A) (f : B -> item) (g : B -> A) l :
  (forall b, de (f b) = Ok (g b)) -> de_all de (map f l) = Ok (map g l).
Proof. intros Hf. induction l as [|b l IH]; simpl; [done|]. by rewrite Hf, IH. Qed.

Lemma de_rule_item r : de_rule (rule_item r) = Ok r.
Proof.
  destruct r as [m b fbs]. unfold de_rule, rule_item, de_req. simpl. destruct fbs as [|fb fbs]; [done|].
  unfold tbl_get. simpl. unfold de_list. simpl. rewrite (de_all_map de_str TStr id) by done. simpl. by rewrite map_id.
Qed.

Lemma de_routing_written r body :
  de_routing (TTable (tbl_insert "rules" (TArr (map rule_item (ru_rules body)))
    (tbl_insert "default" (TStr (ru_default body)) r))) = Ok (mkRoutingConfig (Some (ru_default body)) (ru_rules body)).
Proof.
  unfold de_routing. simpl. rewrite !tbl_get_insert. simpl. unfold de_list. simpl.
  rewrite (de_all_map de_rule rule_item id) by apply de_rule_item. simpl. by rewrite map_id.
Qed.

(** The backend an upsert writes over [old], the entry it found. *)
Definition upserted (body : BackendUpsertRequest) (old : option BackendConfig) : BackendConfig :=
  mkBackend (bu_provider body) (bu_endpoint body)
    (match bu_api_key body with Some k => k | None => old ≫= bc_api_key end)
    (match bu_model body with Some m => Some m | None => old ≫= bc_model end).

Lemma de_backend_upsert body existing old :
  match old with Some b => de_backend (TTable existing) = Ok b | None => existing = [] end ->
  de_backend (TTable (upsert_entry body existing)) = Ok (upserted body old).
Proof.
  intros Hold. unfold de_backend, de_req, upsert_entry, upserted in *. simpl in *.
  assert (Hopt : de_opt de_str (tbl_get "api_key" existing) = Ok (old ≫= bc_api_key) /\
                 de_opt de_str (tbl_get "model" existing) = Ok (old ≫= bc_model)).
  { destruct old as [b|]; [|subst existing; done]. simpl.
    destruct (tbl_get "provider" existing) as [i1|]; [|done]. destruct (de_str i1); [|done].
    destruct (tbl_get "endpoint" existing) as [i2|]; [|done]. destruct (de_str i2); [|done].
    destruct (de_opt de_str (tbl_get "api_key" existing)) as [ak|]; [|done].
    destruct (de_opt de_str (tbl_get "model" existing)) as [md|]; [|done]. by injection Hold as <-. }
  destruct Hopt as [Hk Hm].
  destruct (bu_model body) as [m|], (bu_api_key body) as [[k|]|];
    rewrite ?tbl_get_insert, ?tbl_get_remove, ?tbl_get_insert; simpl; rewrite ?Hk; simpl; rewrite ?Hm; done.
Qed.

(** ** Lemmas: what the routing validator promises the pool *)

Definition tidy_rule (r : RoutingRule) : Prop := trim (rt_backend r) = rt_backend r /\ map trim (rt_fallback r) = rt_fallback r.

Lemma validate_fallbacks_check bs i r fi seen fbs :
  map trim fbs = fbs -> validate_fallbacks bs i (rt_backend r) fi seen fbs = Ok tt -> check_fallbacks bs r seen fbs = Ok tt.
Proof.
  revert fi seen. induction fbs as [|fb fbs IH]; intros fi seen Ht; simpl in *; [done|]. injection Ht as Hfb Ht. rewrite Hfb.
  destruct (String.eqb fb ""); [done|]. destruct (known bs fb); [|done]. simpl. destruct (String.eqb fb (rt_backend r)); [done|].
  destruct (bool_decide (fb ∈ seen)); [done|]. by apply IH.
Qed.

Lemma validate_rules_check bs i seen rules :
  Forall tidy_rule rules -> validate_rules_body bs i seen rules = Ok tt -> check_rules bs rules = Ok tt.
Proof.
  intros Ht. revert i seen. induction Ht as [|r rules [Hb Hf] _ IH]; intros i seen; simpl; [done|].
  destruct (String.eqb _ ""); [done|]. destruct (String.eqb _ ""); [done|]. rewrite Hb.
  destruct (known bs (rt_backend r)); [|done]. simpl.
  destruct (validate_fallbacks _ _ _ _ _ _) as [[]|] eqn:Ef; [|done]. rewrite (validate_fallbacks_check _ _ _ _ _ _ Hf Ef).
  destruct (bool_decide _); [done|]. apply IH.
Qed.

Lemma known_nonempty bs name : known bs name = true -> is_empty_map bs = false.
Proof.
  unfold known, is_empty_map. destruct (bs !! name) as [b|] eqn:E; [|done]. intros _.
  apply Nat.eqb_neq. intros Hs. apply map_size_empty_inv in Hs as ->. by rewrite lookup_empty in E.
Qed.

(** A body the validator accepts resolves to a pool with that default and those
    rules. *)
Lemma validate_routing_pool body cfg :
  trim (ru_default body) = ru_default body -> Forall tidy_rule (ru_rules body) ->
  validate_routing_body body cfg = Ok tt ->
  exists ws, pool (pool_config (with_routing (mkRoutingConfig (Some (ru_default body)) (ru_rules body)) cfg)) =
    Ok (mkPool (cf_backends cfg) (ru_rules body) (ru_default body), ws).
Proof.
  intros Hd Hr. unfold validate_routing_body. rewrite Hd. destruct (String.eqb _ ""); [done|].
  destruct (known (cf_backends cfg) (ru_default body)) eqn:Hk; [|done]. simpl. intros Hv.
  unfold pool. simpl. rewrite (known_nonempty _ _ Hk), (known_nonempty _ _ Hk). simpl.
  rewrite (validate_rules_check _ _ _ _ Hr Hv), Hk. simpl. by eexists.
Qed.

(** Rust strings are valid UTF-8. *)
Definition utf8_body (body : RoutingUpdateRequest) : bool :=
  is_utf8 (ru_default body) &&
  forallb (fun r => is_utf8 (rt_model r) && is_utf8 (rt_backend r) && forallb is_utf8 (rt_fallback r)) (ru_rules body).

Lemma normalize_tidy body : utf8_body body = true ->
  trim (ru_default (normalize_routing body)) = ru_default (normalize_routing body) /\
  Forall tidy_rule (ru_rules (normalize_routing body)).
Proof.
  unfold utf8_body. intros [Hd Hr]%andb_prop. split; [by apply trim_idem|]. simpl. apply Forall_fmap, Forall_forall.
  intros r Hin. rewrite forallb_forall in Hr. apply list_elem_of_In in Hin. specialize (Hr r Hin).
  apply andb_prop in Hr as [Hr Hf]. apply andb_prop in Hr as [_ Hb]. split; [by apply trim_idem|]. simpl. clear -Hf.
  induction (rt_fallback r) as [|f l IH]; simpl in *; [done|]. apply andb_prop in Hf as [Hf Hl].
  destruct (negb (String.eqb (trim f) "")); simpl; [|by apply IH]. rewrite trim_idem by done. by rewrite IH.
Qed.

(** ** Properties *)

Section BackendProps.
Context `{Rfc3339} `{CookieCrate} `{SerdeStruct} `{Disk} `{SymlinkFreeFs} `{Sha256}
  (debug : string -> string) (from_toml : string -> result string Config) `{!TomlEdit} `{!TomlLaws from_toml}
  (vars : string -> option string).
Context (exchange : string -> string -> result string string) (kill_hup : Z -> result string unit)
  (read_pid_file : string -> result string string).
Implicit Types w : World.

(** The configuration file holds a text that reads as [cfg]. *)
Definition saved (s : fs) (cfg : Config) : Prop :=
  exists content t, fs_at s (fkey (toml_path vars)) = Some (content, t) /\ from_toml content = Ok cfg.

Lemma rewrite_saved d edit s s' f cfg :
  target (toml_path vars) f -> no_slash (ed_ts d) = true -> fresh_config from_toml vars s = Ok cfg ->
  rewrite_toml debug vars d edit s = (Ok tt, s') ->
  exists original t dec t', RustFs.read_to_string s (toml_path vars) = Ok original /\ doc_parse original = Ok (t, dec) /\
    de_config t = Ok cfg /\ edit t = Ok t' /\ forall cfg', de_config t' = Ok cfg' -> saved s' cfg'.
Proof.
  intros Ht Hts Hc Hr. unfold rewrite_toml in Hr. destruct (RustFs.read_to_string s (toml_path vars)) as [original|] eqn:Er; [|done].
  destruct (doc_parse original) as [[t dec]|] eqn:Ep; [|done]. destruct (edit t) as [t'|] eqn:Ee; [|done].
  destruct (atomic_write _ _ _ _ _ s) as [[hs|e] s1] eqn:Ew; [|done]. injection Hr as <-.
  assert (Hde : de_config t = Ok cfg).
  { rewrite <-(parse_de original t dec Ep). unfold fresh_config, from_env_or_default in Hc.
    change (config_path (env_of vars s)) with (toml_path vars) in Hc.
    change (Config.path_exists (env_of vars s) (toml_path vars)) with (fs_exists s (toml_path vars)) in Hc.
    rewrite (read_exists _ _ _ Er) in Hc. unfold from_file in Hc.
    change (Config.read_to_string (env_of vars s) (toml_path vars)) with (RustFs.read_to_string s (toml_path vars)) in Hc.
    rewrite Er in Hc. unfold from_file_content in Hc. by destruct (from_toml original). }
  exists original, t, dec, t'. split; [done|]. split; [done|]. split; [done|]. split; [done|]. intros cfg' Hcfg'.
  destruct (atomic_write_spec debug d _ f _ _ _ _ (Ok hs) s1 Ht Hts Ew) as (_ & (_ & Hat & _) & _).
  eexists _, _. split; [exact Hat|]. by rewrite print_de.
Qed.

Notation admits st dr h w := (mutating_user (cs_console st) (dr_now dr) (ch_cookie h ≫= header_to_str)
  (ch_csrf h ≫= header_to_str) (cw_db w.1)).

(** C31: Saving a routing table takes effect: when the console answers 200, the
    configuration file reads as before but for its routing section, which holds
    the submitted default and rules in order, white space trimmed, and the pool
    the proxy resolves from that file is accepted, with every rule in place. *)
Theorem routing_saved st dr ed h f raw w r w' :
  target (toml_path vars) f -> no_slash (ed_ts ed) = true -> utf8_body raw = true ->
  api_update_routing debug from_toml vars exchange kill_hup read_pid_file st dr ed h raw w = (r, w') ->
  cr_status r = 200%Z ->
  let body := normalize_routing raw in
  exists cfg ws, fresh_config from_toml vars w.2 = Ok cfg /\
    let cfg' := with_routing (mkRoutingConfig (Some (ru_default body)) (ru_rules body)) cfg in
    saved w'.2 cfg' /\ pool (pool_config cfg') = Ok (mkPool (cf_backends cfg) (ru_rules body) (ru_default body), ws).
Proof.
  intros Ht Hts Hu E Hs body. unfold api_update_routing, mutating_with in E.
  destruct (admits st dr h w) as [[[admin sid]|[status m]] d'] eqn:Ea.
  2: { injection E as <- <-. apply mutating_user_status in Ea. simpl in Hs. lia. }
  destruct (require_console_admin admin) eqn:Er; [injection E as <- <-; apply require_admin_status in Er; lia|]. cbn [snd] in E.
  destruct (fresh_config from_toml vars w.2) as [cfg|] eqn:Ec; [|by injection E as <- <-]. fold body in E.
  destruct (validate_routing_body body cfg) as [[]|] eqn:Ev; [|by injection E as <- <-].
  destruct (write_routing_to_toml _ _ _ _ _) as [[[]|e] f1] eqn:Ew; [|by injection E as <- <-].
  injection E as <- <-. cbn [snd]. destruct (normalize_tidy raw Hu) as [Hd Hr].
  destruct (validate_routing_pool body cfg Hd Hr Ev) as [ws Hp]. exists cfg, ws. split; [done|]. cbv zeta. split; [|done].
  destruct (rewrite_saved _ _ _ _ f cfg Ht Hts Ec Ew) as (_ & t & _ & t' & _ & _ & Hde & Hed & Hsv). apply Hsv.
  unfold set_routing_doc in Hed. destruct (section_of "routing" t) as [r0|]; [|done]. injection Hed as <-.
  apply de_routing_set; [done|]. exact (de_routing_written r0 body).
Qed.

(** The backends as the file has them: a headed table each, so that an update
    finds the fields it keeps. *)
Definition headed (s : fs) (name : string) : Prop :=
  forall original t dec b i, RustFs.read_to_string s (toml_path vars) = Ok original -> doc_parse original = Ok (t, dec) ->
    tbl_get "backends" t = Some (TTable b) -> tbl_get name b = Some i -> exists e, i = TTable e.

Lemma upsert_saved ed s s' f name body cfg :
  target (toml_path vars) f -> no_slash (ed_ts ed) = true -> fresh_config from_toml vars s = Ok cfg -> headed s name ->
  upsert_backend_in_toml debug vars ed name body s = (Ok tt, s') ->
  saved s' (with_backends (<[name := upserted body (cf_backends cfg !! name)]> (cf_backends cfg)) cfg).
Proof.
  intros Ht Hts Hc Hh Hw.
  destruct (rewrite_saved _ _ _ _ f cfg Ht Hts Hc Hw) as (original & t & dec & t' & Er & Ep & Hde & Hed & Hsv). apply Hsv.
  unfold upsert_backend_doc, section_of in Hed. pose proof (de_backends_at t cfg Hde) as Hbs.
  destruct (tbl_get "backends" t) as [i|] eqn:Eb.
  - destruct i as [| | |b|]; simpl in Hed; try done. injection Hed as <-. apply de_backends_set; [done|].
    unfold de_backends in *. simpl in *. apply de_entries_insert; [done|]. apply de_backend_upsert.
    destruct (tbl_get name b) as [i|] eqn:En; simpl.
    + destruct (Hh original t dec b i Er Ep Eb En) as [e ->]. destruct (de_entries_at _ _ _ _ Hbs En) as (old & Ho & ->). done.
    + assert (cf_backends cfg !! name = None) as ->; [|done]. clear -Hbs En. revert Hbs En. generalize (cf_backends cfg).
      unfold tbl_get. induction b as [|[k v] b IH]; intros m Hm Hn; simpl in *; [by injection Hm as <-|].
      destruct (de_backend v); [|done]. destruct (de_entries b) as [mb|]; [|done]. injection Hm as <-.
      destruct (String.eqb_spec k name) as [->|Hne]; simpl in Hn; [done|]. rewrite lookup_insert_ne by done. by apply IH.
  - injection Hed as <-. rewrite Hbs in *. rewrite lookup_empty. apply de_backends_set; [done|].
    unfold de_backends. cbn [de_table]. apply (de_entries_insert name _ _ [] ∅); [done|]. by apply de_backend_upsert.
Qed.

Lemma backend_write_ok st dr sid admin action name body status write w r w' :
  backend_write exchange kill_hup read_pid_file st dr sid admin action name body status write w = (r, w') ->
  (cr_status r < 400)%Z -> write w.2 = (Ok tt, w'.2).
Proof.
  unfold backend_write. destruct (write w.2) as [[[]|e] f1]; [|intros [= <- <-]; simpl; lia]. by intros [= <- <-].
Qed.

(** Saving a backend changes that backend and nothing else: after a create or an
    update the file reads as before but for the named entry, which has the
    submitted provider and endpoint, the API key kept when the request omits it,
    cleared when it is null and replaced when it is given, and the model kept
    unless given. *)
Theorem backend_saved st dr ed h f raw body w r w' :
  target (toml_path vars) f -> no_slash (ed_ts ed) = true ->
  (api_create_backend debug from_toml vars exchange kill_hup read_pid_file st dr ed h raw body w = (r, w') /\
     headed w.2 (trim raw) /\ cr_status r = 201%Z \/
   api_update_backend debug from_toml vars exchange kill_hup read_pid_file st dr ed h raw body w = (r, w') /\
     headed w.2 raw /\ cr_status r = 200%Z) ->
  let name := if Z.eqb (cr_status r) 201 then trim raw else raw in
  exists cfg, fresh_config from_toml vars w.2 = Ok cfg /\
    (cr_status r = 201%Z <-> cf_backends cfg !! name = None) /\
    saved w'.2 (with_backends (<[name := upserted body (cf_backends cfg !! name)]> (cf_backends cfg)) cfg).
Proof.
  intros Ht Hts [(E & Hh & Hs)|(E & Hh & Hs)].
  - unfold api_create_backend, mutating_with in E. destruct (admits st dr h w) as [[[admin sid]|[status m]] d'] eqn:Ea.
    2: { injection E as <- <-. apply mutating_user_status in Ea. simpl in Hs. lia. }
    destruct (require_console_admin admin) eqn:Er; [injection E as <- <-; apply require_admin_status in Er; lia|]. cbn [snd] in E.
    destruct (String.eqb _ ""); [by injection E as <- <-|]. destruct (validate_backend_name _); [|by injection E as <- <-].
    destruct (validate_backend_body _); [|by injection E as <- <-].
    destruct (fresh_config from_toml vars w.2) as [cfg|] eqn:Ec; [|by injection E as <- <-].
    destruct (known (cf_backends cfg) (trim raw)) eqn:Ek; [by injection E as <- <-|].
    apply backend_write_ok in E; [|lia..]. rewrite Hs. change (201 =? 201)%Z with true. exists cfg. split; [done|]. split.
    + split; [|done]. intros _. unfold known in Ek. by destruct (cf_backends cfg !! trim raw).
    + by eapply upsert_saved.
  - unfold api_update_backend, mutating_with in E. destruct (admits st dr h w) as [[[admin sid]|[status m]] d'] eqn:Ea.
    2: { injection E as <- <-. apply mutating_user_status in Ea. simpl in Hs. lia. }
    destruct (require_console_admin admin) eqn:Er; [injection E as <- <-; apply require_admin_status in Er; lia|]. cbn [snd] in E.
    destruct (validate_backend_name _); [|by injection E as <- <-]. destruct (validate_backend_body _); [|by injection E as <- <-].
    destruct (fresh_config from_toml vars w.2) as [cfg|] eqn:Ec; [|by injection E as <- <-].
    destruct (known (cf_backends cfg) raw) eqn:Ek; [|by injection E as <- <-]. cbn [negb] in E.
    apply backend_write_ok in E; [|lia..]. rewrite Hs. change (200 =? 201)%Z with false. exists cfg. split; [done|]. split.
    + split; [lia|]. simpl. unfold known in Ek. by destruct (cf_backends cfg !! raw).
    + by eapply upsert_saved.
Qed.

(** ** Deleting *)

(** No rule falls back on [name]. *)
Definition not_fallback (name : string) (cfg : Config) : Prop :=
  Forall (fun r => ~ In name (rt_fallback r)) (rc_rules (cf_routing cfg)).

Lemma known_delete bs name other : other <> name -> known (delete name bs) other = known bs other.
Proof. intros Hne. unfold known. by rewrite lookup_delete_ne. Qed.

Lemma check_fallbacks_delete bs name r seen fbs :
  ~ In name fbs -> check_fallbacks bs r seen fbs = Ok tt -> check_fallbacks (delete name bs) r seen fbs = Ok tt.
Proof.
  revert seen. induction fbs as [|fb fbs IH]; intros seen Hn; simpl in *; [done|]. rewrite known_delete by tauto.
  destruct (known bs fb); [|done]. simpl. destruct (String.eqb fb (rt_backend r)); [done|]. destruct (bool_decide _); [done|].
  apply IH. tauto.
Qed.

Lemma check_rules_delete bs name rules :
  Forall (fun r => rt_backend r <> name /\ ~ In name (rt_fallback r)) rules ->
  check_rules bs rules = Ok tt -> check_rules (delete name bs) rules = Ok tt.
Proof.
  induction 1 as [|r rules [Hb Hf] _ IH]; simpl; [done|]. rewrite known_delete by done. destruct (known bs (rt_backend r)); [|done].
  simpl. destruct (check_fallbacks bs r ∅ (rt_fallback r)) as [[]|] eqn:Ef; [|done].
  rewrite (check_fallbacks_delete _ _ _ _ _ Hf Ef). apply IH.
Qed.

(** Deleting a backend removes that entry from the file and nothing else.  With
    a default in the routing section, and when no rule lists the backend as a
    fallback, the pool resolved from the new file is still accepted. *)
Theorem backend_deleted st dr ed h f name w r w' :
  target (toml_path vars) f -> no_slash (ed_ts ed) = true ->
  (forall original t dec i, RustFs.read_to_string w.2 (toml_path vars) = Ok original -> doc_parse original = Ok (t, dec) ->
     tbl_get "backends" t = Some i -> exists b, i = TTable b) ->
  api_delete_backend debug from_toml vars exchange kill_hup read_pid_file st dr ed h name w = (r, w') ->
  cr_status r = 200%Z ->
  exists cfg, fresh_config from_toml vars w.2 = Ok cfg /\
    let cfg' := with_backends (delete name (cf_backends cfg)) cfg in
    saved w'.2 cfg' /\
    (forall d p, rc_default (cf_routing cfg) = Some d -> not_fallback name cfg -> pool (pool_config cfg) = Ok p ->
       is_ok (pool (pool_config cfg')) = true).
Proof.
  intros Ht Hts Hh E Hs. unfold api_delete_backend, mutating_with in E.
  destruct (admits st dr h w) as [[[admin sid]|[status m]] d'] eqn:Ea.
  2: { injection E as <- <-. apply mutating_user_status in Ea. simpl in Hs. lia. }
  destruct (require_console_admin admin) eqn:Er; [injection E as <- <-; apply require_admin_status in Er; lia|]. cbn [snd] in E.
  destruct (fresh_config from_toml vars w.2) as [cfg|] eqn:Ec; [|by injection E as <- <-].
  destruct (known (cf_backends cfg) name) eqn:Ek; [|by injection E as <- <-]. cbn [negb] in E.
  destruct (bool_decide_reflect (rc_default (cf_routing cfg) = Some name)) as [Hd|Hd]; [by injection E as <- <-|].
  destruct (existsb _ _) eqn:Ex; [by injection E as <- <-|].
  apply backend_write_ok in E; [|lia..]. exists cfg. split; [done|]. cbv zeta. split.
  - destruct (rewrite_saved _ _ _ _ f cfg Ht Hts Ec E) as (original & t & dec & t' & Erd & Ep & Hde & Hed & Hsv). apply Hsv.
    injection Hed as <-. unfold delete_backend_doc. pose proof (de_backends_at t cfg Hde) as Hbs.
    destruct (tbl_get "backends" t) as [i|] eqn:Eb; [|unfold known in Ek; by rewrite Hbs, lookup_empty in Ek].
    destruct (Hh original t dec i Erd Ep Eb) as [b ->]. simpl. apply de_backends_set; [done|]. by apply de_entries_remove.
  - intros d p Hdef Hnf Hp. unfold pool in *. simpl in *. rewrite Hdef in *. rewrite (known_nonempty _ _ Ek) in Hp.
    rewrite (known_nonempty _ _ Ek) in Hp. destruct (check_rules (cf_backends cfg) _) as [[]|] eqn:Ecr; [|done].
    destruct (known (cf_backends cfg) d) eqn:Ekd; [|done]. assert (Hne : d <> name) by congruence.
    assert (Hk : known (delete name (cf_backends cfg)) d = true) by (by rewrite known_delete).
    rewrite !(known_nonempty _ _ Hk). rewrite check_rules_delete; [by rewrite Hk|..|done].
    apply Forall_forall. intros rule Hin. unfold not_fallback in Hnf. rewrite Forall_forall in Hnf. split; [|by apply Hnf].
    intros Hb. rewrite existsb_false_iff in Ex. apply list_elem_of_In in Hin. specialize (Ex rule Hin). simpl in Ex.
    by rewrite Hb, String.eqb_refl in Ex.
Qed.
End BackendProps.
