(* ===== verification/ConsolePlay.v ===== *)
(** * The console's playground, overview and file view
    ([src/console/handlers.rs])

    The playground sends an operator's request through the proxy or straight to
    a configured backend and shows the answer; the overview is a digest of the
    configuration; the file view shows the configuration files. *)

From S2P Require Import Prelude RustStr Json Regex Redact ToolGate Matcher Policy Routing ClientAuth Spotlight Schema AuditTrail Proxy Admin Config Reload RustFs ConsoleDb ConsoleApi ConsoleEdit ConsoleViews ConsoleBackends.

(** ** The playground *)

Definition normalize_listen (listen : string) : string :=
  match strip_prefix "0.0.0.0:" listen with
  | Some port => "localhost:" +:+ port
  | None => match strip_prefix "[::]:" listen with
            | Some port => "localhost:" +:+ port
            | None => listen
            end
  end.

Record PlaygroundProxyRequest := mkProxyPlay { pp_body : value; pp_bearer : option string }.
Record PlaygroundBackendRequest := mkBackendPlay { pb_backend : string; pb_body : value }.
(** [PlaygroundResponse], as its serialisation. *)
Definition playground_response (where_ : string) (status latency_ms : Z) (body : value) (error : option string) : value :=
  obj ([("where", Str where_); ("status", Num (PosInt status)); ("latency_ms", Num (PosInt latency_ms)); ("body", body)] ++
       skip_none "error" error).

Section Playground.
Context `{Serde} `{Rfc3339} `{CookieCrate} `{SerdeStruct} `{Disk} `{Fs} (debug : string -> string)
  (from_toml : string -> result string Config) (vars : string -> option string).
(** The HTTP client: whether it can be built, what a request meets (no answer, or
    a status and the body, if it could be read), and how long that took. *)
Context (client : result string unit) (http : ChatRequest -> result string (Z * result string string)) (elapsed : Z).

(** The world with the files and the requests sent so far. *)
Definition PlayWorld : Type := ConsoleWorld * (fs * list ChatRequest).

Definition read_body_as_json (text : result string string) : value :=
  let text := match text with Ok t => t | Err _ => "" end in
  match from_str text with Ok v => v | Err _ => Str text end.
Definition record_playground_mutation (dr : Draw) (admin : User) (action where_ : string) : ConsoleWorld -> ConsoleWorld :=
  audit_mutation dr 0 admin action (Some where_) None None
    (us_username admin +:+ " ran playground request via " +:+ where_).
(** The end of every branch: a fresh CSRF token, the audit record, the answer. *)
Definition playground_done (dr : Draw) (admin : User) (session_id action where_ : string) (status : Z) (body : value)
    (w : PlayWorld) : ConsoleReply * PlayWorld :=
  let '(next, w1) := rotate_csrf dr session_id w.1 in
  (mkConsoleReply status (csrf_next_headers next) body, (record_playground_mutation dr admin action where_ w1, w.2)).
Definition playground_error_typed (dr : Draw) (admin : User) (session_id where_ : string) (code : Z) (err : string)
    : PlayWorld -> ConsoleReply * PlayWorld :=
  playground_done dr admin session_id "playground_error" where_ code (obj [("error", Str err)]).
Definition playground_error_response_with_latency (dr : Draw) (admin : User) (where_ session_id : string) (latency_ms : Z)
    (err : string) : PlayWorld -> ConsoleReply * PlayWorld :=
  playground_done dr admin session_id "playground_error" where_ 200 (playground_response where_ 0 latency_ms Null (Some err)).
Definition playground_error_response (dr : Draw) (admin : User) (where_ session_id err : string)
    : PlayWorld -> ConsoleReply * PlayWorld :=
  playground_error_response_with_latency dr admin where_ session_id 0 err.

(** One request and its answer, as both endpoints make it. *)
Definition playground_send (dr : Draw) (admin : User) (session_id action where_ : string) (req : ChatRequest) (w : PlayWorld)
    : ConsoleReply * PlayWorld :=
  match client with
  | Err e => playground_error_response dr admin where_ session_id e w
  | Ok _ =>
      let w1 := (w.1, (w.2.1, w.2.2 ++ [req])) in
      match http req with
      | Err e => playground_error_response_with_latency dr admin where_ session_id elapsed e w1
      | Ok (status, text) =>
          playground_done dr admin session_id action where_ 200
            (playground_response where_ status elapsed (read_body_as_json text) None) w1
      end
  end.

Definition api_playground_proxy (st : ConsoleState) (dr : Draw) (h : ConsoleHeaders) (req : PlaygroundProxyRequest)
    : PlayWorld -> ConsoleReply * PlayWorld :=
  mutating_with st dr h (fun admin session_id w =>
    match require_console_admin admin with
    | Some e => (e, w)
    | None =>
        let url := "http://" +:+ normalize_listen (sc_listen (cf_nanoguard (cs_config st))) +:+ "/v1/chat/completions" in
        playground_send dr admin session_id "playground_proxy" "proxy" (mkRequest url (pp_body req) (pp_bearer req)) w
    end).

Definition playground_send_backend (dr : Draw) (admin : User) (session_id : string) (backend : BackendConfig) (body : value)
    : PlayWorld -> ConsoleReply * PlayWorld :=
  playground_send dr admin session_id "playground_backend" ("backend:" +:+ bc_provider backend)
    (mkRequest (endpoint backend +:+ "/v1/chat/completions") body (bc_api_key backend)).
(** The backend a label names: one of the table, or the legacy section as
    [default]. *)
Definition playground_target (cfg : Config) (label : string) : option BackendConfig :=
  match cf_backends cfg !! label with
  | Some b => Some b
  | None => if String.eqb label "default" then cf_backend cfg else None
  end.
Definition api_playground_backend (st : ConsoleState) (dr : Draw) (h : ConsoleHeaders) (req : PlaygroundBackendRequest)
    : PlayWorld -> ConsoleReply * PlayWorld :=
  mutating_with st dr h (fun admin session_id w =>
    match require_console_admin admin with
    | Some e => (e, w)
    | None =>
        match fresh_config from_toml vars w.2.1 with
        | Err e => playground_error_typed dr admin session_id "backend" 500 ("re-parse failed: " +:+ e) w
        | Ok cfg =>
            match playground_target cfg (pb_backend req) with
            | Some backend => playground_send_backend dr admin session_id backend (pb_body req) w
            | None =>
                playground_error_typed dr admin session_id ("backend:" +:+ pb_backend req) 404
                  ("backend `" +:+ pb_backend req +:+ "` not configured") w
            end
        end
    end).
End Playground.

(** ** The overview *)

Definition pii_action_debug (a : PiiAction) : string :=
  match a with Mask => "Mask" | Reject => "Reject" | Log => "Log" end.
Record GuardItem := mkGuard { gi_name : string; gi_enabled : bool; gi_summary : string }.
Definition guard_value (g : GuardItem) : value :=
  obj [("name", Str (gi_name g)); ("enabled", Bool (gi_enabled g)); ("summary", Str (gi_summary g))].
Definition master_summary (on : bool) : string := if on then "running" else "disabled — child guards do not run".
Definition guard_digest (cfg : Config) : list GuardItem :=
  let i := cf_input cfg in
  let o := cf_output cfg in
  let input_note := if in_enabled i then "" else " (input pipeline disabled)" in
  let output_note := if out_enabled o then "" else " (output pipeline disabled)" in
  let count {A} (l : list A) := show_Z (Z.of_nat (length l)) in
  let bundle := default "" (po_bundle_path (cf_policies cfg)) in
  [mkGuard "Input pipeline (master)" (in_enabled i) (master_summary (in_enabled i));
   mkGuard "Input keyword block list" (in_enabled i)
     (count (kc_inline_block (in_keyword i)) +:+ " inline_block / " +:+ count (kc_inline_alert (in_keyword i)) +:+
      " inline_alert / " +:+ count (kc_inline_flag (in_keyword i)) +:+ " inline_flag keywords" +:+ input_note);
   mkGuard "Input PII redaction" (in_enabled i && pii_enabled (in_pii i))
     ("action = " +:+ pii_action_debug (pii_action (in_pii i)) +:+ input_note);
   mkGuard "Spotlighting" (in_enabled i && ss_enabled (in_spotlight i))
     ("method = " +:+ ss_method (in_spotlight i) +:+ input_note);
   mkGuard "Output pipeline (master)" (out_enabled o) (master_summary (out_enabled o));
   mkGuard "Output PII redaction" (out_enabled o && pii_enabled (out_pii o))
     ("action = " +:+ pii_action_debug (pii_action (out_pii o)) +:+ output_note);
   mkGuard "Output schema validation" (out_enabled o && os_enabled (out_schema o))
     (count (os_rules (out_schema o)) +:+ " rule(s); on_violation = " +:+ os_on_violation (out_schema o) +:+ output_note);
   mkGuard "Tool gate" (to_enabled (cf_tools cfg))
     (count (default [] (to_allow (cf_tools cfg))) +:+ " allow / " +:+ count (to_deny (cf_tools cfg)) +:+ " deny rule(s)");
   mkGuard "Policy bundle" (negb (String.eqb bundle ""))
     (if String.eqb bundle "" then "no bundle configured" else "path = " +:+ bundle)].

Section Overview.
Context `{Rfc3339} `{CookieCrate} `{SerdeStruct} `{Disk}.
(** The orders of a [BTreeMap] and of SQLite's rows. *)
Context (sorted : list (string * BackendConfig) -> list (string * BackendConfig))
  (order_by_created : list ClientTokenRow -> list ClientTokenRow).

Definition overview_backend (default_backend : string) (nb : string * BackendConfig) : value :=
  let '(name, b) := nb in
  obj [("name", Str name); ("provider", Str (bc_provider b)); ("endpoint", Str (bc_endpoint b));
       ("model", opt_value (bc_model b)); ("is_default", Bool (String.eqb name default_backend))].
(** The pool shown: an empty one when the configuration has none. *)
Definition overview_pool (cfg : Config) : BackendPool :=
  match pool (pool_config cfg) with Ok (view, _) => view | Err _ => mkPool ∅ [] "" end.
(** The single backend older pages show. *)
Definition overview_single (default_backend : string) (backends : list value) : value :=
  match List.find (fun b => bool_decide (get_str "name" b = Some default_backend)) backends with
  | Some b => b
  | None => match backends with b :: _ => b | [] => obj [] end
  end.
Definition api_overview {E} (st : ConsoleState) (now : Z) (h : ConsoleHeaders)
    : ConsoleWorld * E -> ConsoleReply * (ConsoleWorld * E) :=
  reading st now h (fun user w =>
    let cfg := cs_config st in
    let listen := sc_listen (cf_nanoguard cfg) in
    let view := overview_pool cfg in
    let backends := map (overview_backend (bp_default_backend view)) (sorted (map_to_list (bp_backends view))) in
    let live := List.filter (fun r => match ct_revoked_at r with None => true | Some _ => false end)
                  (list_for_user order_by_created (cd_tokens (cw_db w.1)) (us_id user)) in
    mkConsoleReply 200 []
      (obj [("proxy_url", Str ("http://" +:+ normalize_listen listen)); ("listen", Str listen);
            ("auth", obj [("enabled", Bool (au_enabled (cf_auth cfg))); ("env_marker", Str (au_env_marker (cf_auth cfg)))]);
            ("backend", overview_single (bp_default_backend view) backends); ("backends", Arr backends);
            ("routing", obj [("default", Str (bp_default_backend view)); ("rules", Arr (map rule_value (bp_rules view)))]);
            ("guards", Arr (map guard_value (guard_digest cfg)));
            ("user_token_count", Num (PosInt (Z.of_nat (length live))));
            ("endpoints", Arr (map Str ["/v1/chat/completions"; "/v1/messages"; "/v1/models"; "/health"]))])).
End Overview.

(** ** The files *)

Section ConfigView.
Context `{Fs}.
(** The files of a directory with an extension, by path. *)
Definition family (s : fs) (dir ext : string) : list (string * string) :=
  match read_dir s dir with
  | Err _ => []
  | Ok entries =>
      omap (fun e =>
        let path := path_join dir (de_name e) in
        if String.eqb (extension path) ext then
          match RustFs.read_to_string s path with Ok content => Some (path, content) | Err _ => None end
        else None) entries
  end.
(** The handler takes no user. *)
Definition api_config (s : fs) : ConsoleReply :=
  let toml := match RustFs.read_to_string s "nanoguard.toml" with Ok c => [("nanoguard.toml", c)] | Err _ => [] end in
  let files := toml ++ family s "dicts" "txt" ++ family s "policies" "yaml" in
  mkConsoleReply 200 [] (obj [("files", obj (map (fun kv => (kv.1, Str kv.2)) files))]).
End ConfigView.

(** ** Properties: the playground *)

Section PlayProps.
Context `{Serde} `{Rfc3339} `{CookieCrate} `{SerdeStruct} `{Disk} `{Fs}
  (from_toml : string -> result string Config) (vars : string -> option string).
Context (client : result string unit) (http : ChatRequest -> result string (Z * result string string)) (elapsed : Z).
Notation admits st dr h w := (mutating_user (cs_console st) (dr_now dr) (ch_cookie h ≫= header_to_str)
  (ch_csrf h ≫= header_to_str) (cw_db w.1)).

Lemma admitted_touches st dr h (w : PlayWorld) u sid d' :
  admits st dr h w = (Ok (u, sid), d') ->
  d' = touch_session (cw_db w.1) (dr_now dr) sid /\ exists s, session_by_id (cw_db w.1) sid = Some s.
Proof.
  unfold mutating_user. destruct (extract_session_id _ _) as [id|]; [|done].
  destruct (load_session _ _ _ id) as [[[[u'|] t]|] d1] eqn:El; [|done..]. destruct (us_disabled u'); [done|].
  destruct t as [t|]; [|done]. destruct (_ ≫= decode_csrf_token) as [p|]; [|done]. destruct (csrf_tokens_match p t); [|done].
  intros [= <- <- <-]. apply load_session_Some in El as (s & Hs & _ & _ & _ & ->). split; [done|]. by exists s.
Qed.

(** An admitted session is still there to be given a fresh token. *)
Lemma rotate_admitted st dr h (w : PlayWorld) u sid d' :
  admits st dr h w = (Ok (u, sid), d') ->
  (rotate_csrf dr sid (with_db d' w.1)).1 = Some (encode_csrf_token (dr_csrf dr)).
Proof.
  intros Ea. apply admitted_touches in Ea as [-> [s Hs]]. unfold rotate_csrf, rotate_csrf_token, update_sessions. cbn [fst].
  destruct (Z.ltb_spec 0 (Z.of_nat (length (List.filter (fun s => String.eqb (se_id s) sid)
    (cd_sessions (cw_db (with_db (touch_session (cw_db w.1) (dr_now dr) sid) w.1))))))) as [Hn|Hn]; [done|exfalso].
  apply find_some in Hs as [Hin Hid]. pose (s' := set_last_seen (to_rfc3339 (dr_now dr)) s).
  assert (Hs' : In s' (List.filter (fun s => String.eqb (se_id s) sid)
    (cd_sessions (cw_db (with_db (touch_session (cw_db w.1) (dr_now dr) sid) w.1))))).
  { apply filter_In. split; [|exact Hid]. simpl. apply in_map_iff. exists s. split; [by rewrite Hid|done]. }
  destruct (List.filter _ _); simpl in *; [done|lia].
Qed.

Lemma done_spec st dr h (w : PlayWorld) u sid d' x action where_ status body r w' :
  admits st dr h w = (Ok (u, sid), d') ->
  playground_done dr u sid action where_ status body (with_db d' w.1, x) = (r, w') ->
  w'.2 = x /\ cw_audit w'.1 = cw_audit (record_playground_mutation dr u action where_ w.1) /\
  cr_status r = status /\ cr_headers r = csrf_next_headers (Some (encode_csrf_token (dr_csrf dr))).
Proof.
  intros Ea Ed. unfold playground_done in Ed. cbn [fst snd] in Ed. pose proof (rotate_admitted _ _ _ _ _ _ _ Ea) as Hn.
  destruct (rotate_csrf dr sid _) as [next w1] eqn:Er. cbn [fst] in Hn. subst next. injection Ed as <- <-. simpl. split; [done|].
  split; [|done]. unfold rotate_csrf in Er. destruct (rotate_csrf_token _ _ _). by injection Er as _ <-.
Qed.

(** What one playground call does to the network, and how it ends. *)
Lemma send_spec st dr h (w : PlayWorld) u sid d' action where_ req r w' :
  admits st dr h w = (Ok (u, sid), d') ->
  playground_send client http elapsed dr u sid action where_ req (with_db d' w.1, w.2) = (r, w') ->
  w'.2.1 = w.2.1 /\ (w'.2.2 = w.2.2 \/ w'.2.2 = w.2.2 ++ [req]) /\
  (exists a, In a [action; "playground_error"] /\ cw_audit w'.1 = cw_audit (record_playground_mutation dr u a where_ w.1)) /\
  cr_headers r = csrf_next_headers (Some (encode_csrf_token (dr_csrf dr))).
Proof.
  intros Ea E. unfold playground_send, playground_error_response, playground_error_response_with_latency in E.
  destruct client as [[]|e]; [destruct (http req) as [[status text]|e]|].
  all: eapply done_spec in E as (Hx & Ha & _ & Hh); [|exact Ea]; rewrite Hx, Ha, Hh.
  all: split; [done|]; split; [by (left + right)|]; split; [|done]; eexists; (split; [|reflexivity]); simpl; tauto.
Qed.

(** The playground reaches only what is configured.  A call changes no file and
    sends at most one request; it sends one only for a caller the extractor
    admitted as an administrator, to the endpoint and with the key that the
    configuration file holds for the label, and with the submitted body
    unchanged.  Whatever the outcome, an admitted administrator's call leaves
    one audit record, which depends on the action and its target and not on the
    prompt, and announces the next CSRF token. *)
Theorem playground_backend_confined st dr h req w r w' :
  api_playground_backend from_toml vars client http elapsed st dr h req w = (r, w') ->
  w'.2.1 = w.2.1 /\
  (w'.2.2 = w.2.2 \/
   exists admin sid cfg b, (admits st dr h w).1 = Ok (admin, sid) /\ us_role admin = "admin" /\
     fresh_config from_toml vars w.2.1 = Ok cfg /\ playground_target cfg (pb_backend req) = Some b /\
     w'.2.2 = w.2.2 ++ [mkRequest (endpoint b +:+ "/v1/chat/completions") (pb_body req) (bc_api_key b)]) /\
  (forall admin sid, (admits st dr h w).1 = Ok (admin, sid) -> us_role admin = "admin" ->
     exists action where_, In action ["playground_backend"; "playground_error"] /\
       cw_audit w'.1 = cw_audit (record_playground_mutation dr admin action where_ w.1) /\
       cr_headers r = csrf_next_headers (Some (encode_csrf_token (dr_csrf dr)))).
Proof.
  intros E. unfold api_playground_backend, mutating_with in E.
  destruct (admits st dr h w) as [[[admin sid]|[status m]] d'] eqn:Ea; [|injection E as <- <-; naive_solver].
  destruct (require_console_admin admin) as [e|] eqn:Er.
  { injection E as <- <-. split; [done|]. split; [by left|]. intros a s [= <- <-] Hrole. unfold require_console_admin in Er.
    by rewrite Hrole in Er. }
  apply admin_role in Er. cbn [snd] in E. destruct (fresh_config from_toml vars w.2.1) as [cfg|err] eqn:Ec.
  2: { eapply done_spec in E as (Hx & Ha & _ & Hh); [|exact Ea]. rewrite Hx. split; [done|]. split; [by left|].
       intros a s [= <- <-] _. exists "playground_error", "backend". simpl; tauto. }
  destruct (playground_target cfg (pb_backend req)) as [b|] eqn:Et.
  2: { eapply done_spec in E as (Hx & Ha & _ & Hh); [|exact Ea]. rewrite Hx. split; [done|]. split; [by left|].
       intros a s [= <- <-] _. exists "playground_error", ("backend:" +:+ pb_backend req). simpl; tauto. }
  eapply send_spec in E as (Hx & Hs & (act & Hin & Ha) & Hh); [|exact Ea]. split; [done|]. split.
  - destruct Hs as [Hs|Hs]; [by left|right]. exists admin, sid, cfg, b. done.
  - intros a s [= <- <-] _. by exists act, ("backend:" +:+ bc_provider b).
Qed.
End PlayProps.

(** ** Properties: the overview against the built state *)

Section OverviewProps.
Context `{Unicode} `{RegexEngine} `{AhoCorasick} `{Iword} `{Serde} `{JsonSchema} (from_yaml : string -> result string Policy).

(** What the digest says of a guard. *)
Definition shown (name : string) (cfg : Config) : option bool :=
  gi_enabled <$> List.find (fun g => String.eqb (gi_name g) name) (guard_digest cfg).
Definition is_set {A} (o : option A) : bool := match o with Some _ => true | None => false end.

(** What is built from each section. *)
Lemma built_guards env cfg handles sn :
  build_app_state from_yaml env cfg handles = Ok sn ->
  let a := sn_app sn in
  pc_input_enabled (st_config a) = in_enabled (cf_input cfg) /\
  pc_pii_enabled (st_config a) = pii_enabled (in_pii (cf_input cfg)) /\
  is_set (st_spotlight a) = ss_enabled (in_spotlight (cf_input cfg)) /\
  pc_output_enabled (st_config a) = out_enabled (cf_output cfg) /\
  is_set (st_schema a) = os_enabled (out_schema (cf_output cfg)) /\
  is_set (st_tool_gate a) = to_enabled (cf_tools cfg) /\
  is_set (st_policy a) = negb (String.eqb (default "" (po_bundle_path (cf_policies cfg))) "").
Proof.
  unfold build_app_state. intros E. destruct (merge_policy from_yaml env cfg) as [[cfg1 idx]|] eqn:Em; [|done].
  assert (Hm : proxy_config cfg1 = proxy_config cfg /\ in_spotlight (cf_input cfg1) = in_spotlight (cf_input cfg) /\
    cf_output cfg1 = cf_output cfg /\ cf_tools cfg1 = cf_tools cfg /\
    is_set idx = negb (String.eqb (default "" (po_bundle_path (cf_policies cfg))) "")).
  { unfold merge_policy in Em. destruct (po_bundle_path (cf_policies cfg)) as [path|]; [|by injection Em as <- <-]. simpl.
    destruct (String.eqb path ""); [by injection Em as <- <-|]. destruct (from_path _ _ _); [|done]. by injection Em as <- <-. }
  destruct Hm as (Hp & Hsp & Ho & Ht & Hi). destruct (matchers_build _ _); [|done]. destruct (build_with_style _ _ _ _) as [red|]; [|done].
  rewrite Ho, Ht, Hp, Hsp in E. destruct (build_schema _ _) as [sc|] eqn:Es; [|done].
  destruct (build_tool_gate _ _ _) as [tg|] eqn:Et; [|done]. destruct (pool _) as [[view warn]|]; [|done]. injection E as <-. simpl.
  unfold build_spotlight, build_schema, build_tool_gate in *. repeat split; [..|done].
  - by destruct (ss_enabled _).
  - destruct (os_enabled _); [destruct (load_rules _ _); [|done]|]; by injection Es as <-.
  - destruct (to_enabled _); [destruct (load_tool_schemas _ _ _); [|done]|]; by injection Et as <-.
Qed.

(** Where the pipelines are on, the overview is the truth: whatever it shows as
    enabled or disabled is what the state built from that configuration applies:
    the keyword scan, PII masking, spotlighting, the schema validator, the tool
    gate and the policy bundle. *)
Theorem overview_agrees env cfg handles sn :
  build_app_state from_yaml env cfg handles = Ok sn ->
  in_enabled (cf_input cfg) = true -> out_enabled (cf_output cfg) = true ->
  let a := sn_app sn in
  shown "Input keyword block list" cfg = Some (pc_input_enabled (st_config a)) /\
  shown "Input PII redaction" cfg = Some (pc_pii_enabled (st_config a)) /\
  shown "Spotlighting" cfg = Some (is_set (st_spotlight a)) /\
  shown "Output pipeline (master)" cfg = Some (pc_output_enabled (st_config a)) /\
  shown "Output schema validation" cfg = Some (is_set (st_schema a)) /\
  shown "Tool gate" cfg = Some (is_set (st_tool_gate a)) /\
  shown "Policy bundle" cfg = Some (is_set (st_policy a)).
Proof.
  intros E Hi Ho. apply built_guards in E. cbv zeta in *. destruct E as (-> & -> & -> & -> & -> & -> & ->).
  unfold shown. simpl. by rewrite Hi, Ho.
Qed.

(** With the input pipeline off the overview shows PII masking and spotlighting
    as off, and the state applies both all the same, as configured; with the
    output pipeline off it shows the schema validator as off, and the state has
    it. *)
Theorem overview_hides_running env cfg handles sn :
  build_app_state from_yaml env cfg handles = Ok sn ->
  in_enabled (cf_input cfg) = false -> out_enabled (cf_output cfg) = false ->
  shown "Input PII redaction" cfg = Some false /\ shown "Spotlighting" cfg = Some false /\
  shown "Output schema validation" cfg = Some false /\
  pc_pii_enabled (st_config (sn_app sn)) = pii_enabled (in_pii (cf_input cfg)) /\
  is_set (st_spotlight (sn_app sn)) = ss_enabled (in_spotlight (cf_input cfg)) /\
  is_set (st_schema (sn_app sn)) = os_enabled (out_schema (cf_output cfg)).
Proof.
  intros E Hi Ho. apply built_guards in E as (_ & Hp & Hs & _ & Hsc & _). unfold shown. simpl. by rewrite Hi, Ho.
Qed.

(** The section the overview shows as output PII redaction has no effect: the
    state built is the same whatever it says. *)
Definition set_out_pii (p : PiiConfig) (c : Config) : Config :=
  mkConfig (cf_nanoguard c) (cf_backend c) (cf_backends c) (cf_routing c) (cf_input c)
    (mkOutput (out_enabled (cf_output c)) p (out_schema (cf_output c))) (cf_budget c) (cf_audit c) (cf_tools c)
    (cf_policies c) (cf_auth c) (cf_console c) (cf_reload c).
Definition app_of (r : result string Snapshot) : result string AppState :=
  match r with Ok sn => Ok (sn_app sn) | Err e => Err e end.
Theorem output_pii_ignored env cfg handles p :
  app_of (build_app_state from_yaml env (set_out_pii p cfg) handles) = app_of (build_app_state from_yaml env cfg handles).
Proof.
  unfold build_app_state, merge_policy. simpl. destruct (po_bundle_path (cf_policies cfg)) as [path|];
    [destruct (String.eqb path ""); [|destruct (from_path _ _ _) as [policy|]; [|done]]|].
  all: simpl; destruct (matchers_build _ _); [|done]; destruct (build_with_style _ _ _ _); [|done].
  all: destruct (build_schema _ _); [|done]; destruct (build_tool_gate _ _ _); [|done].
  all: unfold pool_config; simpl; destruct (pool _) as [[view warn]|]; done.
Qed.
End OverviewProps.

(** ** Properties: the file view *)

Lemma family_keys `{Fs} s dir ext kv : In kv (family s dir ext) -> exists n, kv.1 = path_join dir n.
Proof.
  unfold family. destruct (read_dir s dir) as [entries|]; [|done]. intros Hin%list_elem_of_In.
  apply list_elem_of_omap in Hin as (e & _ & E). cbv zeta in E. destruct (String.eqb _ _); [|done].
  destruct (RustFs.read_to_string _ _); [|done]. injection E as <-. by eexists.
Qed.

(** Whoever asks is shown the configuration file as it is, keys and session
    secret included: the answer depends on the files alone. *)
Theorem config_view_public `{Fs} s content :
  RustFs.read_to_string s "nanoguard.toml" = Ok content ->
  cr_status (api_config s) = 200%Z /\ get "files" (cr_body (api_config s)) ≫= get_str "nanoguard.toml" = Some content.
Proof.
  intros Hr. split; [done|]. unfold api_config. rewrite Hr. simpl.
  set (rest := map _ _). assert (Hrest : Forall (fun kv => kv.1 <> "nanoguard.toml") rest).
  { apply Forall_forall. intros kv Hkv%list_elem_of_In. apply in_map_iff in Hkv as (x & <- & Hx). simpl.
    apply in_app_or in Hx as [Hx|Hx]; apply family_keys in Hx as [n ->]; done. }
  unfold obj, get_str, get. simpl. rewrite map_get_foldl by done. done.
Qed.
