(* ===== verification/ConsoleStart.v ===== *)
(** * Starting the console ([src/console/mod.rs])

    The checks before the runtime starts, and what the server does before it
    accepts its first request: the session secret, the database, the bootstrap
    administrator, the cookie flag and the audit log. *)

From S2P Require Import Prelude RustStr Json Matcher ClientAuth AuditTrail Proxy Admin Config Reload RustNet ConsoleDb ConsoleApi ConsoleInv.

(** ** Before the runtime *)

Definition set_session_secret (secret : string) (cfg : Config) : Config :=
  let c := cf_console cfg in
  mkConfig (cf_nanoguard cfg) (cf_backend cfg) (cf_backends cfg) (cf_routing cfg) (cf_input cfg) (cf_output cfg) (cf_budget cfg)
    (cf_audit cfg) (cf_tools cfg) (cf_policies cfg) (cf_auth cfg)
    (mkConsole (co_enabled c) (co_listen c) secret (co_session_ttl_hours c) (co_audit_path c) (co_backup_limit c)
       (co_session_idle_timeout_hours c) (co_max_login_attempts c) (co_lockout_duration_minutes c) (co_auth c))
    (cf_reload cfg).
Definition bootstrap_admin (cfg : Config) : option BootstrapAdminConfig := la_bootstrap_admin (cx_local (co_auth (cf_console cfg))).

(** The secret of the environment, when there is one, over the file's. *)
Definition env_secret (vars : string -> option string) (cfg : Config) : Config :=
  match vars "CONSOLE_SESSION_SECRET" with
  | Some secret => if String.eqb secret "" then cfg else set_session_secret secret cfg
  | None => cfg
  end.
(** The configuration to run with, and the bootstrap password. *)
Definition prepare_for_run (vars : string -> option string) (cfg : Config) : result string (option string * Config) :=
  let cfg1 := env_secret vars cfg in
  let secret := co_session_secret (cf_console cfg1) in
  if negb (String.eqb secret "") && Nat.ltb (String.length secret) 32
  then Err ("[console] session_secret must be at least 32 bytes (got " +:+ show_Z (Z.of_nat (String.length secret)) +:+
            "). Generate one with: openssl rand -hex 32")
  else Ok (bootstrap_admin cfg1 ≫= fun b => vars (ba_password_env b), cfg1).

(** ** The server, up to its first request *)

Section Run.
Context `{Unicode} `{Argon2} `{Disk}.
(** The database with its tables, and the audit log, at a path. *)
Context (open_db : string -> result string ConsoleDb) (open_log : string -> result string disk).

(** [secret_bytes] and [salt] are random. *)
Definition ensure_secret (secret_bytes : string) (cfg : Config) : Config :=
  if String.eqb (co_session_secret (cf_console cfg)) "" then set_session_secret (hex_bytes secret_bytes) cfg else cfg.
Definition bootstrap (salt now : string) (cfg : Config) (password : option string) (d : ConsoleDb) : result string ConsoleDb :=
  match bootstrap_admin cfg, password with
  | Some b, Some pw =>
      if Nat.ltb (String.length pw) 12
      then Err ("Bootstrap password for '" +:+ ba_username b +:+ "' must be at least 12 characters")
      else if is_common_password pw then Err ("Bootstrap password for '" +:+ ba_username b +:+ "' is too common")
      else
        let? hash := argon2_hash salt pw in
        let? (_, d') := maybe_bootstrap_admin d now (ba_username b) hash in
        Ok d'
  | _, _ => Ok d
  end.
Definition run (secret_bytes salt now : string) (cfg0 : Config) (password : option string)
    : result string (ConsoleState * ConsoleWorld) :=
  let cfg := ensure_secret secret_bytes cfg0 in
  let? d := open_db (bu_db_path (cf_budget cfg)) in
  let? d' := bootstrap salt now cfg password d in
  let? listen := parse_socket_addr (co_listen (cf_console cfg)) in
  let secure_cookie := negb (is_loopback listen) in
  let audit_log := match open_log (co_audit_path (cf_console cfg)) with Ok f => Some f | Err _ => None end in
  Ok (mkConsoleState cfg secure_cookie, mkConsoleWorld d' audit_log).

(** ** Properties *)

Lemma hex_bytes_length s : String.length (hex_bytes s) = 2 * String.length s.
Proof. induction s as [|c s IH]; simpl; [done|]. rewrite IH. lia. Qed.

(** What a successful start did. *)
Lemma run_spec secret_bytes salt now cfg pw st w :
  run secret_bytes salt now cfg pw = Ok (st, w) ->
  cs_config st = ensure_secret secret_bytes cfg /\
  (exists a, parse_socket_addr (co_listen (cs_console st)) = Ok a /\ cs_secure_cookie st = negb (is_loopback a)) /\
  exists d, open_db (bu_db_path (cf_budget cfg)) = Ok d /\ bootstrap salt now cfg pw d = Ok (cw_db w).
Proof.
  unfold run. intros E.
  assert (Hb : bu_db_path (cf_budget (ensure_secret secret_bytes cfg)) = bu_db_path (cf_budget cfg) /\
    bootstrap_admin (ensure_secret secret_bytes cfg) = bootstrap_admin cfg) by (unfold ensure_secret; destruct (String.eqb _ _); split; reflexivity).
  destruct Hb as [Hp Hb]. rewrite Hp in E. destruct (open_db _) as [d|] eqn:Ed; [|done].
  assert (Hbs : bootstrap salt now (ensure_secret secret_bytes cfg) pw d = bootstrap salt now cfg pw d)
    by (unfold bootstrap; by rewrite Hb).
  rewrite Hbs in E. destruct (bootstrap salt now cfg pw d) as [d'|] eqn:Eb; [|done].
  destruct (parse_socket_addr _) as [a|] eqn:Ea; [|done]. injection E as <- <-. split; [done|]. split; [by exists a|]. by exists d.
Qed.

Lemma start_spec vars secret_bytes salt now cfg cfg' pw st w :
  prepare_for_run vars cfg = Ok (pw, cfg') -> String.length secret_bytes = 32 ->
  run secret_bytes salt now cfg' pw = Ok (st, w) ->
  32 <= String.length (co_session_secret (cs_console st)) /\
  (exists a, parse_socket_addr (co_listen (cf_console cfg)) = Ok a /\ cs_secure_cookie st = negb (is_loopback a)) /\
  exists d, open_db (bu_db_path (cf_budget cfg)) = Ok d /\
    (cd_users d <> [] -> cw_db w = d) /\
    (cd_users d = [] ->
       match bootstrap_admin cfg ≫= (fun b => pair b <$> vars (ba_password_env b)) with
       | Some (b, p) => exists hash, argon2_hash salt p = Ok hash /\ 12 <= String.length p /\ is_common_password p = false /\
           cw_db w = with_users [mkUser 1 (ba_username b) (Some (ba_username b)) None "admin" false false "[]" None None
                                   (Some hash) None now None] d
       | None => cw_db w = d
       end).
Proof.
  intros Hp Hl Hr. apply run_spec in Hr as (Hc & Ha & d & Hd & Hb). unfold prepare_for_run in Hp. cbv zeta in Hp.
  set (cfg1 := env_secret vars cfg) in Hp.
  assert (Hsame : co_listen (cf_console cfg1) = co_listen (cf_console cfg) /\ cf_budget cfg1 = cf_budget cfg /\
    bootstrap_admin cfg1 = bootstrap_admin cfg) by (unfold cfg1, env_secret; destruct (vars _) as [x|]; [destruct (String.eqb x "")|]; done).
  destruct Hsame as (Hli & Hbu & Hba). destruct (_ && _) eqn:Es in Hp; [done|]. injection Hp as <- <-.
  assert (Hsec : 32 <= String.length (co_session_secret (cs_console st)) /\
    co_listen (cs_console st) = co_listen (cf_console cfg1)).
  { unfold cs_console. rewrite Hc. unfold ensure_secret. destruct (String.eqb (co_session_secret (cf_console cfg1)) "") eqn:Ee.
    - simpl. rewrite hex_bytes_length. split; [lia|done].
    - simpl in Es. split; [|done]. apply Nat.ltb_ge in Es. done. }
  destruct Hsec as [Hsec Hli2]. split; [done|]. split; [by rewrite Hli2, Hli in Ha|]. exists d. rewrite <-Hbu. split; [done|].
  unfold bootstrap in Hb. rewrite Hba in Hb. destruct (bootstrap_admin cfg) as [b|]; [|by injection Hb as <-]. simpl in *.
  destruct (vars (ba_password_env b)) as [p|] eqn:Ep; [|by injection Hb as <-]. simpl.
  destruct (Nat.ltb_spec (String.length p) 12) as [|H12]; [done|]. destruct (is_common_password p) eqn:Ec; [done|].
  destruct (argon2_hash salt p) as [hash|] eqn:Eh; [|done]. unfold maybe_bootstrap_admin, insert_user in Hb.
  destruct (cd_users d) as [|u us] eqn:Eu; simpl in Hb; [|by injection Hb as <-]. split; [done|]. intros _.
  exists hash. unfold user_by_username in Hb. rewrite Eu in Hb. simpl in Hb. by injection Hb as <-.
Qed.

(** C22: A console that starts is safe to serve: it signs cookies with a secret of at
    least 32 bytes, from the environment, the file or drawn afresh; its cookies
    are marked secure exactly when it listens elsewhere than on loopback; and an
    existing user table is left exactly as it was, whatever bootstrap password
    the environment holds, while an empty one gains exactly the bootstrap
    administrator when one is configured and has a password, with a hash of it,
    and the password is neither short nor common. *)
Theorem console_starts_safely vars secret_bytes salt now cfg cfg' pw st w :
  prepare_for_run vars cfg = Ok (pw, cfg') -> String.length secret_bytes = 32 ->
  run secret_bytes salt now cfg' pw = Ok (st, w) ->
  32 <= String.length (co_session_secret (cs_console st)) /\
  (exists a, parse_socket_addr (co_listen (cf_console cfg)) = Ok a /\ cs_secure_cookie st = negb (is_loopback a)) /\
  exists d, open_db (bu_db_path (cf_budget cfg)) = Ok d /\
    (cd_users d <> [] -> cw_db w = d) /\
    (cd_users d = [] ->
       match bootstrap_admin cfg ≫= (fun b => pair b <$> vars (ba_password_env b)) with
       | Some (b, p) => exists hash, argon2_hash salt p = Ok hash /\ 12 <= String.length p /\ is_common_password p = false /\
           cw_db w = with_users [mkUser 1 (ba_username b) (Some (ba_username b)) None "admin" false false "[]" None None
                                   (Some hash) None now None] d
       | None => cw_db w = d
       end).
Proof. apply start_spec. Qed.
End Run.

Section FirstLogin.
Context `{Unicode} `{Argon2Laws} `{Disk} `{Rfc3339} `{CookieCrate} `{SerdeStruct}.
Context (open_db : string -> result string ConsoleDb) (open_log : string -> result string disk).

(** The bootstrap administrator gets in: once a console has started on an empty
    database with a bootstrap user and password, the first login with them
    succeeds, from whatever address. *)
Theorem bootstrap_admin_logs_in vars secret_bytes salt now cfg cfg' pw st w b p dr h :
  prepare_for_run vars cfg = Ok (pw, cfg') -> String.length secret_bytes = 32 ->
  run open_db open_log secret_bytes salt now cfg' pw = Ok (st, w) ->
  open_db (bu_db_path (cf_budget cfg)) = Ok (mkConsoleDb [] [] [] []) ->
  bootstrap_admin cfg = Some b -> vars (ba_password_env b) = Some p -> is_utf8 p = true ->
  (0 < co_max_login_attempts (cs_console st))%Z ->
  cr_status (api_login st dr h (mkLogin (ba_username b) p) w).1 = 200%Z.
Proof.
  intros Hp Hl Hr Hdb Hb Hv Hu Hm.
  destruct (start_spec _ _ _ _ _ _ _ _ _ _ _ Hp Hl Hr) as (Hsec & _ & d & Hd & _ & He). rewrite Hdb in Hd. injection Hd as <-.
  specialize (He eq_refl). rewrite Hb in He. simpl in He. rewrite Hv in He. destruct He as (hash & Hh & _ & _ & Hw).
  unfold api_login. rewrite Hw. simpl.
  destruct (String.eqb_spec (co_session_secret (cs_console st)) "") as [Hs|_]; [rewrite Hs in Hsec; simpl in Hsec; lia|].
  assert (Hip : forall x, (match x with
    | Some ip_str => (co_max_login_attempts (cs_console st) <=? count_recent_login_attempts_by_ip
        (with_users [mkUser 1 (ba_username b) (Some (ba_username b)) None "admin" false false "[]" None None
                       (Some hash) None now None] (mkConsoleDb [] [] [] [])) (dr_now dr) ip_str
        (co_lockout_duration_minutes (cs_console st)))%Z
    | None => false end) = false) by (intros [x|]; [|done]; apply Z.leb_gt; exact Hm).
  rewrite Hip. unfold user_by_username. simpl. rewrite String.eqb_refl. simpl. unfold verify_password.
  rewrite (argon2_utf8 _ _ _ Hu Hh), (argon2_verify_hash _ _ _ Hh). done.
Qed.
End FirstLogin.
