(* ===== verification/Boot.v ===== *)
(** * Starting and stopping the process ([src/main.rs])

    Configuration, console preparation, handles, the listen address, the pid
    file and the console on the same runtime, in the order of [main] and
    [async_main]; and the race of the two listeners that ends the process. *)

From S2P Require Import Prelude RustStr Json Regex Redact ToolGate Matcher Policy Routing ClientAuth Budget Spotlight Schema AuditTrail Proxy Admin Config Reload RustFs RustNet ConsoleDb ConsoleApi ConsoleInv ConsoleStart.

(** ** Start *)

Section Boot.
Context `{Unicode} `{RegexEngine} `{AhoCorasick} `{Iword} `{Serde} `{JsonSchema} `{Sha256} `{Disk} {B : Type} `{Argon2} `{Fs}
  (from_toml : string -> result string Config) (from_yaml : string -> result string Policy)
  (open_budget : string -> result string B) (open_log : string -> result string disk)
  (open_tokens : string -> result string Db) (open_db : string -> result string ConsoleDb).

(** The pid file is best effort: a failure is only logged. *)
Definition write_pid_file (pid now : Z) (cfg : ReloadConfig) (s : fs) : fs :=
  match re_pid_file cfg with
  | None => s
  | Some pid_file =>
      let s1 := match parent pid_file with Some dir => (create_dir_all s dir).2 | None => s end in
      (write_file s1 now pid_file (show_Z pid +:+ one nl)).2
  end.

(** Everything up to the bind of the proxy's listener: the handles and the live
    state, the address, and the console's own start when it is enabled. *)
Record Booted := mkBooted {
  bt_config : Config;
  bt_runtime : RuntimeHandles;
  bt_process : Process (B := B);
  bt_addr : SocketAddr;
  bt_console : option (result string (ConsoleState * ConsoleWorld));
}.
(** The console on the same runtime, when it is enabled. *)
Definition console_task (secret_bytes salt rfc3339 : string) (cfg : Config) (password : option string)
    : option (result string (ConsoleState * ConsoleWorld)) :=
  if co_enabled (cf_console cfg) then Some (run open_db open_log secret_bytes salt rfc3339 cfg password) else None.
(** [main], then [async_main] as far as the listener. *)
Definition boot (env : Env) (pid now : Z) (secret_bytes salt rfc3339 : string) (s : fs) : result string Booted * fs :=
  match
    (let? cfg0 := from_env_or_default from_toml env in
     let? (password, cfg) := prepare_for_run (env_var env) cfg0 in
     let? (runtime, p) := startup from_yaml open_budget open_log open_tokens env cfg in
     let? addr := parse_socket_addr (sc_listen (cf_nanoguard cfg)) in
     Ok (password, cfg, runtime, p, addr))
  with
  | Err e => (Err e, s)
  | Ok (password, cfg, runtime, p, addr) =>
      (Ok (mkBooted cfg runtime p addr (console_task secret_bytes salt rfc3339 cfg password)), write_pid_file pid now (cf_reload cfg) s)
  end.

(** ** Stop *)

(** What the race of the two listeners sees first. *)
Inductive First :=
| ProxyEnded (r : result string unit)
| ConsoleEnded (r : result string unit)
| ConsolePanicked.
Definition supervise (first : First) : result string unit :=
  match first with
  | ProxyEnded r => r
  | ConsoleEnded (Ok _) => Err "console listener exited unexpectedly"
  | ConsoleEnded (Err e) => Err ("console listener failed: " +:+ e)
  | ConsolePanicked => Err "console listener task panicked"
  end.

(** The two listeners: each accepts until the signal, drains what it accepted,
    and ends; whichever ends first ends the process. *)
Record Listeners := mkListeners {
  ls_stopping : bool;
  ls_proxy : nat;
  ls_console : option nat;
  ls_exit : option (result string unit);
}.
Inductive listen_step : Listeners -> Listeners -> Prop :=
| listen_signal p c : listen_step (mkListeners false p c None) (mkListeners true p c None)
| listen_accept p c : listen_step (mkListeners false p c None) (mkListeners false (S p) c None)
| listen_done b p c : listen_step (mkListeners b (S p) c None) (mkListeners b p c None)
| listen_console_accept p n : listen_step (mkListeners false p (Some n) None) (mkListeners false p (Some (S n)) None)
| listen_console_done b p n : listen_step (mkListeners b p (Some (S n)) None) (mkListeners b p (Some n) None)
| listen_proxy_drained c : listen_step (mkListeners true 0 c None) (mkListeners true 0 c (Some (supervise (ProxyEnded (Ok tt)))))
| listen_proxy_fails b p c e :
    listen_step (mkListeners b p c None) (mkListeners b p c (Some (supervise (ProxyEnded (Err e)))))
| listen_console_drained p :
    listen_step (mkListeners true p (Some 0) None) (mkListeners true p (Some 0) (Some (supervise (ConsoleEnded (Ok tt)))))
| listen_console_fails b p n e :
    listen_step (mkListeners b p (Some n) None) (mkListeners b p (Some n) (Some (supervise (ConsoleEnded (Err e)))))
| listen_console_panics b p n :
    listen_step (mkListeners b p (Some n) None) (mkListeners b p (Some n) (Some (supervise ConsolePanicked))).

(** ** Properties *)

Lemma boot_ok env pid now secret_bytes salt rfc s bt s' :
  boot env pid now secret_bytes salt rfc s = (Ok bt, s') ->
  exists cfg0 password, from_env_or_default from_toml env = Ok cfg0 /\
    prepare_for_run (env_var env) cfg0 = Ok (password, bt_config bt) /\
    startup from_yaml open_budget open_log open_tokens env (bt_config bt) = Ok (bt_runtime bt, bt_process bt) /\
    parse_socket_addr (sc_listen (cf_nanoguard (bt_config bt))) = Ok (bt_addr bt) /\
    bt_console bt = console_task secret_bytes salt rfc (bt_config bt) password /\
    s' = write_pid_file pid now (cf_reload (bt_config bt)) s.
Proof.
  unfold boot. destruct (from_env_or_default _ _) as [cfg0|]; [|done]. simpl.
  destruct (prepare_for_run _ _) as [[pw cfg]|] eqn:Ep; [|done]. simpl.
  destruct (startup _ _ _ _ _ _) as [[rt p]|] eqn:Es; [|done]. simpl.
  destruct (parse_socket_addr _) as [a|] eqn:Ea; [|done]. intros [= <- <-]. exists cfg0, pw. done.
Qed.

(** The pid file reaches the process: after a boot with a pid file configured
    whose write succeeded, a console that reads that file signals exactly this
    process, whatever directories had to be made on the way, and reports what the
    signal did. *)
Theorem pid_file_signals `{!SymlinkFreeFs} env pid now secret_bytes salt rfc s bt s' pid_file kill_hup text :
  boot env pid now secret_bytes salt rfc s = (Ok bt, s') ->
  re_pid_file (cf_reload (bt_config bt)) = Some pid_file -> (0 < pid <= 2147483647)%Z ->
  (let s1 := match parent pid_file with Some dir => (create_dir_all s dir).2 | None => s end in
   (write_file s1 now pid_file (show_Z pid +:+ one nl)).1 = Ok tt) ->
  read_to_string s' pid_file = Ok text ->
  trigger_via_pid_file kill_hup (read_to_string s') pid_file =
    match kill_hup pid with
    | Err e => Err ("failed to send SIGHUP to PID " +:+ show_Z pid +:+ ": " +:+ e)
    | Ok _ => Ok tt
    end.
Proof.
  intros Hb Hf Hp Hw Hr. apply boot_ok in Hb as (_ & _ & _ & _ & _ & _ & _ & ->). unfold write_pid_file in Hr |- *.
  rewrite Hf in Hr |- *. cbv zeta in Hw. set (s1 := match parent pid_file with Some _ => _ | None => _ end) in *.
  destruct (write_file s1 now pid_file (show_Z pid +:+ one nl)) as [r s2] eqn:E. simpl in *. subst r.
  apply write_ok in E. pose proof (read_at _ _ _ Hr) as [t Ht]. rewrite E in Ht. injection Ht as <- _.
  unfold trigger_via_pid_file. rewrite Hr, trim_line by lia. unfold parse_i32. by rewrite parse_int_show by lia.
Qed.

(** A short session secret stops the whole process, also one that has turned the
    console off. *)
Theorem short_secret_stops_proxy env pid now secret_bytes salt rfc s cfg :
  from_env_or_default from_toml env = Ok cfg -> env_var env "CONSOLE_SESSION_SECRET" = None ->
  co_enabled (cf_console cfg) = false -> co_session_secret (cf_console cfg) = "change-me" ->
  exists e, boot env pid now secret_bytes salt rfc s = (Err e, s).
Proof.
  intros Hc Hv Hoff Hs. unfold boot. rewrite Hc. simpl. unfold prepare_for_run, env_secret. rewrite Hv, Hs. simpl. by eexists.
Qed.

(** A signal while a completion is in flight and the console is idle may end the
    process with an error and the completion unfinished: the idle console drains
    first and its end is taken for a failure. *)
Theorem shutdown_cuts_request :
  rtc listen_step (mkListeners false 1 (Some 0) None)
    (mkListeners true 1 (Some 0) (Some (Err "console listener exited unexpectedly"))).
Proof. eapply rtc_l; [apply listen_signal|]. apply rtc_once, (listen_console_drained 1). Qed.

(** A clean exit is a drained one: in every run of the two listeners, a process
    that ends without an error was asked to stop and has no request in flight on
    the proxy. *)
Definition drained (l : Listeners) : Prop := ls_exit l = Some (Ok tt) -> ls_stopping l = true /\ ls_proxy l = 0.
Theorem clean_exit_drained c l : rtc listen_step (mkListeners false 0 c None) l -> drained l.
Proof.
  assert (Hstep : forall l l', listen_step l l' -> drained l') by (destruct 1; unfold drained; simpl; done).
  intros Hr. apply rtc_inv_r in Hr as [<-|(l' & _ & Hl)]; [done|]. by eapply Hstep.
Qed.
End Boot.
