(* ===== verification/Server.v ===== *)
(** * The server ([src/main.rs])

    The proxy's routes with their layers over one state, and the boot of the
    process: configuration, console preparation, handles, the pid file, the
    console in the same process and what ends them both. *)

From S2P Require Import Prelude RustStr Json Regex Redact ToolGate Matcher Policy Routing ClientAuth Budget Spotlight Schema AuditTrail Proxy Admin Anthropic Config Reload RustFs RustNet ConsoleDb ConsoleApi ConsoleStart.

(** ** Routes *)

Section Server.
Context `{Unicode} `{RegexEngine} `{AhoCorasick} `{Iword} `{Serde} `{JsonSchema} `{Sha256} `{SerdeStruct} `{Disk}
  {B : Type} `{BudgetStore B} {W : Type} (send : W -> ChatRequest -> result string Upstream * W)
  (hash_order : list (string * string) -> list (string * string)) (parse_rfc3339 : string -> option Z)
  (order_by_created : list ClientTokenRow -> list ClientTokenRow)
  (get_models : W -> ModelsRequest -> option ModelsResult * W)
  (schedule : list (string * BackendConfig) -> list (string * BackendConfig)).

(** The live state, the shared objects, and the admin key of the configuration. *)
Record Node := mkNode {
  nd_app : AppState;
  nd_world : World (B := B) (W := W);
  nd_auth : option ClientAuth;
  nd_admin_key : option string;
}.
Definition with_client_auth (a : option ClientAuth) (n : Node) : Node := mkNode (nd_app n) (nd_world n) a (nd_admin_key n).
Definition with_world (w : World (B := B) (W := W)) (n : Node) : Node := mkNode (nd_app n) w (nd_auth n) (nd_admin_key n).

(** The routes behind the token middleware, the health probe, and the admin
    routes, which check their own key. *)
Inductive ServerRequest :=
| Chat (body : value)
| Messages (req : AnthropicRequest)
| Models
| Health
| AdminCall (r : AdminRequest).
Inductive ServerReply :=
| SReply (r : option Reply)
| SModels (a : Z * value)
| SRefused (status : Z) (message : string)
| SAdmin (a : Answer)
| SHealth.

(** A handler behind the middleware; a panic has no reply. *)
Definition protected (q : ServerRequest) (view : option ClientView) (ck : Clock) (n : Node) : ServerReply * Node :=
  match q with
  | Chat body => let '(r, w) := handle send hash_order (nd_app n) view ck body (nd_world n) in (SReply r, with_world w n)
  | Messages req =>
      match messages send (nd_app n) view ck req (nd_world n) with
      | (Next r, w) | (Return r, w) => (SReply (Some r), with_world w n)
      | (Panic, w) => (SReply None, with_world w n)
      end
  | Models => let '(a, w) := list_models get_models schedule (nd_app n) (nd_world n) in (SModels a, with_world w n)
  | _ => (SHealth, n)
  end.
Definition server_step (now : Z) (headers : AuthHeaders) (ck : Clock) (q : ServerRequest) (n : Node) : ServerReply * Node :=
  match q with
  | Health => (SHealth, n)
  | AdminCall r =>
      let '(a, s) := admin_step parse_rfc3339 order_by_created (mkAdmin (nd_admin_key n) (w_budget (nd_world n)) (nd_auth n))
                       (h_authorization headers) r in
      (SAdmin a, mkNode (nd_app n) (mkWorld (w_http (nd_world n)) (ad_budget s) (w_audit (nd_world n))) (ad_auth s)
                   (nd_admin_key n))
  | _ =>
      match verify_request parse_rfc3339 now (nd_auth n) headers with
      | (Refuse status message, auth) => (SRefused status message, with_client_auth auth n)
      | (Pass view, auth) => protected q view ck (with_client_auth auth n)
      end
  end.

(** ** Properties: what reaches a backend *)

(** The request presents a live token: over HTTPS where required, a bearer whose
    row is in the table under its prefix with its hash, not revoked, not
    expired. *)
Definition live_token (now : Z) (a : ClientAuth) (headers : AuthHeaders) (id : Z) : Prop :=
  (au_require_https (ca_config a) = true -> h_forwarded_proto headers = Some "https") /\
  exists bearer row, extract_bearer (h_authorization headers) = Some bearer /\
    find_prefix (ca_db a) (wire_prefix bearer) = Some (row, sha256_of bearer) /\ ct_id row = id /\ ct_revoked_at row = None /\
    (forall exp, ct_expires_at row = Some exp -> is_past parse_rfc3339 now exp = false).

(** What the three routes may use the upstream connection for: the two chat
    endpoints once their input guards have passed, the model list for one [GET]
    to each backend of the pool. *)
Definition upstream_use (q : ServerRequest) (view : ClientView) (n n' : Node) : Prop :=
  match q with
  | Chat body => keywords_pass (nd_app n) body /\ pii_pass (nd_app n) body /\ budget_pass (nd_world n) (cv_budget_key view)
  | Messages req => a_pass (nd_app n) (nd_world n) (Some view) req
  | Models => w_http (nd_world n') =
      (query_models get_models (w_http (nd_world n)) (schedule (btree_entries (rp_backends (st_pool (nd_app n)))))).2
  | _ => False
  end.

Lemma list_models_http st (w : World (B := B) (W := W)) :
  w_http (list_models get_models schedule st w).2 = w_http w \/
  w_http (list_models get_models schedule st w).2 =
    (query_models get_models (w_http w) (schedule (btree_entries (rp_backends (st_pool st))))).2.
Proof.
  unfold list_models. destruct (btree_entries _) as [|e l]; [by left|]. right. by destruct (query_models _ _ _).
Qed.
Lemma protected_guarded q view ck n :
  w_http (nd_world (protected q (Some view) ck n).2) <> w_http (nd_world n) ->
  upstream_use q view n (protected q (Some view) ck n).2.
Proof.
  destruct q as [body|req| | |r]; simpl; try done.
  - pose proof (chat_guarded send hash_order (nd_app n) (Some view) ck body (nd_world n)) as [E|(Hk & Hp & Hb & _)].
    + destruct (handle _ _ _ _ _ _ _) as [r w]. simpl in *. congruence.
    + done.
  - pose proof (messages_guarded send (nd_app n) (Some view) ck req (nd_world n)) as [E|[Hp _]]; [|done].
    destruct (messages _ _ _ _ _ _) as [[] w]; simpl in *; congruence.
  - destruct (list_models_http (nd_app n) (nd_world n)) as [E|E];
      destruct (list_models _ _ _ _) as [x w]; simpl in *; congruence.
Qed.

(** One request on a handle whose cache agrees with its table. *)
Lemma upstream_guarded now headers ck q n r n' a :
  nd_auth n = Some a -> coherent a -> au_enabled (ca_config a) = true ->
  server_step now headers ck q n = (r, n') -> w_http (nd_world n') <> w_http (nd_world n) ->
  exists view, live_token now a headers (cv_token_id view) /\ cv_budget_key view = "token:" +:+ show_Z (cv_token_id view) /\
    upstream_use q view n n'.
Proof.
  intros Ha Hco Hen E Hch.
  assert (Hv : exists view, (verify_request parse_rfc3339 now (Some a) headers).1 = Pass view /\
    (protected q view ck (with_client_auth (verify_request parse_rfc3339 now (Some a) headers).2 n)).2 = n').
  { unfold server_step in E. rewrite Ha in E. destruct q as [body|req| | |ar].
    4: by injection E as <- <-.
    4: { destruct (admin_step _ _ _ _ _). injection E as <- <-. done. }
    all: destruct (verify_request parse_rfc3339 now (Some a) headers) as [[view|status m] auth]; [|by injection E as <- <-].
    all: exists view; split; [done|]; cbn [snd]; by rewrite E. }
  destruct Hv as (view & Hp & Hu). apply verify_request_iff in Hp as (Hh & bearer & row & hash & Hb & Hpa & Hf & Hs & Hr & Hx & ->); [|done..].
  exists (mkView (ct_id row) (ct_prefix row) (ct_user_id row) (ct_label row) ("token:" +:+ show_Z (ct_id row))).
  split; [|split; [reflexivity|]].
  - split; [done|]. exists bearer, row. rewrite Hs. done.
  - pose proof (protected_guarded q (mkView (ct_id row) (ct_prefix row) (ct_user_id row) (ct_label row) ("token:" +:+ show_Z (ct_id row)))
      ck (with_client_auth (verify_request parse_rfc3339 now (Some a) headers).2 n)) as Hg.
    rewrite Hu in Hg. specialize (Hg Hch). by destruct q.
Qed.

(** Without authority the proxy changes nothing: a request refused by the token
    middleware or by the admin key check leaves the upstream connection, the
    budgets, the audit log and the live state as they were. *)
Theorem server_refusal_inert now headers ck q n r n' :
  server_step now headers ck q n = (r, n') ->
  (exists status message, r = SRefused status message) \/
    (exists ar, q = AdminCall ar /\ is_Some (require_admin (mkAdmin (nd_admin_key n) (w_budget (nd_world n)) (nd_auth n))
                                                (h_authorization headers))) ->
  nd_world n' = nd_world n /\ nd_app n' = nd_app n.
Proof.
  intros E [(status & m & ->)|(ar & -> & e & He)]; unfold server_step in E.
  - destruct q as [body|req| | |ar]; [..|done|by destruct (admin_step _ _ _ _ _)].
    all: destruct (verify_request _ _ _ _) as [[view|status' m'] auth]; [|by injection E as _ _ <-]; simpl in E.
    + by destruct (handle _ _ _ _ _ _ _).
    + by destruct (messages _ _ _ _ _ _) as [[] ?].
    + by destruct (list_models _ _ _ _).
  - assert (Hs : (admin_step parse_rfc3339 order_by_created (mkAdmin (nd_admin_key n) (w_budget (nd_world n)) (nd_auth n))
      (h_authorization headers) ar).2 = mkAdmin (nd_admin_key n) (w_budget (nd_world n)) (nd_auth n)).
    { destruct ar; simpl; try done; unfold set_budget, reset_budget, create_client_handler, revoke_client_handler; by rewrite He. }
    destruct (admin_step _ _ _ _ _) as [a s]. simpl in Hs. subst s. injection E as <- <-. simpl. by destruct (nd_world n).
Qed.
End Server.
