(* ===== verification/ServerReach.v ===== *)
(** * The server over time ([src/main.rs], [src/client_auth])

    Requests on every route, reloads and cache flushes in any order, on one
    shared token runtime.  What the token middleware and the guards promise of
    one request holds at every point of such a run. *)

From S2P Require Import Prelude RustStr Json Regex Redact ToolGate Matcher Policy Routing ClientAuth Budget Spotlight Schema AuditTrail Proxy Admin Anthropic Config Reload RustFs RustNet ConsoleDb ConsoleApi ConsoleStart Server.

(** ** The token table only grows and revokes *)

Section Table.
Context `{Sha256Laws}.

(** A row of that id exists, and every such row is revoked. *)
Definition revoked_id (db : Db) (id : Z) : Prop :=
  (exists rh, In rh db /\ ct_id rh.1 = id) /\ forall rh, In rh db -> ct_id rh.1 = id -> ct_revoked_at rh.1 <> None.

(** One row through an update that revokes. *)
Lemma revoked_row (p : ClientTokenRow -> bool) now (rh : ClientTokenRow * string) :
  let rh' := if p rh.1 then (set_revoked now rh.1, rh.2) else rh in
  ct_id rh'.1 = ct_id rh.1 /\ (ct_revoked_at rh.1 <> None \/ p rh.1 = true -> ct_revoked_at rh'.1 <> None).
Proof. destruct rh as [row h]. simpl. unfold set_revoked. destruct (p row), (ct_revoked_at row) eqn:E; simpl; rewrite ?E; naive_solver. Qed.

Lemma revoke_where_revoked p now db id : revoked_id db id -> revoked_id (revoke_where p now db).2 id.
Proof.
  intros [(rh & Hin & Hid) Hall]. simpl. split.
  - destruct (revoked_row p now rh) as [Hi _]. eexists. split; [by apply in_map|]. congruence.
  - intros rh' Hin' Hid'. apply in_map_iff in Hin' as (rh0 & <- & Hin0). destruct (revoked_row p now rh0) as [Hi Hr].
    apply Hr. left. apply Hall; [done|]. congruence.
Qed.
Lemma store_revoke_revoked now db id rh : In rh db -> ct_id rh.1 = id -> revoked_id (store_revoke db now id).2 id.
Proof.
  intros Hin Hid. simpl. split.
  - destruct (revoked_row (fun r => Z.eqb (ct_id r) id) now rh) as [Hi _]. eexists. split; [by apply in_map|]. congruence.
  - intros rh' Hin' Hid'. apply in_map_iff in Hin' as (rh0 & <- & Hin0).
    destruct (revoked_row (fun r => Z.eqb (ct_id r) id) now rh0) as [Hi Hr]. apply Hr. right. apply Z.eqb_eq. congruence.
Qed.
Lemma mint_revoked n rng k db now env uid label exp id' token db' id :
  mint n rng k db now env uid label exp = Some (id', token, db') -> revoked_id db id -> revoked_id db' id.
Proof.
  revert k. induction n as [|n IH]; intros k; simpl; [done|]. unfold store_insert.
  destruct (find_prefix _ _); [apply IH|]. intros [= <- <- <-] [(rh & Hin & Hid) Hall]. split.
  - exists rh. split; [|done]. apply in_or_app. by left.
  - intros rh' [Hin'|[<-|[]]]%in_app_or Hid'; [by apply Hall|]. simpl in Hid'. exfalso. apply (next_id_fresh db).
    rewrite Hid'. apply list_elem_of_In, in_map_iff. by exists rh.
Qed.

(** A row under an update that selects it: with unique ids, its id is revoked. *)
Lemma revoke_where_hits sel now db rh :
  db_wf db -> In rh db -> sel rh.1 = true -> revoked_id (revoke_where sel now db).2 (ct_id rh.1).
Proof.
  intros Hwf Hin Hsel. simpl. split.
  - destruct (revoked_row sel now rh) as [Hi _]. eexists. split; [by apply in_map|done].
  - intros rh' Hin' Hid'. apply in_map_iff in Hin' as (rh0 & <- & Hin0). destruct (revoked_row sel now rh0) as [Hi Hr].
    apply Hr. right. assert (rh0 = rh) as ->; [|done].
    eapply (NoDup_map_inj (fun rh => ct_id rh.1)); [apply (wf_ids _ Hwf)|done|done|]. simpl. congruence.
Qed.

Lemma auth_step_revoked a op id : revoked_id (ca_db a) id -> revoked_id (ca_db (auth_step a op)) id.
Proof.
  intros Hr. destruct op as [now p|pr rng now uid label exp|now id'|p|]; simpl; [| | |done..].
  - unfold lookup. destruct (cache_get _ _ _) as [[tok|] c]; [done|]. simpl. by destruct (lookup_by_prefix _ _) as [[[]|]|].
  - unfold create_client. destruct (String.eqb _ _); [done|]. destruct (match exp with Some s => _ | None => _ end); [done|].
    destruct (mint _ _ _ _ _ _ _ _ _) as [[[i t] db']|] eqn:E; [|done]. by eapply mint_revoked.
  - pose proof (revoke_where_revoked (fun r => Z.eqb (ct_id r) id') now _ _ Hr) as Hw.
    by destruct (List.find _ _).
Qed.
Lemma auth_step_config a op : ca_config (auth_step a op) = ca_config a.
Proof.
  destruct op as [now p|pr rng now uid label exp|now id'|p|]; simpl; [| | |done..].
  - unfold lookup. destruct (cache_get _ _ _) as [[tok|] c]; [done|]. simpl. by destruct (lookup_by_prefix _ _) as [[[]|]|].
  - unfold create_client. destruct (String.eqb _ _); [done|]. destruct (match exp with Some s => _ | None => _ end); [done|].
    by destruct (mint _ _ _ _ _ _ _ _ _) as [[[]]|].
  - by destruct (List.find _ _).
Qed.
Lemma auth_run_config a ops : ca_config (foldl auth_step a ops) = ca_config a.
Proof. revert a. induction ops as [|op ops IH]; intros a; simpl; [done|]. by rewrite IH, auth_step_config. Qed.
Lemma auth_run_coherent a ops : coherent a -> coherent (foldl auth_step a ops).
Proof. revert a. induction ops as [|op ops IH]; intros a Ha; simpl; [done|]. by apply IH, auth_step_coherent. Qed.
Lemma auth_run_revoked a ops id : revoked_id (ca_db a) id -> revoked_id (ca_db (foldl auth_step a ops)) id.
Proof. revert a. induction ops as [|op ops IH]; intros a Ha; simpl; [done|]. by apply IH, auth_step_revoked. Qed.
End Table.

(** ** Runs *)

Section Reach.
Context `{Unicode} `{RegexEngine} `{AhoCorasick} `{Iword} `{Serde} `{JsonSchema} `{Sha256Laws} `{SerdeStruct} `{Disk}
  {B : Type} `{BudgetStore B} {W : Type} (send : W -> ChatRequest -> result string Upstream * W)
  (hash_order : list (string * string) -> list (string * string)) (parse_rfc3339 : string -> option Z)
  (order_by_created : list ClientTokenRow -> list ClientTokenRow)
  (get_models : W -> ModelsRequest -> option ModelsResult * W)
  (schedule : list (string * BackendConfig) -> list (string * BackendConfig)).
Notation Node := (Node (B := B) (W := W)).
Notation server_step := (server_step send hash_order parse_rfc3339 order_by_created get_models schedule).

(** The console's writes to the table it shares with the proxy: a new token, and
    a revocation of one token or of all tokens of a user ([sel]) together with
    the flush of the proxy's cache that the console then requests. *)
Definition console_minted (db' : Db) (a : ClientAuth) : ClientAuth := mkAuth db' (ca_cache a) (ca_config a).
Definition console_revoked (sel : ClientTokenRow -> bool) (now : string) (a : ClientAuth) : ClientAuth :=
  invalidate_all_cached (mkAuth (revoke_where sel now (ca_db a)).2 (ca_cache a) (ca_config a)).

(** A request is served, a reload puts another state and another admin key in
    place, the cache is flushed, or the console mints, revokes or writes to the
    budget database. *)
Inductive node_step : Node -> Node -> Prop :=
| node_serve now headers ck q n : node_step n (server_step now headers ck q n).2
| node_reload app key n : node_step n (mkNode app (nd_world n) (nd_auth n) key)
| node_flush n : node_step n (with_client_auth (invalidate_all_cached <$> nd_auth n) n)
| node_console_mint attempts rng k now env uid label exp id token db' a n :
    nd_auth n = Some a -> mint attempts rng k (ca_db a) now env uid label exp = Some (id, token, db') ->
    node_step n (with_client_auth (Some (console_minted db' a)) n)
| node_console_revoke sel now a n :
    nd_auth n = Some a -> node_step n (with_client_auth (Some (console_revoked sel now a)) n)
| node_console_budget b n : node_step n (with_world (mkWorld (w_http (nd_world n)) b (w_audit (nd_world n))) n).

Lemma verify_request_auth now a headers :
  exists ops, (verify_request parse_rfc3339 now (Some a) headers).2 = Some (foldl auth_step a ops).
Proof.
  unfold verify_request. destruct (negb _); [by exists []|]. destruct (_ && _); [by exists []|].
  destruct (extract_bearer _); [|by exists []]. destruct (parse _) as [pf|]; [|by exists []].
  exists [ALookup now (pf_prefix pf)]. simpl. by destruct (lookup now a (pf_prefix pf)).
Qed.
Lemma admin_step_auth key b a authorization r :
  exists ops, ad_auth (admin_step parse_rfc3339 order_by_created (mkAdmin (B := B) key b (Some a)) authorization r).2 =
    Some (foldl auth_step a ops).
Proof.
  destruct r as [k|k l|now k|rng now req|u|now id]; simpl; try (by exists []).
  - unfold set_budget. destruct (require_admin _ _); [by exists []|]. destruct b; [|by exists []]. simpl.
    destruct (set_limit _ _ _); by exists [].
  - unfold reset_budget. destruct (require_admin _ _); [by exists []|]. destruct b; [|by exists []]. simpl.
    destruct (reset_usage _ _ _); by exists [].
  - unfold create_client_handler. destruct (require_admin _ _); [by exists []|]. simpl.
    exists [ACreate parse_rfc3339 rng now (default 0%Z (cr_user_id req)) (cr_label req) (cr_expires_at req)]. simpl.
    by destruct (create_client _ _ _ _ _ _ _) as [[[]|[]] a'].
  - unfold revoke_client_handler. destruct (require_admin _ _); [by exists []|]. simpl.
    exists [ARevoke now id]. simpl. by destruct (List.find _ _).
Qed.

Lemma protected_auth q view ck n : nd_auth (protected send hash_order get_models schedule q view ck n).2 = nd_auth n.
Proof. destruct q; simpl; try done; [by destruct (handle _ _ _ _ _ _ _)|by destruct (messages _ _ _ _ _ _) as [[] ?]|by destruct (list_models _ _ _ _)]. Qed.

(** What every step keeps of the token runtime: the cache agrees with the table,
    the settings stay, and a revoked id stays revoked. *)
Definition auth_kept (a a' : ClientAuth) : Prop :=
  coherent a' /\ ca_config a' = ca_config a /\ forall id, revoked_id (ca_db a) id -> revoked_id (ca_db a') id.
Lemma ops_kept a ops : coherent a -> auth_kept a (foldl auth_step a ops).
Proof.
  intros Hco. split_and!; [by apply auth_run_coherent|apply auth_run_config|]. intros id. apply auth_run_revoked.
Qed.
Lemma minted_kept a attempts rng k now env uid label exp id token db' :
  coherent a -> mint attempts rng k (ca_db a) now env uid label exp = Some (id, token, db') -> auth_kept a (console_minted db' a).
Proof.
  intros [Hwf Hc] E. destruct (mint_spec _ _ _ _ _ _ _ _ _ _ _ _ Hwf E) as (_ & Hwf' & _ & Hold & Hnone).
  split_and!; [split; [done|]|done|].
  - simpl. intros p e He. specialize (Hc p e He). rewrite Hold; [done|]. intros ->. congruence.
  - intros id'. by eapply mint_revoked.
Qed.
Lemma revoked_kept a sel now : coherent a -> auth_kept a (console_revoked sel now a).
Proof.
  intros [Hwf _]. split_and!; [split; [by apply revoke_where_wf|]|done|].
  - simpl. intros p e. by rewrite lookup_empty.
  - intros id. apply revoke_where_revoked.
Qed.

Lemma node_step_auth n n' a :
  node_step n n' -> nd_auth n = Some a -> coherent a -> exists a', nd_auth n' = Some a' /\ auth_kept a a'.
Proof.
  intros [now headers ck q n0|app key n0|n0|at0 rng k now env uid label exp id token db' a0 n0 Ha0 E|sel now a0 n0 Ha0|b n0] Ha Hco.
  - enough (exists ops, nd_auth (server_step now headers ck q n0).2 = Some (foldl auth_step a ops)) as [ops Ho].
    { eexists. split; [exact Ho|]. by apply ops_kept. }
    unfold Server.server_step. rewrite Ha. destruct q as [body|req| | |r].
    4: by exists [].
    4: { destruct (admin_step_auth (nd_admin_key n0) (w_budget (nd_world n0)) a (h_authorization headers) r) as [ops Ho].
         exists ops. by destruct (admin_step _ _ _ _ _). }
    all: destruct (verify_request_auth now a headers) as [ops Ho]; exists ops.
    all: destruct (verify_request _ _ _ _) as [[view|status m] auth]; [|done]; by rewrite protected_auth.
  - exists a. split; [done|]. by apply (ops_kept a []).
  - eexists. simpl. rewrite Ha. split; [reflexivity|]. by apply (ops_kept a [AInvalidateAll]).
  - rewrite Ha0 in Ha. injection Ha as ->. eexists. split; [reflexivity|]. by eapply minted_kept.
  - rewrite Ha0 in Ha. injection Ha as ->. eexists. split; [reflexivity|]. by apply revoked_kept.
  - exists a. split; [done|]. by apply (ops_kept a []).
Qed.
Lemma node_run_auth n n' a :
  rtc node_step n n' -> nd_auth n = Some a -> coherent a -> exists a', nd_auth n' = Some a' /\ auth_kept a a'.
Proof.
  intros Hr. revert a. induction Hr as [n|n n1 n2 Hs _ IH]; intros a Ha Hco.
  { exists a. split; [done|]. by apply (ops_kept a []). }
  destruct (node_step_auth n n1 a Hs Ha Hco) as (a1 & H1' & Hc1 & Hf1 & Hr1).
  destruct (IH a1 H1' Hc1) as (a2 & H2' & Hc2 & Hf2 & Hr2). exists a2. split; [done|].
  split_and!; [done|congruence|]. intros id Hid. by apply Hr2, Hr1.
Qed.
Lemma opened db config a0 : db_wf db -> auth_open db config = Ok a0 -> coherent a0 /\ ca_config a0 = config.
Proof.
  intros Hwf Hopen. split; [by apply (run_coherent db config a0 [])|].
  unfold auth_open in Hopen. destruct (negb _); [done|]. by injection Hopen as <-.
Qed.

(** C15: From the wire to the backend, at any time.  However requests on every
    route (one at a time), reloads, cache flushes, tokens minted and budgets
    written by the console and console revocations with the flush they request
    have followed one another since the token table was opened with enforcement on: the upstream
    connection is used only by a request that presents a token live in the
    table at that moment, and only for a chat or messages request that has
    passed every input guard (the budget it passed being the token's own
    bucket), or for the model list, which sends one [GET] to each backend of
    the pool, with that backend's key, and is not checked by any guard or
    budget. *)
Theorem server_always_guarded db config a0 n0 n now headers ck q r n' :
  db_wf db -> auth_open db config = Ok a0 -> au_enabled config = true -> nd_auth n0 = Some a0 -> rtc node_step n0 n ->
  server_step now headers ck q n = (r, n') -> w_http (nd_world n') <> w_http (nd_world n) ->
  exists a view, nd_auth n = Some a /\ live_token parse_rfc3339 now a headers (cv_token_id view) /\
    cv_budget_key view = "token:" +:+ show_Z (cv_token_id view) /\ upstream_use get_models schedule q view n n'.
Proof.
  intros Hwf Hopen Hen Ha0 Hr E Hch. destruct (opened _ _ _ Hwf Hopen) as [Hco0 Hcfg].
  destruct (node_run_auth _ _ _ Hr Ha0 Hco0) as (a & Ha & Hco & Hf & _). exists a.
  destruct (upstream_guarded send hash_order parse_rfc3339 order_by_created get_models schedule now headers ck q n r n' a Ha Hco)
    as (view & Hv); [congruence|done..|]. by exists view.
Qed.

(** The admin API has answered that a token is revoked, or the console has
    revoked it (alone or with its user's others) and had the cache flushed. *)
Definition revokes (id : Z) (n1 n2 : Node) : Prop :=
  exists a1 rh, nd_auth n1 = Some a1 /\ In rh (ca_db a1) /\ ct_id rh.1 = id /\
    ((exists now headers ck nowr body,
        server_step now headers ck (AdminCall (RevokeClient nowr id)) n1 = (SAdmin (200%Z, body), n2)) \/
     (exists sel nowr, sel rh.1 = true /\ n2 = with_client_auth (Some (console_revoked sel nowr a1)) n1)).
Lemma revokes_step id n1 n2 : revokes id n1 n2 -> node_step n1 n2.
Proof.
  intros (a1 & rh & Ha & _ & _ & [(now & headers & ck & nowr & body & E)|(sel & nowr & _ & ->)]).
  - pose proof (node_serve now headers ck (AdminCall (RevokeClient nowr id)) n1) as Hn. by rewrite E in Hn.
  - by apply node_console_revoke.
Qed.
Lemma revokes_revoked id n1 n2 a1 :
  nd_auth n1 = Some a1 -> db_wf (ca_db a1) -> revokes id n1 n2 -> exists a2, nd_auth n2 = Some a2 /\ revoked_id (ca_db a2) id.
Proof.
  intros Ha1 Hwf (a & rh & Ha & Hin & Hid & [(now & headers & ck & nowr & body & E)|(sel & nowr & Hsel & ->)]);
    rewrite Ha in Ha1; injection Ha1 as ->.
  - unfold Server.server_step in E. rewrite Ha in E. simpl in E. unfold revoke_client_handler in E.
    destruct (require_admin _ _) as [e|] eqn:Er.
    { injection E as -> _. unfold require_admin in Er. repeat case_match; discriminate Er. }
    simpl in E. injection E as _ <-. simpl. eexists. split; [reflexivity|].
    pose proof (store_revoke_revoked nowr (ca_db a1) id rh Hin Hid) as Hs. by destruct (List.find _ _).
  - eexists. split; [reflexivity|]. rewrite <-Hid. by apply (revoke_where_hits sel nowr (ca_db a1) rh).
Qed.

(** C16: Revocation is for good.  Requests being taken one at a time (a lookup in
    flight across a revocation is the subject of the race theorems): once the
    admin API has revoked a token, or the console has and its flush has reached
    the proxy, no later request, after whatever requests, reloads, new tokens,
    revocations and cache flushes, reaches a backend with that token: the one a
    request presents is another. *)
Theorem revoked_never_served db config a0 n0 n1 id n2 n now headers ck q r n' :
  db_wf db -> auth_open db config = Ok a0 -> au_enabled config = true -> nd_auth n0 = Some a0 -> rtc node_step n0 n1 ->
  revokes id n1 n2 ->
  rtc node_step n2 n -> server_step now headers ck q n = (r, n') -> w_http (nd_world n') <> w_http (nd_world n) ->
  exists a view, nd_auth n = Some a /\ live_token parse_rfc3339 now a headers (cv_token_id view) /\ cv_token_id view <> id.
Proof.
  intros Hwf Hopen Hen Ha0 Hr1 Hrv Hr2 E Hch. destruct (opened _ _ _ Hwf Hopen) as [Hco0 Hcfg].
  destruct (node_run_auth _ _ _ Hr1 Ha0 Hco0) as (a1 & Ha1 & Hco1 & Hf1 & _).
  destruct (revokes_revoked id n1 n2 a1 Ha1 (proj1 Hco1) Hrv) as (a2 & Ha2 & Hrev).
  destruct (node_step_auth n1 n2 a1 (revokes_step _ _ _ Hrv) Ha1 Hco1) as (a2' & Ha2' & Hco2 & Hf2 & _).
  rewrite Ha2 in Ha2'. injection Ha2' as <-.
  destruct (node_run_auth _ _ _ Hr2 Ha2 Hco2) as (a & Ha & Hco & Hf & Hkeep). destruct (Hkeep id Hrev) as [_ Hall].
  destruct (upstream_guarded send hash_order parse_rfc3339 order_by_created get_models schedule now headers ck q n r n' a Ha Hco)
    as (view & Hv & _); [congruence|done..|].
  exists a, view. split_and!; [done..|].
  destruct Hv as (_ & bearer & row & _ & Hf' & Hi & Hn & _). intros Hx. apply find_prefix_Some in Hf' as [Hin' _].
  apply (Hall _ Hin'); [by rewrite <-Hx|done].
Qed.
End Reach.
