(* ===== verification/Stale.v ===== *)
(** * Revocation under races ([src/client_auth/runtime.rs], [cache.rs])

    A lookup reads the table and fills the cache in two steps, and other threads
    revoke, mint and flush in between; a fill can put a row back that was revoked
    meanwhile ([ClientAuth.revoke_lookup_race]).  How long such a row can be
    served is bounded by the lifetime of an entry and the time a lookup takes. *)

From S2P Require Import Prelude RustStr ClientAuth Json Regex Redact ToolGate Matcher Policy Routing Budget Spotlight Schema AuditTrail Proxy Admin Anthropic Config Reload RustFs RustNet ConsoleDb ConsoleApi ConsoleStart Server ServerReach.

Section Race.
Context `{Sha256Laws} (delay : Z).

(** The clock, the handle, the lookups between their two steps, and the tables
    that lookups have read, with the time. *)
Record Race := mkRace {
  rc_now : Z;
  rc_auth : ClientAuth;
  rc_reads : list (Z * string * CachedToken);
  rc_past : list (Z * Db);
}.
(** A lookup fills the cache at most [delay] after it has read the table. *)
Inductive race_step : Race -> Race -> Prop :=
| race_tick now now' a reads past : (now <= now')%Z -> race_step (mkRace now a reads past) (mkRace now' a reads past)
| race_hit now a a1 p tok reads past :
    lookup_read now a p = (Ok (Some tok, None), a1) -> race_step (mkRace now a reads past) (mkRace now a1 reads past)
| race_read now a a1 p tok reads past :
    lookup_read now a p = (Ok (Some tok, Some tok), a1) ->
    race_step (mkRace now a reads past) (mkRace now a1 ((now, p, tok) :: reads) ((now, ca_db a) :: past))
| race_fill now a from p tok l1 l2 past :
    (now - from <= delay)%Z ->
    race_step (mkRace now a (l1 ++ (from, p, tok) :: l2) past) (mkRace now (lookup_fill now a p (Some tok)) (l1 ++ l2) past)
| race_revoke now a at_ id reads past : race_step (mkRace now a reads past) (mkRace now (revoke_client at_ a id).2 reads past)
| race_create now a parse_rfc3339 rng at_ uid label exp reads past :
    race_step (mkRace now a reads past) (mkRace now (create_client parse_rfc3339 rng at_ a uid label exp).2 reads past)
| race_flush now a reads past : race_step (mkRace now a reads past) (mkRace now (invalidate_all_cached a) reads past).

(** The row a lookup hands to the middleware: from the cache, or from its own
    read a moment ago. *)
Definition judged (r : Race) (p : string) (tok : CachedToken) : Prop :=
  (exists a1, lookup_read (rc_now r) (rc_auth r) p = (Ok (Some tok, None), a1)) \/
  (exists from, In (from, p, tok) (rc_reads r) /\ (rc_now r - from <= delay)%Z).

(** The table held the row, at some time not before [lo]. *)
Definition held (r : Race) (lo : Z) (p : string) (tok : CachedToken) : Prop :=
  exists t db, In (t, db) (rc_past r) /\ (lo <= t)%Z /\ find_prefix db p = Some (cd_row tok, cd_hash tok).

Record race_inv (ttl : Z) (r : Race) : Prop := {
  ri_ttl : tc_ttl (ca_cache (rc_auth r)) = ttl;
  ri_past : forall t db, In (t, db) (rc_past r) -> (t <= rc_now r)%Z;
  ri_entry : forall p e, tc_map (ca_cache (rc_auth r)) !! p = Some e -> held r (en_inserted_at e - delay) p (en_token e);
  ri_read : forall from p tok, In (from, p, tok) (rc_reads r) -> held r from p tok;
}.

(** What a step does to the cache: operations, each insert of a row lately read. *)
Lemma held_past r r' lo lo' p tok :
  held r lo p tok -> (lo' <= lo)%Z -> (forall x, In x (rc_past r) -> In x (rc_past r')) -> held r' lo' p tok.
Proof. intros (t & db & Hin & Hlo & Hf) Hl Hp. exists t, db. split; [by apply Hp|]. split; [lia|done]. Qed.

Lemma cache_step_ttl c op : tc_ttl (cache_step c op) = tc_ttl c.
Proof.
  destruct op as [now p|now p tok|p|]; simpl; [| |done..].
  - unfold cache_get. destruct (tc_map c !! p) as [e|]; [|done]. by destruct (expired _ _ _).
  - unfold cache_insert. destruct (tc_map (bump c) !! p); [done|]. destruct (Nat.leb _ _); [|done]. unfold evict_one.
    destruct (List.find _ _) as [[]|]; [done|]. by destruct (min_used _) as [[]|].
Qed.

(** A cache operation that inserts nothing keeps what the entries promise. *)
Lemma entries_kept ttl r c' op reads now' past' db' config :
  race_inv ttl r -> c' = cache_step (ca_cache (rc_auth r)) op -> (forall now p tok, op <> OInsert now p tok) ->
  (forall x, In x (rc_past r) -> In x past') ->
  forall p e, tc_map c' !! p = Some e -> held (mkRace now' (mkAuth db' c' config) reads past') (en_inserted_at e - delay) p (en_token e).
Proof.
  intros Hi -> Hop Hp p e He. apply cache_step_entry in He as [(now & tok & -> & _)|(_ & e0 & He0 & -> & ->)]; [by destruct (Hop now p tok)|].
  eapply held_past; [by apply (ri_entry ttl r Hi)|lia|done].
Qed.

Lemma lookup_read_spec now a p found pending a1 :
  lookup_read now a p = (Ok (found, pending), a1) ->
  a1 = mkAuth (ca_db a) (cache_step (ca_cache a) (OGet now p)) (ca_config a) /\
  match pending with
  | Some tok => find_prefix (ca_db a) p = Some (cd_row tok, cd_hash tok)
  | None => found = None \/ (cache_get now (ca_cache a) p).1 = found
  end.
Proof.
  unfold lookup_read, lookup_by_prefix. simpl. destruct (cache_get now (ca_cache a) p) as [[tok|] c1]; [intros [= <- <- <-]; auto|].
  destruct (find_prefix (ca_db a) p) as [[row hash]|]; [|intros [= <- <- <-]; auto].
  destruct (negb _); [done|]. by intros [= <- <- <-].
Qed.

Lemma race_inv_op ttl r op reads past db' config :
  race_inv ttl r -> (forall now p tok, op <> OInsert now p tok) -> (forall x, In x (rc_past r) -> In x past) ->
  (forall t db, In (t, db) past -> (t <= rc_now r)%Z) ->
  (forall from p tok, In (from, p, tok) reads -> In (from, p, tok) (rc_reads r) \/
     exists db, In (from, db) past /\ find_prefix db p = Some (cd_row tok, cd_hash tok)) ->
  race_inv ttl (mkRace (rc_now r) (mkAuth db' (cache_step (ca_cache (rc_auth r)) op) config) reads past).
Proof.
  intros Hi Hop Hp Ht Hr. split.
  - simpl. rewrite cache_step_ttl. apply (ri_ttl _ _ Hi).
  - done.
  - by eapply entries_kept.
  - simpl. intros from p tok [Hin|(db & Hin & Hf)]%Hr.
    + eapply held_past; [by apply (ri_read _ _ Hi)|lia|done].
    + exists from, db. split; [done|]. split; [lia|done].
Qed.
Lemma race_inv_same ttl r now' db' config :
  race_inv ttl r -> (rc_now r <= now')%Z -> race_inv ttl (mkRace now' (mkAuth db' (ca_cache (rc_auth r)) config) (rc_reads r) (rc_past r)).
Proof.
  intros [H1' H2' H3' H4'] Hn. split; [done| |done|done]. simpl. intros t db Hin. specialize (H2' t db Hin). lia.
Qed.

Lemma race_inv_step ttl r r' : race_inv ttl r -> race_step r r' -> race_inv ttl r'.
Proof.
  intros Hi Hst. destruct Hst as [now now' a reads past Hn|now a a1 p tok reads past E|now a a1 p tok reads past E|now a from p tok l1 l2 past Hd
    |now a at_ id reads past|now a pr rng at_ uid label exp reads past|now a reads past].
  - destruct a as [db c cfg]. by apply (race_inv_same ttl (mkRace now (mkAuth db c cfg) reads past)).
  - apply lookup_read_spec in E as [-> _]. apply (race_inv_op ttl (mkRace now a reads past) (OGet now p)); [done..| |].
    + apply (ri_past _ _ Hi).
    + auto.
  - apply lookup_read_spec in E as [-> Hf]. apply (race_inv_op ttl (mkRace now a reads past) (OGet now p)); [done|done|simpl; auto|..]; simpl.
    + intros t db [[= <- <-]|Hin]; [lia|]. by apply (ri_past _ _ Hi) in Hin.
    + intros from q tok' [[= <- <- <-]|Hin]; [right; eauto|auto].
  - split; simpl.
    + change (tc_ttl (cache_step (ca_cache a) (OInsert now p tok)) = ttl). rewrite cache_step_ttl. apply (ri_ttl _ _ Hi).
    + apply (ri_past _ _ Hi).
    + intros q e He. apply (cache_step_entry (ca_cache a) (OInsert now p tok)) in He as [(n & t & [= <- <- <-] & -> & ->)|(_ & e0 & He0 & -> & ->)].
      * eapply held_past; [apply (ri_read _ _ Hi from)|lia|done]. simpl. apply in_or_app. right. by left.
      * by apply (ri_entry _ _ Hi).
    + intros f q t Hin. apply (ri_read _ _ Hi). simpl. apply in_app_or in Hin as [Hin|Hin]; apply in_or_app; [by left|right; by right].
  - unfold revoke_client. destruct (store_revoke _ _ _) as [n db']. cbn [snd]. destruct (_ <$> _) as [p|].
    + apply (race_inv_op ttl (mkRace now a reads past) (OInvalidate p)); [done..|apply (ri_past _ _ Hi)|auto].
    + apply (race_inv_same ttl (mkRace now a reads past)); [done|simpl; lia].
  - assert (Hc : exists db', (create_client pr rng at_ a uid label exp).2 = mkAuth db' (ca_cache a) (ca_config a)).
    { unfold create_client. destruct (String.eqb _ _); [by destruct a; eexists|]. destruct (match exp with Some s => _ | None => _ end); [by destruct a; eexists|].
      destruct (mint _ _ _ _ _ _ _ _ _) as [[[]]|]; destruct a; by eexists. }
    destruct Hc as [db' ->]. apply (race_inv_same ttl (mkRace now a reads past)); [done|simpl; lia].
  - apply (race_inv_op ttl (mkRace now a reads past) OClear); [done..|apply (ri_past _ _ Hi)|auto].
Qed.
Lemma race_inv_run ttl r r' : rtc race_step r r' -> race_inv ttl r -> race_inv ttl r'.
Proof. induction 1 as [|r1 r2 r3 Hst _ IH]; [done|]. intros Hi. apply IH. by eapply race_inv_step. Qed.

(** What the middleware judges was in the table within the last lifetime of an
    entry and duration of a lookup. *)
Lemma judged_held ttl r p tok :
  race_inv ttl r -> (0 < ttl)%Z -> (0 <= delay)%Z -> judged r p tok -> held r (rc_now r - ttl - delay + 1) p tok.
Proof.
  intros Hi Httl Hd [(a1 & E)|(from & Hin & Hle)].
  - apply lookup_read_spec in E as [_ [|E]]; [done|]. apply cache_get_hit in E as (e & He & <- & Hx).
    unfold expired in Hx. apply Z.leb_gt in Hx. rewrite (ri_ttl _ _ Hi) in Hx.
    eapply held_past; [by apply (ri_entry _ _ Hi)|lia|done].
  - eapply held_past; [by apply (ri_read _ _ Hi)|lia|done].
Qed.

(** Tables read after a revocation show it. *)
Definition shows_revoked (x id : Z) (r : Race) : Prop :=
  revoked_id (ca_db (rc_auth r)) id /\ forall t db, In (t, db) (rc_past r) -> (x < t)%Z -> revoked_id db id.
Lemma shows_revoked_step x id r r' : shows_revoked x id r -> race_step r r' -> shows_revoked x id r'.
Proof.
  intros [Hnow Hpast] Hst. destruct Hst as [now now' a reads past Hn|now a a1 p tok reads past E|now a a1 p tok reads past E|now a from p tok l1 l2 past Hd
    |now a at_ id' reads past|now a pr rng at_ uid label exp reads past|now a reads past]; simpl in *; (split; [|try exact Hpast]); simpl.
  - done.
  - apply lookup_read_spec in E as [-> _]. done.
  - apply lookup_read_spec in E as [-> _]. done.
  - intros t db [[= <- <-]|Hin] Hx; [done|by apply (Hpast t)].
  - done.
  - apply (auth_step_revoked a (ARevoke at_ id') id Hnow).
  - apply (auth_step_revoked a (ACreate pr rng at_ uid label exp) id Hnow).
  - done.
Qed.

(** C17: Revocation takes effect within a bounded time, races and all.  However
    lookups, their fills, revocations, new tokens and flushes interleave: once a
    token of the table has been revoked at time [x], every row of that token that
    a lookup hands to the middleware from [x + ttl + delay] on is marked revoked,
    so that the middleware refuses it; [ttl] is the cache's, [delay] the longest
    a lookup takes. *)
Theorem revocation_bounded db config a0 now0 now a reads past rh x_at id r p tok :
  auth_open db config = Ok a0 -> (0 < au_cache_ttl_secs config)%Z -> (0 <= delay)%Z ->
  rtc race_step (mkRace now0 a0 [] []) (mkRace now a reads past) ->
  In rh (ca_db a) -> ct_id rh.1 = id ->
  rtc race_step (mkRace now (revoke_client x_at a id).2 reads past) r ->
  (now + au_cache_ttl_secs config + delay <= rc_now r)%Z ->
  judged r p tok -> ct_id (cd_row tok) = id -> ct_revoked_at (cd_row tok) <> None.
Proof.
  intros Hopen Httl Hd Hr1 Hin Hid Hr2 Ht Hj Htok.
  assert (Hi : race_inv (au_cache_ttl_secs config) (mkRace now a reads past)).
  { eapply race_inv_run; [exact Hr1|]. unfold auth_open in Hopen. destruct (negb _); [done|]. injection Hopen as <-.
    split; simpl; [done|done| |done]. intros q e. by rewrite lookup_empty. }
  assert (Hir : race_inv (au_cache_ttl_secs config) r).
  { eapply race_inv_run; [exact Hr2|]. eapply race_inv_step; [exact Hi|]. apply race_revoke. }
  assert (Hs : shows_revoked now id r).
  { assert (Hs0 : shows_revoked now id (mkRace now (revoke_client x_at a id).2 reads past)).
    { split; simpl.
      - pose proof (store_revoke_revoked x_at (ca_db a) id rh Hin Hid) as Hs. by destruct (List.find _ _).
      - intros t db' Hin' Hx. apply (ri_past _ _ Hi) in Hin'. simpl in Hin'. lia. }
    revert Hs0. clear -Hr2. induction Hr2 as [|r1 r2 r3 Hst _ IH]; [done|]. intros Hs0. apply IH. by eapply shows_revoked_step. }
  destruct (judged_held _ r p tok Hir Httl Hd Hj) as (t & db' & Hpast & Hlo & Hf).
  destruct Hs as [_ Hs]. destruct (Hs t db' Hpast ltac:(lia)) as [_ Hall]. apply find_prefix_Some in Hf as [Hin' _].
  by apply (Hall _ Hin').
Qed.
End Race.

(** ** A concrete run *)

#[local] Existing Instances demo_sha demo_sha_laws.
Definition raced_prefix : string := tk_prefix demo_token.
Definition raced_row : CachedToken := mkCached demo_row (tk_hash demo_token).
(** A lookup reads, the token is revoked, the lookup fills the cache; the entry
    is served at 30 and gone at 70. *)
Definition after_read : ClientAuth := (lookup_read 0 demo_auth raced_prefix).2.
Definition after_fill : ClientAuth := lookup_fill 1 (revoke_client "later" after_read 1).2 raced_prefix (Some raced_row).
Definition after_ttl : ClientAuth := (lookup_read 70 after_fill raced_prefix).2.
Definition late_row : CachedToken := mkCached (set_revoked "later" demo_row) (tk_hash demo_token).
Example raced_served : (lookup_read 30 after_fill raced_prefix).1 = Ok (Some raced_row, None).
Proof. by vm_compute. Qed.
Lemma revocation_bounded_witness : ct_revoked_at (cd_row late_row) <> None.
Proof.
  eapply (revocation_bounded 5 demo_db demo_auth_config demo_auth 0 0 after_read [(0%Z, raced_prefix, raced_row)] [(0%Z, demo_db)]
    (demo_row, tk_hash demo_token) "later" 1
    (mkRace 70 after_ttl [(70%Z, raced_prefix, late_row)] [(70%Z, ca_db after_fill); (0%Z, demo_db)]) raced_prefix late_row).
  - reflexivity.
  - reflexivity.
  - lia.
  - apply rtc_once. apply race_read. vm_compute. reflexivity.
  - by left.
  - reflexivity.
  - eapply rtc_l; [apply (race_tick 5 0 1); lia|].
    eapply rtc_l; [apply (race_fill 5 1 _ 0 raced_prefix raced_row [] []); lia|].
    eapply rtc_l; [apply (race_tick 5 1 70); lia|]. apply rtc_once. apply race_read. vm_compute. reflexivity.
  - simpl. lia.
  - right. exists 70%Z. split; [by left|simpl; lia].
  - reflexivity.
Defined.
