(* ===== verification/ConsoleServe.v ===== *)
(** * The whole console ([src/console/mod.rs], the router)

    Every route of the console with its handler, over one state: the database
    and the console's log, the files, the requests the playground has sent, and
    the budget database.  What can change that state, and what stays true of it
    however requests interleave. *)

From S2P Require Import Prelude RustStr Json Regex Redact ToolGate Matcher Policy Routing ClientAuth Budget AuditTrail Proxy Admin Config Reload RustFs RustNet ConsoleDb ConsoleApi ConsoleInv ConsoleEdit ConsoleViews ConsoleBackends ConsolePlay ConsoleStart.

Inductive Method := GET | POST | PUT | DELETE.
(** A request that reached a handler, with what was extracted from it. *)
Inductive Request :=
| Index | Styles | AppJs
| Login (body : LoginRequest) | Logout | Me
| ListTokens | CreateToken (body : CreateTokenRequest) | RevokeToken (id : Z)
| Audit (verdict : option string) (limit : option nat)
| BudgetView | ConfigView | Overview
| SetBudgetLimit (api_key : string) (limit : option Z) | ResetBudgetUsage (api_key : string)
| PlaygroundProxy (body : PlaygroundProxyRequest) | PlaygroundBackend (body : PlaygroundBackendRequest)
| ListBackends | CreateBackend (name : string) (body : BackendUpsertRequest)
| UpdateBackend (name : string) (body : BackendUpsertRequest) | DeleteBackend (name : string)
| UpdateRouting (body : RoutingUpdateRequest)
| ListUsers | CreateUser (body : CreateUserRequest) | UpdateUser (id : Z) (body : UserUpdate)
| ForceRevokeTokens (id : Z) | ResetPassword (id : Z) (password : string)
| EditFile (body : EditFileRequest) | ValidateFile (path content : string) | ListBackups (path : string)
| RevertFile (path backup : string)
| TriggerReload | ReloadStatus (since : option (result unit Z)) | ConsoleAudit (q : ConsoleAuditQuery).

Definition route_of (q : Request) : Method * string :=
  match q with
  | Index => (GET, "/") | Styles => (GET, "/styles.css") | AppJs => (GET, "/app.js")
  | Login _ => (POST, "/api/login") | Logout => (POST, "/api/logout") | Me => (GET, "/api/me")
  | ListTokens => (GET, "/api/tokens") | CreateToken _ => (POST, "/api/tokens") | RevokeToken _ => (DELETE, "/api/tokens/:id")
  | Audit _ _ => (GET, "/api/audit") | BudgetView => (GET, "/api/budget") | ConfigView => (GET, "/api/config")
  | Overview => (GET, "/api/overview")
  | SetBudgetLimit _ _ => (POST, "/api/budget/limit") | ResetBudgetUsage _ => (POST, "/api/budget/reset")
  | PlaygroundProxy _ => (POST, "/api/playground/proxy") | PlaygroundBackend _ => (POST, "/api/playground/backend")
  | ListBackends => (GET, "/api/backends") | CreateBackend _ _ => (POST, "/api/backends")
  | UpdateBackend _ _ => (PUT, "/api/backends/:name") | DeleteBackend _ => (DELETE, "/api/backends/:name")
  | UpdateRouting _ => (PUT, "/api/routing")
  | ListUsers => (GET, "/api/users") | CreateUser _ => (POST, "/api/users") | UpdateUser _ _ => (PUT, "/api/users/:id")
  | ForceRevokeTokens _ => (POST, "/api/users/:id/force-revoke-tokens")
  | ResetPassword _ _ => (POST, "/api/users/:id/reset-password")
  | EditFile _ => (POST, "/api/edit") | ValidateFile _ _ => (POST, "/api/validate") | ListBackups _ => (GET, "/api/backups")
  | RevertFile _ _ => (POST, "/api/revert")
  | TriggerReload => (POST, "/api/reload/trigger") | ReloadStatus _ => (GET, "/api/reload/status")
  | ConsoleAudit _ => (GET, "/api/console-audit")
  end.

Section Serve.
Context `{Unicode} `{RegexEngine} `{Serde} `{Rfc3339} `{Seconds} `{Argon2} `{CookieCrate} `{SerdeStruct} `{Disk} `{Sha256}
  `{Fs} `{TomlEdit}.
(** Formats and parsers. *)
Context (debug : string -> string) (from_yaml : string -> result string Policy) (from_toml : string -> result string Config).
(** The environment of the process, the reload channel, the HTTP client, the
    logs on disk, and the orders of SQLite and of a [BTreeMap]. *)
Context (vars : string -> option string)
  (exchange : string -> string -> result string string) (kill_hup : Z -> result string unit)
  (read_pid_file : string -> result string string)
  (client : result string unit) (http : ChatRequest -> result string (Z * result string string)) (elapsed : Z)
  (read_log : string -> LogRead)
  (order_by_created : list ClientTokenRow -> list ClientTokenRow) (users_by_created : list User -> list User)
  (by_usage : list (string * Z) -> list (string * Z))
  (sorted : list (string * BackendConfig) -> list (string * BackendConfig)).
(** The embedded pages. *)
Context (page : Request -> value).

Record Site := mkSite {
  si_cw : ConsoleWorld;
  si_fs : fs;
  si_sent : list ChatRequest;
  si_budget : option SqliteBudget;
}.

(** A handler runs on the part of the state it uses. *)
Definition at_part {E} (get : Site -> E) (put : ConsoleWorld -> E -> Site -> Site)
    (f : ConsoleWorld * E -> ConsoleReply * (ConsoleWorld * E)) (s : Site) : ConsoleReply * Site :=
  let '(r, (cw, e)) := f (si_cw s, get s) in (r, put cw e s).
Definition get_db (_ : Site) : unit := tt.
Definition put_db (cw : ConsoleWorld) (_ : unit) (s : Site) : Site := mkSite cw (si_fs s) (si_sent s) (si_budget s).
Definition put_fs (cw : ConsoleWorld) (f : fs) (s : Site) : Site := mkSite cw f (si_sent s) (si_budget s).
Definition get_play (s : Site) : fs * list ChatRequest := (si_fs s, si_sent s).
Definition put_play (cw : ConsoleWorld) (x : fs * list ChatRequest) (s : Site) : Site := mkSite cw x.1 x.2 (si_budget s).
Definition put_budget (cw : ConsoleWorld) (b : option SqliteBudget) (s : Site) : Site := mkSite cw (si_fs s) (si_sent s) b.
Definition at_db (f : ConsoleWorld -> ConsoleReply * ConsoleWorld) : Site -> ConsoleReply * Site :=
  at_part get_db put_db (fun w => let '(r, cw) := f w.1 in (r, (cw, tt))).

Definition serve (st : ConsoleState) (dr : Draw) (ed : EditDraw) (rng : nat -> string) (h : ConsoleHeaders) (q : Request)
    : Site -> ConsoleReply * Site :=
  let now := dr_now dr in
  match q with
  | Index | Styles | AppJs => fun s => (mkConsoleReply 200 [] (page q), s)
  | ConfigView => fun s => (api_config (si_fs s), s)
  | Login body => at_db (api_login st dr h body)
  | Logout => at_db (api_logout st dr h)
  | CreateToken body => at_db (api_create_token st dr rng h body)
  | RevokeToken id => at_db (api_revoke_token exchange kill_hup read_pid_file order_by_created st dr h id)
  | CreateUser body => at_db (api_create_user st dr h body)
  | UpdateUser id body => at_db (api_update_user st dr h id body)
  | ForceRevokeTokens id => at_db (api_force_revoke_user_tokens exchange kill_hup read_pid_file st dr h id)
  | ResetPassword id password => at_db (api_reset_user_password st dr h id password)
  | TriggerReload => at_db (api_trigger_reload exchange kill_hup read_pid_file st dr h)
  | Me => at_part get_db put_db (api_me st now h)
  | ListTokens => at_part get_db put_db (api_list_tokens order_by_created st now h)
  | ListUsers => at_part get_db put_db (api_list_users users_by_created st now h)
  | Audit verdict limit => at_part get_db put_db (api_audit read_log st now h verdict limit)
  | ConsoleAudit cq => at_part get_db put_db (api_console_audit read_log st now h cq)
  | ReloadStatus since => at_part get_db put_db (api_reload_status read_log st now h since)
  | Overview => at_part get_db put_db (api_overview sorted order_by_created st now h)
  | BudgetView => at_part si_budget put_budget (api_budget order_by_created by_usage st now h)
  | SetBudgetLimit key limit => at_part si_budget put_budget (api_set_budget_limit st dr h key limit)
  | ResetBudgetUsage key => at_part si_budget put_budget (api_reset_budget_usage st dr h key)
  | PlaygroundProxy body => at_part get_play put_play (api_playground_proxy client http elapsed st dr h body)
  | PlaygroundBackend body =>
      at_part get_play put_play (api_playground_backend from_toml vars client http elapsed st dr h body)
  | ListBackends => at_part si_fs put_fs (api_list_backends from_toml vars sorted st now h)
  | CreateBackend name body =>
      at_part si_fs put_fs (api_create_backend debug from_toml vars exchange kill_hup read_pid_file st dr ed h name body)
  | UpdateBackend name body =>
      at_part si_fs put_fs (api_update_backend debug from_toml vars exchange kill_hup read_pid_file st dr ed h name body)
  | DeleteBackend name =>
      at_part si_fs put_fs (api_delete_backend debug from_toml vars exchange kill_hup read_pid_file st dr ed h name)
  | UpdateRouting body =>
      at_part si_fs put_fs (api_update_routing debug from_toml vars exchange kill_hup read_pid_file st dr ed h body)
  | EditFile body =>
      at_part si_fs put_fs (api_edit_file debug from_yaml from_toml exchange kill_hup read_pid_file st dr ed h body)
  | ValidateFile path content => at_part si_fs put_fs (api_validate_file from_yaml from_toml st now h path content)
  | ListBackups path => at_part si_fs put_fs (api_list_backups st now h path)
  | RevertFile path backup =>
      at_part si_fs put_fs (api_revert_file debug exchange kill_hup read_pid_file st dr ed h path backup)
  end.

(** ** Who can change what *)

Notation admits st dr h s := (mutating_user (cs_console st) (dr_now dr) (ch_cookie h ≫= header_to_str)
  (ch_csrf h ≫= header_to_str) (cw_db (si_cw s))).

(** Everything but the sessions and the login attempts, which any request may
    touch or expire. *)
Definition durable (s : Site) :=
  (cd_users (cw_db (si_cw s)), cd_tokens (cw_db (si_cw s)), cw_audit (si_cw s), si_fs s, si_sent s, si_budget s).
(** The requests an ordinary user may change something with. *)
Definition self_service (q : Request) : bool :=
  match q with Logout | CreateToken _ | RevokeToken _ => true | _ => false end.

Definition lawful {E} (get : Site -> E) (put : ConsoleWorld -> E -> Site -> Site) : Prop :=
  forall d s, cd_users d = cd_users (cw_db (si_cw s)) -> cd_tokens d = cd_tokens (cw_db (si_cw s)) ->
    durable (put (with_db d (si_cw s)) (get s) s) = durable s.
Lemma lawful_db : lawful get_db put_db.
Proof. intros d s Hu Ht. unfold durable. simpl. by rewrite Hu, Ht. Qed.
Lemma lawful_fs : lawful si_fs put_fs.
Proof. intros d s Hu Ht. unfold durable. simpl. by rewrite Hu, Ht. Qed.
Lemma lawful_play : lawful get_play put_play.
Proof. intros d s Hu Ht. unfold durable. simpl. by rewrite Hu, Ht. Qed.
Lemma lawful_budget : lawful si_budget put_budget.
Proof. intros d s Hu Ht. unfold durable. simpl. by rewrite Hu, Ht. Qed.

Lemma current_user_tables c now cookie d :
  let d' := (current_user c now cookie d).2 in cd_users d' = cd_users d /\ cd_tokens d' = cd_tokens d.
Proof.
  unfold current_user, load_session. destruct (extract_session_id _ _) as [id|]; [|done].
  destruct (session_by_id d id) as [s|]; [|done].
  destruct (Z.ltb _ _); [done|]. destruct (Z.ltb _ _); [done|]. cbn [fst snd].
  repeat match goal with |- context [match ?x with _ => _ end] => destruct x end; done.
Qed.

Lemma at_reading {E} get put st now h run s :
  lawful (E := E) get put -> durable (at_part get put (reading st now h run) s).2 = durable s.
Proof.
  intros Hl. unfold at_part, reading. cbn [fst snd].
  pose proof (current_user_tables (cs_console st) now (ch_cookie h ≫= header_to_str) (cw_db (si_cw s))) as [Hu Ht].
  destruct (current_user _ _ _ _) as [[u|[status m]] d']; by apply Hl.
Qed.

Definition authorised (st : ConsoleState) (dr : Draw) (h : ConsoleHeaders) (s : Site) (admin : bool) : Prop :=
  exists u sid, (admits st dr h s).1 = Ok (u, sid) /\ (admin = true -> us_role u = "admin").

Lemma at_mutating {E} get put st dr h run s (admin : bool) :
  lawful (E := E) get put ->
  (admin = true -> forall u sid w e, require_console_admin u = Some e -> run u sid w = (e, w)) ->
  durable (at_part get put (mutating_with st dr h run) s).2 = durable s \/ authorised st dr h s admin.
Proof.
  intros Hl Hadm. unfold at_part, mutating_with, authorised. cbn [fst snd].
  pose proof (mutating_user_tables (cs_console st) (dr_now dr) (ch_cookie h ≫= header_to_str) (ch_csrf h ≫= header_to_str)
    (cw_db (si_cw s))) as [Hu Ht].
  destruct (mutating_user _ _ _ _ _) as [[[u sid]|[status m]] d'].
  2: { left. by apply Hl. }
  destruct admin; [|by right; exists u, sid]. destruct (require_console_admin u) as [e|] eqn:Er.
  - left. rewrite (Hadm eq_refl u sid _ e Er). by apply Hl.
  - right. exists u, sid. split; [done|]. intros _. by apply admin_role.
Qed.

Lemma at_db_mutating st dr h run s (admin : bool) :
  (admin = true -> forall u sid w e, require_console_admin u = Some e -> run u sid w = (e, w)) ->
  durable (at_db (mutating st dr h run) s).2 = durable s \/ authorised st dr h s admin.
Proof.
  intros Hadm.
  pose proof (at_mutating get_db put_db st dr h (fun u sid w => let '(r, cw) := run u sid w.1 in (r, (cw, tt))) s admin lawful_db)
    as Hm.
  assert (E : at_db (mutating st dr h run) s =
    at_part get_db put_db (mutating_with st dr h (fun u sid w => let '(r, cw) := run u sid w.1 in (r, (cw, tt)))) s).
  { unfold at_db, at_part, mutating, mutating_with. cbn [fst snd].
    destruct (mutating_user _ _ _ _ _) as [[[u sid]|[status m]] d']; [|done]. by destruct (run u sid _). }
  rewrite E. apply Hm. intros Ha u sid [w []] e Hr. simpl. by rewrite (Hadm Ha u sid w e Hr).
Qed.

(** A mutating handler, and that it refuses whoever is no administrator. *)
Ltac by_gate Hch :=
  match type of Hch with
  | ?x <> ?y =>
      match goal with
      | |- authorised ?st ?dr ?h ?s ?b =>
          let D := fresh in
          assert (D : x = y \/ authorised st dr h s b);
          [first [apply at_db_mutating
                 |apply at_mutating; [first [apply lawful_fs|apply lawful_play|apply lawful_budget]|]];
           (done || (intros _ u sid w e Hr; cbv beta zeta; unfold editable; by rewrite Hr))
          |destruct D; [done|assumption]]
      end
  end.

(** C18: Nothing changes without authority.  Of all the console's routes, only a
    login, or a request that is no GET and that carries a live session of an
    enabled user together with that session's CSRF token, changes the users, the
    tokens, the files, the budgets or the console's log, or makes the playground
    send anything; and but for a user's own logout and tokens that user is an
    administrator. *)
Theorem changes_authorised st dr ed rng h q s r s' :
  serve st dr ed rng h q s = (r, s') -> durable s' <> durable s ->
  (exists body, q = Login body) \/
  (route_of q).1 <> GET /\ authorised st dr h s (negb (self_service q)).
Proof.
  intros E Hch. assert (Hs : s' = (serve st dr ed rng h q s).2) by (by rewrite E). subst s'. clear E.
  destruct q; cbn [serve route_of self_service negb fst] in *; try (by destruct Hch); try (left; eexists; reflexivity).
  all: try (by destruct Hch; apply at_reading; first [apply lawful_db|apply lawful_fs|apply lawful_budget]).
  all: right; (split; [done|]); by_gate Hch.
Qed.

(** The routes that ask for no session. *)
Definition public (q : Request) : bool :=
  match q with Index | Styles | AppJs | Login _ | ConfigView => true | _ => false end.
Notation session st dr h s := (current_user (cs_console st) (dr_now dr) (ch_cookie h ≫= header_to_str) (cw_db (si_cw s))).

Lemma current_user_status c now cookie d status message d' :
  current_user c now cookie d = (Err (status, message), d') -> (400 <= status)%Z.
Proof.
  unfold current_user. destruct (extract_session_id _ _) as [id|]; [|intros [= <- <- <-]; lia].
  destruct (load_session _ _ _ _) as [[[[u|] t]|] d1]; [|intros [= <- <- <-]; lia..].
  destruct (us_disabled u); [intros [= <- <- <-]; lia|done].
Qed.

Lemma no_session_no_mutation st dr h s e :
  (session st dr h s).1 = Err e -> exists status message, (admits st dr h s).1 = Err (status, message) /\ (400 <= status)%Z.
Proof.
  intros He. destruct (admits st dr h s) as [[[u sid]|[status m]] d'] eqn:Ea.
  - exfalso. apply (f_equal fst) in Ea. cbn [fst] in Ea. apply mutating_user_iff in Ea as (Hid & x & t & hd & Hs & Hl & Hu & Hd & _).
    assert (Hok : (session st dr h s).1 = Ok u) by (apply current_user_accepts; by exists sid, x). congruence.
  - exists status, m. split; [done|]. by eapply mutating_user_status.
Qed.

Lemma at_reading_refused {E} get put st dr h run s e :
  (session st dr h s).1 = Err e -> (400 <= cr_status (at_part (E := E) get put (reading st (dr_now dr) h run) s).1)%Z.
Proof.
  intros He. unfold at_part, reading. cbn [fst snd]. destruct (current_user _ _ _ _) as [[u|[status m]] d'] eqn:Ec; [done|].
  simpl. by eapply current_user_status.
Qed.
Lemma at_mutating_refused {E} get put st dr h run s e :
  (session st dr h s).1 = Err e -> (400 <= cr_status (at_part (E := E) get put (mutating_with st dr h run) s).1)%Z.
Proof.
  intros He. apply no_session_no_mutation in He as (status & m & Ha & Hs). unfold at_part, mutating_with. cbn [fst snd].
  destruct (mutating_user _ _ _ _ _) as [[[u sid]|[status' m']] d']; [done|]. injection Ha as -> ->. done.
Qed.
Lemma at_db_refused st dr h run s e :
  (session st dr h s).1 = Err e -> (400 <= cr_status (at_db (mutating st dr h run) s).1)%Z.
Proof.
  intros He. apply no_session_no_mutation in He as (status & m & Ha & Hs). unfold at_db, at_part, mutating. cbn [fst snd].
  destruct (mutating_user _ _ _ _ _) as [[[u sid]|[status' m']] d']; [done|]. injection Ha as -> ->. done.
Qed.

(** A stranger learns nothing: without a live session of an enabled user every
    route but the pages, the login and the configuration files is answered with
    an error. *)
Theorem strangers_refused st dr ed rng h q s e :
  (session st dr h s).1 = Err e -> public q = false -> (400 <= cr_status (serve st dr ed rng h q s).1)%Z.
Proof.
  intros He Hq. destruct q; try done; cbn [serve].
  all: by first [eapply at_reading_refused|eapply at_mutating_refused|eapply at_db_refused].
Qed.

(** ** What stays true *)

Context `{!Rfc3339Laws}.

Lemma inv_at_reading {E} get put st dr h run s :
  (forall cw e s0, si_cw (put cw e s0) = cw) -> instant (dr_now dr) -> console_inv (cw_db (si_cw s)) ->
  console_inv (cw_db (si_cw (at_part (E := E) get put (reading st (dr_now dr) h run) s).2)).
Proof.
  intros Hp Hn Hd. unfold at_part, reading. cbn [fst snd].
  pose proof (inv_current_user (cs_console st) (dr_now dr) (ch_cookie h ≫= header_to_str) (cw_db (si_cw s)) Hn Hd) as Hi.
  destruct (current_user _ _ _ _) as [[u|[status m]] d']; simpl; by rewrite Hp.
Qed.

(** The run keeps the invariant. *)
Definition keeps_inv {E} (run : User -> string -> ConsoleWorld * E -> ConsoleReply * (ConsoleWorld * E)) : Prop :=
  forall u sid w, console_inv (cw_db w.1) -> console_inv (cw_db (run u sid w).2.1).

Lemma inv_at_mutating {E} get put st dr h run s :
  (forall cw e s0, si_cw (put cw e s0) = cw) -> instant (dr_now dr) -> keeps_inv run -> console_inv (cw_db (si_cw s)) ->
  console_inv (cw_db (si_cw (at_part (E := E) get put (mutating_with st dr h run) s).2)).
Proof.
  intros Hp Hn Hrun Hd. unfold at_part, mutating_with. cbn [fst snd].
  pose proof (inv_mutating_user (cs_console st) (dr_now dr) (ch_cookie h ≫= header_to_str) (ch_csrf h ≫= header_to_str)
    (cw_db (si_cw s)) Hn Hd) as Hi.
  destruct (mutating_user _ _ _ _ _) as [[[u sid]|[status m]] d']; [|simpl; by rewrite Hp].
  pose proof (Hrun u sid (with_db d' (si_cw s), get s) Hi) as Hr. destruct (run u sid _) as [r [cw e]]. simpl in *. by rewrite Hp.
Qed.

Lemma inv_done {E} (x : E) dr sid status hs body cw :
  console_inv (cw_db cw) ->
  console_inv (cw_db (let '(r, w2) := reply_rotated dr sid status hs body cw in (r, (w2, x))).2.1).
Proof. intros Hd. pose proof (inv_reply dr sid status hs body cw Hd) as Hr. by destruct (reply_rotated _ _ _ _ _ _). Qed.

Lemma inv_playground_done dr u sid action where_ status body (w : PlayWorld) :
  console_inv (cw_db w.1) -> console_inv (cw_db (playground_done dr u sid action where_ status body w).2.1).
Proof.
  intros Hd. unfold playground_done, rotate_csrf. pose proof (inv_csrf (cw_db w.1) sid (dr_csrf dr) Hd) as Hi.
  by destruct (rotate_csrf_token _ _ _) as [n d'].
Qed.
Lemma inv_playground_send dr u sid action where_ req (w : PlayWorld) :
  console_inv (cw_db w.1) -> console_inv (cw_db (playground_send client http elapsed dr u sid action where_ req w).2.1).
Proof.
  intros Hd. unfold playground_send, playground_error_response, playground_error_response_with_latency.
  destruct client; [destruct (http req) as [[]|]|]; by apply inv_playground_done.
Qed.

Lemma inv_backend_write st dr sid u action name body status write (w : World) :
  console_inv (cw_db w.1) ->
  console_inv (cw_db (backend_write exchange kill_hup read_pid_file st dr sid u action name body status write w).2.1).
Proof. intros Hd. unfold backend_write, backend_done. destruct (write w.2) as [[]]; [|done]. by apply inv_done. Qed.

Lemma inv_budget st dr h raw run s :
  instant (dr_now dr) ->
  (forall u sid key b cw, console_inv (cw_db cw) -> console_inv (cw_db (run u sid key b cw).2.1)) ->
  console_inv (cw_db (si_cw s)) ->
  console_inv (cw_db (si_cw (at_part si_budget put_budget (budget_mutation st dr h raw run) s).2)).
Proof.
  intros Hn Hrun Hd. apply inv_at_mutating; [done..| |done]. intros u sid w Hw. destruct (require_console_admin u); [done|].
  cbv zeta. destruct (String.eqb _ ""); [done|]. destruct w.2 as [b|]; [|done].
  pose proof (Hrun u sid (trim raw) b w.1 Hw) as Hr. by destruct (run u sid (trim raw) b w.1) as [r [cw b']].
Qed.

(** Case analysis on a handler's guards, down to its write. *)
Ltac walk :=
  repeat match goal with
  | |- context [match ?x with _ => _ end] =>
      lazymatch x with
      | reply_rotated _ _ _ _ _ _ => fail
      | _ => destruct x; try done
      end
  end.
Ltac keep := let Hw := fresh in intros u sid w Hw; cbv beta zeta; unfold editable; walk.

Definition no_user : CreateUserRequest := mkCreateUser "" "" None.
Definition no_token : CreateTokenRequest := mkCreateToken "" None.
Definition no_update : UserUpdate := mkUpdate None None None None None None.
Lemma serve_inv st dr ed rng h q s :
  instant (dr_now dr) -> instant (dr_now dr + hours (co_session_ttl_hours (cs_console st))) ->
  console_inv (cw_db (si_cw s)) -> console_inv (cw_db (si_cw (serve st dr ed rng h q s).2)).
Proof.
  intros Hn Ht Hd.
  assert (Hdb : forall f, console_inv (cw_db (f (si_cw s)).2) -> console_inv (cw_db (si_cw (at_db f s).2))).
  { intros f Hf. unfold at_db, at_part. simpl. by destruct (f (si_cw s)). }
  assert (Hend : forall e cu id up password ct,
    In e (account_endpoints exchange kill_hup read_pid_file order_by_created st dr rng h cu id up password ct) ->
    console_inv (cw_db (si_cw (at_db e s).2))).
  { intros e cu id up password ct Hin. apply Hdb. eapply inv_endpoint; [exact Hn|exact Hin|exact Hd]. }
  destruct q; cbn [serve]; try done; try (by apply inv_at_reading).
  - apply Hdb. by apply inv_login.
  - apply (Hend _ no_user 0%Z no_update "" no_token). by left.
  - apply (Hend _ no_user 0%Z no_update "" body). simpl. tauto.
  - apply (Hend _ no_user id no_update "" no_token). simpl. tauto.
  - apply inv_budget; [done| |done]. intros u sid key b cw Hw. destruct (console_set_limit b key limit); [|done]. by apply inv_done.
  - apply inv_budget; [done| |done]. intros u sid key b cw Hw. by apply inv_done.
  - apply inv_at_mutating; [done..| |done]. keep. by apply inv_playground_send.
  - apply inv_at_mutating; [done..| |done]. keep; first [by apply inv_playground_send|by apply inv_playground_done].
  - apply inv_at_mutating; [done..| |done]. keep. by apply inv_backend_write.
  - apply inv_at_mutating; [done..| |done]. keep. by apply inv_backend_write.
  - apply inv_at_mutating; [done..| |done]. keep. by apply inv_backend_write.
  - apply inv_at_mutating; [done..| |done]. keep. by apply inv_done.
  - apply (Hend _ body 0%Z no_update "" no_token). simpl. tauto.
  - apply (Hend _ no_user id body "" no_token). simpl. tauto.
  - apply (Hend _ no_user id no_update "" no_token). simpl. tauto.
  - apply (Hend _ no_user id no_update password no_token). simpl. tauto.
  - apply inv_at_mutating; [done..| |done]. keep. by apply inv_done.
  - apply inv_at_mutating; [done..| |done]. keep. by apply inv_done.
  - apply Hdb. apply inv_mutating; [done| |done]. intros u sid w Hw. destruct (require_console_admin u); [done|]. by apply inv_reply.
Qed.

(** Requests and the pruning task, in any order. *)
Inductive site_step (st : ConsoleState) : Site -> Site -> Prop :=
| step_serve dr ed rng h q s :
    instant (dr_now dr) -> instant (dr_now dr + hours (co_session_ttl_hours (cs_console st))) ->
    site_step st s (serve st dr ed rng h q s).2
| step_prune n1 n2 n3 s :
    site_step st s (put_db (with_db (prune_tick (cs_console st) n1 n2 n3 (cw_db (si_cw s))) (si_cw s)) tt s).

Lemma site_inv_step st s s' : site_step st s s' -> console_inv (cw_db (si_cw s)) -> console_inv (cw_db (si_cw s')).
Proof.
  intros [dr ed rng h q s0 Hn Ht|n1 n2 n3 s0] Hd; [by apply serve_inv|]. simpl. apply inv_attempts, inv_filter, inv_filter, Hd.
Qed.

Lemma run_inv open_db open_log secret_bytes salt now cfg pw st w d :
  open_db (bu_db_path (cf_budget cfg)) = Ok d -> console_inv d ->
  run open_db open_log secret_bytes salt now cfg pw = Ok (st, w) -> console_inv (cw_db w).
Proof.
  intros Hdb Hd Hr. apply run_spec in Hr as (_ & _ & d' & Hd' & Hb). rewrite Hdb in Hd'. injection Hd' as <-.
  unfold bootstrap in Hb. destruct (bootstrap_admin cfg) as [b|]; [|by injection Hb as <-]. destruct pw as [p|]; [|by injection Hb as <-].
  destruct (Nat.ltb _ _); [done|]. destruct (is_common_password p); [done|]. destruct (argon2_hash salt p) as [hash|]; [|done].
  unfold maybe_bootstrap_admin in Hb. destruct (Z.ltb _ _); [by injection Hb as <-|].
  destruct (insert_user _ _ _ _ _ _ _) as [[id d1]|] eqn:Ei; [|done]. injection Hb as <-. by eapply inv_insert_user.
Qed.

(** C21: From start-up on a database that satisfies [console_inv] (an empty one does;
    one migrated from the first schema while it holds sessions does not, their
    CSRF token being NULL), whatever requests on whatever routes the console has
    served, and whenever its pruning task ran: user ids, user names and session
    ids are unique, and every session belongs to a user that exists, carries a
    CSRF token and has valid times.  So no request is ever told that its session
    has no user or no token. *)
Theorem console_reachable open_db open_log secret_bytes salt now cfg pw st w d f sent b s :
  open_db (bu_db_path (cf_budget cfg)) = Ok d -> console_inv d ->
  run open_db open_log secret_bytes salt now cfg pw = Ok (st, w) ->
  rtc (site_step st) (mkSite w f sent b) s ->
  console_inv (cw_db (si_cw s)) /\
  forall dr h e, (admits st dr h s).1 = Err e ->
    e <> (401%Z, "user not found") /\ e <> (403%Z, "csrf token missing from session").
Proof.
  intros Hdb Hd Hr Hs. assert (Hi : console_inv (cw_db (si_cw s))).
  { apply (run_inv _ _ _ _ _ _ _ _ _ _ Hdb Hd) in Hr. remember (mkSite w f sent b) as s0 eqn:E0.
    assert (H0' : console_inv (cw_db (si_cw s0))) by (by subst s0). clear E0 Hr Hd Hdb.
    induction Hs as [|s1 s2 s3 Hst _ IH]; [done|]. apply IH. by eapply site_inv_step. }
  split; [done|]. intros dr h e. by apply inv_rejections.
Qed.
End Serve.
