(* ===== verification/ConsoleTrail.v ===== *)
(** * Accountability ([src/console/audit.rs] across [src/console/handlers.rs])

    The console's log promises a record of every administrative mutation.  Here
    that promise is a property of the whole console: of every route, what it
    adds to the log and on whose behalf. *)

From S2P Require Import Prelude RustStr Json Regex Redact ToolGate Matcher Policy Routing ClientAuth Budget AuditTrail Proxy Admin Config Reload RustFs RustNet ConsoleDb ConsoleApi ConsoleInv ConsoleEdit ConsoleViews ConsoleBackends ConsolePlay ConsoleStart ConsoleServe.

Section Trail.
Context `{Unicode} `{RegexEngine} `{Serde} `{Rfc3339} `{Seconds} `{Argon2} `{CookieCrate} `{SerdeStruct} `{Disk} `{Sha256}
  `{Fs} `{TomlEdit}.

(** A record made for a user, at the time of the request. *)
Definition by_actor (dr : Draw) (u : User) (r : MutationRecord) : Prop :=
  mr_actor r = us_username u /\ mr_actor_id r = show_Z (us_id u) /\ mr_timestamp r = to_rfc3339 (dr_now dr).
(** The log with more records. *)
Definition log_all (recs : list MutationRecord) (a : option disk) : option disk :=
  (fun f => foldl record_mutation f recs) <$> a.

Lemma log_none a : log_all [] a = a.
Proof. by destruct a. Qed.

(** What a handler does for a user: it adds records of that user, and when it
    succeeds without any it has changed no table and nothing of its own part. *)
Definition accounts {E} (dr : Draw) (u : User) (w : ConsoleWorld * E) (o : ConsoleReply * (ConsoleWorld * E)) : Prop :=
  exists recs, Forall (by_actor dr u) recs /\ cw_audit o.2.1 = log_all recs (cw_audit w.1) /\
    ((cr_status o.1 < 400)%Z -> recs = [] ->
       cd_users (cw_db o.2.1) = cd_users (cw_db w.1) /\ cd_tokens (cw_db o.2.1) = cd_tokens (cw_db w.1) /\ o.2.2 = w.2).

Lemma accounts_refusal {E} dr u (w : ConsoleWorld * E) status message cw x :
  cw_audit cw = cw_audit w.1 -> (400 <= status)%Z -> accounts dr u w (json_error status message, (cw, x)).
Proof. intros Ha Hs. exists []. rewrite log_none. split; [constructor|]. split; [done|]. simpl. lia. Qed.
Lemma accounts_refused {E} dr u (w : ConsoleWorld * E) r : (400 <= cr_status r)%Z -> accounts dr u w (r, w).
Proof. intros Hs. exists []. rewrite log_none. split; [constructor|]. split; [done|]. simpl. lia. Qed.

(** One record, and then the answer with the next CSRF token, or the other way
    round. *)
Definition recorded (dr : Draw) (u : User) (a a' : option disk) : Prop :=
  exists recs, recs <> [] /\ Forall (by_actor dr u) recs /\ a' = log_all recs a.
Lemma recorded_audit dr k u action target before after summary a w :
  cw_audit w = a -> recorded dr u a (cw_audit (audit_mutation dr k u action target before after summary w)).
Proof. intros <-. eexists [_]. split; [done|]. split; [|reflexivity]. by apply Forall_singleton. Qed.
Lemma recorded_more dr k u action target before after summary a w :
  recorded dr u a (cw_audit w) -> recorded dr u a (cw_audit (audit_mutation dr k u action target before after summary w)).
Proof.
  intros (recs & Hne & Hf & Ha). eexists (recs ++ [_]). split; [by destruct recs|].
  split; [apply Forall_app; split; [done|apply Forall_singleton]|].
  2: { unfold audit_mutation. cbn [cw_audit]. rewrite Ha. unfold log_all. by destruct a; cbn; rewrite ?foldl_app. }
  done.
Qed.
Lemma recorded_accounts {E} dr u (w : ConsoleWorld * E) r cw x :
  recorded dr u (cw_audit w.1) (cw_audit cw) -> accounts dr u w (r, (cw, x)).
Proof. intros (recs & Hne & Hf & Ha). exists recs. split; [done|]. by split. Qed.
Lemma reply_audit dr sid status hs body w : cw_audit (reply_rotated dr sid status hs body w).2 = cw_audit w.
Proof. unfold reply_rotated, rotate_csrf. by destruct (rotate_csrf_token _ _ _). Qed.
Lemma accounts_reply {E} dr u (w : ConsoleWorld * E) sid status hs body cw (x : E) :
  recorded dr u (cw_audit w.1) (cw_audit cw) ->
  accounts dr u w (let '(r, cw') := reply_rotated dr sid status hs body cw in (r, (cw', x))).
Proof.
  intros Hr. pose proof (reply_audit dr sid status hs body cw) as Ha. destruct (reply_rotated _ _ _ _ _ _) as [r cw'].
  apply recorded_accounts. simpl in Ha. by rewrite Ha.
Qed.

(** An answer alone touches the sessions only. *)
Lemma accounts_answer dr u sid status hs body w :
  accounts dr u (w, tt) (let '(r, cw) := reply_rotated dr sid status hs body w in (r, (cw, tt))).
Proof.
  exists []. rewrite log_none. split; [constructor|]. unfold reply_rotated, rotate_csrf, rotate_csrf_token. done.
Qed.
Lemma console_admin_refuses u e : require_console_admin u = Some e -> (400 <= cr_status e)%Z.
Proof. unfold require_console_admin. destruct (negb _); [|done]. intros [= <-]. done. Qed.
Lemma weak_password_refuses p e : weak_password p = Some e -> (400 <= cr_status e)%Z.
Proof. unfold weak_password. destruct (Nat.ltb _ _); [by intros [= <-]|]. destruct (is_common_password p); [by intros [= <-]|done]. Qed.
Lemma editable_refuses u raw refusal e : editable u raw refusal = Err e -> (400 <= cr_status e)%Z.
Proof.
  unfold editable. destruct (require_console_admin u) as [e'|] eqn:Er; [intros [= <-]; by eapply console_admin_refuses|].
  repeat case_match; by intros [= <-].
Qed.

(** ** The whole console *)

Context (debug : string -> string) (from_yaml : string -> result string Policy) (from_toml : string -> result string Config)
  (vars : string -> option string)
  (exchange : string -> string -> result string string) (kill_hup : Z -> result string unit)
  (read_pid_file : string -> result string string)
  (client : result string unit) (http : ChatRequest -> result string (Z * result string string)) (elapsed : Z)
  (read_log : string -> LogRead)
  (order_by_created : list ClientTokenRow -> list ClientTokenRow) (users_by_created : list User -> list User)
  (by_usage : list (string * Z) -> list (string * Z))
  (sorted : list (string * BackendConfig) -> list (string * BackendConfig)) (page : Request -> value).
Notation serve := (serve debug from_yaml from_toml vars exchange kill_hup read_pid_file client http elapsed read_log
  order_by_created users_by_created by_usage sorted page).

(** What a request may change beside the sessions, the attempts and the log. *)
Definition tables (s : Site) := (cd_users (cw_db (si_cw s)), cd_tokens (cw_db (si_cw s)), si_fs s, si_sent s, si_budget s).
(** On whose behalf: the user the extractor admits, or the one logging in. *)
Definition acts (st : ConsoleState) (dr : Draw) (h : ConsoleHeaders) (q : Request) (s : Site) (u : User) : Prop :=
  match q with
  | Login body => user_by_username (cw_db (si_cw s)) (lg_username body) = Some u
  | _ => exists sid, (mutating_user (cs_console st) (dr_now dr) (ch_cookie h ≫= header_to_str) (ch_csrf h ≫= header_to_str)
                        (cw_db (si_cw s))).1 = Ok (u, sid)
  end.
(** The records a request hands to the best-effort log, if one is open; whether
    they reach the file is the disk's affair. *)
Definition hands_records (st : ConsoleState) (dr : Draw) (h : ConsoleHeaders) (q : Request) (s : Site) (o : ConsoleReply * Site) : Prop :=
  exists recs, cw_audit (si_cw o.2) = log_all recs (cw_audit (si_cw s)) /\
    (recs <> [] -> exists u, acts st dr h q s u /\ Forall (by_actor dr u) recs) /\
    ((cr_status o.1 < 400)%Z -> tables o.2 <> tables s -> recs <> []).

Definition lawful_tables {E} (get : Site -> E) (put : ConsoleWorld -> E -> Site -> Site) : Prop :=
  (forall cw e s, si_cw (put cw e s) = cw) /\
  forall cw s, cd_users (cw_db cw) = cd_users (cw_db (si_cw s)) -> cd_tokens (cw_db cw) = cd_tokens (cw_db (si_cw s)) ->
    tables (put cw (get s) s) = tables s.
Lemma lawful_tables_db : lawful_tables get_db put_db.
Proof. split; [done|]. intros cw s Hu Ht. unfold tables. simpl. by rewrite Hu, Ht. Qed.
Lemma lawful_tables_fs : lawful_tables si_fs put_fs.
Proof. split; [done|]. intros cw s Hu Ht. unfold tables. simpl. by rewrite Hu, Ht. Qed.
Lemma lawful_tables_play : lawful_tables get_play put_play.
Proof. split; [done|]. intros cw s Hu Ht. unfold tables. simpl. by rewrite Hu, Ht. Qed.
Lemma lawful_tables_budget : lawful_tables si_budget put_budget.
Proof. split; [done|]. intros cw s Hu Ht. unfold tables. simpl. by rewrite Hu, Ht. Qed.

Lemma accounted_same st dr h q s r : hands_records st dr h q s (r, s).
Proof. exists []. rewrite log_none. split; [done|]. by split. Qed.
Lemma accounted_reading {E} get put st dr h run q s :
  lawful_tables (E := E) get put -> hands_records st dr h q s (at_part get put (reading st (dr_now dr) h run) s).
Proof.
  intros [Hp Hl]. exists []. rewrite log_none. unfold at_part, reading. cbn [fst snd].
  pose proof (current_user_tables (cs_console st) (dr_now dr) (ch_cookie h ≫= header_to_str) (cw_db (si_cw s))) as [Hu Ht].
  destruct (current_user _ _ _ _) as [[u|[status m]] d']; cbn [fst snd]; rewrite Hp; (split; [done|]); (split; [done|]);
    intros _ Hc; destruct Hc; by apply Hl.
Qed.

(** A mutating handler, with what it does once admitted. *)
Lemma accounted_mutating {E} get put st dr h run q s :
  lawful_tables (E := E) get put -> (forall body, q <> Login body) ->
  (forall u sid w, accounts dr u w (run u sid w)) ->
  hands_records st dr h q s (at_part get put (mutating_with st dr h run) s).
Proof.
  intros [Hp Hl] Hq Hrun. unfold at_part, mutating_with. cbn [fst snd].
  pose proof (mutating_user_tables (cs_console st) (dr_now dr) (ch_cookie h ≫= header_to_str) (ch_csrf h ≫= header_to_str)
    (cw_db (si_cw s))) as [Hu Ht].
  assert (Hacts : forall u sid, (mutating_user (cs_console st) (dr_now dr) (ch_cookie h ≫= header_to_str)
    (ch_csrf h ≫= header_to_str) (cw_db (si_cw s))).1 = Ok (u, sid) -> acts st dr h q s u)
    by (intros u sid Ha; destruct q; try (by exists sid); by destruct (Hq body)).
  destruct (mutating_user _ _ _ _ _) as [[[u sid]|[status m]] d'].
  2: { exists []. cbn [fst snd]. rewrite log_none, Hp. split; [done|]. split; [done|]. intros _ Hc. destruct Hc. by apply Hl. }
  destruct (Hrun u sid (with_db d' (si_cw s), get s)) as (recs & Hf & Ha & Hk). destruct (run u sid _) as [r [cw e]].
  cbn [fst snd] in *. exists recs. cbn [fst snd]. rewrite Hp. split; [done|]. split; [intros _; exists u; split; [by eapply Hacts|done]|].
  intros Hs Hc ->. destruct Hc. destruct (Hk Hs eq_refl) as (Hu' & Ht' & ->). apply Hl; simpl in *; congruence.
Qed.
Lemma accounted_db st dr h run q s :
  (forall body, q <> Login body) ->
  (forall u sid w, accounts dr u (w, tt) (let '(r, cw) := run u sid w in (r, (cw, tt)))) ->
  hands_records st dr h q s (at_db (mutating st dr h run) s).
Proof.
  intros Hq Hrun.
  assert (E : at_db (mutating st dr h run) s =
    at_part get_db put_db (mutating_with st dr h (fun u sid w => let '(r, cw) := run u sid w.1 in (r, (cw, tt)))) s).
  { unfold at_db, at_part, mutating, mutating_with. cbn [fst snd].
    destruct (mutating_user _ _ _ _ _) as [[[u sid]|[status m]] d']; [|done]. by destruct (run u sid _). }
  rewrite E. apply accounted_mutating; [apply lawful_tables_db|done|]. intros u sid [w []]. apply Hrun.
Qed.

Lemma accounts_playground_done dr u sid action where_ status body (w : PlayWorld) x :
  accounts dr u w (playground_done dr u sid action where_ status body (w.1, x)).
Proof.
  unfold playground_done, rotate_csrf. cbn [fst snd]. destruct (rotate_csrf_token _ _ _) as [n d'].
  apply recorded_accounts. by apply recorded_audit.
Qed.
Lemma accounts_playground_send dr u sid action where_ req (w : PlayWorld) :
  accounts dr u w (playground_send client http elapsed dr u sid action where_ req w).
Proof.
  unfold playground_send, playground_error_response, playground_error_response_with_latency.
  destruct w as [cw x]. destruct client; [destruct (http req) as [[]|]|]; apply (accounts_playground_done _ _ _ _ _ _ _ (cw, x)).
Qed.
Lemma accounts_backend_write st dr sid u action name body status write (w : World) :
  accounts dr u w (backend_write exchange kill_hup read_pid_file st dr sid u action name body status write w).
Proof.
  unfold backend_write, backend_done. destruct (write w.2) as [[]]; [|by apply accounts_refusal].
  apply accounts_reply. by apply recorded_audit.
Qed.

(** The guards of a handler, one by one, down to its refusal or its write. *)
Ltac refused := first
  [by apply accounts_refusal
  |apply accounts_refused;
   first [done|by eapply console_admin_refuses|by eapply weak_password_refuses|by eapply editable_refuses]].
Ltac guards :=
  repeat match goal with
  | |- accounts _ _ _ (match (match ?x with _ => _ end) with _ => _ end) =>
      lazymatch x with
      | reply_rotated _ _ _ _ _ _ => fail
      | _ => destruct x eqn:?; cbv beta iota; try refused
      end
  | |- accounts _ _ _ (match ?x with _ => _ end) =>
      lazymatch x with
      | reply_rotated _ _ _ _ _ _ => fail
      | match _ with _ => _ end => fail
      | _ => destruct x eqn:?; try refused
      end
  end.
(** The record and the answer of a success. *)
Ltac written :=
  match goal with
  | |- context [reply_rotated ?dr ?sid ?status ?hs ?body ?cw] =>
      let Ha := fresh in
      pose proof (reply_audit dr sid status hs body cw) as Ha; destruct (reply_rotated dr sid status hs body cw) as [? ?];
      apply recorded_accounts; cbn [fst snd] in Ha |- *; rewrite Ha;
      first [by apply recorded_audit|by apply recorded_more, recorded_audit]
  end.

Lemma login_trail st dr h body w :
  let o := api_login st dr h body w in
  cw_audit o.2 = cw_audit w /\ (400 <= cr_status o.1)%Z \/
  exists u, user_by_username (cw_db w) (lg_username body) = Some u /\ recorded dr u (cw_audit w) (cw_audit o.2).
Proof.
  unfold api_login. cbv zeta. destruct (String.eqb _ ""); [by left|].
  match goal with |- context [if ?c then (json_error 429 "too many requests from this IP", _) else _] => destruct c; [by left|] end.
  destruct (user_by_username _ _) as [u|] eqn:Eu; [|by left].
  match goal with |- context [if ?c then (json_error 429 "account locked", w) else _] => destruct c; [by left|] end.
  destruct (us_disabled u); [by left|]. destruct (us_password_hash u) as [hash|]; [|by left].
  destruct (verify_password _ _); [|cbn [negb]; by destruct (Z.leb _ _); left]. cbn [negb].
  destruct (create_session _ _ _ _ _ _ _ _) as [d4|e]; [|by left]. right. exists u. split; [done|].
  by apply recorded_audit.
Qed.
Lemma login_accounted st dr h body s : hands_records st dr h (Login body) s (at_db (api_login st dr h body) s).
Proof.
  unfold at_db, at_part. cbn [fst snd]. pose proof (login_trail st dr h body (si_cw s)) as Ht. cbv zeta in Ht.
  destruct (api_login st dr h body (si_cw s)) as [r cw]. cbn [fst snd] in Ht. destruct Ht as [[Ha Hs]|(u & Hu & recs & Hne & Hf & Ha)].
  - exists []. rewrite log_none. split; [done|]. split; [done|]. simpl. lia.
  - exists recs. split; [done|]. split; [intros _; by exists u|done].
Qed.

Lemma accounted_serve st dr ed rng h q s : hands_records st dr h q s (serve st dr ed rng h q s).
Proof.
  destruct q; cbn [ConsoleServe.serve]; try apply accounted_same.
  all: try (apply accounted_reading; first [apply lawful_tables_db|apply lawful_tables_fs|apply lawful_tables_budget]).
  1: apply login_accounted.
  all: first [apply accounted_db; [done|]|apply accounted_mutating;
    [first [apply lawful_tables_fs|apply lawful_tables_play|apply lawful_tables_budget]|done|]].
  all: intros u sid w; cbv beta zeta; guards.
  all: try written; try apply accounts_playground_send; try apply accounts_backend_write.
  - apply (accounts_playground_done _ _ _ _ _ _ _ w w.2).
  - apply (accounts_playground_done _ _ _ _ _ _ _ w w.2).
  - destruct (role_changed _ _); written.
  - apply accounts_answer.
Qed.

(** ** The log only grows *)

Context `{!DiskLaws}.

Lemma write_line_extends f line : exists t, contents (console_write_line f line).2 = contents f +:+ t.
Proof.
  unfold console_write_line. destruct (append f line) as [[[]|e] f1] eqn:E1.
  2: { apply append_err in E1 as [n Hn]. by eexists. }
  apply append_ok in E1. destruct (append f1 (one nl)) as [[[]|e] f2] eqn:E2.
  - apply append_ok in E2. pose proof (sync_contents f2) as Hs. exists (line +:+ one nl).
    destruct (sync_all f2) as [[] f3]; simpl in Hs |- *; by rewrite Hs, E2, E1, sapp_assoc.
  - apply append_err in E2 as [n Hn]. simpl. rewrite Hn, E1, <-sapp_assoc. by eexists.
Qed.
Lemma log_extends recs f : exists t, contents (foldl record_mutation f recs) = contents f +:+ t.
Proof.
  revert f. induction recs as [|r recs IH]; intros f; simpl; [exists ""; by rewrite sapp_nil_r|].
  destruct (IH (record_mutation f r)) as [t Ht]. rewrite Ht. unfold record_mutation, write_mutation, write_fields.
  destruct (struct_to_string _) as [line|]; [|by eexists].
  destruct (write_line_extends f line) as [t' Ht']. rewrite Ht', <-sapp_assoc. by eexists.
Qed.

(** On a disk that takes every write, the records handed over are the file's
    next lines. *)
Lemma log_lines recs f :
  (forall d t, exists d', append d t = (Ok tt, d')) -> (forall fs, exists line, struct_to_string fs = Ok line) ->
  exists lines, Forall2 (fun r line => struct_to_string (mutation_fields r) = Ok line) recs lines /\
    contents (foldl record_mutation f recs) = contents f +:+ unlines lines.
Proof.
  intros Hd Hs. revert f. induction recs as [|r recs IH]; intros f; simpl; [exists []; by rewrite sapp_nil_r|].
  destruct (IH (record_mutation f r)) as (lines & HF & Hc). destruct (Hs (mutation_fields r)) as [line Hl].
  exists (line :: lines). split; [by constructor|]. rewrite Hc. simpl. unfold record_mutation, write_mutation, write_fields.
  rewrite Hl. unfold console_write_line. destruct (Hd f line) as [f1 E1]. rewrite E1. destruct (Hd f1 (one nl)) as [f2 E2]. rewrite E2.
  apply append_ok in E1, E2. pose proof (sync_contents f2) as Hy. destruct (sync_all f2) as [[] f3]; simpl in Hy |- *;
    by rewrite Hy, E2, E1, <-!sapp_assoc.
Qed.

(** C19: No silent change, as long as the log can be written.  When the console's
    log is open ([cw_audit] is [None] when opening it failed at start-up), the
    disk takes every write and every record serialises (a failure of either is
    swallowed by [record_mutation]): whatever request the console serves, the
    file's text gains exactly one line per record of that very request, each
    record with the user and the time of the request, the user being the one
    the extractor admitted or the one logging in; and a request that was
    answered without an error and changed the users, the tokens, a file or a
    budget, or made the playground send, has added at least one line. *)
Theorem changes_recorded st dr ed rng h q s f :
  cw_audit (si_cw s) = Some f ->
  (forall d t, exists d', append d t = (Ok tt, d')) -> (forall fs, exists line, struct_to_string fs = Ok line) ->
  let '(reply, s') := serve st dr ed rng h q s in
  exists recs lines f', cw_audit (si_cw s') = Some f' /\
    Forall2 (fun r line => struct_to_string (mutation_fields r) = Ok line) recs lines /\
    contents f' = contents f +:+ unlines lines /\
    (recs <> [] -> exists u, acts st dr h q s u /\ Forall (by_actor dr u) recs) /\
    ((cr_status reply < 400)%Z -> tables s' <> tables s -> lines <> []).
Proof.
  intros Hf Hd Hs. pose proof (accounted_serve st dr ed rng h q s) as (recs & Ha & Hu & Hne).
  destruct (serve st dr ed rng h q s) as [reply s']. cbn [fst snd] in *. rewrite Hf in Ha.
  destruct (log_lines recs f Hd Hs) as (lines & HF & Hc).
  exists recs, lines, (foldl record_mutation f recs). split_and!; [done..|].
  intros Hst Ht ->. apply Forall2_nil_inv_r in HF. by apply Hne.
Qed.

(** The older record shape does not carry the envelope the two are said to
    share: it has neither a request id nor the actor's id. *)
Theorem edit_record_no_envelope r :
  ~ In "request_id" (map fst (edit_fields r)) /\ ~ In "actor_id" (map fst (edit_fields r)) /\
  forall m, In "request_id" (map fst (mutation_fields m)) /\ In "actor_id" (map fst (mutation_fields m)).
Proof. split; [simpl; naive_solver|]. split; [simpl; naive_solver|]. intros m. simpl. tauto. Qed.

(** What has been written stays.  However requests and pruning interleave, and
    whatever writes fail on the way, the text the console's log held is a prefix
    of the text it holds later. *)
Theorem console_log_append_only st s s' f :
  rtc (site_step debug from_yaml from_toml vars exchange kill_hup read_pid_file client http elapsed read_log
         order_by_created users_by_created by_usage sorted page st) s s' ->
  cw_audit (si_cw s) = Some f -> exists f' t, cw_audit (si_cw s') = Some f' /\ contents f' = contents f +:+ t.
Proof.
  intros Hr. revert f. induction Hr as [s|s s1 s' Hst _ IH]; intros f Hf.
  { exists f, "". by rewrite sapp_nil_r. }
  assert (Hone : exists f1 t, cw_audit (si_cw s1) = Some f1 /\ contents f1 = contents f +:+ t).
  { destruct Hst as [dr ed rng h q s0 _ _|n1 n2 n3 s0]; [|exists f, ""; by rewrite sapp_nil_r].
    destruct (accounted_serve st dr ed rng h q s0) as (recs & Ha & _). rewrite Hf in Ha.
    destruct (log_extends recs f) as [t Ht]. by exists (foldl record_mutation f recs), t. }
  destruct Hone as (f1 & t1 & Hf1 & Ht1). destruct (IH f1 Hf1) as (f' & t & Hf' & Ht). exists f', (t1 +:+ t).
  by rewrite Ht, Ht1, sapp_assoc.
Qed.
End Trail.
