(* ===== verification/ConsoleCsrf.v ===== *)
(** * CSRF tokens across the console ([src/console/handlers.rs], [auth.rs])

    Every route behind the [MutatingUser] extractor ends a success by drawing a
    fresh token for the caller's session and announcing it in the reply. *)

From S2P Require Import Prelude RustStr Json Regex Redact ToolGate Matcher Policy Routing ClientAuth Budget AuditTrail Proxy Admin Config Reload RustFs RustNet ConsoleDb ConsoleApi ConsoleInv ConsoleEdit ConsoleViews ConsoleBackends ConsolePlay ConsoleStart ConsoleServe ConsoleTrail.

(** The routes whose handler takes [MutatingUser]. *)
Definition mutating_route (q : Request) : bool :=
  match q with
  | Logout | CreateToken _ | RevokeToken _ | SetBudgetLimit _ _ | ResetBudgetUsage _
  | PlaygroundProxy _ | PlaygroundBackend _
  | CreateBackend _ _ | UpdateBackend _ _ | DeleteBackend _ | UpdateRouting _
  | CreateUser _ | UpdateUser _ _ | ForceRevokeTokens _ | ResetPassword _ _
  | EditFile _ | RevertFile _ _ | TriggerReload => true
  | _ => false
  end.

Section Csrf.
Context `{Unicode} `{RegexEngine} `{Serde} `{Rfc3339} `{Seconds} `{Argon2} `{CookieCrate} `{SerdeStruct} `{Disk} `{Sha256}
  `{Fs} `{TomlEdit}.

(** The session, if it still exists, holds the fresh token, and the reply names
    it. *)
Definition announces (dr : Draw) (sid : string) (r : ConsoleReply) (cw : ConsoleWorld) : Prop :=
  forall x, session_by_id (cw_db cw) sid = Some x ->
    se_csrf_token x = Some (dr_csrf dr) /\ In ("x-csrf-token-next", encode_csrf_token (dr_csrf dr)) (cr_headers r).
(** What a handler leaves: an error, or that. *)
Definition renewed {E} (dr : Draw) (sid : string) (o : ConsoleReply * (ConsoleWorld * E)) : Prop :=
  (400 <= cr_status o.1)%Z \/ announces dr sid o.1 o.2.1.

Lemma rotate_csrf_announces dr sid status hs body cw :
  let '(next, cw') := rotate_csrf dr sid cw in announces dr sid (mkConsoleReply status (hs ++ csrf_next_headers next) body) cw'.
Proof.
  unfold rotate_csrf, rotate_csrf_token. pose proof (session_after_update (set_csrf (dr_csrf dr)) sid (cw_db cw) ltac:(done)) as Hs.
  unfold update_sessions in *. intros x Hx. simpl in Hx, Hs. rewrite Hx in Hs.
  destruct (session_by_id (cw_db cw) sid) as [y|] eqn:Ey; [|done]. injection Hs as ->. split; [done|].
  unfold session_by_id in Ey. apply find_some in Ey as [Hin Hid].
  assert (Hf : In y (List.filter (fun s => String.eqb (se_id s) sid) (cd_sessions (cw_db cw)))) by (by apply filter_In).
  simpl. destruct (List.filter _ _); [done|]. simpl. apply in_or_app. right. by left.
Qed.
Lemma reply_announces dr sid status hs body cw :
  announces dr sid (reply_rotated dr sid status hs body cw).1 (reply_rotated dr sid status hs body cw).2.
Proof.
  unfold reply_rotated. pose proof (rotate_csrf_announces dr sid status hs body cw) as Ha. by destruct (rotate_csrf dr sid cw).
Qed.

Lemma renewed_refused {E} dr sid r (w : ConsoleWorld * E) : (400 <= cr_status r)%Z -> renewed dr sid (r, w).
Proof. by left. Qed.

Context (debug : string -> string) (from_yaml : string -> result string Policy) (from_toml : string -> result string Config)
  (vars : string -> option string)
  (exchange : string -> string -> result string string) (kill_hup : Z -> result string unit)
  (read_pid_file : string -> result string string)
  (client : result string unit) (http : ChatRequest -> result string (Z * result string string)) (elapsed : Z)
  (read_log : string -> LogRead)
  (order_by_created : list ClientTokenRow -> list ClientTokenRow) (users_by_created : list User -> list User)
  (by_usage : list (string * Z) -> list (string * Z))
  (sorted : list (string * BackendConfig) -> list (string * BackendConfig)) (page : Request -> value).
Notation serve := (serve debug from_yaml from_toml vars exchange kill_hup read_pid_file client http elapsed read_log
  order_by_created users_by_created by_usage sorted page).
Notation admits st dr h s := (mutating_user (cs_console st) (dr_now dr) (ch_cookie h ≫= header_to_str)
  (ch_csrf h ≫= header_to_str) (cw_db (si_cw s))).

Lemma renewed_playground_done dr u sid action where_ status body (w : PlayWorld) :
  renewed dr sid (playground_done dr u sid action where_ status body w).
Proof.
  unfold playground_done. pose proof (rotate_csrf_announces dr sid status [] body w.1) as Ha.
  destruct (rotate_csrf dr sid w.1) as [next cw]. by right.
Qed.
Lemma renewed_playground_send dr u sid action where_ req (w : PlayWorld) :
  renewed dr sid (playground_send client http elapsed dr u sid action where_ req w).
Proof.
  unfold playground_send, playground_error_response, playground_error_response_with_latency.
  destruct client; [destruct (http req) as [[]|]|]; apply renewed_playground_done.
Qed.
Lemma renewed_backend_write st dr sid u action name body status write (w : World) :
  renewed dr sid (backend_write exchange kill_hup read_pid_file st dr sid u action name body status write w).
Proof.
  unfold backend_write, backend_done. destruct (write w.2) as [[]]; [|by apply renewed_refused].
  match goal with |- context [reply_rotated dr sid ?s ?hs ?b ?cw] =>
    pose proof (reply_announces dr sid s hs b cw) as Ha; destruct (reply_rotated dr sid s hs b cw) end. by right.
Qed.

(** The guards of a handler down to a refusal or to the rotation. *)
Ltac refusal := apply renewed_refused;
  first [done|by eapply console_admin_refuses|by eapply weak_password_refuses|by eapply editable_refuses].
Ltac guards :=
  repeat match goal with
  | |- renewed _ _ (match (match ?x with _ => _ end) with _ => _ end) =>
      lazymatch x with
      | reply_rotated _ _ _ _ _ _ => fail
      | _ => destruct x eqn:?; cbv beta iota; try refusal
      end
  | |- renewed _ _ (match ?x with _ => _ end) =>
      lazymatch x with
      | reply_rotated _ _ _ _ _ _ => fail
      | match _ with _ => _ end => fail
      | _ => destruct x eqn:?; try refusal
      end
  end.
Ltac rotated :=
  match goal with
  | |- context [reply_rotated ?dr ?sid ?status ?hs ?body ?cw] =>
      let Ha := fresh in
      pose proof (reply_announces dr sid status hs body cw) as Ha; destruct (reply_rotated dr sid status hs body cw) as [? ?];
      by right
  end.

(** A success of a handler behind the extractor. *)
Definition single_use (st : ConsoleState) (dr : Draw) (h : ConsoleHeaders) (s : Site) (o : ConsoleReply * Site) : Prop :=
  (cr_status o.1 < 400)%Z -> exists u sid, (admits st dr h s).1 = Ok (u, sid) /\ announces dr sid o.1 (si_cw o.2).
Lemma single_use_mutating {E} get put st dr h run s :
  lawful_tables (E := E) get put -> (forall u sid w, renewed dr sid (run u sid w)) ->
  single_use st dr h s (at_part get put (mutating_with st dr h run) s).
Proof.
  intros [Hp _] Hrun Hok. unfold at_part, mutating_with in *. cbn [fst snd] in *.
  destruct (admits st dr h s) as [[[u sid]|[status m]] d'] eqn:Ea.
  2: { apply mutating_user_status in Ea. simpl in Hok. lia. }
  exists u, sid. split; [done|]. destruct (Hrun u sid (with_db d' (si_cw s), get s)) as [Hge|Ha];
    destruct (run u sid _) as [r [cw e]]; cbn [fst snd] in *; [lia|]. by rewrite Hp.
Qed.
Lemma single_use_db st dr h run s :
  (forall u sid w, renewed dr sid (let '(r, cw) := run u sid w in (r, (cw, tt)))) ->
  single_use st dr h s (at_db (mutating st dr h run) s).
Proof.
  intros Hrun.
  assert (E : at_db (mutating st dr h run) s =
    at_part get_db put_db (mutating_with st dr h (fun u sid w => let '(r, cw) := run u sid w.1 in (r, (cw, tt)))) s).
  { unfold at_db, at_part, mutating, mutating_with. cbn [fst snd].
    destruct (mutating_user _ _ _ _ _) as [[[u sid]|[status m]] d']; [|done]. by destruct (run u sid _). }
  rewrite E. apply single_use_mutating; [apply lawful_tables_db|]. intros u sid [w []]. apply Hrun.
Qed.

Lemma serve_single_use st dr ed rng h q s : mutating_route q = true -> single_use st dr h s (serve st dr ed rng h q s).
Proof.
  destruct q; intros Hq; try discriminate Hq; clear Hq; cbn [ConsoleServe.serve].
  all: first [apply single_use_db|apply single_use_mutating;
    [first [apply lawful_tables_fs|apply lawful_tables_play|apply lawful_tables_budget]|]].
  all: intros u sid w; cbv beta zeta; guards.
  all: try rotated; try apply renewed_playground_send; try apply renewed_playground_done; try apply renewed_backend_write.
Qed.

(** C25: A CSRF token works once.  After any of the eighteen routes behind the
    [MutatingUser] extractor has succeeded (a status below 400), the caller's
    session, which the extractor admitted, accepts no token but the one drawn
    for this very request, so the token the request used is refused from then
    on unless the draw repeats it; and if the session still exists (a logout,
    or a user who ends their own sessions, deletes it) the reply announces the
    new token in [x-csrf-token-next]. *)
Theorem csrf_single_use st dr ed rng h q s reply s' :
  mutating_route q = true -> serve st dr ed rng h q s = (reply, s') -> (cr_status reply < 400)%Z ->
  exists user sid, (admits st dr h s).1 = Ok (user, sid) /\
    (forall later cookie csrf user', (mutating_user (cs_console st) later cookie csrf (cw_db (si_cw s'))).1 = Ok (user', sid) ->
       csrf ≫= decode_csrf_token = Some (dr_csrf dr)) /\
    (is_Some (session_by_id (cw_db (si_cw s')) sid) ->
       In ("x-csrf-token-next", encode_csrf_token (dr_csrf dr)) (cr_headers reply)).
Proof.
  intros Hq E Hok. pose proof (serve_single_use st dr ed rng h q s Hq) as Hs. rewrite E in Hs.
  destruct (Hs Hok) as (u & sid & Ha & Hann). exists u, sid. split; [done|]. split; [|intros [x Hx]; by apply (Hann x)].
  intros later cookie csrf user' (_ & x & t & hd & Hx & _ & _ & _ & Ht & -> & Hd)%mutating_user_iff.
  destruct (Hann x Hx) as [Hc _]. simpl in *. congruence.
Qed.
End Csrf.
