(* ===== verification/ConsoleShape.v ===== *)
(** * The shape of the console's answers

    What a client of the JSON endpoints may rely on, whatever it asks: success
    is 200 or 201, and anything else is an error status with a body that is one
    object with one string, [error]. *)

From S2P Require Import Prelude RustStr Json Regex Redact ToolGate Matcher Policy Routing ClientAuth Budget AuditTrail Proxy Admin Config Reload RustFs RustNet ConsoleDb ConsoleApi ConsoleInv ConsoleEdit ConsoleViews ConsoleBackends ConsolePlay ConsoleStart ConsoleServe.

Definition shaped (r : ConsoleReply) : Prop :=
  cr_status r = 200%Z \/ cr_status r = 201%Z \/ (400 <= cr_status r < 600)%Z /\ exists m, cr_body r = obj [("error", Str m)].

Lemma shaped_error status m : (400 <= status < 600)%Z -> shaped (json_error status m).
Proof. intros Hs. right. right. split; [done|]. by exists m. Qed.
Lemma shaped_admin u e : require_console_admin u = Some e -> shaped e.
Proof. unfold require_console_admin. destruct (negb _); [|done]. intros [= <-]. by apply shaped_error. Qed.
Section Shape.
Context `{Unicode} `{RegexEngine} `{Serde} `{Rfc3339} `{Seconds} `{Argon2} `{CookieCrate} `{SerdeStruct} `{Disk} `{Sha256}
  `{Fs} `{TomlEdit}.
Context (debug : string -> string) (from_yaml : string -> result string Policy) (from_toml : string -> result string Config)
  (vars : string -> option string)
  (exchange : string -> string -> result string string) (kill_hup : Z -> result string unit)
  (read_pid_file : string -> result string string)
  (client : result string unit) (http : ChatRequest -> result string (Z * result string string)) (elapsed : Z)
  (read_log : string -> LogRead)
  (order_by_created : list ClientTokenRow -> list ClientTokenRow) (users_by_created : list User -> list User)
  (by_usage : list (string * Z) -> list (string * Z))
  (sorted : list (string * BackendConfig) -> list (string * BackendConfig)) (page : Request -> value).
Notation serve := (serve debug from_yaml from_toml vars exchange kill_hup read_pid_file client http elapsed read_log
  order_by_created users_by_created by_usage sorted page).

Lemma shaped_password p e : weak_password p = Some e -> shaped e.
Proof.
  unfold weak_password. destruct (Nat.ltb _ _); [intros [= <-]; by apply shaped_error|].
  destruct (is_common_password p); [intros [= <-]; by apply shaped_error|done].
Qed.

Lemma shaped_editable u raw refusal e : editable u raw refusal = Err e -> shaped e.
Proof.
  unfold editable. destruct (require_console_admin u) as [e'|] eqn:Er; [intros [= <-]; by eapply shaped_admin|].
  repeat case_match; intros [= <-]; by apply shaped_error.
Qed.
Lemma shaped_rotated dr sid status hs body w : status = 200%Z \/ status = 201%Z -> shaped (reply_rotated dr sid status hs body w).1.
Proof. unfold reply_rotated, rotate_csrf. intros Hs. destruct (rotate_csrf_token _ _ _). unfold shaped. simpl. tauto. Qed.

Lemma current_user_shape c now cookie d status m d' :
  current_user c now cookie d = (Err (status, m), d') -> (400 <= status < 600)%Z.
Proof.
  unfold current_user. destruct (extract_session_id _ _) as [id|]; [|intros [= <- <- <-]; lia].
  destruct (load_session _ _ _ _) as [[[[u|] t]|] d1]; [|intros [= <- <- <-]; lia..].
  destruct (us_disabled u); [intros [= <- <- <-]; lia|done].
Qed.
Lemma mutating_user_shape c now cookie hd d status m d' :
  mutating_user c now cookie hd d = (Err (status, m), d') -> (400 <= status < 600)%Z.
Proof. unfold mutating_user. repeat case_match; intros [= <- <- <-]; lia. Qed.

Lemma shaped_reading {E} get put st now h run s :
  (forall u w, shaped (run u w)) -> shaped (at_part (E := E) get put (reading st now h run) s).1.
Proof.
  intros Hrun. unfold at_part, reading. cbn [fst snd]. destruct (current_user _ _ _ _) as [[u|[status m]] d'] eqn:Ec.
  - apply Hrun.
  - apply shaped_error. by eapply current_user_shape.
Qed.
Lemma shaped_mutating {E} get put st dr h run s :
  (forall u sid w, shaped (run u sid w).1) -> shaped (at_part (E := E) get put (mutating_with st dr h run) s).1.
Proof.
  intros Hrun. unfold at_part, mutating_with. cbn [fst snd]. destruct (mutating_user _ _ _ _ _) as [[[u sid]|[status m]] d'] eqn:Ec.
  - specialize (Hrun u sid (with_db d' (si_cw s), get s)). by destruct (run u sid _) as [r [cw e]].
  - apply shaped_error. by eapply mutating_user_shape.
Qed.
Lemma shaped_db st dr h run s : (forall u sid w, shaped (run u sid w).1) -> shaped (at_db (mutating st dr h run) s).1.
Proof.
  intros Hrun. unfold at_db, at_part, mutating. cbn [fst snd].
  destruct (mutating_user _ _ _ _ _) as [[[u sid]|[status m]] d'] eqn:Ec.
  - specialize (Hrun u sid (with_db d' (si_cw s))). by destruct (run u sid _) as [r cw].
  - apply shaped_error. by eapply mutating_user_shape.
Qed.

Lemma shaped_playground_done dr u sid action where_ status body w :
  (status = 200%Z \/ (400 <= status < 600)%Z /\ exists m, body = obj [("error", Str m)]) ->
  shaped (playground_done dr u sid action where_ status body w).1.
Proof.
  intros Hs. unfold playground_done, rotate_csrf. destruct (rotate_csrf_token _ _ _). unfold shaped. simpl. tauto.
Qed.
Lemma shaped_playground_send dr u sid action where_ req w :
  shaped (playground_send client http elapsed dr u sid action where_ req w).1.
Proof.
  unfold playground_send, playground_error_response, playground_error_response_with_latency.
  destruct client; [destruct (http req) as [[]|]|]; apply shaped_playground_done; by left.
Qed.

(** The answers of a handler, one branch after another. *)
Ltac answered := first
  [by apply shaped_error
  |by left
  |by eapply shaped_admin
  |by eapply shaped_password
  |by eapply shaped_editable
  |by apply shaped_rotated; tauto
  |by apply shaped_playground_send].
Ltac branches :=
  repeat match goal with
  | |- shaped (match ?x with _ => _ end) => destruct x eqn:?; try answered
  | |- shaped (match (match ?x with _ => _ end) with _ => _ end).1 => destruct x eqn:?; try answered
  | |- shaped (match ?x with _ => _ end).1 =>
      lazymatch x with
      | reply_rotated ?dr ?sid ?status ?hs ?body ?cw =>
          let Hs := fresh in
          assert (Hs : shaped x.1) by (apply shaped_rotated; tauto); destruct x; exact Hs
      | match _ with _ => _ end => fail
      | _ => destruct x eqn:?; try answered
      end
  end.

Lemma shaped_login st dr h body w : shaped (api_login st dr h body w).1.
Proof. unfold api_login. cbv zeta. branches. Qed.
Lemma shaped_backend_write st dr sid u action name body status write w :
  status = 200%Z \/ status = 201%Z ->
  shaped (backend_write exchange kill_hup read_pid_file st dr sid u action name body status write w).1.
Proof.
  intros Hs. unfold backend_write, backend_done. destruct (write w.2) as [[] f]; [|by apply shaped_error].
  match goal with |- shaped (let '(r, cw) := ?x in _).1 => assert (Hr : shaped x.1) by (by apply shaped_rotated); by destruct x end.
Qed.

(** C20: Every answer that a handler or its session extractor gives to a routed and
    parsed request has a shape a client can rely on: 200 or 201, or an error
    status with a body that is exactly one object with one string under
    [error].  The framework's own rejections (an unknown route, a wrong method,
    a body or a path parameter that does not parse) come before that and are
    not included. *)
Theorem replies_shaped st dr ed rng h q s : shaped (serve st dr ed rng h q s).1.
Proof.
  destruct q; cbn [ConsoleServe.serve]; try answered.
  all: try (apply shaped_reading; intros u w; cbv beta zeta; unfold data_reply; try answered; branches).
  all: try (apply shaped_mutating; intros u sid w; cbv beta zeta; try answered; branches).
  all: try (apply shaped_db; intros u sid w; cbv beta zeta; try answered; branches).
  - unfold at_db, at_part. cbn [fst snd]. pose proof (shaped_login st dr h body (si_cw s)) as Hl. by destruct (api_login _ _ _ _ _).
  - apply shaped_backend_write. by right.
  - apply shaped_backend_write. by left.
  - apply shaped_backend_write. by left.
Qed.
End Shape.
