(* ===== verification/ConsoleRuns.v ===== *)
(** * Runs of the console

    Instances of the console's interfaces that satisfy their laws, and the
    console's theorems at concrete requests: a bootstrap, a login, a mutation
    and its replay, a password guessed too often. *)

From S2P Require Import Prelude RustStr Json Matcher ClientAuth AuditTrail Proxy Admin Config Reload ConsoleDb ConsoleApi ConsoleInv.

(** ** Instances *)

(** An instant as the binary digits of its count, the lowest first. *)
Fixpoint bits (p : positive) : string :=
  match p with xH => "1" | xO p' => String "0" (bits p') | xI p' => String "1" (bits p') end.
Fixpoint unbits (s : string) : option positive :=
  match s with
  | "" => None
  | "1" => Some xH
  | String c s' => p ← unbits s'; Some (if Ascii.eqb c "0" then xO p else xI p)
  end.
Definition demo_parse (s : string) : option Z := if String.eqb s "-" then Some 0%Z else Zpos <$> unbits s.
Definition demo_time : Rfc3339 := {|
  to_rfc3339 t := match t with Zpos p => bits p | _ => "-" end;
  parse_from_rfc3339 := demo_parse;
  text_lt a b := match demo_parse a, demo_parse b with Some x, Some y => (x <? y)%Z | _, _ => false end;
|}.
Lemma unbits_bits p : unbits (bits p) = Some p.
Proof.
  induction p as [p IH|p IH|]; [| |done].
  - cbn [bits unbits]. rewrite IH. by destruct p.
  - cbn [bits unbits]. rewrite IH. done.
Qed.
Lemma demo_parse_to t : instant t -> demo_parse (@to_rfc3339 demo_time t) = Some t.
Proof.
  intros Ht. unfold instant in Ht. destruct t as [|p|p]; [done| |lia]. unfold demo_parse. cbn [to_rfc3339 demo_time].
  rewrite unbits_bits. by destruct p.
Qed.
Lemma demo_time_laws : @Rfc3339Laws demo_time.
Proof.
  split; [apply demo_parse_to|]. intros a b Ha Hb. cbn [text_lt demo_time].
  pose proof (demo_parse_to a Ha) as Ea. pose proof (demo_parse_to b Hb) as Eb. cbn [to_rfc3339 demo_time] in *.
  by rewrite Ea, Eb.
Qed.

(** A hash that keeps the password in the clear. *)
Definition demo_argon : Argon2 := {|
  argon2_hash salt p := Ok ("$" +:+ p);
  argon2_verify p h := String.eqb h ("$" +:+ p);
|}.
Lemma demo_argon_laws : @Argon2Laws demo_argon.
Proof. split; intros salt p h; [|intros Hp]; intros [= <-]; [apply String.eqb_refl|]. by apply (is_utf8_app "$"). Qed.

(** A signature that is the secret itself. *)
Definition demo_cookie : CookieCrate := {|
  cookie_parse s := pair "ng_session" <$> strip_prefix "ng_session=" s;
  sign_value secret _ v := hex_bytes secret +:+ "=" +:+ v;
  verify_value secret _ v := strip_prefix (hex_bytes secret +:+ "=") v;
  print_cookie n v secure _ := n +:+ "=" +:+ v +:+ (if secure then "; HttpOnly; Secure; Path=/" else "; HttpOnly; Path=/");
|}.
Lemma demo_cookie_laws : @CookieLaws demo_cookie.
Proof.
  split.
  - intros v _. cbn [cookie_parse demo_cookie]. by rewrite strip_prefix_app.
  - intros secret v Hv. cbn [sign_value demo_cookie].
    assert (Ho : forall s, sall is_ascii_alphanumeric s = true -> sall cookie_octet s = true)
      by (intros s; apply sall_impl; intros c Hc; unfold cookie_octet; by rewrite Hc).
    rewrite !sall_app, (Ho _ (hex_alnum secret)), (Ho v Hv). done.
  - intros secret v _. cbn [verify_value sign_value demo_cookie]. rewrite sapp_assoc. apply strip_prefix_app.
  - intros v secure max_age. eexists. split; [reflexivity|]. right. destruct secure; by eexists.
Qed.

#[local] Existing Instances demo_unicode demo_sha count_struct mem_disk demo_time demo_argon demo_cookie.
#[local] Existing Instances demo_time_laws demo_argon_laws demo_cookie_laws.

(** ** A console with one administrator *)

Definition demo_secret : string := "0123456789abcdef0123456789abcdef".
Definition demo_console_config : Config :=
  let d := env_config bare_env in
  mkConfig (cf_nanoguard d) (cf_backend d) (cf_backends d) (cf_routing d) (cf_input d) (cf_output d) (cf_budget d)
    (cf_audit d) (cf_tools d) (cf_policies d) (cf_auth d)
    (mkConsole true "127.0.0.1:8081" demo_secret 24 "console-audit.jsonl" 20 None 3 15 console_auth_default) (cf_reload d).
Definition demo_console : ConsoleState := mkConsoleState demo_console_config false.
Definition T0 : Z := 1000000000000000000.
Definition demo_draw (k : Z) (sid csrf : string) : Draw := mkDraw (T0 + k) (fun _ => "r") sid csrf "salt".

Definition demo_first : ConsoleDb :=
  match maybe_bootstrap_admin (mkConsoleDb [] [] [] []) (to_rfc3339 T0) "root" "$correct horse battery" with
  | Ok (_, d) => d
  | Err _ => mkConsoleDb [] [] [] []
  end.
Definition demo_start : ConsoleWorld := mkConsoleWorld demo_first (Some "").
Definition plain_headers : ConsoleHeaders := mkConsoleHeaders None None None None None.
Definition demo_login : LoginRequest := mkLogin "root" "correct horse battery".
Definition demo_guess (p : string) : LoginRequest := mkLogin "root" p.
Definition demo_in : ConsoleReply * ConsoleWorld := api_login demo_console (demo_draw 1 "SID" "tok1") plain_headers demo_login demo_start.
Definition with_token (csrf : string) : ConsoleHeaders :=
  mkConsoleHeaders (Some ("ng_session=" +:+ session_cookie_value demo_secret "SID")) (Some (encode_csrf_token csrf)) None None None.
Definition demo_mint : CreateTokenRequest := mkCreateToken " ci " None.
Definition demo_rng (_ : nat) : string := "0123456789abcdefghijklmn".
Definition demo_minted : ConsoleReply * ConsoleWorld :=
  api_create_token demo_console (demo_draw 2 "" "tok2") demo_rng (with_token "tok1") demo_mint demo_in.2.
Definition no_exchange (_ _ : string) : result string string := Err "refused".
Definition no_kill (_ : Z) : result string unit := Err "no such process".
Definition no_pid (_ : string) : result string string := Err "no such file".
Definition demo_update (role : string) : UserUpdate := mkUpdate None None (Some role) None None None.
Definition demo_new_user : CreateUserRequest := mkCreateUser "ann" "a long enough one" None.

(** A login, a token minted in the session, the same request replayed with the
    spent CSRF token, and a logout with the announced one. *)
Example console_session_run :
  cr_status demo_in.1 = 200%Z /\ cr_status demo_minted.1 = 201%Z /\
  (api_create_token demo_console (demo_draw 3 "" "tok3") demo_rng (with_token "tok1") demo_mint demo_minted.2).1 =
    json_error 403 "csrf token mismatch" /\
  let '(r, w) := api_logout demo_console (demo_draw 3 "" "tok3") (with_token "tok2") demo_minted.2 in
  cr_status r = 200%Z /\ cd_sessions (cw_db w) = [] /\ length (cd_tokens (cw_db w)) = 1.
Proof. vm_compute. done. Qed.

Lemma demo_start_wf : console_wf (cw_db demo_start).
Proof. split; apply (bool_decide_unpack _); vm_compute; done. Qed.

Lemma login_opens_session_witness :
  let c := cs_console demo_console in
  exists user cookie wire, header_get "set-cookie" (cr_headers demo_in.1) = Some cookie /\
    get_str "csrf_token" (cr_body demo_in.1) = Some wire /\
    (mutating_user c (T0 + hours 20) (Some (sent_back cookie)) (Some wire) (cw_db demo_in.2)).1 = Ok (user, "SID").
Proof.
  destruct demo_in as [r w'] eqn:E.
  destruct (login_opens_session demo_console (demo_draw 1 "SID" "tok1") plain_headers demo_login demo_start r w' (T0 + hours 20))
    as (user & hash & cookie & wire & _ & _ & _ & Hc & Hw & Hm & _).
  - exact demo_start_wf.
  - exact E.
  - change (cr_status (r, w').1 = 200%Z). rewrite <-E. vm_compute. done.
  - vm_compute. done.
  - vm_compute. done.
  - vm_compute. done.
  - eexists _, cookie, wire. split; [exact Hc|]. split; [exact Hw|exact Hm].
Defined.

(** Three guesses at ["root"], a login elsewhere between them. *)
Definition demo_attack : list (Draw * ConsoleHeaders * LoginRequest) :=
  [(demo_draw 1 "" "", plain_headers, demo_guess "a"); (demo_draw 2 "" "", plain_headers, mkLogin "ann" "a");
   (demo_draw 3 "" "", plain_headers, demo_guess "b"); (demo_draw 4 "" "", plain_headers, demo_guess "c");
   (demo_draw 5 "" "", plain_headers, demo_guess "d")].
Example demo_attack_answers : guesses demo_console "root" demo_attack demo_start = 2.
Proof. vm_compute. done. Qed.

Lemma guesses_bounded_witness : (Z.of_nat (guesses demo_console "root" demo_attack demo_start) < 3)%Z.
Proof.
  apply (guesses_bounded demo_console T0 "root" "$correct horse battery"
    (mkUser 1 "root" (Some "root") None "admin" false false "[]" None None (Some "$correct horse battery") None
       (to_rfc3339 T0) None) demo_attack demo_start); [exact demo_start_wf|by vm_compute..|].
  repeat constructor; vm_compute; done.
Defined.

Lemma sessions_forced_out_witness :
  logged_out 1 (cw_db (api_logout demo_console (demo_draw 3 "" "tok3") (with_token "tok2") demo_minted.2).2).
Proof.
  destruct (api_logout demo_console (demo_draw 3 "" "tok3") (with_token "tok2") demo_minted.2) as [r w'] eqn:E.
  destruct (sessions_forced_out demo_console (demo_draw 3 "" "tok3") (with_token "tok2") 1 (demo_update "user") "" 
    (mkUser 1 "root" None None "admin" false false "[]" None None None None "" None) "user" demo_minted.2) as (Hl & _).
  destruct (Hl r w' E) as (u & sid & Ha & Ho).
  - change (cr_status (r, w').1 = 200%Z). rewrite <-E. by vm_compute.
  - assert (us_id u = 1%Z) as <-; [|done]. vm_compute in Ha. by injection Ha as <- <-.
Defined.

Lemma admin_tables_guarded_witness :
  exists admin sid,
    (mutating_user (cs_console demo_console) (T0 + 2) (Some ("ng_session=" +:+ session_cookie_value demo_secret "SID"))
       (Some (encode_csrf_token "tok1")) (cw_db demo_in.2)).1 = Ok (admin, sid) /\ us_role admin = "admin".
Proof.
  destruct (api_create_user demo_console (demo_draw 2 "" "tok2") (with_token "tok1") demo_new_user demo_in.2) as [r w'] eqn:E.
  pose proof (admin_tables_guarded no_exchange no_kill no_pid demo_console (demo_draw 2 "" "tok2") (with_token "tok1")
    demo_new_user 1 (demo_update "user") "" _ demo_in.2 r w' (or_introl eq_refl) E) as Hx.
  apply Hx. change w' with (r, w').2. rewrite <-E. vm_compute. done.
Defined.

Definition demo_minted_row : ClientTokenRow * string := nth 0 (cd_tokens (cw_db demo_minted.2)) (demo_row, "").
Lemma demo_minted_tokens : cd_tokens (cw_db demo_minted.2) = [demo_minted_row].
Proof. vm_compute. reflexivity. Qed.

Lemma token_revoke_own_witness :
  let '(r, w) := api_revoke_token no_exchange no_kill no_pid id demo_console (demo_draw 3 "" "tok3") (with_token "tok2") 1
                   demo_minted.2 in
  cr_status r = 200%Z.
Proof.
  destruct (api_revoke_token no_exchange no_kill no_pid id demo_console (demo_draw 3 "" "tok3") (with_token "tok2") 1
    demo_minted.2) as [r w] eqn:E.
  pose proof (token_revoke_own no_exchange no_kill no_pid id demo_console (demo_draw 3 "" "tok3") (with_token "tok2") 1
    demo_minted.2 r w ltac:(done) ltac:(apply (bool_decide_unpack _); vm_compute; done) E) as Hx.
  match type of Hx with match ?x with _ => _ end => remember x as a eqn:Ea end.
  vm_compute in Ea. subst a. destruct Hx as [Hx _]. apply Hx.
  exists demo_minted_row.1, demo_minted_row.2. rewrite <-surjective_pairing, demo_minted_tokens.
  split; [apply in_eq|]. split; vm_compute; reflexivity.
Defined.

Lemma prune_agrees_witness :
  In (nth 0 (cd_sessions (cw_db demo_in.2)) (mkSession "" 0 "" "" "" None None None))
    (cd_sessions (prune_idle_sessions (prune_expired_sessions (cw_db demo_in.2) (T0 + hours 20)) (T0 + hours 20) 24)).
Proof.
  apply (prune_agrees (cs_console demo_console) (T0 + hours 20) (cw_db demo_in.2)).
  - constructor; [|constructor]. exists (T0 + 1 + hours 24)%Z, (T0 + 1)%Z. by vm_compute.
  - by vm_compute.
  - by vm_compute.
  - split; [by left|by vm_compute].
Defined.

(** A stranger can tell whether an account exists: the guess that reaches the
    limit is answered 429 for an account and 401 for a name nobody has. *)
Theorem unknown_user_distinguishable :
  let answers name := fst (foldl (fun '(rs, w) k =>
      let '(r, w') := api_login demo_console (demo_draw k "" "") plain_headers (mkLogin name "guess") w in (rs ++ [r], w'))
    ([], demo_start) [1; 2; 3; 4]%Z) in
  answers "root" = [json_error 401 "invalid credentials"; json_error 401 "invalid credentials";
                    json_error 429 "account locked"; json_error 429 "account locked"] /\
  answers "ann" = [json_error 401 "invalid credentials"; json_error 401 "invalid credentials";
                   json_error 401 "invalid credentials"; json_error 401 "invalid credentials"].
Proof. vm_compute. done. Qed.

(** A stranger's request also learns whether its CSRF header was malformed or
    wrong. *)
Theorem csrf_failures_distinguishable :
  let try csrf := (mutating_user (cs_console demo_console) (T0 + 2)
    (Some ("ng_session=" +:+ session_cookie_value demo_secret "SID")) csrf (cw_db demo_in.2)).1 in
  try None = Err (403%Z, "csrf token missing") /\
  try (Some "zz") = Err (403%Z, "csrf token missing") /\
  try (Some "aa") = Err (403%Z, "csrf token mismatch").
Proof. vm_compute. done. Qed.
