(* ===== verification/EditRuns.v ===== *)
(** * Runs of the file editor

    A file system in memory that satisfies the laws, and the editor's theorems
    at concrete requests. *)

From S2P Require Import Prelude RustStr Json Regex Redact Matcher Policy ClientAuth AuditTrail Proxy Admin Config Reload RustFs ConsoleDb ConsoleApi ConsoleEdit ConsoleRuns.

(** ** Files in memory *)

Definition mem_at (s : list (list Component * (string * Z))) (k : list Component) : option (string * Z) :=
  snd <$> List.find (fun e => bool_decide (e.1 = k)) s.
Definition mem_del (s : list (list Component * (string * Z))) (k : list Component) : list (list Component * (string * Z)) :=
  List.filter (fun e => negb (bool_decide (e.1 = k))) s.
Definition plain_nameb (n : string) : bool := negb (junk n) && negb (String.eqb n "..") && no_slash n.
(** The names of the files right under a directory. *)
Definition mem_names (s : list (list Component * (string * Z))) (dir : list Component) : list string :=
  remove_dups (omap (fun e => match last e.1 with
                              | Some (Normal n) => if bool_decide (e.1 = dir ++ [Normal n]) && plain_nameb n then Some n else None
                              | _ => None
                              end) s).
Definition mem_fs : Fs := {|
  fs := list (list Component * (string * Z));
  fs_at := mem_at;
  read_to_string s p := match mem_at s (fkey p) with
                        | Some (c, _) => if is_utf8 c then Ok c else Err "stream did not contain valid UTF-8"
                        | None => Err "No such file or directory"
                        end;
  fs_exists s p := match mem_at s (fkey p) with Some _ => true | None => false end;
  create_dir_all s _ := (Ok tt, s);
  write_file s t p c := (Ok tt, (fkey p, (c, t)) :: mem_del s (fkey p));
  open_file s _ := Ok tt;
  sync_file s _ := Ok tt;
  rename s a b := match mem_at s (fkey a) with
                  | Some x => (Ok tt, (fkey b, x) :: mem_del (mem_del s (fkey a)) (fkey b))
                  | None => (Err "No such file or directory", s)
                  end;
  remove_file s p := (Ok tt, mem_del s (fkey p));
  read_dir s p := Ok (map (fun n => mkEntry n ((fun x => (x.2, Z.of_nat (String.length x.1))) <$> mem_at s (fkey p ++ [Normal n])))
                        (mem_names s (fkey p)));
|}.

Lemma mem_at_cons s k x k' : mem_at ((k, x) :: s) k' = if bool_decide (k = k') then Some x else mem_at s k'.
Proof. unfold mem_at. simpl. by destruct (bool_decide (k = k')). Qed.
Lemma mem_at_del s k k' : k' <> k -> mem_at (mem_del s k) k' = mem_at s k'.
Proof.
  intros Hne. unfold mem_at, mem_del. induction s as [|[k0 x] s IH]; simpl; [done|].
  destruct (bool_decide_reflect (k0 = k)) as [->|]; simpl.
  - rewrite bool_decide_false by congruence. apply IH.
  - destruct (bool_decide (k0 = k')); [done|apply IH].
Qed.

Lemma mem_fs_laws : @SymlinkFreeFs mem_fs.
Proof.
  split; cbn [fs_at read_to_string fs_exists create_dir_all write_file rename remove_file read_dir mem_fs].
  - intros s p c. destruct (mem_at s (fkey p)) as [[c' t]|]; [|done]. destruct (is_utf8 c'); [|done]. intros [= ->]. by exists t.
  - intros s p c. by destruct (mem_at s (fkey p)).
  - done.
  - intros s t p c s' [= <-]. rewrite mem_at_cons. by rewrite bool_decide_true.
  - intros s t p c k Hk. simpl. rewrite mem_at_cons, bool_decide_false by done. by apply mem_at_del.
  - intros s a b s' E Hne. destruct (mem_at s (fkey a)) as [x|]; [|done]. injection E as <-. rewrite mem_at_cons.
    by rewrite bool_decide_true.
  - intros s a b k Ha Hb. destruct (mem_at s (fkey a)) as [x|]; simpl; [|done]. rewrite mem_at_cons.
    rewrite bool_decide_false by done. by rewrite !mem_at_del.
  - intros s a b e s' E k. destruct (mem_at s (fkey a)); [done|]. by injection E as <- <-.
  - intros s p k Hk. by apply mem_at_del.
  - intros s p l [= <-]. rewrite map_map. simpl. rewrite map_id. apply NoDup_remove_dups.
  - intros s p l n t len [= <-] Hin c t' Hat. apply in_map_iff in Hin as (n' & E & _). injection E as <- E.
    rewrite Hat in E. by injection E as <- _.
  - intros s p l e [= <-] Hin. apply in_map_iff in Hin as (n & <- & Hin). simpl. apply list_elem_of_In in Hin.
    unfold mem_names in Hin. apply elem_of_remove_dups, list_elem_of_omap in Hin as ([k x] & _ & E). simpl in E.
    destruct (last k) as [[| | |n']|]; [done..| |done].
    destruct (bool_decide _ && plain_nameb n') eqn:Ep; [|done]. injection E as <-. apply andb_prop in Ep as [_ Ep].
    unfold plain_nameb in Ep. apply andb_prop in Ep as [Ep Hs]. apply andb_prop in Ep as [Hj Hd].
    split; [by apply negb_true_iff|]. split; [|done]. by apply negb_true_iff, String.eqb_neq in Hd.
Qed.

#[local] Existing Instances demo_unicode literal_engine demo_sha count_struct mem_disk demo_time demo_argon demo_cookie mem_fs.
#[local] Existing Instances demo_time_laws demo_argon_laws demo_cookie_laws mem_fs_laws.

(** ** An edit and its undoing *)

Definition quote (p : string) : string := one (byte 34) +:+ p +:+ one (byte 34).
Definition no_yaml (_ : string) : result string Policy := Err "expected a mapping".
(** A configuration that is one word. *)
Definition word_toml (c : string) : result string Config :=
  if contains " " c then Err "expected an equals" else Ok demo_console_config.
Definition demo_edit_draw (k : Z) : EditDraw := mkEditDraw 7 (40 + k) k ("2026T" +:+ show_Z k) k.
Definition old_dict : string := "bad word" +:+ one tab +:+ "0".
Definition new_dict : string := "worse word" +:+ one tab +:+ "0".
Definition demo_files : fs :=
  [([Normal "dicts"; Normal "a.txt"], (old_dict, 1%Z)); ([Normal "nanoguard.toml"], ("config", 1%Z))].
Definition demo_world : World := (demo_in.2, demo_files).
Definition demo_edit (path content : string) (k : Z) : ConsoleReply * World :=
  api_edit_file quote no_yaml word_toml no_exchange no_kill no_pid demo_console (demo_draw 2 "" "tok2") (demo_edit_draw k)
    (with_token "tok1") (mkEdit path content None) demo_world.

Example edit_run :
  let '(r, w) := demo_edit " dicts/./a.txt " new_dict 5 in
  cr_status r = 200%Z /\ fs_at w.2 (fkey "dicts/a.txt") = Some (new_dict, 5%Z) /\
  map bi_name (list_backups w.2 "dicts/a.txt") = ["a.bak.2026T5.txt"] /\
  (demo_edit "dicts/../nanoguard.toml" "config2" 5).1 = json_error 403 "editing this file is not allowed" /\
  (demo_edit "dicts/a.txt" "bad word" 5).1 = json_error 400 "validation failed: line 1: missing key".
Proof. vm_compute. done. Qed.

Lemma edit_all_or_nothing_witness :
  fs_at (demo_edit "dicts/a.txt" new_dict 5).2.2 (fkey "dicts/a.txt") = Some (new_dict, 5%Z).
Proof.
  destruct (demo_edit "dicts/a.txt" new_dict 5) as [r w'] eqn:E.
  pose proof (edit_all_or_nothing quote no_yaml word_toml no_exchange no_kill no_pid demo_console (demo_draw 2 "" "tok2")
    (demo_edit_draw 5) (with_token "tok1") (mkEdit "dicts/a.txt" new_dict None) demo_world r w'
    ltac:(by vm_compute) E) as Hx.
  assert (Hr : cr_status r = 200%Z) by (change (cr_status (r, w').1 = 200%Z); rewrite <-E; by vm_compute).
  cbv zeta in Hx. rewrite Hr in Hx. destruct Hx as (_ & _ & _ & Hat). exact Hat.
Defined.

Lemma edits_confined_witness : confined [Normal "dicts"; Normal "a.txt"].
Proof.
  destruct (demo_edit "dicts/a.txt" new_dict 5) as [r w'] eqn:E.
  apply (edits_confined quote no_yaml word_toml no_exchange no_kill no_pid demo_console (demo_draw 2 "" "tok2")
    (demo_edit_draw 5) (with_token "tok1") (mkEdit "dicts/a.txt" new_dict None) "" "" demo_world r w').
  - by vm_compute.
  - left. exact E.
  - change w' with (r, w').2. rewrite <-E. vm_compute. discriminate.
Defined.

Definition always_valid (_ : string) : ValidationResult := mkValidation true None.
Definition demo_written := atomic_write_with_limit quote (demo_edit_draw 5) "dicts/a.txt" new_dict always_valid 2 demo_files.
Definition demo_revert := revert_to_backup quote (demo_edit_draw 6) "dicts/a.txt" "a.bak.2026T5.txt" demo_written.2.

(** ** What the editor does not guarantee *)

(** A revert is neither validated nor backed up: content the editor refuses is
    installed when it is found as a backup, and what it replaces is gone. *)
Theorem revert_unvalidated :
  let s := ([Normal ".nanoguard-backups"; Normal "nanoguard.bak.1.toml"], ("not a config", 1%Z)) :: demo_files in
  vr_valid (validate_by_path no_yaml word_toml "nanoguard.toml" "not a config") = false /\
  let '(r, w) := api_revert_file quote no_exchange no_kill no_pid demo_console (demo_draw 2 "" "tok2") (demo_edit_draw 5)
                   (with_token "tok1") "nanoguard.toml" "nanoguard.bak.1.toml" (demo_in.2, s) in
  cr_status r = 200%Z /\ fs_at w.2 (fkey "nanoguard.toml") = Some ("not a config", 5%Z) /\
  existsb (fun e => String.eqb e.2.1 "config") w.2 = false.
Proof. vm_compute. done. Qed.

(** Pruning the backups of one file deletes those of another whose name extends
    its stem: with a limit of one, editing [a.txt] removes the only backup of
    [a.b.txt]. *)
Theorem prune_crosses_files :
  let s := ([Normal "dicts"; Normal ".nanoguard-backups"; Normal "a.b.bak.1.txt"], ("other", 1%Z)) :: demo_files in
  map bi_name (list_backups s "dicts/a.b.txt") = ["a.b.bak.1.txt"] /\
  let '(r, s') := atomic_write_with_limit quote (demo_edit_draw 5) "dicts/a.txt" new_dict always_valid 1 s in
  list_backups s' "dicts/a.b.txt" = [].
Proof. vm_compute. done. Qed.

(** The path check reads the text of the path and never resolves it.  On a tree
    where [dicts/shared] is a symbolic link to a directory elsewhere, which
    [std::fs] follows, an edit that passes the check changes a file outside the
    editable places. *)
Section Links.
Definition resolve (p : string) : string :=
  match strip_prefix "dicts/shared/" p with Some r => "/srv/app/" +:+ r | None => p end.
Definition linked_fs : Fs := {|
  fs := list (list Component * (string * Z));
  fs_at := mem_at;
  read_to_string s p := @read_to_string mem_fs s (resolve p);
  fs_exists s p := @fs_exists mem_fs s (resolve p);
  create_dir_all s p := @create_dir_all mem_fs s (resolve p);
  write_file s t p c := @write_file mem_fs s t (resolve p) c;
  open_file s p := @open_file mem_fs s (resolve p);
  sync_file s p := @sync_file mem_fs s (resolve p);
  rename s a b := @rename mem_fs s (resolve a) (resolve b);
  remove_file s p := @remove_file mem_fs s (resolve p);
  read_dir s p := @read_dir mem_fs s (resolve p);
|}.
#[local] Existing Instance linked_fs.
Theorem symlink_escapes :
  let s : @fs linked_fs := [([RootDir; Normal "srv"; Normal "app"; Normal "users.txt"], ("alice", 1%Z))] in
  is_safe_editable_path "dicts/shared/users.txt" = true /\
  let '(r, w) := api_edit_file quote no_yaml word_toml no_exchange no_kill no_pid demo_console (demo_draw 2 "" "tok2") (demo_edit_draw 5)
                   (with_token "tok1") (mkEdit "dicts/shared/users.txt" new_dict None) (demo_in.2, s) in
  cr_status r = 200%Z /\ fs_at w.2 (fkey "/srv/app/users.txt") = Some (new_dict, 5%Z) /\ ~ confined (fkey "/srv/app/users.txt").
Proof.
  split; [reflexivity|].
  assert (Hn : ~ confined (fkey "/srv/app/users.txt")) by (intros (names & E & _); destruct names; discriminate E).
  destruct (api_edit_file _ _ _ _ _ _ _ _ _ _ _ _) as [r w] eqn:E.
  assert (Hr : r = (r, w).1) by done. assert (Hw : w = (r, w).2) by done. rewrite <-E in Hr, Hw.
  split_and!; [rewrite Hr; vm_compute; reflexivity|rewrite Hw; vm_compute; reflexivity|exact Hn].
Qed.
End Links.
