(* ===== verification/BackendRuns.v ===== *)
(** * Runs of the backend, routing and view endpoints

    A TOML document that is its own encoding, with laws proved, and the theorems
    of the console's configuration endpoints at concrete requests. *)

From S2P Require Import Prelude RustStr Json Regex Redact Matcher Policy Routing ClientAuth Budget AuditTrail Proxy Admin Config Reload RustFs ConsoleDb ConsoleApi ConsoleEdit ConsoleViews ConsoleBackends ConsoleRuns EditRuns.

(** ** Documents as text *)

Fixpoint enc (i : item) : gen_tree string :=
  match i with
  | TStr s => GenNode 0 [GenLeaf s]
  | TArr l => GenNode 1 (map enc l)
  | TInline t => GenNode 2 (map (fun e => GenNode 5 [GenLeaf e.1; enc e.2]) t)
  | TTable t => GenNode 3 (map (fun e => GenNode 5 [GenLeaf e.1; enc e.2]) t)
  | TOther => GenNode 4 []
  end.
Fixpoint dec (g : gen_tree string) : item :=
  match g with
  | GenNode 0 [GenLeaf s] => TStr s
  | GenNode 1 l => TArr (map dec l)
  | GenNode 2 l => TInline (map (fun x => match x with GenNode _ [GenLeaf k; i] => (k, dec i) | _ => ("", TOther) end) l)
  | GenNode 3 l => TTable (map (fun x => match x with GenNode _ [GenLeaf k; i] => (k, dec i) | _ => ("", TOther) end) l)
  | _ => TOther
  end.
Fixpoint dec_enc (i : item) : dec (enc i) = i.
Proof.
  destruct i as [s|l|t|t|]; simpl; [done|..|done].
  - f_equal. rewrite map_map. induction l as [|x l IH]; simpl; [done|]. by rewrite dec_enc, IH.
  - f_equal. rewrite map_map. induction t as [|[k x] l IH]; simpl; [done|]. by rewrite dec_enc, IH.
  - f_equal. rewrite map_map. induction t as [|[k x] l IH]; simpl; [done|]. by rewrite dec_enc, IH.
Qed.

Definition print_table (t : table) : string := bits (encode (enc (TTable t))).
Definition read_table (s : string) : option table :=
  g ← (p ← unbits s; decode p); match dec g with TTable t => Some t | _ => None end.
Lemma read_print t : read_table (print_table t) = Some t.
Proof.
  unfold read_table, print_table. rewrite unbits_bits. cbn [mbind option_bind]. rewrite decode_encode. cbn [mbind option_bind].
  by rewrite dec_enc.
Qed.

Definition demo_doc : TomlEdit := {|
  decor := unit;
  doc_parse s := match read_table s with Some t => Ok (t, tt) | None => Err "expected an equals" end;
  doc_print d := print_table d.1;
|}.
Definition routing_part (t : table) : result string RoutingConfig :=
  match tbl_get "routing" t with Some i => de_routing i | None => Ok (mkRoutingConfig None []) end.
Definition backends_part (t : table) : result string (gmap string BackendConfig) :=
  match tbl_get "backends" t with Some i => de_backends i | None => Ok ∅ end.
Definition demo_de (t : table) : result string Config :=
  let? rc := routing_part t in
  let? bs := backends_part t in
  Ok (with_routing rc (with_backends bs demo_console_config)).
Definition doc_toml (s : string) : result string Config :=
  match read_table s with Some t => demo_de t | None => Err "expected an equals" end.

Lemma demo_doc_laws : @TomlLaws demo_doc doc_toml.
Proof.
  refine (@Build_TomlLaws demo_doc doc_toml demo_de _ _ _ _ _ _); cbn [doc_parse doc_print demo_doc]; unfold doc_toml.
  - intros s t dec0. destruct (read_table s); [|done]. by intros [= <- _].
  - intros t dec0. simpl. by rewrite read_print.
  - intros t c. unfold demo_de. destruct (routing_part t) as [rc|] eqn:Er; [|done]. destruct (backends_part t); [|done].
    intros [= <-]. unfold routing_part in Er. destruct (tbl_get "routing" t); [done|]. by injection Er as <-.
  - intros t c. unfold demo_de. destruct (routing_part t); [|done]. destruct (backends_part t) as [bs|] eqn:Eb; [|done].
    intros [= <-]. unfold backends_part in Eb. destruct (tbl_get "backends" t); [done|]. by injection Eb as <-.
  - intros t c i rc. unfold demo_de. destruct (routing_part t); [|done]. destruct (backends_part t) as [bs|] eqn:Eb; [|done].
    intros [= <-] Hi. unfold routing_part. unfold backends_part in *. rewrite !tbl_get_insert. simpl. by rewrite Hi, Eb.
  - intros t c i bs. unfold demo_de. destruct (routing_part t) as [rc|] eqn:Er; [|done]. destruct (backends_part t); [|done].
    intros [= <-] Hi. unfold backends_part. unfold routing_part in *. rewrite !tbl_get_insert. simpl. by rewrite Hi, Er.
Qed.

#[local] Existing Instances demo_unicode literal_engine demo_sha count_struct mem_disk demo_time demo_argon demo_cookie mem_fs demo_doc.
#[local] Existing Instances demo_time_laws demo_argon_laws demo_cookie_laws mem_fs_laws demo_doc_laws.

(** ** Two backends *)

Definition entry (endpoint : string) (key : option string) : table :=
  [("provider", TStr "openai"); ("endpoint", TStr endpoint)] ++ match key with Some k => [("api_key", TStr k)] | None => [] end.
Definition demo_rule : RoutingRule := mkRouting "gpt-4*" "alpha" ["beta"].
Definition demo_table : table :=
  [("routing", TTable [("default", TStr "alpha"); ("rules", TArr [rule_item demo_rule])]);
   ("backends", TTable [("alpha", TTable (entry "http://a" (Some "sk-a"))); ("beta", TTable (entry "http://b" None))])].
Definition no_vars (_ : string) : option string := None.
Definition toml_files (t : table) : fs := [([Normal "nanoguard.toml"], (print_table t, 1%Z))].
Definition toml_world (t : table) : World := (demo_in.2, toml_files t).
Definition dr2 : Draw := demo_draw 2 "" "tok2".
Definition put_routing (t : table) (body : RoutingUpdateRequest) : ConsoleReply * World :=
  api_update_routing quote doc_toml no_vars no_exchange no_kill no_pid demo_console dr2 (demo_edit_draw 5) (with_token "tok1")
    body (toml_world t).
Definition new_backend (t : table) (name : string) (b : BackendUpsertRequest) : ConsoleReply * World :=
  api_create_backend quote doc_toml no_vars no_exchange no_kill no_pid demo_console dr2 (demo_edit_draw 5) (with_token "tok1")
    name b (toml_world t).
Definition put_backend (t : table) (name : string) (b : BackendUpsertRequest) : ConsoleReply * World :=
  api_update_backend quote doc_toml no_vars no_exchange no_kill no_pid demo_console dr2 (demo_edit_draw 5) (with_token "tok1")
    name b (toml_world t).
Definition drop_backend (t : table) (name : string) : ConsoleReply * World :=
  api_delete_backend quote doc_toml no_vars no_exchange no_kill no_pid demo_console dr2 (demo_edit_draw 5) (with_token "tok1")
    name (toml_world t).
(** The configuration the proxy reads next, and its pool. *)
Definition next_config (w : World) : result string Config := fresh_config doc_toml no_vars w.2.
Definition next_pool (w : World) : result string (BackendPool * list string) :=
  match next_config w with Ok c => pool (pool_config c) | Err e => Err e end.

Definition demo_routing : RoutingUpdateRequest := mkRoutingUpdate " beta " [mkRouting "claude-*" " beta" ["alpha "; " "]].
Example routing_run :
  let '(r, w) := put_routing demo_table demo_routing in
  cr_status r = 200%Z /\
  (bp_rules ∘ fst <$> match next_pool w with Ok p => Some p | Err _ => None end) =
    Some [mkRouting "claude-*" "beta" ["alpha"]].
Proof. vm_compute. done. Qed.

Lemma toml_target : target (toml_path no_vars) "nanoguard.toml".
Proof. split; [apply (bool_decide_unpack _); by vm_compute|by vm_compute]. Qed.

Lemma routing_saved_witness :
  exists cfg, saved doc_toml no_vars (put_routing demo_table demo_routing).2.2
    (with_routing (mkRoutingConfig (Some "beta") [mkRouting "claude-*" "beta" ["alpha"]]) cfg).
Proof.
  destruct (put_routing demo_table demo_routing) as [r w'] eqn:E.
  destruct (routing_saved quote doc_toml no_vars no_exchange no_kill no_pid demo_console dr2 (demo_edit_draw 5) (with_token "tok1")
    "nanoguard.toml" demo_routing (toml_world demo_table) r w' toml_target) as (cfg & ws & _ & Hs & _).
  - by vm_compute.
  - by vm_compute.
  - exact E.
  - change (cr_status (r, w').1 = 200%Z). rewrite <-E. by vm_compute.
  - exists cfg. exact Hs.
Defined.

(** A backend with no key in the request keeps the key in the file, and its
    model is set. *)
Definition move_alpha : BackendUpsertRequest := mkUpsert "openai" "http://c" None (Some "m1").
Lemma backend_saved_witness :
  exists cfg, saved doc_toml no_vars (put_backend demo_table "alpha" move_alpha).2.2
    (with_backends (<["alpha" := upserted move_alpha (cf_backends cfg !! "alpha")]> (cf_backends cfg)) cfg).
Proof.
  destruct (put_backend demo_table "alpha" move_alpha) as [r w'] eqn:E.
  assert (Hr : cr_status r = 200%Z) by (change (cr_status (r, w').1 = 200%Z); rewrite <-E; by vm_compute).
  destruct (backend_saved quote doc_toml no_vars no_exchange no_kill no_pid demo_console dr2 (demo_edit_draw 5) (with_token "tok1")
    "nanoguard.toml" "alpha" move_alpha (toml_world demo_table) r w' toml_target) as (cfg & _ & _ & Hs).
  - by vm_compute.
  - right. split; [exact E|]. split; [|exact Hr].
    intros original t d b i Ho Hp Hb Hi. vm_compute in Ho. injection Ho as <-. vm_compute in Hp. injection Hp as <- _.
    vm_compute in Hb. injection Hb as <-. vm_compute in Hi. injection Hi as <-. by eexists.
  - rewrite Hr in Hs. exists cfg. exact Hs.
Defined.
Example backend_run :
  (match next_config (put_backend demo_table "alpha" move_alpha).2 with Ok c => cf_backends c !! "alpha" | Err _ => None end) =
    Some (mkBackend "openai" "http://c" (Some "sk-a") (Some "m1")) /\
  cr_status (new_backend demo_table " gamma " move_alpha).1 = 201%Z /\
  cr_status (new_backend demo_table "alpha" move_alpha).1 = 409%Z /\
  cr_status (put_backend demo_table "gamma" move_alpha).1 = 404%Z /\
  cr_status (drop_backend demo_table "alpha").1 = 409%Z.
Proof. vm_compute. done. Qed.

Definition spare_table : table := tbl_insert "backends"
  (TTable [("alpha", TTable (entry "http://a" None)); ("beta", TTable (entry "http://b" None));
           ("gamma", TTable (entry "http://g" None))]) demo_table.
Lemma backend_deleted_witness :
  exists cfg, saved doc_toml no_vars (drop_backend spare_table "gamma").2.2
    (with_backends (delete "gamma" (cf_backends cfg)) cfg).
Proof.
  destruct (drop_backend spare_table "gamma") as [r w'] eqn:E.
  destruct (backend_deleted quote doc_toml no_vars no_exchange no_kill no_pid demo_console dr2 (demo_edit_draw 5) (with_token "tok1")
    "nanoguard.toml" "gamma" (toml_world spare_table) r w' toml_target) as (cfg & _ & Hs & _).
  - by vm_compute.
  - intros original t d i Ho Hp Hb. vm_compute in Ho. injection Ho as <-. vm_compute in Hp. injection Hp as <- _.
    vm_compute in Hb. injection Hb as <-. by eexists.
  - exact E.
  - change (cr_status (r, w').1 = 200%Z). rewrite <-E. by vm_compute.
  - exists cfg. exact Hs.
Defined.

(** ** Where a saved file is not a working one *)

(** Deleting a backend that a rule names only as a fallback is answered with
    200, and the next load of the file has no pool. *)
Theorem delete_fallback_breaks_pool :
  is_ok (next_pool (toml_world demo_table)) = true /\
  cr_status (drop_backend demo_table "beta").1 = 200%Z /\ is_ok (next_pool (drop_backend demo_table "beta").2) = false.
Proof. vm_compute. done. Qed.

(** A second backend in a file with one backend and no default is answered with
    201, and the next load of the file has no pool. *)
Theorem second_backend_breaks :
  let lone := [("backends", TTable [("alpha", TTable (entry "http://a" None))])] in
  is_ok (next_pool (toml_world lone)) = true /\
  cr_status (new_backend lone "beta" move_alpha).1 = 201%Z /\ is_ok (next_pool (new_backend lone "beta" move_alpha).2) = false.
Proof. vm_compute. done. Qed.

(** A backend written as an inline table loses its API key on an update that
    omits the key. *)
Theorem inline_key_lost :
  let t := [("backends", TTable [("alpha", TInline (entry "http://a" (Some "sk-a")))])] in
  let key w := match next_config w with Ok c => bc_api_key <$> cf_backends c !! "alpha" | Err _ => None end in
  key (toml_world t) = Some (Some "sk-a") /\
  cr_status (put_backend t "alpha" move_alpha).1 = 200%Z /\ key (put_backend t "alpha" move_alpha).2 = Some None.
Proof. vm_compute. done. Qed.

(** An endpoint is checked with its surrounding blanks removed and stored with
    them. *)
Theorem endpoint_not_trimmed :
  let w := (new_backend demo_table "gamma" (mkUpsert "openai" " http://g" None None)).2 in
  (match next_config w with Ok c => bc_endpoint <$> cf_backends c !! "gamma" | Err _ => None end) = Some " http://g".
Proof. vm_compute. done. Qed.

(** ** The views *)

(** A reader of one-member objects: [k=v]. *)
Definition pair_serde : Serde := {|
  from_str s := match rsplit_once (byte 61) s with Some (k, v) => Ok (obj [(k, Str v)]) | None => Err "expected value" end;
  to_json _ := "null";
|}.
#[local] Existing Instances pair_serde.
Definition demo_log : string :=
  "action=login" +:+ one nl +:+ "noise" +:+ one nl +:+ "action=user_create" +:+ one nl +:+ "action=login".
Lemma console_audit_filtered_witness :
  filter_console_audit_entries demo_log (Some "user_create") None None 1 = [obj [("action", Str "user_create")]].
Proof. rewrite (console_audit_filtered demo_log (Some "user_create") None None 1); [by vm_compute|done|lia]. Defined.

(** A limit of zero with a filter still gives an entry. *)
Theorem console_audit_zero_limit :
  filter_console_audit_entries demo_log (Some "login") None None 0 = [obj [("action", Str "login")]].
Proof. vm_compute. done. Qed.

Definition demo_budget : SqliteBudget := mkSqlite {["k" := 10%Z]} {["k" := (4%Z, None)]} [].
Lemma console_budget_agrees_witness : budget_check (console_reset demo_budget "k") "k" = Ok (Within 0 10).
Proof.
  destruct (console_budget_agrees demo_budget "k" 10 "now" "k") as (_ & _ & Hr & _).
  destruct (Hr (mkSqlite {["k" := 10%Z]} {["k" := (0%Z, Some "now")]} [])) as [_ ->]; [|by vm_compute]. by vm_compute.
Defined.
