(* ===== verification/PlayRuns.v ===== *)
(** * Runs of the playground, the overview and the file view *)

From S2P Require Import Prelude RustStr Json Regex Redact ToolGate Matcher Policy Routing ClientAuth Budget Spotlight Schema AuditTrail Proxy Admin Config Reload RustFs ConsoleDb ConsoleApi ConsoleEdit ConsoleViews ConsoleBackends ConsolePlay ConsoleRuns EditRuns BackendRuns.

#[local] Existing Instances demo_unicode literal_engine demo_ac demo_iword demo_schema demo_sha count_struct mem_disk
  demo_time demo_argon demo_cookie mem_fs demo_doc pair_serde.
#[local] Existing Instances demo_time_laws demo_argon_laws demo_cookie_laws mem_fs_laws demo_doc_laws.

(** ** The playground *)

Definition up : result string unit := Ok tt.
(** An upstream that answers with text. *)
Definition answering (_ : ChatRequest) : result string (Z * result string string) := Ok (200%Z, Ok "pong").
Definition prompt : value := obj [("model", Str "gpt-4o")].
Definition play (label csrf next : string) (k : Z) (w : World) : ConsoleReply * PlayWorld :=
  api_playground_backend doc_toml no_vars up answering 12 demo_console (demo_draw k "" next) (with_token csrf)
    (mkBackendPlay label prompt) (w.1, (w.2, [])).

Example play_run :
  let '(r, w) := play "alpha" "tok1" "tok2" 2 (toml_world demo_table) in
  r = mkConsoleReply 200 [("x-csrf-token-next", encode_csrf_token "tok2")]
        (playground_response "backend:openai" 200 12 (Str "pong") None) /\
  w.2.2 = [mkRequest "http://a/v1/chat/completions" prompt (Some "sk-a")] /\
  cr_status (play "gamma" "tok1" "tok2" 2 (toml_world demo_table)).1 = 404%Z.
Proof. vm_compute. done. Qed.

Lemma playground_backend_confined_witness :
  (play "alpha" "tok1" "tok2" 2 (toml_world demo_table)).2.2.1 = toml_files demo_table.
Proof.
  destruct (play "alpha" "tok1" "tok2" 2 (toml_world demo_table)) as [r w'] eqn:E.
  destruct (playground_backend_confined doc_toml no_vars up answering 12 demo_console (demo_draw 2 "" "tok2") (with_token "tok1")
    (mkBackendPlay "alpha" prompt) (demo_in.2, (toml_files demo_table, [])) r w' E) as [Hf _].
  exact Hf.
Defined.

(** The playground reads the key from the configuration and not from the caller;
    an administrator who first points the backend elsewhere, leaving the key
    out, has it sent there. *)
Theorem playground_key_redirected :
  let '(r1, w1) := put_backend demo_table "alpha" (mkUpsert "openai" "http://elsewhere" None None) in
  let '(r2, w2) := play "alpha" "tok2" "tok3" 3 w1 in
  cr_status r1 = 200%Z /\ cr_status r2 = 200%Z /\
  w2.2.2 = [mkRequest "http://elsewhere/v1/chat/completions" prompt (Some "sk-a")].
Proof. vm_compute. done. Qed.

(** The label in the answer is the provider's, not the backend's. *)
Theorem playground_where_is_provider :
  get_str "where" (cr_body (play "alpha" "tok1" "tok2" 2 (toml_world demo_table)).1) = Some "backend:openai".
Proof. vm_compute. done. Qed.

(** ** The overview *)

Definition both_on : Config :=
  let d := demo_live_config None false in
  mkConfig (cf_nanoguard d) (cf_backend d) (cf_backends d) (cf_routing d) (cf_input d)
    (mkOutput true pii_default output_schema_default) (cf_budget d) (cf_audit d) (cf_tools d) (cf_policies d) (cf_auth d)
    (cf_console d) (cf_reload d).
Lemma overview_agrees_witness :
  exists sn, build_app_state demo_yaml demo_env both_on demo_runtime = Ok sn /\
    shown "Input PII redaction" both_on = Some true /\ pc_pii_enabled (st_config (sn_app sn)) = true.
Proof.
  destruct (build_app_state demo_yaml demo_env both_on demo_runtime) as [sn|e] eqn:E; [|vm_compute in E; discriminate].
  exists sn. split; [done|].
  destruct (overview_agrees demo_yaml demo_env both_on demo_runtime sn E) as (_ & Hp & _); [by vm_compute..|].
  split; [by vm_compute|]. vm_compute in Hp. injection Hp as Hp. symmetry. exact Hp.
Defined.

(** The answer to a request without a session. *)
Example config_view_run :
  get "files" (cr_body (api_config demo_files)) ≫= get_str "nanoguard.toml" = Some "config" /\
  get "files" (cr_body (api_config demo_files)) ≫= get_str "dicts/a.txt" = Some old_dict.
Proof. vm_compute. done. Qed.
Lemma config_view_public_witness : cr_status (api_config demo_files) = 200%Z.
Proof. apply (config_view_public demo_files "config"). by vm_compute. Defined.
