(* ===== verification/ServeRuns.v ===== *)
(** * Runs of the whole console

    A console started on an empty database, its first login, and requests with
    and without authority. *)

From S2P Require Import Prelude RustStr Json Regex Redact ToolGate Matcher Policy Routing ClientAuth Budget Spotlight Schema AuditTrail Proxy Admin Config Reload RustFs RustNet ConsoleDb ConsoleApi ConsoleInv ConsoleEdit ConsoleViews ConsoleBackends ConsolePlay ConsoleStart ConsoleServe ConsoleTrail ConsoleCsrf ConsoleRuns EditRuns BackendRuns PlayRuns.

(** Doubles of instants, exactly. *)
Definition exact_secs : Seconds := {| secs_f64 := Z; as_secs_f64 := fun n => n; secs_le := Z.leb |}.
#[local] Existing Instances demo_unicode literal_engine demo_sha count_struct mem_disk demo_time demo_argon demo_cookie mem_fs
  demo_doc pair_serde exact_secs.
#[local] Existing Instances demo_time_laws demo_argon_laws demo_cookie_laws mem_fs_laws demo_doc_laws mem_disk_laws.

(** ** Start-up *)

Definition boot_vars (v : string) : option string :=
  if String.eqb v "ROOT_PW" then Some "correct horse battery" else None.
Definition boot_config : Config :=
  let d := demo_console_config in
  mkConfig (cf_nanoguard d) (cf_backend d) (cf_backends d) (cf_routing d) (cf_input d) (cf_output d) (cf_budget d)
    (cf_audit d) (cf_tools d) (cf_policies d) (cf_auth d)
    (mkConsole true "127.0.0.1:8081" "" 24 "console-audit.jsonl" 20 None 3 15
       (mkConsoleAuth "" (mkLocalAuth false (Some (mkBootstrap "root" "ROOT_PW"))))) (cf_reload d).
Definition empty_db : ConsoleDb := mkConsoleDb [] [] [] [].
Definition open_empty (_ : string) : result string ConsoleDb := Ok empty_db.
Definition open_log (_ : string) : result string disk := Ok "".
Definition fresh_bytes : string := "abcdefghijklmnopqrstuvwxyzabcdef".
Definition started : result string (ConsoleState * ConsoleWorld) :=
  run open_empty open_log fresh_bytes "salt" (to_rfc3339 T0) boot_config (Some "correct horse battery").
Definition boot_state : ConsoleState := match started with Ok (st, _) => st | Err _ => demo_console end.
Definition boot_world : ConsoleWorld := match started with Ok (_, w) => w | Err _ => demo_start end.
Lemma started_ok : started = Ok (boot_state, boot_world).
Proof. by vm_compute. Qed.

Example start_errors :
  prepare_for_run (fun v => if String.eqb v "CONSOLE_SESSION_SECRET" then Some "short" else None) boot_config =
    Err "[console] session_secret must be at least 32 bytes (got 5). Generate one with: openssl rand -hex 32" /\
  run open_empty open_log fresh_bytes "salt" "" boot_config (Some "short") =
    Err "Bootstrap password for 'root' must be at least 12 characters" /\
  run open_empty open_log fresh_bytes "salt" "" boot_config (Some "PASSWORD123456") =
    Err "Bootstrap password for 'root' is too common".
Proof. vm_compute. done. Qed.

Lemma console_starts_safely_witness : 32 <= String.length (co_session_secret (cs_console boot_state)).
Proof.
  destruct (console_starts_safely open_empty open_log boot_vars fresh_bytes "salt" (to_rfc3339 T0) boot_config boot_config
    (Some "correct horse battery") boot_state boot_world) as [Hs _].
  - by vm_compute.
  - by vm_compute.
  - exact started_ok.
  - exact Hs.
Defined.

Lemma bootstrap_admin_logs_in_witness :
  cr_status (api_login boot_state (demo_draw 1 "SID" "tok1") plain_headers (mkLogin "root" "correct horse battery") boot_world).1 =
  200%Z.
Proof.
  apply (bootstrap_admin_logs_in open_empty open_log boot_vars fresh_bytes "salt" (to_rfc3339 T0) boot_config boot_config
    (Some "correct horse battery") boot_state boot_world (mkBootstrap "root" "ROOT_PW") "correct horse battery");
    first [exact started_ok|by vm_compute].
Defined.

(** ** Requests *)

Definition no_log (_ : string) : LogRead := LogNotFound.
Definition blank (_ : Request) : value := Str "".
Definition answer := serve quote no_yaml doc_toml no_vars no_exchange no_kill no_pid up answering 12 no_log id id id id blank.
Definition demo_site : Site := mkSite demo_in.2 demo_files [] None.
Definition wipe_usage : Request := ResetBudgetUsage "token:1".

(** Without a session the configuration is shown and the rest is refused. *)
Example stranger_run :
  cr_status (answer demo_console dr2 (demo_edit_draw 5) demo_rng plain_headers ConfigView demo_site).1 = 200%Z /\
  cr_status (answer demo_console dr2 (demo_edit_draw 5) demo_rng plain_headers ListBackends demo_site).1 = 401%Z /\
  cr_status (answer demo_console dr2 (demo_edit_draw 5) demo_rng plain_headers Logout demo_site).1 = 401%Z.
Proof. vm_compute. done. Qed.
Lemma strangers_refused_witness :
  (400 <= cr_status (answer demo_console dr2 (demo_edit_draw 5) demo_rng plain_headers Overview demo_site).1)%Z.
Proof. eapply strangers_refused; [by vm_compute|done]. Defined.

Definition save_dict : Request := EditFile (mkEdit "dicts/a.txt" new_dict None).
Lemma changes_authorised_witness : exists sid, (mutating_user (cs_console demo_console) (dr_now dr2)
  (ch_cookie (with_token "tok1") ≫= header_to_str) (ch_csrf (with_token "tok1") ≫= header_to_str) (cw_db (si_cw demo_site))).1 =
  Ok (mkUser 1 "root" (Some "root") None "admin" false false "[]" None None (Some "$correct horse battery") None
       (to_rfc3339 T0) (Some (to_rfc3339 (T0 + 1))), sid).
Proof.
  destruct (changes_authorised quote no_yaml doc_toml no_vars no_exchange no_kill no_pid up answering 12 no_log id id id id blank
    demo_console dr2 (demo_edit_draw 5) demo_rng (with_token "tok1") save_dict demo_site
    (answer demo_console dr2 (demo_edit_draw 5) demo_rng (with_token "tok1") save_dict demo_site).1
    (answer demo_console dr2 (demo_edit_draw 5) demo_rng (with_token "tok1") save_dict demo_site).2) as [[body E]|[_ (u & sid & Hu & _)]].
  - apply surjective_pairing.
  - vm_compute. discriminate.
  - discriminate.
  - exists sid. rewrite Hu. vm_compute in Hu. by injection Hu as <- _.
Defined.

(** Saving a dictionary adds a line to the log. *)
Lemma changes_recorded_witness :
  exists f f' lines, cw_audit (si_cw demo_site) = Some f /\
    cw_audit (si_cw (answer demo_console dr2 (demo_edit_draw 5) demo_rng (with_token "tok1") save_dict demo_site).2) = Some f' /\
    contents f' = contents f +:+ unlines lines /\ lines <> [].
Proof.
  assert (Hf : is_Some (cw_audit (si_cw demo_site))) by (vm_compute; eauto). destruct Hf as [f Hf]. exists f.
  assert (Hd : forall d t, exists d', @append mem_disk d t = (Ok tt, d')) by (intros d t; eexists; reflexivity).
  assert (Hs : forall fs, exists line, @struct_to_string count_struct fs = Ok line) by (intros fs; eexists; reflexivity).
  pose proof (changes_recorded quote no_yaml doc_toml no_vars no_exchange no_kill no_pid up answering 12 no_log id id id id blank
    demo_console dr2 (demo_edit_draw 5) demo_rng (with_token "tok1") save_dict demo_site f Hf Hd Hs) as Hx.
  fold answer in Hx.
  assert (Hst : (cr_status (answer demo_console dr2 (demo_edit_draw 5) demo_rng (with_token "tok1") save_dict demo_site).1 < 400)%Z)
    by (vm_compute; reflexivity).
  assert (Ht : tables (answer demo_console dr2 (demo_edit_draw 5) demo_rng (with_token "tok1") save_dict demo_site).2 <> tables demo_site)
    by (intros E; apply (f_equal (fun t => t.1.1.2)) in E; vm_compute in E; discriminate).
  destruct (answer demo_console dr2 (demo_edit_draw 5) demo_rng (with_token "tok1") save_dict demo_site) as [reply s'].
  destruct Hx as (recs & lines & f' & Ha & _ & Hc & _ & Hn). exists f', lines.
  split; [exact Hf|]. split; [exact Ha|]. split; [exact Hc|]. exact (Hn Hst Ht).
Defined.

(** Saving a dictionary rotates the token: the next request needs the new one. *)
Lemma csrf_single_use_witness :
  exists user sid, (mutating_user (cs_console demo_console) (dr_now dr2) (ch_cookie (with_token "tok1") ≫= header_to_str)
      (ch_csrf (with_token "tok1") ≫= header_to_str) (cw_db (si_cw demo_site))).1 = Ok (user, sid) /\
    In ("x-csrf-token-next", encode_csrf_token (dr_csrf dr2))
      (cr_headers (answer demo_console dr2 (demo_edit_draw 5) demo_rng (with_token "tok1") save_dict demo_site).1).
Proof.
  destruct (csrf_single_use quote no_yaml doc_toml no_vars no_exchange no_kill no_pid up answering 12 no_log id id id id blank
    demo_console dr2 (demo_edit_draw 5) demo_rng (with_token "tok1") save_dict demo_site
    (answer demo_console dr2 (demo_edit_draw 5) demo_rng (with_token "tok1") save_dict demo_site).1
    (answer demo_console dr2 (demo_edit_draw 5) demo_rng (with_token "tok1") save_dict demo_site).2) as (u & sid & Ha & _ & Hh).
  - reflexivity.
  - apply surjective_pairing.
  - vm_compute. reflexivity.
  - exists u, sid. split; [exact Ha|]. apply Hh.
    assert (Es : sid = "SID") by (vm_compute in Ha; by injection Ha as _ <-). rewrite Es. vm_compute. eauto.
Defined.

Definition open_text : disk := ("" : @disk mem_disk).
Definition later_site : Site :=
  (answer boot_state (demo_draw 1 "SID" "tok1") (demo_edit_draw 5) demo_rng plain_headers
     (Login (mkLogin "root" "correct horse battery")) (mkSite boot_world demo_files [] None)).2.
Lemma console_reachable_witness : console_inv (cw_db (si_cw later_site)).
Proof.
  apply (console_reachable quote no_yaml doc_toml no_vars no_exchange no_kill no_pid up answering 12 no_log id id id id blank
    open_empty open_log fresh_bytes "salt" (to_rfc3339 T0) boot_config (Some "correct horse battery") boot_state boot_world
    empty_db demo_files [] None).
  - done.
  - apply inv_empty.
  - exact started_ok.
  - apply rtc_once, step_serve; by vm_compute.
Defined.

Lemma console_log_append_only_witness : exists f' t, cw_audit (si_cw later_site) = Some f' /\ contents f' = contents open_text +:+ t.
Proof.
  apply (console_log_append_only quote no_yaml doc_toml no_vars no_exchange no_kill no_pid up answering 12 no_log id id id id blank
    boot_state (mkSite boot_world demo_files [] None)).
  - apply rtc_once, step_serve; by vm_compute.
  - by vm_compute.
Defined.
