(* ===== verification/InFlight.v ===== *)
(** * Requests in flight ([src/proxy/mod.rs])

    Two things the handlers leave to the runtime.  A streaming body is a
    generator: it runs from one [yield] to the next as the client reads, and a
    client that goes away drops it where it stands.  And requests overlap: each
    checks its budget when it arrives and settles it when it ends, with others in
    between. *)

From S2P Require Import Prelude RustStr Json Regex Deanon ToolGate Sse Matcher Policy Routing ClientAuth Budget Spotlight Schema AuditTrail Redact Vault Proxy.

(** ** The generator *)

Section Generator.
Context `{Unicode} `{RegexEngine} `{AhoCorasick} `{Iword} `{Serde} `{JsonSchema} `{Sha256} `{SerdeStruct}
  `{Disk} {B : Type} `{BudgetStore B} {W : Type}.
Context (st : AppState) (api_key now : string).
Notation World := (World (B := B) (W := W)).

(** Where the generator stands: in the loop over the upstream chunks, after the
    [yield] of the tail, or at its end. *)
Inductive Phase :=
| Looping (ss : StreamState) (chunks : list (result string string))
| Charging (ss : StreamState)
| Over.
(** What a poll gives: an item, the end, or a panic. *)
Inductive Polled := Yield (item : Item) | Finished | Unwound.

Fixpoint resume (ss : StreamState) (chunks : list (result string string)) (w : World) : Polled * Phase * World :=
  match chunks with
  | [] =>
      let tail := (sse_flush (ss_filter ss)).1 in
      if String.eqb tail "" then (Finished, Over, record_usage api_key now (ss_usage ss) w)
      else (Yield (Data tail), Charging ss, w)
  | Err e :: _ => (Yield (IoError e), Over, w)
  | Ok chunk :: rest =>
      let usage := match try_extract_usage chunk with Some u => Some u | None => ss_usage ss end in
      let '(denied, gate) :=
        match ss_gate ss with
        | Some g => let '(d, g') := gate_events g (chunk_events chunk) in (d, Some g')
        | None => (None, None)
        end in
      match denied with
      | Some reasons => (Yield (Data (deny_event reasons)), Over, w)
      | None =>
          if negb (pc_output_enabled (st_config st)) then
            (Yield (Data chunk), Looping (mkStream (ss_filter ss) gate usage) rest, w)
          else
            let '(out, f) := sse_push (stream_transform st) (ss_filter ss) chunk in
            if (sse_state f).2 then (Unwound, Over, w)
            else if String.eqb out "" then resume (mkStream f gate usage) rest w
            else (Yield (Data out), Looping (mkStream f gate usage) rest, w)
      end
  end.
Definition poll (p : Phase) (w : World) : Polled * Phase * World :=
  match p with
  | Looping ss chunks => resume ss chunks w
  | Charging ss => (Finished, Over, record_usage api_key now (ss_usage ss) w)
  | Over => (Finished, Over, w)
  end.

(** A client that polls at most [n] times, and stops at the end. *)
Fixpoint drive (n : nat) (p : Phase) (w : World) : list Item * World :=
  match n with
  | O => ([], w)
  | S n' => match poll p w with
            | (Yield i, p', w') => let '(items, w'') := drive n' p' w' in (i :: items, w'')
            | (_, _, w') => ([], w')
            end
  end.
Definition start (deanon : option DeanonymizeStream) (chunks : list (result string string)) : Phase :=
  Looping (mkStream (mkSse "" (deanon, false)) (stream_gate_new <$> st_tool_gate st) None) chunks.

(** ** The generator is the stream, read lazily *)

(** How a run ends, and what remains of one from inside the loop. *)
Definition finish (r : list Item * StreamEnd) (w : World) : list Item * World :=
  match r with
  | (items, Exhausted ss) =>
      let tail := (sse_flush (ss_filter ss)).1 in
      (items ++ (if String.eqb tail "" then [] else [Data tail]), record_usage api_key now (ss_usage ss) w)
  | (items, Stopped) | (items, StreamPanicked) => (items, w)
  end.
Definition run_from (ss : StreamState) (chunks : list (result string string)) (w : World) : list Item * World :=
  finish (stream_loop st ss chunks) w.

(** After [n] polls: the first [n] items, and the world as it was until a poll
    beyond the last of them. *)
Definition read_so_far (n : nat) (full : list Item * World) (w : World) : list Item * World :=
  (take n full.1, if Nat.leb n (length full.1) then w else full.2).

Lemma read_cons n i items w' w : read_so_far (S n) (i :: items, w') w = (i :: (read_so_far n (items, w') w).1, (read_so_far n (items, w') w).2).
Proof. done. Qed.
Lemma read_none n w : read_so_far n ([], w) w = ([], w).
Proof. unfold read_so_far. simpl. rewrite take_nil. by destruct (Nat.leb n 0). Qed.
Lemma drive_over n w : drive n Over w = ([], w).
Proof. by destruct n. Qed.

Lemma finish_app pre r w : finish (pre ++ r.1, r.2) w = (pre ++ (finish r w).1, (finish r w).2).
Proof. destruct r as [items []]; simpl; [|done..]. by rewrite <-app_assoc. Qed.

Lemma drive_loop chunks n ss w :
  drive n (Looping ss chunks) w = read_so_far n (run_from ss chunks w) w.
Proof.
  revert n ss. induction chunks as [|[chunk|e] rest IH]; intros n ss.
  - unfold run_from. simpl. destruct n as [|n]; [done|]. simpl. destruct (String.eqb _ ""); [done|]. destruct n; done.
  - destruct n as [|n]; [done|]. simpl drive. unfold run_from. cbn [stream_loop].
    destruct (match ss_gate ss with Some g => _ | None => _ end) as [[reasons|] gate].
    { simpl finish. rewrite read_cons, read_none. by rewrite drive_over. }
    destruct (negb _).
    { specialize (IH n (mkStream (ss_filter ss) gate (match try_extract_usage chunk with Some u => Some u | None => ss_usage ss end))).
      unfold run_from in IH. destruct (stream_loop _ _ rest) as [items e]. rewrite (finish_app [Data chunk] (items, e)).
      cbn [app]. rewrite read_cons, <-surjective_pairing, <-IH. by destruct (drive _ _ _). }
    destruct (sse_push _ _ _) as [out f]. destruct (sse_state f).2; [simpl finish; by rewrite read_none|].
    set (ss' := mkStream f gate _). pose proof (IH n ss') as IHn. specialize (IH (S n) ss'). unfold run_from in IH, IHn.
    destruct (stream_loop st ss' rest) as [items e]. rewrite (finish_app _ (items, e)). destruct (String.eqb out "").
    + cbn [app]. rewrite <-surjective_pairing. simpl drive in IH. by rewrite IH.
    + cbn [app]. rewrite read_cons, <-surjective_pairing, <-IHn. clear. by destruct (drive n _ w).
  - unfold run_from. simpl. destruct n as [|n]; [done|]. simpl. rewrite drive_over. by destruct n.
Qed.

(** C33: A streaming body read lazily is the stream.  A client that polls [n] times
    has received the first [n] items of the run, whatever it does afterwards;
    and the budget is charged, once, by the poll that finds the end of the
    stream, and by no earlier one. *)
Theorem stream_generator deanon chunks n w :
  let '(items, w') := run_stream st now (mkJob deanon api_key chunks) w in
  drive n (start deanon chunks) w = (take n items, if Nat.leb n (length items) then w else w').
Proof.
  pose proof (drive_loop chunks n (mkStream (mkSse "" (deanon, false)) (stream_gate_new <$> st_tool_gate st) None) w) as Hd.
  unfold start. rewrite Hd. unfold run_from, finish, read_so_far, run_stream. by destruct (stream_loop _ _ _) as [items []].
Qed.

(** So a client that reads every item of a stream and goes away before the poll
    that would find its end has the whole answer and pays nothing for it. *)
Theorem abandoned_stream_free deanon chunks w :
  let items := (run_stream st now (mkJob deanon api_key chunks) w).1 in
  drive (length items) (start deanon chunks) w = (items, w).
Proof.
  pose proof (drive_loop chunks (length (run_stream st now (mkJob deanon api_key chunks) w).1)
    (mkStream (mkSse "" (deanon, false)) (stream_gate_new <$> st_tool_gate st) None) w) as Hd.
  cbv zeta. unfold start. rewrite Hd. unfold run_from, finish, read_so_far, run_stream.
  destruct (stream_loop _ _ _) as [items []]; cbn [fst snd]; by rewrite take_ge, Nat.leb_refl by lia.
Qed.
End Generator.

(** ** Overlapping requests and one budget *)

Section Overlap.
Context `{Serde} `{Sha256} `{SerdeStruct} `{Disk} {W : Type}.
Notation World := (World (B := SqliteBudget) (W := W)).
(** The key, the most a request may cost, and how many run at once. *)
Context (k : string) (cost : Z) (width : nat).

Record Flights := mkFlights { fl_world : World; fl_open : nat }.
(** A request arrives and passes the check, ends and is charged, or ends without
    a charge (refused further on, failed, or abandoned); and other keys spend. *)
Inductive flight_step : Flights -> Flights -> Prop :=
| flight_admit w n : guard_budget k w = (Next tt, w) -> n < width -> flight_step (mkFlights w n) (mkFlights w (S n))
| flight_settle w n r :
    sp_api_key r = k -> (0 <= sp_prompt_tokens r)%Z -> (0 <= sp_completion_tokens r)%Z -> (spend_total r <= cost)%Z ->
    flight_step (mkFlights w (S n)) (mkFlights (record r w) n)
| flight_leave w n : flight_step (mkFlights w (S n)) (mkFlights w n)
| flight_other w n r : sp_api_key r <> k -> flight_step (mkFlights w n) (mkFlights (record r w) n).

Lemma record_other r s s' : sp_api_key r <> k -> sqlite_record_spend s r = Ok s' ->
  usage_value s' k = usage_value s k /\ sb_limits s' = sb_limits s.
Proof.
  intros Hk. unfold sqlite_record_spend. cbv zeta. destruct (bind_u64 _); [|done]. destruct (bind_u64 _); [|done].
  destruct (bind_u64 _); [|done]. intros [= <-]. unfold usage_value. simpl. split; [|done].
  by destruct (sb_usage s !! sp_api_key r) as [[]|]; rewrite lookup_insert_ne.
Qed.

(** What is spent, and what may still be charged, against a limit. *)
Definition bounded (limit : Z) (f : Flights) : Prop :=
  exists s, w_budget (fl_world f) = Some s /\ sb_limits s !! k = Some limit /\ fl_open f <= width /\
    (usage_value s k + Z.of_nat (fl_open f) * cost <= limit + Z.of_nat width * cost)%Z.

Lemma bounded_step limit f f' :
  (0 <= limit)%Z -> (0 <= cost)%Z -> (limit + Z.of_nat width * cost <= i64_max)%Z -> bounded limit f -> flight_step f f' -> bounded limit f'.
Proof.
  intros Hpos Hc Hmax (s & Hs & Hl & Hn & Hu) Hst. destruct Hst as [w n Hg Hw|w n r Hk Hp1 Hp2 Ht|w n|w n r Hk]; simpl in *.
  - exists s. split; [done|]. split; [done|]. simpl. split; [lia|].
    assert (Hlt : (usage_value s k < limit)%Z); [|nia].
    unfold guard_budget in Hg. rewrite Hs in Hg. unfold budget_check in Hg. simpl in Hg. unfold sqlite_get_limit in Hg. rewrite Hl in Hg.
    simpl in Hg. unfold sqlite_get_usage in Hg. unfold usage_value in *. destruct (sb_usage s !! k) as [[u at_]|].
    + destruct (Z.leb_spec u i64_max); [|nia]. simpl in Hg. destruct (Z.leb_spec limit u); [done|lia].
    + simpl in Hg. destruct (Z.leb_spec limit 0); [done|lia].
  - destruct (sqlite_step s (BSpend r)) as (s' & Hs' & Hu' & Hl').
    { assert (cost <= Z.of_nat width * cost)%Z by nia. simpl. lia. } exists s'. unfold record. rewrite Hs. simpl.
    simpl in Hs'. rewrite Hs'. split; [done|]. rewrite (Hl' k), (Hu' k). simpl. rewrite (proj2 (String.eqb_eq _ _) Hk). split; [done|]. split; [lia|nia].
  - exists s. split; [done|]. split; [done|]. simpl. split; [lia|nia].
  - unfold record. rewrite Hs. simpl. destruct (sqlite_record_spend s r) as [s'|e] eqn:E.
    + apply record_other in E as [Hu' Hl']; [|done]. exists s'. by rewrite Hu', Hl'.
    + by exists s.
Qed.

(** C34: Overshoot is bounded.  The check and the charge are apart, so requests that
    overlap may together pass the limit; but however up to [width] of them
    interleave, with requests under other keys among them, what is spent under
    the key never exceeds the limit by more than [width] requests' cost. *)
Theorem overspend_bounded w s limit f :
  w_budget w = Some s -> sb_limits s !! k = Some limit -> (usage_value s k <= limit)%Z ->
  (0 <= limit)%Z -> (0 <= cost)%Z -> (limit + Z.of_nat width * cost <= i64_max)%Z ->
  rtc flight_step (mkFlights w 0) f ->
  exists s', w_budget (fl_world f) = Some s' /\ (usage_value s' k <= limit + Z.of_nat width * cost)%Z.
Proof.
  intros Hs Hl Hu Hpos Hc Hmax Hr.
  assert (Hb : bounded limit f).
  { assert (Hi : bounded limit (mkFlights w 0)) by (exists s; simpl; split_and!; [done|done|lia|nia]).
    revert Hi. induction Hr as [|f1 f2 f3 Hst _ IH]; [done|]. intros Hi. apply IH. by eapply bounded_step. }
  destruct Hb as (s' & Hs' & _ & _ & Hb). exists s'. split; [done|]. nia.
Qed.

(** A budget that has left the column's range is no budget: the check fails, and
    a check that fails admits the request. *)
Theorem overflow_admits (w : World) s u at_ :
  w_budget w = Some s -> sb_usage s !! k = Some (u, at_) -> (i64_max < u)%Z -> guard_budget k w = (Next tt, w).
Proof.
  intros Hs Hu Hlt. unfold guard_budget, budget_check. rewrite Hs. simpl. unfold sqlite_get_usage. rewrite Hu.
  destruct (Z.leb_spec u i64_max); [lia|]. by destruct (sb_limits s !! k).
Qed.
End Overlap.

(** ** Concrete runs *)

#[local] Existing Instances demo_unicode literal_engine demo_ac demo_iword demo_serde demo_schema demo_sha count_struct mem_disk.
Definition tight_store : SqliteBudget := mkSqlite {["k" := 10%Z]} {["k" := (9%Z, None)]} [].
Definition tight_world : World := mkWorld ([] : list ChatRequest) (Some tight_store) None.
Definition eight (k : string) : SpendRecord := mkSpend k 5 3 "m" "t".
(** Two requests pass the check at 9 of 10 and end at 25. *)
Definition tight_end : Flights := mkFlights (record (eight "k") (record (eight "k") tight_world)) 0.
Lemma tight_run : rtc (flight_step "k" 8 2) (mkFlights tight_world 0) tight_end.
Proof.
  eapply rtc_l; [apply flight_admit; [by vm_compute|lia]|]. eapply rtc_l; [apply flight_admit; [by vm_compute|lia]|].
  eapply rtc_l; [apply (flight_settle "k" 8 2 _ _ (eight "k")); done|]. apply rtc_once. by apply flight_settle.
Qed.
Example tight_overspent : (fun s => usage_value s "k") <$> w_budget (fl_world tight_end) = Some 25%Z.
Proof. by vm_compute. Qed.
Lemma overspend_bounded_witness :
  exists s', w_budget (fl_world tight_end) = Some s' /\ (usage_value s' "k" <= 10 + Z.of_nat 2 * 8)%Z.
Proof.
  apply (overspend_bounded "k" 8 2 tight_world tight_store 10 tight_end);
    [reflexivity|by vm_compute|vm_compute; discriminate|lia|lia|vm_compute; discriminate|exact tight_run].
Defined.

Example demo_polls :
  let p := start (demo_state false true) None (map Ok demo_chunks) in
  length (drive (demo_state false true) "k" "now" 9 p tight_world).1 = 2 /\
  drive (demo_state false true) "k" "now" 1 p tight_world = ([Data ("data: {}" +:+ lf2)], tight_world).
Proof. vm_compute. done. Qed.
