(* ===== verification/NodeRuns.v ===== *)
(** * Runs of the server, its boot and the offline tool

    A request with a token through the whole server, a boot that leaves a pid
    file, and password resets from the command line. *)

From S2P Require Import Prelude RustStr Json Regex Redact ToolGate Matcher Policy Routing ClientAuth Budget Spotlight Schema AuditTrail Proxy Admin Anthropic Config Reload RustFs RustNet ConsoleDb ConsoleApi AdminCli ConsoleInv ConsoleStart Boot Server ServerReach ConsoleRuns EditRuns ServeRuns.

#[local] Existing Instances demo_unicode literal_engine demo_ac demo_iword demo_serde demo_schema demo_sha
  count_struct mem_disk demo_time demo_argon demo_cookie mem_fs.
#[local] Existing Instances demo_sha_laws demo_time_laws demo_argon_laws demo_cookie_laws mem_fs_laws.

(** ** Requests *)

Definition demo_node : Node (B := SqliteBudget) (W := list ChatRequest) :=
  mkNode (demo_state false true) Proxy.demo_world (Some demo_auth) (Some "k3y").
(** The client records a [GET] as a request without a body. *)
Definition demo_models (sent : list ChatRequest) (r : ModelsRequest) : option ModelsResult * list ChatRequest :=
  (Some (MrResponse 200 (Ok (obj [("data", Arr [obj [("id", Str "m")]])]))), sent ++ [mkRequest (mq_url r) Null (mq_bearer r)]).
Definition demo_serve (headers : AuthHeaders) (q : ServerRequest) :=
  server_step demo_chat_send id no_time id demo_models id 1 headers demo_clock q demo_node.

Example server_run :
  match demo_serve demo_req (Chat (demo_chat "I am a@b.co")) with
  | (SReply (Some (ReplyJson 200 body)), n) => first_content body = "mail a@b.co" /\ length (w_http (nd_world n)) = 1
  | _ => False
  end /\
  (demo_serve (mkHeaders None None) (Chat (demo_chat "hello"))).1 = SRefused 401 "missing bearer" /\
  (demo_serve (mkHeaders None None) Models).1 = SRefused 401 "missing bearer" /\
  match demo_serve demo_req Models with
  | (SModels (200%Z, _), n) => map rq_bearer (w_http (nd_world n)) = map (fun lb => bc_api_key lb.2) (btree_entries (bp_backends demo_pool))
  | _ => False
  end /\
  (demo_serve (mkHeaders None None) Health).1 = SHealth.
Proof. vm_compute. done. Qed.

(** A chat request and a model list after the console has minted a token. *)
Definition console_mint : option (Z * Token * Db) := mint MAX_MINT_ATTEMPTS Admin.demo_rng 0 (ca_db demo_auth) "now" "p" 7 "laptop" None.
Definition console_node : Node (B := SqliteBudget) (W := list ChatRequest) :=
  match console_mint with Some (_, _, db') => with_client_auth (Some (console_minted db' demo_auth)) demo_node | None => demo_node end.
Lemma console_node_step : node_step demo_chat_send id no_time id demo_models id demo_node console_node.
Proof.
  unfold console_node, console_mint.
  destruct (mint _ _ _ _ _ _ _ _ _) as [[[i token] db']|] eqn:E; [|exact (node_reload _ _ _ _ _ _ _ _ demo_node)].
  exact (node_console_mint demo_chat_send id no_time id demo_models id _ _ _ _ _ _ _ _ i token db' demo_auth demo_node eq_refl E).
Qed.
Lemma server_always_guarded_witness :
  let step q := server_step demo_chat_send id no_time id demo_models id 1 demo_req demo_clock q console_node in
  (exists a view, nd_auth console_node = Some a /\ live_token no_time 1 a demo_req (cv_token_id view) /\
     upstream_use demo_models id (Chat (demo_chat "I am a@b.co")) view console_node (step (Chat (demo_chat "I am a@b.co"))).2) /\
  (exists a view, nd_auth console_node = Some a /\ live_token no_time 1 a demo_req (cv_token_id view) /\
     upstream_use demo_models id Models view console_node (step Models).2).
Proof.
  intros step. split.
  - destruct (server_always_guarded demo_chat_send id no_time id demo_models id demo_db demo_auth_config demo_auth demo_node console_node
      1 demo_req demo_clock (Chat (demo_chat "I am a@b.co")) (step (Chat (demo_chat "I am a@b.co"))).1
      (step (Chat (demo_chat "I am a@b.co"))).2) as (a & view & Ha & Hl & _ & Hg);
    [exact demo_db_wf|reflexivity..|apply rtc_once, console_node_step|apply surjective_pairing|vm_compute; discriminate
    |exists a, view; split; [exact Ha|]; split; [exact Hl|exact Hg]].
  - destruct (server_always_guarded demo_chat_send id no_time id demo_models id demo_db demo_auth_config demo_auth demo_node console_node
      1 demo_req demo_clock Models (step Models).1 (step Models).2) as (a & view & Ha & Hl & _ & Hg);
    [exact demo_db_wf|reflexivity..|apply rtc_once, console_node_step|apply surjective_pairing|vm_compute; discriminate
    |exists a, view; split; [exact Ha|]; split; [exact Hl|exact Hg]].
Defined.

(** A second token is minted, the first is revoked, and the second is used. *)
Definition admin_headers : AuthHeaders := mkHeaders None (Some "Bearer k3y").
Definition node_after (headers : AuthHeaders) (q : ServerRequest) (n : Node (B := SqliteBudget) (W := list ChatRequest)) :=
  server_step demo_chat_send id no_time id demo_models id 1 headers demo_clock q n.
Definition minted_node := (node_after admin_headers (AdminCall (CreateClient Admin.demo_rng "now" (mkCreate "laptop" None None))) demo_node).2.
Definition revoked_node := (node_after admin_headers (AdminCall (RevokeClient "later" 1)) minted_node).2.
Definition second_req : AuthHeaders := mkHeaders None (Some ("Bearer " +:+ tk_wire (generate "p" (Admin.demo_rng 0)))).
Example revoked_run :
  (node_after demo_req (Chat (demo_chat "hello")) revoked_node).1 = SRefused 401 "token revoked".
Proof. by vm_compute. Qed.
Lemma admin_revokes_by n1 rh nowr id' :
  match nd_auth n1 with Some a1 => In rh (ca_db a1) | None => False end -> ct_id rh.1 = id' ->
  match (node_after admin_headers (AdminCall (RevokeClient nowr id')) n1).1 with SAdmin (status, _) => status = 200%Z | _ => False end ->
  revokes demo_chat_send id no_time id demo_models id id' n1 (node_after admin_headers (AdminCall (RevokeClient nowr id')) n1).2.
Proof.
  intros Hin Hid Hst. destruct (nd_auth n1) as [a1|] eqn:Ea; [|done]. exists a1, rh. split_and!; [done..|]. left.
  unfold node_after in *. destruct (server_step _ _ _ _ _ _ _ _ _ _ _) as [rr n2] eqn:Er. simpl in Hst.
  destruct rr as [?|?|? ?|[status body]|]; try contradiction. subst status.
  exists 1%Z, admin_headers, demo_clock, nowr, body. exact Er.
Qed.
Lemma admin_revokes : revokes demo_chat_send id no_time id demo_models id 1 minted_node revoked_node.
Proof.
  apply (admin_revokes_by minted_node (demo_row, tk_hash demo_token) "later" 1); vm_compute; [by left|reflexivity..].
Qed.
Lemma revoked_never_served_witness :
  exists a view, nd_auth revoked_node = Some a /\ live_token no_time 1 a second_req (cv_token_id view) /\ cv_token_id view <> 1%Z.
Proof.
  apply (revoked_never_served demo_chat_send id no_time id demo_models id demo_db demo_auth_config demo_auth demo_node minted_node 1
    revoked_node revoked_node 1 second_req demo_clock (Chat (demo_chat "hello"))
    (server_step demo_chat_send id no_time id demo_models id 1 second_req demo_clock (Chat (demo_chat "hello")) revoked_node).1
    (server_step demo_chat_send id no_time id demo_models id 1 second_req demo_clock (Chat (demo_chat "hello")) revoked_node).2).
  - exact demo_db_wf.
  - reflexivity.
  - reflexivity.
  - reflexivity.
  - apply rtc_once, node_serve.
  - exact admin_revokes.
  - apply rtc_refl.
  - apply surjective_pairing.
  - vm_compute. discriminate.
Defined.

(** ** A boot and its pid file *)

Definition no_files : fs := (nil : list (list Component * (string * Z))).
Definition booted := boot (fun _ => Ok (demo_live_config None false)) demo_yaml demo_budget_at demo_log_at demo_tokens_at open_empty
  demo_env 4711 9 fresh_bytes "salt" (to_rfc3339 T0) no_files.
Definition pid_target (pid : Z) : result string unit := if (pid =? 4711)%Z then Ok tt else Err "No such process".
Lemma pid_file_signals_witness :
  trigger_via_pid_file pid_target (read_to_string booted.2) "nanoguard.pid" = Ok tt.
Proof.
  assert (Hc : match booted with
               | (Ok bt, s') => re_pid_file (cf_reload (bt_config bt)) = Some "nanoguard.pid" /\
                   read_to_string s' "nanoguard.pid" = Ok ("4711" +:+ one nl)
               | _ => False
               end) by (vm_compute; split; reflexivity).
  destruct booted as [[bt|e] s'] eqn:E; [|destruct Hc]. destruct Hc as [Hf Hr]. cbn [snd].
  rewrite (pid_file_signals (fun _ => Ok (demo_live_config None false)) demo_yaml demo_budget_at demo_log_at demo_tokens_at open_empty
    demo_env 4711 9 fresh_bytes "salt" (to_rfc3339 T0) no_files bt s' "nanoguard.pid" pid_target ("4711" +:+ one nl)).
  - reflexivity.
  - exact E.
  - exact Hf.
  - lia.
  - vm_compute. reflexivity.
  - exact Hr.
Defined.

Lemma clean_exit_drained_witness : drained (mkListeners true 0 (Some 0) (Some (Ok tt))).
Proof.
  apply (clean_exit_drained (Some 0)). eapply rtc_l; [apply listen_accept|]. eapply rtc_l; [apply listen_signal|].
  eapply rtc_l; [apply listen_done|]. apply rtc_once, listen_proxy_drained.
Defined.

(** ** The offline tool *)

Definition no_input : Stdin := mkStdin false (Ok "") true true true.
Definition demo_cli (args : list string) (d : ConsoleDb) : Z * CliWorld :=
  admin_main 8 (Ok demo_console_config) None (fun _ => None) "salt" no_input id args (mkCli d 59 []).

Lemma set_password_all_or_nothing_witness :
  logged_out 1 (cl_db (demo_cli ["set-password"; "root"; "--password"; "another long phrase"] (cw_db demo_in.2)).2).
Proof.
  destruct (set_password_all_or_nothing 8 (Ok demo_console_config) None (fun _ => None) "salt" no_input id
    ["root"; "--password"; "another long phrase"] (mkCli (cw_db demo_in.2) 59 [])
    (demo_cli ["set-password"; "root"; "--password"; "another long phrase"] (cw_db demo_in.2)).1
    (demo_cli ["set-password"; "root"; "--password"; "another long phrase"] (cw_db demo_in.2)).2) as (_ & _ & Hok).
  - apply surjective_pairing.
  - destruct Hok as (username & pw & hash & u & Hu & _ & _ & _ & _ & _ & Hl); [reflexivity|].
    assert (Hid : us_id u = 1%Z) by (pose proof (find_some _ _ Hu) as [Hin _]; vm_compute in Hin; destruct Hin as [<-|[]]; reflexivity).
    rewrite <-Hid. exact Hl.
Defined.

(** The tool takes a password of any length, where the console asks for twelve
    bytes. *)
Theorem short_password_accepted :
  (demo_cli ["set-password"; "root"; "--password"; "a"] (cw_db demo_in.2)).1 = 0%Z.
Proof. by vm_compute. Qed.
