(* ===== verification/RegexSyntax.v ===== *)
(** * The patterns the sources hand to the regex engine

    The part of the [regex] crate's documented syntax that the built-in
    recognizers and the shipped dictionaries use: literals, character classes,
    groups, alternation, counted and unbounded repetition, anchors and word
    boundaries.  [parse_re] reads a pattern, [re_in] says what it matches, and
    the class [RegexMeaning] states that an engine finds matches of the pattern
    it was built from, and finds one wherever there is one. *)

From S2P Require Import Prelude RustStr Regex.

(** ** Syntax *)

Inductive perl := PDigit | PSpace | PWord.
Inductive class_item :=
| IChar (ch : string)
| IRange (lo hi : ascii)
| IPerl (neg : bool) (k : perl).

Inductive re :=
| REmpty
| RSet (neg : bool) (items : list class_item)
| RCat (a b : re)
| RAlt (a b : re)
| RRep (e : re) (min : nat) (max : option nat) (greedy : bool)
| RWordB (neg : bool)
| RStart
| REnd.

(** ** Classes of characters

    A character is the string of its UTF-8 encoding.  Unicode's tables of
    decimal digits and word characters matter only outside ASCII. *)

Class PerlTables := { uni_digit : string -> bool; uni_word : string -> bool }.

Section Meaning.
Context `{PerlTables}.

Definition single (p : ascii -> bool) (ch : string) : bool :=
  match ch with String c "" => p c | _ => false end.
Definition word_byte (c : ascii) : bool := is_ascii_alphanumeric c || Ascii.eqb c "_".
Definition is_word (ch : string) : bool :=
  if is_ascii ch then single word_byte ch else uni_word ch.
Definition perl_has (k : perl) (ch : string) : bool :=
  match k with
  | PDigit => if is_ascii ch then single is_ascii_digit ch else uni_digit ch
  | PSpace => is_whitespace ch
  | PWord => is_word ch
  end.
Definition item_has (i : class_item) (ch : string) : bool :=
  match i with
  | IChar x => String.eqb x ch
  | IRange lo hi => single (fun c => (bval lo <=? bval c)%N && (bval c <=? bval hi)%N) ch
  | IPerl neg k => xorb neg (perl_has k ch)
  end.
(** With [case_insensitive], a class also has the other case of an ASCII letter. *)
Definition set_has (ci neg : bool) (items : list class_item) (ch : string) : bool :=
  xorb neg (existsb (fun i => item_has i ch ||
    ci && (item_has i (smap lower_byte ch) || item_has i (smap upper_byte ch))) items).

Definition word_at (s : list string) : bool :=
  match s with ch :: _ => is_word ch | [] => false end.
(** Between the text read so far, last character first, and the text to come. *)
Definition boundary (l r : list string) : bool := xorb (word_at l) (word_at r).

(** ** What a pattern matches

    [re_in ci e l w r]: after [l] (last character first) and before [r], the
    characters [w] match [e]. *)
Inductive re_in (ci : bool) : re -> list string -> list string -> list string -> Prop :=
| in_empty l r : re_in ci REmpty l [] r
| in_class neg items ch l r : set_has ci neg items ch = true -> re_in ci (RSet neg items) l [ch] r
| in_cat a b l w1 w2 r :
    re_in ci a l w1 (w2 ++ r) -> re_in ci b (rev w1 ++ l) w2 r -> re_in ci (RCat a b) l (w1 ++ w2) r
| in_alt_l a b l w r : re_in ci a l w r -> re_in ci (RAlt a b) l w r
| in_alt_r a b l w r : re_in ci b l w r -> re_in ci (RAlt a b) l w r
| in_rep_end e mx g l r : re_in ci (RRep e 0 mx g) l [] r
| in_rep_more e m mx g l w1 w2 r :
    mx <> Some 0 -> re_in ci e l w1 (w2 ++ r) ->
    re_in ci (RRep e (pred m) (option_map pred mx) g) (rev w1 ++ l) w2 r ->
    re_in ci (RRep e m mx g) l (w1 ++ w2) r
| in_wordb neg l r : xorb neg (boundary l r) = true -> re_in ci (RWordB neg) l [] r
| in_start r : re_in ci RStart [] [] r
| in_end l : re_in ci REnd l [] [].
End Meaning.

(** ** Reading a pattern

    A recursive-descent parser over the pattern's characters.  A character costs
    at most one call of each of the three functions below, so the fuel is three
    times their number and the three calls that find the end. *)

Definition lit (ch : string) : re := RSet false [IChar ch].
Definition perl_of (ch : string) : option (bool * perl) :=
  if String.eqb ch "d" then Some (false, PDigit) else if String.eqb ch "D" then Some (true, PDigit)
  else if String.eqb ch "s" then Some (false, PSpace) else if String.eqb ch "S" then Some (true, PSpace)
  else if String.eqb ch "w" then Some (false, PWord) else if String.eqb ch "W" then Some (true, PWord)
  else None.
(** Escaped punctuation stands for itself; letters only where they are known. *)
Definition escape_of (ch : string) : option string :=
  if String.eqb ch "n" then Some (one nl) else if String.eqb ch "t" then Some (one tab)
  else if String.eqb ch "r" then Some (one cr)
  else if single is_ascii_alphanumeric ch then None else Some ch.

(** One element of a class: a character, escaped or not, or a Perl class. *)
Definition class_atom (p : list string) : option (class_item * list string) :=
  match p with
  | "\" :: ch :: p' =>
      match perl_of ch with
      | Some (neg, k) => Some (IPerl neg k, p')
      | None => (fun c => (IChar c, p')) <$> escape_of ch
      end
  | ch :: p' => Some (IChar ch, p')
  | [] => None
  end.
Fixpoint class_items (fuel : nat) (first : bool) (p : list string) : option (list class_item * list string) :=
  match fuel with
  | O => None
  | S fuel' =>
      match p with
      | "]" :: p' => if first then None else Some ([], p')
      | "[" :: _ | "&" :: "&" :: _ => None
      | _ =>
          match class_atom p with
          | Some (IChar lo, "-" :: p') =>
              match p' with
              | "]" :: _ => '(l, q) ← class_items fuel' false p'; Some (IChar lo :: IChar "-" :: l, q)
              | _ =>
                  match lo, class_atom p' with
                  | String a "", Some (IChar (String b ""), p'') =>
                      if (bval a <=? bval b)%N
                      then '(l, q) ← class_items fuel' false p''; Some (IRange a b :: l, q) else None
                  | _, _ => None
                  end
              end
          | Some (i, p') => '(l, q) ← class_items fuel' false p'; Some (i :: l, q)
          | None => None
          end
      end
  end.

(** Decimal digits, and the bounds of [{m}], [{m,}] and [{m,n}]. *)
Fixpoint read_nat (acc : option nat) (p : list string) : option nat * list string :=
  match p with
  | String c "" :: p' =>
      if is_ascii_digit c
      then read_nat (Some (10 * default 0 acc + N.to_nat (bval c - 48))) p' else (acc, p)
  | _ => (acc, p)
  end.
Definition read_bounds (p : list string) : option (nat * option nat * list string) :=
  match read_nat None p with
  | (Some m, "}" :: p') => Some (m, Some m, p')
  | (Some m, "," :: p') =>
      match read_nat None p' with
      | (None, "}" :: p'') => Some (m, None, p'')
      | (Some n, "}" :: p'') => if (m <=? n)%nat then Some (m, Some n, p'') else None
      | _ => None
      end
  | _ => None
  end.
Definition repeated (e : re) (mmx : nat * option nat) (p : list string) : re * list string :=
  match p with
  | "?" :: p' => (RRep e mmx.1 mmx.2 false, p')
  | _ => (RRep e mmx.1 mmx.2 true, p)
  end.
(** The repetition operators after an atom. *)
Fixpoint postfix (fuel : nat) (e : re) (p : list string) : option (re * list string) :=
  match fuel with
  | O => None
  | S fuel' =>
      let again mmx q := let '(e', q') := repeated e mmx q in postfix fuel' e' q' in
      match p with
      | "*" :: p' => again (0, None) p'
      | "+" :: p' => again (1, None) p'
      | "?" :: p' => again (0, Some 1) p'
      | "{" :: p' => '(mmx, q) ← read_bounds p'; again mmx q
      | _ => Some (e, p)
      end
  end.

(** Alternatives up to a closing parenthesis or the end. *)
Fixpoint alternatives (fuel : nat) (p : list string) : option (re * list string) :=
  match fuel with
  | O => None
  | S fuel' =>
      '(e, q) ← sequence fuel' p;
      match q with
      | "|" :: q' => '(e', q'') ← alternatives fuel' q'; Some (RAlt e e', q'')
      | _ => Some (e, q)
      end
  end
with sequence (fuel : nat) (p : list string) : option (re * list string) :=
  match fuel with
  | O => None
  | S fuel' =>
      match p with
      | [] | "|" :: _ | ")" :: _ => Some (REmpty, p)
      | _ =>
          '(e, q) ← atom fuel' p;
          '(e', q') ← postfix fuel' e q;
          '(rest, q'') ← sequence fuel' q';
          Some (match rest with REmpty => e' | _ => RCat e' rest end, q'')
      end
  end
with atom (fuel : nat) (p : list string) : option (re * list string) :=
  match fuel with
  | O => None
  | S fuel' =>
      let group q :=
        '(e, q') ← alternatives fuel' q; match q' with ")" :: q'' => Some (e, q'') | _ => None end in
      match p with
      | "(" :: "?" :: ":" :: p' => group p'
      | "(" :: "?" :: _ => None
      | "(" :: p' => group p'
      | "[" :: "^" :: p' => '(items, q) ← class_items fuel' true p'; Some (RSet true items, q)
      | "[" :: p' => '(items, q) ← class_items fuel' true p'; Some (RSet false items, q)
      | "." :: p' => Some (RSet true [IChar (one nl)], p')
      | "^" :: p' => Some (RStart, p')
      | "$" :: p' => Some (REnd, p')
      | "\" :: "b" :: p' => Some (RWordB false, p')
      | "\" :: "B" :: p' => Some (RWordB true, p')
      | "\" :: ch :: p' =>
          match perl_of ch with
          | Some (neg, k) => Some (RSet neg [IPerl false k], p')
          | None => (fun c => (lit c, p')) <$> escape_of ch
          end
      | "*" :: _ | "+" :: _ | "?" :: _ | "{" :: _ | ["\"] => None
      | ch :: p' => Some (lit ch, p')
      | [] => None
      end
  end.
Definition parse_re (pattern : string) : option re :=
  let p := chars pattern in
  match alternatives (3 * length p + 3) p with Some (e, []) => Some e | _ => None end.

(** ** What an engine promises of such a pattern

    Built without [case_insensitive], as the redactor's rules are: the ranges
    of [find_iter] are matches, and there is one when the pattern matches
    anywhere. *)

Definition occurs `{PerlTables} (ci : bool) (e : re) (s : string) (a b : nat) : Prop :=
  exists l w r, chars s = l ++ w ++ r /\ re_in ci e (rev l) w r /\
    a = String.length (sconcat l) /\ b = a + String.length (sconcat w).

Class RegexMeaning `{RegexEngine} `{PerlTables} := {
  found_occurs p e r s a b :
    parse_re p = Some e -> regex_build false p = Ok r -> is_utf8 s = true ->
    In (a, b) (find_iter r s) -> occurs false e s a b;
  occurs_found p e r s a b :
    parse_re p = Some e -> regex_build false p = Ok r -> is_utf8 s = true ->
    occurs false e s a b -> find_iter r s <> [];
}.

(** ** Facts read off a pattern *)

Section Facts.
Context `{PerlTables}.

(** Can the pattern's text hold the character [c]? *)
Fixpoint mentions (c : string) (e : re) : bool :=
  match e with
  | RSet neg items => set_has false neg items c
  | RCat a b | RAlt a b => mentions c a || mentions c b
  | RRep e _ _ _ => mentions c e
  | _ => false
  end.

(** The least length of a match written with the characters of [A], if any. *)
Definition join_min (a b : option nat) : option nat :=
  match a, b with Some x, Some y => Some (x `min` y) | Some x, None | None, Some x => Some x | None, None => None end.
Fixpoint min_len (A : list string) (e : re) : option nat :=
  match e with
  | RSet neg items => if existsb (set_has false neg items) A then Some 1 else None
  | RCat a b => x ← min_len A a; y ← min_len A b; Some (x + y)
  | RAlt a b => join_min (min_len A a) (min_len A b)
  | RRep e m _ _ => if (m =? 0)%nat then Some 0 else x ← min_len A e; Some (m * x)
  | _ => Some 0
  end.

(** Does it begin, and does it end, with a word boundary? *)
Definition starts_at_word (e : re) : bool := match e with RCat (RWordB false) _ => true | _ => false end.
Fixpoint ends_at_word (e : re) : bool :=
  match e with RCat _ b => ends_at_word b | RWordB false => true | _ => false end.

Lemma re_in_mentions e l w r c : re_in false e l w r -> In c w -> mentions c e = true.
Proof.
  induction 1 as [|neg items ch l r Hs|a b l w1 w2 r H1 IH1 H2 IH2|a b l w r H1 IH|a b l w r H1 IH
    |e mx g l r|e m mx g l w1 w2 r Hmx H1 IH1 H2 IH2|neg l r Hb|r|l]; simpl; try done.
  - by intros [<-|[]].
  - intros [Hc|Hc]%in_app_iff; apply orb_true_iff; auto.
  - intros Hc. apply orb_true_iff. auto.
  - intros Hc. apply orb_true_iff. auto.
  - intros [Hc|Hc]%in_app_iff; auto.
Qed.

Lemma min_len_sound A e l w r :
  re_in false e l w r -> Forall (fun c => In c A) w -> exists n, min_len A e = Some n /\ n <= length w.
Proof.
  induction 1 as [|neg items ch l r Hs|a b l w1 w2 r H1 IH1 H2 IH2|a b l w r H1 IH|a b l w r H1 IH
    |e mx g l r|e m mx g l w1 w2 r Hmx H1 IH1 H2 IH2|neg l r Hb|r|l]; intros HA; simpl; eauto.
  - rewrite Forall_singleton in HA. exists 1. split; [|done].
    destruct (existsb _ A) eqn:E; [done|]. rewrite existsb_false_iff in E. by rewrite (E _ HA) in Hs.
  - apply Forall_app in HA as [HA1 HA2]. destruct (IH1 HA1) as (x & -> & ?), (IH2 HA2) as (y & -> & ?).
    simpl. eexists. split; [done|]. rewrite length_app. lia.
  - destruct (IH HA) as (x & -> & ?). destruct (min_len A b) as [y|]; simpl; eexists; (split; [done|lia]).
  - destruct (IH HA) as (x & -> & ?). destruct (min_len A a) as [y|]; simpl; eexists; (split; [done|lia]).
  - apply Forall_app in HA as [HA1 HA2]. destruct (IH1 HA1) as (x & Hx & ?), (IH2 HA2) as (y & Hy & ?).
    cbn [min_len] in Hy. rewrite Hx in *. destruct m as [|m]; [exists 0; split; [done|lia]|]. cbn [Nat.eqb pred] in *. simpl.
    eexists. split; [done|]. rewrite length_app.
    destruct m as [|m]; simpl in *; simplify_eq; lia.
Qed.

Lemma re_in_starts e l w r : re_in false e l w r -> starts_at_word e = true -> boundary l (w ++ r) = true.
Proof.
  destruct e as [| |a b| | | | |]; try done. destruct a; try done. destruct neg; [done|]. intros Hin _.
  inversion Hin as [| |? ? ? w1 w2 ? H1 H2| | | | | | |]; subst.
  inversion H1 as [| | | | | | |? ? ? Hb| |]; subst. simpl in *. by destruct (boundary _ _).
Qed.

Lemma re_in_ends e l w r : re_in false e l w r -> ends_at_word e = true -> boundary (rev w ++ l) r = true.
Proof.
  induction 1 as [|neg items ch l r Hs|a b l w1 w2 r H1 IH1 H2 IH2|a b l w r H1 IH|a b l w r H1 IH
    |e mx g l r|e m mx g l w1 w2 r Hmx H1 IH1 H2 IH2|neg l r Hb|r|l]; simpl; try done.
  - intros He. specialize (IH2 He). by rewrite rev_app_distr, <-app_assoc.
  - destruct neg; [done|]. intros _. simpl in Hb. by destruct (boundary l r).
Qed.

(** A pattern without anchors sees of its surroundings only whether a word
    character touches the match. *)
Fixpoint anchored (e : re) : bool :=
  match e with
  | RStart | REnd => true
  | RCat a b | RAlt a b => anchored a || anchored b
  | RRep e _ _ _ => anchored e
  | _ => false
  end.

Lemma word_at_app w r r' : word_at r = word_at r' -> word_at (w ++ r) = word_at (w ++ r').
Proof. by destruct w. Qed.

Lemma re_in_context ci e l w r l' r' :
  re_in ci e l w r -> anchored e = false -> word_at l = word_at l' -> word_at r = word_at r' ->
  re_in ci e l' w r'.
Proof.
  intros Hin. revert l' r'.
  induction Hin as [|neg items ch l r Hs|a b l w1 w2 r H1 IH1 H2 IH2|a b l w r H1 IH|a b l w r H1 IH
    |e mx g l r|e m mx g l w1 w2 r Hmx H1 IH1 H2 IH2|neg l r Hb|r|l]; intros l' r' Ha Hl Hr; simpl in Ha; bool_to_prop.
  - constructor.
  - by constructor.
  - constructor; [apply IH1|apply IH2]; auto using word_at_app.
  - apply in_alt_l. auto.
  - apply in_alt_r. auto.
  - constructor.
  - apply in_rep_more; [done|apply IH1|apply IH2]; auto using word_at_app.
  - constructor. unfold boundary in *. by rewrite <-Hl, <-Hr.
  - done.
  - done.
Qed.

(** It occurs in a text that joins others with blanks if it occurs in one of them. *)
Lemma occurs_in ci e s x y a b :
  occurs ci e s a b -> anchored e = false -> is_utf8 x = true -> is_utf8 s = true ->
  word_at (rev (chars x)) = false -> word_at (chars y) = false ->
  exists a' b', occurs ci e (x +:+ s +:+ y) a' b'.
Proof.
  intros (l & w & r & Hc & Hin & _ & _) Ha Hux Hus Hx Hy. eexists _, _, (chars x ++ l), w, (r ++ chars y).
  split_and!; [| |reflexivity|reflexivity].
  - rewrite !chars_app by done. by rewrite Hc, <-!app_assoc.
  - eapply re_in_context; [exact Hin|done|..].
    + rewrite rev_app_distr. destruct (rev l); [by symmetry|done].
    + destruct r; [by symmetry|done].
Qed.
End Facts.
