(* ===== verification/RegexRef.v ===== *)
(** * A backtracking regex engine

    An instance of [RegexEngine] for the patterns of [RegexSyntax]: matches are
    tried in the order of preference the crate documents (the leftmost start;
    there, the first alternative first and greedy repetitions longest first).
    It satisfies [RegexLaws] and [RegexMeaning], so theorems that assume an
    engine with these laws are about something, and the built-in recognizers
    can be run. *)

From S2P Require Import Prelude RustStr Regex RegexSyntax.

Section Engine.
Context `{PerlTables}.

(** A place in the text: what was read, last character first, and the rest. *)
Definition place : Type := list string * list string.

(** The ends of a repetition of a body [one_more], at least [m] and at most
    [mx] times, in order of preference; an iteration beyond [m] must consume. *)
Fixpoint rep_ends (one_more : place -> list place) (greedy : bool) (fuel m : nat) (mx : option nat)
    (p : place) : list place :=
  match fuel with
  | O => []
  | S fuel' =>
      let more :=
        match mx with
        | Some 0 => []
        | _ => concat (map (fun q =>
                 if (0 <? m)%nat || (length q.2 <? length p.2)%nat
                 then rep_ends one_more greedy fuel' (pred m) (option_map pred mx) q else [])
               (one_more p))
        end in
      if (0 <? m)%nat then more else if greedy then more ++ [p] else p :: more
  end.

Fixpoint ends (ci : bool) (e : re) (p : place) : list place :=
  match e with
  | REmpty => [p]
  | RSet neg items =>
      match p.2 with
      | ch :: r => if set_has ci neg items ch then [(ch :: p.1, r)] else []
      | [] => []
      end
  | RCat a b => concat (map (ends ci b) (ends ci a p))
  | RAlt a b => ends ci a p ++ ends ci b p
  | RRep e m mx greedy => rep_ends (ends ci e) greedy (S (m + length p.2)) m mx p
  | RWordB neg => if xorb neg (boundary p.1 p.2) then [p] else []
  | RStart => match p.1 with [] => [p] | _ => [] end
  | REnd => match p.2 with [] => [p] | _ => [] end
  end.

(** [find_iter]: from left to right; [skip] characters belong to the last
    match, and [fresh] says that no match ended right here. *)
Fixpoint find_go (ci : bool) (e : re) (skip : nat) (fresh : bool) (at_ : nat) (l r : list string)
    : list (nat * nat) :=
  let go skip fresh :=
    match r with
    | [] => []
    | ch :: r' => find_go ci e skip fresh (at_ + String.length ch) (ch :: l) r'
    end in
  match skip with
  | S k => go k false
  | O =>
      match ends ci e (l, r) with
      | [] => go 0 true
      | (_, r') :: _ =>
          let n := length r - length r' in
          let stop := at_ + String.length (sconcat (take n r)) in
          match n with
          | O => if fresh then (at_, at_) :: go 0 true else go 0 true
          | S k => (at_, stop) :: go k false
          end
      end
  end.
Definition re_iter (ci : bool) (e : re) (s : string) : list (nat * nat) := find_go ci e 0 true 0 [] (chars s).

(** ** The ends are the matches *)

Definition sound_at (ci : bool) (e : re) (p q : place) : Prop :=
  exists w, p.2 = w ++ q.2 /\ q.1 = rev w ++ p.1 /\ re_in ci e p.1 w q.2.

Lemma in_concat_map {A B} (f : A -> list B) (l : list A) (y : B) :
  In y (concat (map f l)) <-> exists x, In x l /\ In y (f x).
Proof.
  rewrite in_concat. split.
  - intros (ys & Hys & Hy). apply in_map_iff in Hys as (x & <- & Hx). eauto.
  - intros (x & Hx & Hy). exists (f x). split; [by apply in_map|done].
Qed.

(** One round of a repetition: stop, or take one more iteration. *)
Lemma rep_ends_round one_more g fuel m mx p q :
  In q (rep_ends one_more g (S fuel) m mx p) <->
  m = 0 /\ q = p \/
  mx <> Some 0 /\ exists x, In x (one_more p) /\ (0 < m \/ length x.2 < length p.2) /\
    In q (rep_ends one_more g fuel (pred m) (option_map pred mx) x).
Proof.
  cbn [rep_ends]. set (more := match mx with Some 0 => [] | _ => _ end).
  assert (Hmore : In q more <-> mx <> Some 0 /\ exists x, In x (one_more p) /\ (0 < m \/ length x.2 < length p.2) /\
    In q (rep_ends one_more g fuel (pred m) (option_map pred mx) x)).
  { unfold more. destruct mx as [[|k]|]; [naive_solver|..]; rewrite in_concat_map; (split;
      [intros (x & Hx & Hq); split; [done|]; exists x|intros (_ & x & Hx & Hc & Hq); exists x]); split; try done.
    1, 3: destruct ((0 <? m)%nat || _) eqn:E; [|done];
      apply orb_true_iff in E; rewrite !Nat.ltb_lt in E; done.
    all: assert ((0 <? m)%nat || (length x.2 <? length p.2)%nat = true) as ->; [|done];
      apply orb_true_iff; rewrite !Nat.ltb_lt; done. }
  rewrite <-Hmore. clearbody more. destruct m as [|m]; simpl; [|intuition lia].
  destruct g; rewrite ?in_app_iff; simpl; intuition congruence.
Qed.

Lemma rep_ends_sound ci e g :
  (forall p q, In q (ends ci e p) -> sound_at ci e p q) ->
  forall fuel m mx p q, In q (rep_ends (ends ci e) g fuel m mx p) -> sound_at ci (RRep e m mx g) p q.
Proof.
  intros He. induction fuel as [|fuel IH]; intros m mx p q; [done|].
  intros [[-> ->]|(Hmx & x & Hx & _ & Hq)]%rep_ends_round.
  { exists []. split_and!; [done..|constructor]. }
  destruct (He _ _ Hx) as (w1 & E1 & E2 & H1). destruct (IH _ _ _ _ Hq) as (w2 & E3 & E4 & H2).
  exists (w1 ++ w2). rewrite E1, E3, E4, E2, rev_app_distr, <-!app_assoc. split_and!; [done..|].
  apply in_rep_more; [done| |by rewrite <-E2]. by rewrite <-E3.
Qed.

Lemma ends_sound ci e p q : In q (ends ci e p) -> sound_at ci e p q.
Proof.
  revert p q. induction e; intros [l r] q; cbn [ends fst snd].
  - intros [<-|[]]. exists []. split_and!; [done..|constructor].
  - destruct r as [|ch r]; [done|]. destruct (set_has ci neg items ch) eqn:E; [|done].
    intros [<-|[]]. exists [ch]. split_and!; [done..|by constructor].
  - intros (x & Hx & Hq)%in_concat_map.
    destruct (IHe1 _ _ Hx) as (w1 & E1 & E2 & H1). destruct (IHe2 _ _ Hq) as (w2 & E3 & E4 & H2).
    simpl in *. exists (w1 ++ w2). simpl. rewrite E1, E3, E4, E2, rev_app_distr, <-!app_assoc.
    split_and!; [done..|]. constructor; [by rewrite <-E3|by rewrite <-E2].
  - intros [Hq|Hq]%in_app_iff; [destruct (IHe1 _ _ Hq) as (w & E1 & E2 & H1)|destruct (IHe2 _ _ Hq) as (w & E1 & E2 & H1)];
      exists w; split_and!; [done|done|by constructor|done|done|by apply in_alt_r].
  - apply (rep_ends_sound ci e greedy IHe).
  - destruct (xorb _ _) eqn:E; [|done]. intros [<-|[]]. exists []. split_and!; [done..|by constructor].
  - destruct l; [|done]. intros [<-|[]]. exists []. split_and!; [done..|constructor].
  - destruct r; [|done]. intros [<-|[]]. exists []. split_and!; [done..|constructor].
Qed.

(** More fuel and a higher maximum only add ends. *)
Definition max_le (a b : option nat) : Prop :=
  match a, b with _, None => True | Some k, Some n => k <= n | None, Some _ => False end.
Lemma rep_ends_mono one_more g fuel fuel' m a b p q :
  fuel <= fuel' -> max_le a b ->
  In q (rep_ends one_more g fuel m a p) -> In q (rep_ends one_more g fuel' m b p).
Proof.
  revert fuel' m a b p. induction fuel as [|fuel IH]; intros [|fuel'] m a b p Hf Hab; [done..|lia|].
  rewrite !rep_ends_round. intros [?|(Ha & x & Hx & Hc & Hq)]; [by left|right]. split.
  - intros ->. destruct a as [[|k]|]; simpl in Hab; [done|lia|done].
  - exists x. split_and!; [done..|]. eapply IH; [lia| |exact Hq].
    destruct a as [[|k]|], b as [[|n]|]; simpl in *; try done; lia.
Qed.

Lemma ends_complete ci e l w r : re_in ci e l w r -> In (rev w ++ l, r) (ends ci e (l, w ++ r)).
Proof.
  induction 1 as [|neg items ch l r Hs|a b l w1 w2 r H1 IH1 H2 IH2|a b l w r H1 IH|a b l w r H1 IH
    |e mx g l r|e m mx g l w1 w2 r Hmx H1 IH1 H2 IH2|neg l r Hb|r|l];
    cbn [ends fst snd app rev]; rewrite ?app_nil_r.
  - by left.
  - rewrite Hs. by left.
  - apply in_concat_map. exists (rev w1 ++ l, w2 ++ r). rewrite <-app_assoc. split; [done|].
    by rewrite rev_app_distr, <-app_assoc.
  - apply in_app_iff. by left.
  - apply in_app_iff. by right.
  - apply rep_ends_round. by left.
  - rewrite rev_app_distr, <-!app_assoc. cbn [ends fst snd] in IH2.
    destruct (decide (m = 0 /\ w1 = [])) as [[-> ->]|Hne].
    { cbn [app rev] in *. eapply rep_ends_mono; [..|exact IH2]; [done|].
      destruct mx as [[|k]|]; simpl; [done|lia|done]. }
    assert (m <> 0 \/ length w1 <> 0) by (destruct w1; naive_solver lia).
    apply rep_ends_round. right. split; [done|]. exists (rev w1 ++ l, w2 ++ r). rewrite !length_app. cbn [snd].
    rewrite !length_app. split_and!; [done|lia|].
    eapply rep_ends_mono; [..|exact IH2]; [rewrite !length_app; lia|]. destruct mx as [[|k]|]; simpl; lia.
  - rewrite Hb. by left.
  - by left.
  - by left.
Qed.
(** ** The search *)

(** One round of the search: what it yields here, and where it goes on. *)
Lemma find_go_unfold ci e skip fresh at_ l r :
  exists here skip' fresh',
    find_go ci e skip fresh at_ l r =
      here ++ match r with
              | [] => []
              | ch :: r' => find_go ci e skip' fresh' (at_ + String.length ch) (ch :: l) r'
              end /\
    (here = [] /\ skip' = pred skip /\ (skip = 0 -> fresh' = true /\ (fresh = true -> ends ci e (l, r) = []))
     \/ exists w y, r = w ++ y /\ re_in ci e l w y /\ skip = 0 /\ skip' = pred (length w) /\
       here = [(at_, at_ + String.length (sconcat w))]).
Proof.
  destruct r as [|ch r]; cbn [find_go].
  all: destruct skip as [|k]; [|eexists [], k, false; split; [done|left; split_and!; [done|done|lia]]].
  all: match goal with |- context [ends ?ci ?e ?p] => destruct (ends ci e p) as [|[l' y] qs] eqn:E;
         [eexists [], 0, true; split; [done|by left]|];
         destruct (ends_sound ci e p (l', y)) as (w & Ew & _ & Hw); [rewrite E; by left|] end.
  all: cbn [fst snd] in Ew, Hw; rewrite Ew in *.
  all: replace (length (w ++ y) - length y) with (length w) by (rewrite length_app; lia);
       rewrite take_app_length; destruct w as [|c w]; cbn [length sconcat foldr].
  all: rewrite ?Nat.add_0_r; try (destruct fresh; [|eexists [], 0, true; split; [done|left; by split_and!]]).
  1, 3: eexists [_], 0, true; (split; [reflexivity|right]); by exists [], y; rewrite Nat.add_0_r.
  all: eexists [_], (length w), false; (split; [reflexivity|right]); by exists (c :: w), y.
Qed.

Lemma find_go_spans ci e skip fresh at_ l r :
  spans_ok (at_ + String.length (sconcat (take skip r))) (at_ + String.length (sconcat r))
    (find_go ci e skip fresh at_ l r).
Proof.
  revert skip fresh at_ l. induction r as [|ch r IH]; intros skip fresh at_ l.
  - destruct (find_go_unfold ci e skip fresh at_ l []) as (here & skip' & fresh' & -> & [(-> & _)|(w & y & E & _ & -> & _ & ->)]);
      [done|]. apply eq_sym, app_nil in E as [-> ->]. simpl. lia.
  - destruct (find_go_unfold ci e skip fresh at_ l (ch :: r)) as (here & skip' & fresh' & -> & Hh).
    specialize (IH skip' fresh' (at_ + String.length ch) (ch :: l)).
    rewrite sconcat_cons, slen_app, Nat.add_assoc.
    destruct Hh as [(-> & -> & _)|(w & y & E & _ & -> & -> & ->)].
    + simpl. eapply spans_ok_weaken; [|exact IH]. destruct skip; simpl; rewrite ?slen_app; lia.
    + assert (String.length (sconcat w) <= String.length ch + String.length (sconcat r)).
      { apply (f_equal (fun x => String.length (sconcat x))) in E. rewrite sconcat_cons, sconcat_app, !slen_app in E. lia. }
      cbn [app spans_ok take sconcat foldr String.length]. rewrite Nat.add_0_r. split_and!; [lia..|].
      eapply spans_ok_weaken; [|exact IH]. destruct w as [|c w]; simpl; [lia|].
      injection E as -> ->. rewrite take_app_length, slen_app. lia.
Qed.

Lemma find_go_occurs ci e skip fresh at_ l r a b :
  In (a, b) (find_go ci e skip fresh at_ l r) ->
  exists x w y, r = x ++ w ++ y /\ re_in ci e (rev x ++ l) w y /\
    a = at_ + String.length (sconcat x) /\ b = a + String.length (sconcat w).
Proof.
  revert skip fresh at_ l. induction r as [|ch r IH]; intros skip fresh at_ l;
    match goal with |- In _ (find_go _ _ _ _ _ _ ?r) -> _ =>
      destruct (find_go_unfold ci e skip fresh at_ l r) as (here & skip' & fresh' & -> & Hh) end;
    rewrite in_app_iff; intros [Hin|Hin]; try done.
  1, 2: destruct Hh as [(-> & _)|(w & y & E & Hw & _ & _ & ->)]; [done|];
    destruct Hin as [[= <- <-]|[]]; exists [], w, y; simpl; split_and!; [done..|lia|done].
  destruct (IH _ _ _ _ Hin) as (x & w & y & -> & Hw & -> & ->).
  exists (ch :: x), w, y. rewrite sconcat_cons, slen_app. simpl. rewrite <-app_assoc. split_and!; [done..|lia|done].
Qed.

Lemma find_go_complete ci e at_ l x w y :
  re_in ci e (rev x ++ l) w y -> find_go ci e 0 true at_ l (x ++ w ++ y) <> [].
Proof.
  revert at_ l. induction x as [|ch x IH]; intros at_ l Hw;
    match goal with |- find_go _ _ _ _ _ _ ?r <> _ =>
      destruct (find_go_unfold ci e 0 true at_ l r) as (here & skip' & fresh' & -> & Hh) end;
    (destruct Hh as [(-> & -> & Hf)|(? & ? & _ & _ & _ & _ & ->)]; [|done]);
    destruct (Hf eq_refl) as [-> He]; specialize (He eq_refl).
  - apply ends_complete in Hw. simpl in *. by rewrite He in Hw.
  - cbn [app]. apply IH. simpl in Hw. by rewrite <-app_assoc in Hw.
Qed.
End Engine.

(** ** The instance *)

(** Unicode's digits and word characters beyond ASCII: a table with a few
    letters, enough for the runs. *)
#[export] Instance ref_tables : PerlTables := {|
  uni_digit _ := false;
  uni_word ch := existsb (String.eqb ch) [bytes [195; 169]; bytes [195; 188]; bytes [195; 159]]%N;
|}.

#[export] Instance ref_engine : RegexEngine := {|
  regex := bool * re;
  regex_build ci p := match parse_re p with Some e => Ok (ci, e) | None => Err "regex parse error" end;
  is_match r s := match re_iter r.1 r.2 s with [] => false | _ => true end;
  find_iter r s := re_iter r.1 r.2 s;
  replace_all r s rep := splice_const rep (re_iter r.1 r.2 s) s;
|}.

Lemma ref_laws : RegexLaws.
Proof.
  split; simpl.
  - intros [ci e] s. pose proof (find_go_spans ci e 0 true 0 [] (chars s)) as Hs.
    by rewrite sconcat_chars in Hs.
  - intros [ci e] s. destruct (re_iter _ _ _); split; congruence.
  - intros [ci e] s rep ->. done.
  - done.
Qed.

Lemma ref_meaning : RegexMeaning.
Proof.
  split; cbn [regex_build find_iter ref_engine]; intros p e r s a b Hp; rewrite Hp; intros [= <-] _.
  - intros (x & w & y & Hs & Hw & -> & ->)%find_go_occurs. exists x, w, y. rewrite app_nil_r in Hw. by split_and!.
  - intros (x & w & y & Hs & Hw & -> & ->). unfold re_iter. cbn [fst snd]. rewrite Hs.
    apply find_go_complete. by rewrite app_nil_r.
Qed.
