(* ===== verification/JsonText.v ===== *)
(** * JSON texts

    A reader and a compact writer of JSON as the [serde_json] crate documents
    them, for values without fractions: instances of [Serde] and [SerdeStruct]
    that let the runs start from the texts a client or a backend sends.  What is
    written is read back ([json_read_write]); a line of a log holds no line
    break ([ref_struct_laws]).  A validator for the keywords [type], [required]
    and [properties] is the instance of [JsonSchema]. *)

From S2P Require Import Prelude RustStr RustNet Json Vault ClientAuth AuditTrail.

(** ** Writing *)

Definition dquote : ascii := byte 34.
Definition backslash : ascii := byte 92.
Definition escape_byte (c : ascii) : string :=
  let n := bval c in
  if (n =? 34)%N then bytes [92; 34]%N else if (n =? 92)%N then bytes [92; 92]%N
  else if (n =? 8)%N then "\b" else if (n =? 9)%N then "\t" else if (n =? 10)%N then "\n"
  else if (n =? 12)%N then "\f" else if (n =? 13)%N then "\r"
  else if (n <? 32)%N then "\u00" +:+ one (hex_digit (n / 16)) +:+ one (hex_digit (n mod 16))
  else one c.
Fixpoint escape (s : string) : string :=
  match s with "" => "" | String c s' => escape_byte c +:+ escape s' end.
Definition write_str (s : string) : string := String dquote (escape s +:+ one dquote).
Definition write_num (n : number) : string :=
  match n with PosInt z | NegInt z => show_Z z | Float _ => "null" end.
Fixpoint write_json (v : value) : string :=
  match v with
  | Null => "null"
  | Bool true => "true"
  | Bool false => "false"
  | Num n => write_num n
  | Str s => write_str s
  | Arr l =>
      "[" +:+ (match l with
               | [] => ""
               | x :: l' => write_json x +:+
                   (fix go l := match l with [] => "" | x :: l' => "," +:+ write_json x +:+ go l' end) l'
               end) +:+ "]"
  | Obj m =>
      "{" +:+ (match m with
               | [] => ""
               | (k, x) :: m' => write_str k +:+ ":" +:+ write_json x +:+
                   (fix go m := match m with
                                | [] => ""
                                | (k, x) :: m' => "," +:+ write_str k +:+ ":" +:+ write_json x +:+ go m'
                                end) m'
               end) +:+ "}"
  end.

(** ** Reading *)

Fixpoint skip_ws (s : string) : string :=
  match s with
  | String c s' =>
      if Ascii.eqb c " " || Ascii.eqb c tab || Ascii.eqb c nl || Ascii.eqb c cr then skip_ws s' else s
  | "" => ""
  end.
Definition hex_val (c : ascii) : option N :=
  let n := bval c in
  if is_ascii_digit c then Some (n - 48)%N
  else if (97 <=? n)%N && (n <=? 102)%N then Some (n - 87)%N
  else if (65 <=? n)%N && (n <=? 70)%N then Some (n - 55)%N else None.
Definition read_hex4 (s : string) : option (N * string) :=
  match s with
  | String a (String b (String c (String d s'))) =>
      x ← hex_val a; y ← hex_val b; z ← hex_val c; w ← hex_val d;
      Some (x * 4096 + y * 256 + z * 16 + w, s')%N
  | _ => None
  end.
Definition encode_utf8 (n : N) : string :=
  if (n <? 128)%N then bytes [n]
  else if (n <? 2048)%N then bytes [192 + n / 64; 128 + n mod 64]%N
  else if (n <? 65536)%N then bytes [224 + n / 4096; 128 + n / 64 mod 64; 128 + n mod 64]%N
  else bytes [240 + n / 262144; 128 + n / 4096 mod 64; 128 + n / 64 mod 64; 128 + n mod 64]%N.
(** After the backslash: the characters it stands for and the rest. *)
Definition read_escape (s : string) : option (string * string) :=
  match s with
  | String c s' =>
      let n := bval c in
      if (n =? 34)%N || (n =? 92)%N || (n =? 47)%N then Some (one c, s')
      else if Ascii.eqb c "b" then Some (bytes [8]%N, s') else if Ascii.eqb c "t" then Some (bytes [9]%N, s')
      else if Ascii.eqb c "n" then Some (bytes [10]%N, s') else if Ascii.eqb c "f" then Some (bytes [12]%N, s')
      else if Ascii.eqb c "r" then Some (bytes [13]%N, s')
      else if Ascii.eqb c "u" then
        '(hi, r) ← read_hex4 s';
        if (55296 <=? hi)%N && (hi <? 56320)%N then
          match r with
          | String b1 (String b2 r') =>
              if (bval b1 =? 92)%N && Ascii.eqb b2 "u" then
                '(lo, r'') ← read_hex4 r';
                if (56320 <=? lo)%N && (lo <? 57344)%N
                then Some (encode_utf8 (65536 + (hi - 55296) * 1024 + (lo - 56320))%N, r'') else None
              else None
          | _ => None
          end
        else if (56320 <=? hi)%N && (hi <? 57344)%N then None else Some (encode_utf8 hi, r)
      else None
  | "" => None
  end.
Fixpoint read_str (fuel : nat) (s : string) : option (string * string) :=
  match fuel, s with
  | S fuel', String c s' =>
      let n := bval c in
      if (n =? 34)%N then Some ("", s')
      else if (n =? 92)%N then
        '(x, r) ← read_escape s'; '(t, r') ← read_str fuel' r; Some (x +:+ t, r')
      else if (n <? 32)%N then None
      else '(t, r) ← read_str fuel' s'; Some (String c t, r)
  | _, _ => None
  end.
Fixpoint span_digits (s : string) : string * string :=
  match s with
  | String c s' => if is_ascii_digit c then let '(d, r) := span_digits s' in (String c d, r) else ("", s)
  | "" => ("", "")
  end.
(** An integer without leading zeros, in the range of [i64] and [u64]. *)
Definition fraction_next (r : string) : bool :=
  match r with String c _ => Ascii.eqb c "." || Ascii.eqb c "e" || Ascii.eqb c "E" | "" => false end.
Definition read_num (s : string) : option (value * string) :=
  let '(neg, s') := match strip_prefix "-" s with Some s' => (true, s') | None => (false, s) end in
  let '(d, r) := span_digits s' in
  if String.eqb d "" || (starts_with "0" d && negb (String.eqb d "0")) || fraction_next r then None
  else match parse_int 0 (if neg then 9223372036854775808 else u64_max)%Z d with
       | Ok z => if neg then if (z =? 0)%Z then None else Some (Num (NegInt (- z)), r) else Some (Num (PosInt z), r)
       | Err _ => None
       end.
Definition read_word (s : string) : option (value * string) :=
  match strip_prefix "null" s with
  | Some r => Some (Null, r)
  | None => match strip_prefix "true" s with
            | Some r => Some (Bool true, r)
            | None => (fun r => (Bool false, r)) <$> strip_prefix "false" s
            end
  end.

(** A value, the items of an array after its bracket, the fields of an object
    after its brace; later fields of one name win. *)
Fixpoint read_value (fuel : nat) (s : string) : option (value * string) :=
  match fuel with
  | O => None
  | S fuel' =>
      match skip_ws s with
      | "" => None
      | String c s' =>
          if Ascii.eqb c dquote then '(x, r) ← read_str (S (String.length s')) s'; Some (Str x, r)
          else if Ascii.eqb c "[" then
            match strip_prefix "]" (skip_ws s') with
            | Some r => Some (Arr [], r)
            | None => '(l, r) ← read_items fuel' s'; Some (Arr l, r)
            end
          else if Ascii.eqb c "{" then
            match strip_prefix "}" (skip_ws s') with
            | Some r => Some (Obj [], r)
            | None => '(m, r) ← read_fields fuel' [] s'; Some (Obj m, r)
            end
          else if is_ascii_digit c || Ascii.eqb c "-" then read_num (String c s')
          else read_word (String c s')
      end
  end
with read_items (fuel : nat) (s : string) : option (list value * string) :=
  match fuel with
  | O => None
  | S fuel' =>
      '(x, r) ← read_value fuel' s;
      match skip_ws r with
      | String c r' =>
          if Ascii.eqb c "," then '(l, r'') ← read_items fuel' r'; Some (x :: l, r'')
          else if Ascii.eqb c "]" then Some ([x], r') else None
      | "" => None
      end
  end
with read_fields (fuel : nat) (m : list (string * value)) (s : string) : option (list (string * value) * string) :=
  match fuel with
  | O => None
  | S fuel' =>
      match skip_ws s with
      | String c s' =>
          if Ascii.eqb c dquote then
            '(k, r) ← read_str (S (String.length s')) s';
            r1 ← strip_prefix ":" (skip_ws r);
            '(x, r2) ← read_value fuel' r1;
            match skip_ws r2 with
            | String c r3 =>
                if Ascii.eqb c "," then read_fields fuel' (map_insert k x m) r3
                else if Ascii.eqb c "}" then Some (map_insert k x m, r3) else None
            | "" => None
            end
          else None
      | "" => None
      end
  end.
Definition read_json (s : string) : result string value :=
  match read_value (2 * String.length s + 2) s with
  | Some (v, r) => if String.eqb (skip_ws r) "" then Ok v else Err "trailing characters"
  | None => Err "expected value"
  end.

#[export] Instance ref_serde : Serde := {| from_str := read_json; to_json := write_json |}.
#[export] Instance ref_struct : SerdeStruct := {|
  struct_to_string fs :=
    Ok ("{" +:+ join "," (map (fun kv => write_str kv.1 +:+ ":" +:+ write_json kv.2) fs) +:+ "}") |}.

(** ** What is written is read back *)

Fixpoint json_wf (v : value) : Prop :=
  match v with
  | Num (PosInt z) => (0 <= z <= u64_max)%Z
  | Num (NegInt z) => (- 9223372036854775808 <= z < 0)%Z
  | Num (Float _) => False
  | Arr l => (fix go l := match l with [] => True | x :: l' => json_wf x /\ go l' end) l
  | Obj m =>
      StronglySorted (fun a b => String.compare b.1 a.1 = Gt) m /\
      (fix go m := match m with [] => True | (_, x) :: m' => json_wf x /\ go m' end) m
  | _ => True
  end.

Lemma json_wf_arr l : json_wf (Arr l) -> Forall json_wf l.
Proof. cbn [json_wf]. induction l as [|x l IH]; [constructor|]. intros [Hx Hl]. by constructor; auto. Qed.
Lemma json_wf_obj m : json_wf (Obj m) ->
  StronglySorted (fun a b => String.compare b.1 a.1 = Gt) m /\ Forall (fun kv => json_wf kv.2) m.
Proof.
  cbn [json_wf]. intros [Hs Hm]. split; [done|]. clear Hs.
  induction m as [|[k x] m IH]; [constructor|]. destruct Hm as [Hx Hm]. by constructor; auto.
Qed.

Lemma read_str_byte fuel c s :
  read_str (S fuel) (escape_byte c +:+ s) = ('(t, r) ← read_str fuel s; Some (String c t, r)).
Proof. destruct c as [[] [] [] [] [] [] [] []]; reflexivity. Qed.

Lemma read_str_escape s r fuel :
  String.length s < fuel -> read_str fuel (escape s +:+ String dquote r) = Some (s, r).
Proof.
  revert fuel. induction s as [|c s IH]; intros [|fuel] Hf; simpl in Hf; try lia; [done|].
  cbn [escape]. rewrite <-sapp_assoc, read_str_byte, IH by lia. done.
Qed.

Lemma escape_length s : String.length s <= String.length (escape s).
Proof.
  induction s as [|c s IH]; [done|]. cbn [escape]. rewrite slen_app. simpl.
  assert (0 < String.length (escape_byte c)); [|lia]. destruct c as [[] [] [] [] [] [] [] []]; simpl; lia.
Qed.

(** A text at whose start a number would end. *)
Definition after_value (r : string) : bool :=
  match r with "" => true | String c _ => Ascii.eqb c "," || Ascii.eqb c "]" || Ascii.eqb c "}" end.

Lemma span_digits_app d r :
  sall is_ascii_digit d = true -> after_value r = true -> span_digits (d +:+ r) = (d, r).
Proof.
  intros Hd Hr. induction d as [|c d IH]; simpl in *.
  - destruct r as [|c r]; [done|]. simpl in *. destruct (is_ascii_digit c) eqn:E; [|done].
    exfalso. destruct (Ascii.eqb_spec c ","), (Ascii.eqb_spec c "]"), (Ascii.eqb_spec c "}"); subst; done.
  - bool_to_prop. rewrite H. by rewrite IH.
Qed.

Lemma pretty_head x s : (0 < x)%N -> exists c t, pretty_N_go x s = String c t /\ c <> "0"%char.
Proof.
  revert s. induction (N.lt_wf_0 x) as [x _ IH]; intros s Hx. rewrite pretty_N_go_step by done.
  destruct (N.eq_dec (x / 10)%N 0%N) as [E|E].
  - rewrite E, pretty_N_go_0. eexists _, s. split; [reflexivity|]. apply N.div_small_iff in E; [|done].
    rewrite N.mod_small by done. destruct x as [|p]; [lia|].
    do 4 (destruct p as [p|p|]; try done; try lia).
  - apply IH; [by apply N.div_lt|by apply N.neq_0_lt_0].
Qed.
Lemma show_Z_head n : (0 < n)%Z -> starts_with "0" (show_Z n) = false.
Proof.
  intros Hn. destruct n as [|p|p]; [lia| |lia].
  unfold show_Z, pretty, pretty_Z, pretty, pretty_positive, pretty, pretty_N. rewrite decide_False by done.
  destruct (pretty_head (N.pos p) "") as (c & t & -> & Hc); [done|]. unfold starts_with. cbn [strip_prefix].
  by destruct (Ascii.eqb_spec "0" c) as [<-|].
Qed.
Lemma after_value_no_fraction r : after_value r = true -> fraction_next r = false.
Proof.
  destruct r as [|c r]; [done|]. simpl. intros Hc.
  destruct (Ascii.eqb_spec c ","), (Ascii.eqb_spec c "]"), (Ascii.eqb_spec c "}"); subst; done.
Qed.

Lemma read_num_write n r :
  json_wf (Num n) -> after_value r = true -> read_num (write_num n +:+ r) = Some (Num n, r).
Proof.
  intros Hn Hr. unfold read_num. pose proof (after_value_no_fraction r Hr) as Hf.
  assert (Hpos : forall z, (0 < z)%Z -> exists c t, show_Z z = String c t /\ is_ascii_digit c = true /\
    starts_with "0" (show_Z z) = false /\ span_digits (show_Z z +:+ r) = (show_Z z, r)).
  { intros z Hz. pose proof (show_Z_digits z ltac:(lia)) as Hd. pose proof (span_digits_app _ r Hd Hr) as Hs.
    pose proof (show_Z_head z Hz) as Hh. destruct (show_Z z) as [|c t] eqn:E; [|simpl in Hd; bool_to_prop; by exists c, t].
    pose proof (parse_int_show 0 z z ltac:(lia) ltac:(lia)) as Hp. by rewrite E in Hp. }
  destruct n as [z|z|b]; cbn [write_num json_wf] in *; [| |done].
  - destruct (decide (z = 0)%Z) as [->|Hz].
    { change (show_Z 0) with "0". change (strip_prefix "-" ("0" +:+ r)) with (@None string).
      cbv beta iota. by rewrite (span_digits_app "0" r eq_refl Hr), Hf. }
    destruct (Hpos z ltac:(lia)) as (c & t & E & Hc & Hh & Hs).
    assert (strip_prefix "-" (show_Z z +:+ r) = None) as ->.
    { rewrite E. cbn [String.append strip_prefix]. by destruct (Ascii.eqb_spec "-" c) as [<-|]. }
    rewrite Hs, Hh, Hf. rewrite E at 1. simpl. by rewrite parse_int_show by lia.
  - destruct z as [|p|p]; [lia|lia|]. destruct (Hpos (Z.pos p) ltac:(lia)) as (c & t & E & Hc & Hh & Hs).
    change (show_Z (Z.neg p)) with (String "-" (show_Z (Z.pos p))).
    change (strip_prefix "-" (String "-" (show_Z (Z.pos p)) +:+ r)) with (strip_prefix "" (show_Z (Z.pos p) +:+ r)).
    change (strip_prefix "" (show_Z (Z.pos p) +:+ r)) with (Some (show_Z (Z.pos p) +:+ r)).
    cbv beta iota. rewrite Hs, Hh, Hf. rewrite E at 1. cbn [String.eqb orb andb]. by rewrite parse_int_show by lia.
Qed.

(** The text of the items after the first, and of the fields. *)
Definition items_tail (l : list value) : string := sconcat (map (fun x => "," +:+ write_json x) l).
Definition write_field (kv : string * value) : string := write_str kv.1 +:+ ":" +:+ write_json kv.2.
Definition fields_tail (m : list (string * value)) : string := sconcat (map (fun kv => "," +:+ write_field kv) m).

Lemma write_arr_cons x l : write_json (Arr (x :: l)) = "[" +:+ write_json x +:+ items_tail l +:+ "]".
Proof.
  cbn [write_json]. f_equal. rewrite <-sapp_assoc. f_equal. f_equal.
  unfold items_tail. induction l as [|y l IH]; [done|]. cbn [map]. by rewrite sconcat_cons, <-IH, <-!sapp_assoc.
Qed.
Lemma write_obj_cons kv m : write_json (Obj (kv :: m)) = "{" +:+ write_field kv +:+ fields_tail m +:+ "}".
Proof.
  destruct kv as [k x]. cbn [write_json]. f_equal. unfold write_field, fields_tail. simpl fst. simpl snd.
  rewrite <-!sapp_assoc. do 3 f_equal. f_equal.
  induction m as [|[k' y] m IH]; [done|]. cbn [map]. rewrite sconcat_cons, <-IH. unfold write_field.
  simpl fst. simpl snd. by rewrite <-!sapp_assoc.
Qed.

Definition is_ws (c : ascii) : bool := Ascii.eqb c " " || Ascii.eqb c tab || Ascii.eqb c nl || Ascii.eqb c cr.
Lemma skip_ws_none c s : is_ws c = false -> skip_ws (String c s) = String c s.
Proof. intros Hc. cbn [skip_ws]. unfold is_ws in Hc. by rewrite Hc. Qed.

Lemma skip_ws_one c s : is_ws c = false -> skip_ws (String c "" +:+ s) = String c s.
Proof. apply skip_ws_none. Qed.

(** How a written value begins. *)
Lemma write_num_head n :
  json_wf (Num n) -> exists c t, write_num n = String c t /\ (is_ascii_digit c = true \/ c = "-"%char).
Proof.
  destruct n as [z|z|]; [..|done]; intros Hz; cbn [json_wf write_num] in *.
  - pose proof (show_Z_digits z ltac:(lia)) as Hd. destruct (show_Z z) as [|c t] eqn:E.
    + exfalso. assert (z <> 0)%Z by (intros ->; done).
      pose proof (parse_int_show 0 z z ltac:(lia) ltac:(lia)) as Hp. by rewrite E in Hp.
    + simpl in Hd. bool_to_prop. eauto.
  - destruct z as [|p|p]; [lia|lia|]. exists "-"%char, (show_Z (Z.pos p)). by split; [|right].
Qed.
Lemma digit_or_minus c :
  is_ascii_digit c = true \/ c = "-"%char ->
  is_ws c = false /\ c <> "]"%char /\ Ascii.eqb c dquote = false /\ Ascii.eqb c "[" = false /\ Ascii.eqb c "{" = false /\
  is_ascii_digit c || Ascii.eqb c "-" = true.
Proof.
  intros Hc. assert (Hb : is_ascii_digit c || Ascii.eqb c "-" = true).
  { apply orb_true_iff. destruct Hc as [| ->]; auto. }
  assert (H : implb (is_ascii_digit c || Ascii.eqb c "-") (negb (is_ws c) && negb (Ascii.eqb c "]") &&
    negb (Ascii.eqb c dquote) && negb (Ascii.eqb c "[") && negb (Ascii.eqb c "{")) = true).
  { clear. revert c. apply byte_forall. vm_compute. reflexivity. }
  rewrite Hb in H. cbn [implb] in H. bool_to_prop. split_and!; try done; by apply Ascii.eqb_neq.
Qed.
Lemma write_head v : json_wf v -> exists c t, write_json v = String c t /\ is_ws c = false /\ c <> "]"%char.
Proof.
  destruct v as [|[]|n|s|l|m]; intros Hv; try (eexists _, _; split; [reflexivity|by split]).
  destruct (write_num_head n Hv) as (c & t & E & Hc). exists c, t.
  by apply digit_or_minus in Hc as (? & ? & _).
Qed.

Lemma map_insert_last k x m :
  Forall (fun kv => String.compare k kv.1 = Gt) m -> map_insert k x m = m ++ [(k, x)].
Proof. induction 1 as [|[k' y] m Hk Hm IH]; [done|]. simpl in *. by rewrite Hk, IH. Qed.

Definition reads_back (v : value) : Prop :=
  json_wf v -> forall fuel r, String.length (write_json v) < fuel -> after_value r = true ->
    read_value fuel (write_json v +:+ r) = Some (v, r).

Lemma read_items_write x l fuel r :
  Forall (fun y => json_wf y /\ reads_back y) (x :: l) ->
  String.length (write_json x +:+ items_tail l) + 1 < fuel ->
  read_items fuel (write_json x +:+ items_tail l +:+ "]" +:+ r) = Some (x :: l, r).
Proof.
  revert x fuel. induction l as [|y l IH]; intros x fuel HF Hf; inversion_clear HF as [|? ? [Hx Hrx] HF'];
    (destruct fuel as [|fuel]; [lia|]); rewrite slen_app in Hf; cbn [read_items].
  - rewrite Hrx by (done || lia). done.
  - unfold items_tail in Hf |- *. cbn [map] in *. rewrite sconcat_cons in *. fold (items_tail l) in *.
    rewrite !slen_app in Hf. rewrite <-!sapp_assoc. rewrite Hrx by (done || lia).
    cbn [mbind option_bind]. rewrite skip_ws_one by done.
    change (Ascii.eqb "," ",") with true. cbv iota.
    rewrite IH; [done|done|]. rewrite slen_app. simpl in *. lia.
Qed.

Lemma read_key k r : read_str (S (String.length (escape k +:+ one dquote +:+ r))) (escape k +:+ one dquote +:+ r) = Some (k, r).
Proof.
  change (one dquote +:+ r) with (String dquote r). apply read_str_escape. rewrite slen_app.
  pose proof (escape_length k). simpl. lia.
Qed.

Lemma read_field_one k x m fuel tail :
  json_wf x -> reads_back x -> String.length (write_json x) < fuel -> after_value tail = true ->
  read_fields (S fuel) m (write_field (k, x) +:+ tail) =
    match skip_ws tail with
    | String c r => if Ascii.eqb c "," then read_fields fuel (map_insert k x m) r
                    else if Ascii.eqb c "}" then Some (map_insert k x m, r) else None
    | "" => None
    end.
Proof.
  intros Hx Hrx Hf Ht. cbn [read_fields]. unfold write_field, write_str. cbn [fst snd].
  rewrite <-!sapp_assoc. cbn [String.append]. rewrite skip_ws_none by done.
  change (Ascii.eqb dquote dquote) with true. cbv iota. rewrite <-!sapp_assoc, read_key. cbn [mbind option_bind].
  rewrite skip_ws_none by done. cbn [strip_prefix mbind option_bind].
  change (Ascii.eqb ":" ":") with true. cbv iota. cbn [mbind option_bind]. by rewrite Hrx.
Qed.

Lemma read_fields_write kv m acc fuel r :
  Forall (fun y => json_wf y.2 /\ reads_back y.2) (kv :: m) ->
  StronglySorted (fun a b => String.compare b.1 a.1 = Gt) (kv :: m) ->
  Forall (fun y => Forall (fun z => String.compare y.1 z.1 = Gt) acc) (kv :: m) ->
  String.length (write_field kv +:+ fields_tail m) + 1 < fuel ->
  read_fields fuel acc (write_field kv +:+ fields_tail m +:+ "}" +:+ r) = Some (acc ++ kv :: m, r).
Proof.
  revert kv acc fuel. induction m as [|kv' m IH]; intros [k x] acc fuel HF Hso Hacc Hf;
    inversion_clear HF as [|? ? [Hx Hrx] HF']; inversion_clear Hacc as [|? ? Hk Hacc']; cbn [fst snd] in *;
    (destruct fuel as [|fuel]; [lia|]);
    assert (Hlen : String.length (write_json x) < fuel) by (unfold write_field in Hf; rewrite !slen_app in Hf; simpl in Hf; lia).
  - rewrite read_field_one by done. cbn [fields_tail map sconcat foldr String.append].
    rewrite skip_ws_none by done. cbv iota. by rewrite map_insert_last.
  - unfold fields_tail in *. cbn [map] in *. rewrite sconcat_cons in *. fold (fields_tail m) in *.
    rewrite <-!sapp_assoc, read_field_one by done. rewrite skip_ws_one by done. change (Ascii.eqb "," ",") with true. cbv iota.
    rewrite map_insert_last by done. inversion_clear Hso as [|? ? Hso' Hlt].
    rewrite IH; [by rewrite <-app_assoc|done|done| |rewrite !slen_app in *; simpl in *; lia].
    apply Forall_forall. intros y Hy. apply Forall_app. split.
    + rewrite Forall_forall in Hacc'. auto.
    + apply Forall_singleton. rewrite Forall_forall in Hlt. by apply Hlt.
Qed.

Lemma reads_back_all v : reads_back v.
Proof.
  induction v as [| b | n | s | l IH | m IH] using value_ind'; intros Hv [|fuel] r Hf Hr; try lia.
  - done.
  - by destruct b.
  - destruct (write_num_head n Hv) as (c & t & E & Hc). apply digit_or_minus in Hc as (Hw & _ & H1 & H2 & H3 & H4).
    pose proof (read_num_write n r Hv Hr) as Hn. cbn [write_json read_value]. rewrite E in *.
    cbn [String.append] in *. by rewrite skip_ws_none, H1, H2, H3, H4.
  - cbn [write_json read_value]. unfold write_str. cbn [String.append]. rewrite skip_ws_none by done.
    change (Ascii.eqb dquote dquote) with true. cbv iota. by rewrite <-sapp_assoc, read_key.
  - destruct l as [|x l]; [done|]. rewrite write_arr_cons in *. rewrite !slen_app in Hf. simpl in Hf.
    assert (HF : Forall (fun y => json_wf y /\ reads_back y) (x :: l)).
    { apply Forall_and. split; [by apply json_wf_arr|done]. }
    rewrite <-!sapp_assoc. cbn [String.append read_value]. rewrite skip_ws_none by done. change (Ascii.eqb "[" dquote) with false.
    change (Ascii.eqb "[" "[") with true. cbv iota.
    inversion HF as [|? ? [Hx _] _]; subst. destruct (write_head x Hx) as (c & t & E & Hw & Hne).
    assert (strip_prefix "]" (skip_ws (write_json x +:+ items_tail l +:+ String "]" r)) = None) as ->.
    { rewrite E. cbn [String.append]. rewrite skip_ws_none by done. cbn [strip_prefix].
      by destruct (Ascii.eqb_spec "]" c) as [<-|]. }
    change (String "]" r) with ("]" +:+ r). rewrite read_items_write; [done|done|]. rewrite slen_app. lia.
  - destruct m as [|kv m]; [done|]. rewrite write_obj_cons in *. rewrite !slen_app in Hf. cbn [String.length] in Hf.
    apply json_wf_obj in Hv as [Hso Hv].
    assert (HF : Forall (fun y => json_wf y.2 /\ reads_back y.2) (kv :: m)).
    { by apply Forall_and. }
    rewrite <-!sapp_assoc. cbn [String.append read_value]. rewrite skip_ws_none by done. change (Ascii.eqb "{" dquote) with false.
    change (Ascii.eqb "{" "[") with false. change (Ascii.eqb "{" "{") with true. cbv iota.
    change (strip_prefix "}" (skip_ws (write_field kv +:+ fields_tail m +:+ String "}" r))) with (@None string).
    cbv iota. change (String "}" r) with ("}" +:+ r).
    rewrite (read_fields_write kv m []); [done|done|done| |rewrite slen_app; lia].
    apply Forall_forall. constructor.
Qed.

(** The reader undoes the writer on every value without fractions whose objects
    are in key order, as [serde_json]'s maps are. *)
Lemma json_read_write v : json_wf v -> from_str (to_json v) = Ok v.
Proof.
  intros Hv. simpl. unfold read_json.
  pose proof (reads_back_all v Hv (2 * String.length (write_json v) + 2) "" ltac:(lia) eq_refl) as Hr.
  rewrite sapp_nil_r in Hr. by rewrite Hr.
Qed.

(** ** Written texts are one line *)

Definition not_nl (c : ascii) : bool := negb (Ascii.eqb c nl).
Lemma write_str_line s : sall not_nl (write_str s) = true.
Proof.
  assert (He : sall not_nl (escape s) = true).
  { induction s as [|c s IH]; [done|]. cbn [escape]. rewrite sall_app, IH, andb_true_r.
    destruct c as [[] [] [] [] [] [] [] []]; reflexivity. }
  unfold write_str. cbn [sall]. by rewrite sall_app, He.
Qed.
Lemma show_Z_line z : sall not_nl (show_Z z) = true.
Proof.
  assert (Hpos : forall p, sall not_nl (show_Z (Z.pos p)) = true).
  { intros p. eapply sall_impl; [|by apply (show_Z_digits (Z.pos p))]. intros c Hc. apply negb_true_iff, Ascii.eqb_neq.
    by apply (Vault.digit_not c nl). }
  destruct z as [|p|p]; [done|apply Hpos|].
  change (sall not_nl (String "-" (show_Z (Z.pos p))) = true). cbn [sall]. by rewrite Hpos.
Qed.
Lemma sall_sconcat q l : Forall (fun s => sall q s = true) l -> sall q (sconcat l) = true.
Proof. induction 1 as [|s l Hs Hl IH]; [done|]. by rewrite sconcat_cons, sall_app, Hs, IH. Qed.
Lemma write_json_line v : sall not_nl (write_json v) = true.
Proof.
  induction v as [| b | n | s | l IH | m IH] using value_ind'; [done|by destruct b| | | |].
  - destruct n; [apply show_Z_line..|done].
  - apply write_str_line.
  - destruct IH as [|x l Hx Hl]; [done|]. rewrite write_arr_cons, !sall_app, Hx. unfold items_tail.
    rewrite sall_sconcat; [done|]. apply Forall_fmap. eapply Forall_impl; [exact Hl|]. intros y Hy.
    change (sall not_nl ("," +:+ write_json y) = true). by rewrite sall_app, Hy.
  - assert (Hf : forall kv, sall not_nl (write_json kv.2) = true -> sall not_nl (write_field kv) = true)
      by (intros kv Hkv; unfold write_field; by rewrite !sall_app, write_str_line, Hkv).
    destruct IH as [|x m Hx Hm]; [done|]. rewrite write_obj_cons, !sall_app, Hf by done. unfold fields_tail.
    rewrite sall_sconcat; [done|]. apply Forall_fmap. eapply Forall_impl; [exact Hm|]. intros y Hy.
    change (sall not_nl ("," +:+ write_field y) = true). by rewrite sall_app, Hf.
Qed.
Lemma ref_struct_laws : SerdeStructLaws.
Proof.
  split. intros fs s [= <-]. change (fun c => negb (Ascii.eqb c nl)) with not_nl.
  assert (Hl : Forall (fun s => sall not_nl s = true) (map (fun kv => write_str kv.1 +:+ ":" +:+ write_json kv.2) fs)).
  { apply Forall_fmap, Forall_true. intros kv.
    change (sall not_nl (write_str kv.1 +:+ ":" +:+ write_json kv.2) = true).
    by rewrite !sall_app, write_str_line, write_json_line. }
  assert (Hj : sall not_nl (join "," (map (fun kv => write_str kv.1 +:+ ":" +:+ write_json kv.2) fs)) = true).
  { unfold join. induction Hl as [|t l Ht Hl IH]; [done|].
    destruct l as [|t' l]; [done|]. change (sall not_nl (t +:+ "," +:+ String.concat "," (t' :: l)) = true).
    by rewrite !sall_app, Ht, IH. }
  change (sall not_nl ("{" +:+ join "," (map (fun kv => write_str kv.1 +:+ ":" +:+ write_json kv.2) fs) +:+ "}") = true).
  by rewrite !sall_app, Hj.
Qed.

(** ** A validator for three keywords *)

Definition value_type (v : value) : string :=
  match v with
  | Null => "null" | Bool _ => "boolean" | Num (Float _) => "number" | Num _ => "integer"
  | Str _ => "string" | Arr _ => "array" | Obj _ => "object"
  end.
Definition type_ok (want : string) (v : value) : bool :=
  String.eqb want (value_type v) || String.eqb want "number" && String.eqb (value_type v) "integer".
(** Nested [properties] down to [depth] levels. *)
Fixpoint schema_errors (depth : nat) (path : string) (schema v : value) : list (string * string) :=
  match depth with
  | O => []
  | S depth' =>
      match get_str "type" schema with
      | Some want => if type_ok want v then [] else [(path, to_json v +:+ " is not of type " +:+ write_str want)]
      | None => []
      end ++
      match v with
      | Obj m =>
          concat (map (fun k => match map_get k m with
                                | Some _ => []
                                | None => [(path, write_str k +:+ " is a required property")]
                                end) (omap as_str (default [] (get_arr "required" schema)))) ++
          match get "properties" schema with
          | Some (Obj props) =>
              concat (map (fun kv => match map_get kv.1 m with
                                     | Some x => schema_errors depth' (path +:+ "/" +:+ kv.1) kv.2 x
                                     | None => []
                                     end) props)
          | _ => []
          end
      | _ => []
      end
  end.
#[export] Instance ref_schema : JsonSchema := {|
  validator := value;
  validator_for schema := Ok schema;
  iter_errors := schema_errors 8 "";
|}.
