(* ===== verification/AuthTests.v ===== *)
(** * Tests of tokens, admin access, policies and the audit log, run on the model

    The unit tests of [src/client_auth/cache.rs], [runtime.rs] and
    [middleware.rs], of [src/admin/mod.rs], [src/policy/mod.rs] and
    [src/audit/mod.rs], evaluated on [ClientAuth], [Admin], [Policy] and
    [AuditTrail].  A policy text stands for what the YAML parser makes of it;
    the tests of that parser's defaults, of poisoned mutexes apart from the
    audit log's, and of marker traits have no counterpart in the model. *)

From S2P Require Import Prelude RustStr Json Regex Matcher Policy Config Budget ClientAuth Admin AuditTrail JsonText GuardTests.

#[local] Existing Instances demo_sha demo_unicode ref_struct mem_disk.

(** ** [src/client_auth/cache.rs]: instants in milliseconds *)

Definition cache_token (prefix : string) (id : Z) : CachedToken :=
  mkCached (mkRow id prefix 0 None "2026-01-01T00:00:00Z" None None None) (sconcat (replicate 32 (bytes [0]%N))).
Definition cached_at (now : Z) (c : TokenCache) (p : string) : bool :=
  match (cache_get now c p).1 with Some _ => true | None => false end.
Definition ins (now : Z) (p : string) (id : Z) (c : TokenCache) : TokenCache := cache_insert now c p (cache_token p id).

Definition miss_on_unknown_prefix : bool := negb (cached_at 0 (cache_new 8 60000) "ng_p_xxxxx").
Definition insert_then_get_returns_the_entry : bool :=
  match (cache_get 0 (ins 0 "ng_p_aaaaa" 1 (cache_new 8 60000)) "ng_p_aaaaa").1 with
  | Some got => (ct_id (cd_row got) =? 1)%Z
  | None => false
  end.
Definition invalidate_removes_the_entry : bool :=
  negb (cached_at 0 (cache_invalidate (ins 0 "ng_p_aaaaa" 1 (cache_new 8 60000)) "ng_p_aaaaa") "ng_p_aaaaa").
Definition ttl_expires_entries : bool := negb (cached_at 50 (ins 0 "ng_p_aaaaa" 1 (cache_new 8 10)) "ng_p_aaaaa").
Definition capacity_caps_the_cache : bool :=
  (size (tc_map (ins 0 "c" 3 (ins 0 "b" 2 (ins 0 "a" 1 (cache_new 2 60000))))) =? 2)%nat.
Definition eviction_prefers_lru_when_no_expired_entry : bool :=
  let c := ins 0 "b" 2 (ins 0 "a" 1 (cache_new 2 60000)) in
  let c := ins 0 "c" 3 (cache_get 0 c "a").2 in
  let '(a, c) := cache_get 0 c "a" in
  asserts [match a with Some _ => true | None => false end; negb (cached_at 0 c "b"); cached_at 0 c "c"].
Definition eviction_prefers_expired_over_lru : bool :=
  let c := ins 60 "c" 3 (ins 60 "b" 2 (ins 0 "a" 1 (cache_new 2 20))) in
  asserts [cached_at 60 c "b"; cached_at 60 c "c"; negb (cached_at 60 c "a")].
Definition insert_on_existing_key_refreshes_ttl_in_place : bool :=
  let c := ins 750 "a" 1 (ins 0 "a" 1 (cache_new 4 2000)) in
  let '(first, c) := cache_get 750 c "a" in
  asserts [match first with Some _ => true | None => false end; cached_at 2250 c "a"].

(** ** [src/client_auth/runtime.rs] *)

Definition in_memory (cfg : ClientAuth.AuthConfig) : ClientAuth :=
  match auth_open [] cfg with Ok a => a | Err _ => mkAuth [] (cache_new 0 0) cfg end.
Definition with_marker (m : string) : ClientAuth.AuthConfig := ClientAuth.mkAuthConfig (ClientAuth.au_enabled auth_default) m (ClientAuth.au_cache_capacity auth_default)
    (ClientAuth.au_cache_ttl_secs auth_default) (ClientAuth.au_require_https auth_default).
Definition fresh_token : Token := generate "p" "0123456789abcdefghijklmn".
(** [store::insert] through the handle. *)
Definition with_row (user_id : Z) (label : option string) (a : ClientAuth) : ClientAuth :=
  match store_insert (ca_db a) "now" (tk_prefix fresh_token) (tk_hash fresh_token) user_id label None with
  | Ok (_, db) => mkAuth db (ca_cache a) (ca_config a)
  | Err _ => a
  end.
Definition without_rows (a : ClientAuth) : ClientAuth := mkAuth [] (ca_cache a) (ca_config a).
Definition found_user (r : result string (option CachedToken)) : option Z :=
  match r with Ok (Some t) => Some (ct_user_id (cd_row t)) | _ => None end.

Definition open_creates_the_table_and_reports_disabled_by_default : bool :=
  let ca := in_memory auth_default in
  asserts [negb (ClientAuth.au_enabled (ca_config ca)); String.eqb (ClientAuth.au_env_marker (ca_config ca)) "p"].
Definition with_conn_can_read_and_write_via_store : bool :=
  match lookup_by_prefix (ca_db (with_row 42 (Some "test") (in_memory auth_default))) (tk_prefix fresh_token) with
  | Ok (Some (row, hash)) =>
      asserts [(ct_user_id row =? 42)%Z; bool_decide (ct_label row = Some "test"); String.eqb hash (tk_hash fresh_token)]
  | _ => false
  end.
Definition config_values_are_exposed : bool :=
  let ca := in_memory (ClientAuth.mkAuthConfig true "t" 4096 30 true) in
  asserts [ClientAuth.au_enabled (ca_config ca); String.eqb (ClientAuth.au_env_marker (ca_config ca)) "t";
           ClientAuth.au_require_https (ca_config ca)].
Definition open_rejects_non_alphanumeric_env_marker : bool :=
  forallb (fun bad => match auth_open [] (with_marker bad) with Err e => contains "env_marker" e | Ok _ => false end)
    ["@"; "#"; "$"; "!"; "_"; "-"; " "; one tab].
Definition open_accepts_valid_env_markers : bool :=
  forallb (fun good => is_ok (auth_open [] (with_marker good))) ["p"; "t"; "s"; "0"; "9"; "X"].
Definition lookup_caches_first_hit_and_serves_second_without_db : bool :=
  let '(first, ca) := ClientAuth.lookup 0 (with_row 1 (Some "x") (in_memory auth_default)) (tk_prefix fresh_token) in
  let '(second, _) := ClientAuth.lookup 0 (without_rows ca) (tk_prefix fresh_token) in
  asserts [bool_decide (found_user first = Some 1%Z); bool_decide (found_user second = Some 1%Z)].
Definition invalidate_cached_forces_db_reread : bool :=
  let '(_, ca) := ClientAuth.lookup 0 (with_row 7 None (in_memory auth_default)) (tk_prefix fresh_token) in
  match (ClientAuth.lookup 0 (invalidate_cached (without_rows ca) (tk_prefix fresh_token)) (tk_prefix fresh_token)).1 with
  | Ok None => true
  | _ => false
  end.
Definition lookup_miss_does_not_pollute_cache : bool :=
  let bogus := map (fun i => "ng_p_zz" +:+ show_Z (Z.of_nat i)) (seq 0 32) in
  let '(found, ca) := foldl (fun fa p => let '(r, a) := ClientAuth.lookup 0 fa.2 p in
    (fa.1 || match r with Ok None => false | _ => true end, a)) (false, in_memory auth_default) bogus in
  asserts [negb found; (size (tc_map (ca_cache ca)) =? 0)%nat].

(** ** [src/client_auth/middleware.rs] *)

Definition extract_bearer_happy_path : bool :=
  bool_decide (extract_bearer (Some "Bearer ng_p_a1b2c3d4e5f6g7h8j9k0m1n2") = Some "ng_p_a1b2c3d4e5f6g7h8j9k0m1n2").
Definition extract_bearer_rejects_wrong_scheme : bool := bool_decide (extract_bearer (Some "Basic dXNlcjpwYXNz") = None).
Definition extract_bearer_rejects_missing_space : bool :=
  bool_decide (extract_bearer (Some "Bearerng_p_a1b2c3d4e5f6g7h8j9k0m1n2") = None).
Definition extract_bearer_handles_none : bool := bool_decide (extract_bearer None = None).
(** The two timestamps of the tests, in seconds since the epoch; the clock
    stands in 2026. *)
Definition known_times (s : string) : option Z :=
  if String.eqb s "2020-01-01T00:00:00Z" then Some 1577836800%Z
  else if String.eqb s "2125-01-01T00:00:00Z" then Some 4891363200%Z else None.
Definition is_past_returns_true_for_past_timestamps : bool := is_past known_times 1780000000 "2020-01-01T00:00:00Z".
Definition is_past_returns_false_for_future_timestamps : bool :=
  negb (is_past known_times 1780000000 "2125-01-01T00:00:00Z").
Definition is_past_returns_false_for_malformed_strings : bool :=
  asserts [negb (is_past known_times 1780000000 "not-a-timestamp"); negb (is_past known_times 1780000000 "")].
Definition token_lookup_via_handle_finds_inserted_row : bool :=
  match lookup_by_prefix (ca_db (with_row 7 (Some "svc") (in_memory auth_default))) (tk_prefix fresh_token) with
  | Ok (Some (row, hash)) => asserts [(ct_user_id row =? 7)%Z; verify (tk_wire fresh_token) hash]
  | _ => false
  end.

(** ** [src/admin/mod.rs] *)

(** The part of [dummy_state] that [require_admin] reads, and the status of its
    answer. *)
Definition dummy_state (admin_key : option string) : AdminState (B := SqliteBudget) := mkAdmin admin_key None None.
Definition refusal (key authorization : option string) : option Z := fst <$> require_admin (dummy_state key) authorization.
Definition unauthorized (r : option Z) : bool := bool_decide (r = Some 401%Z).

Definition require_admin_accepts_valid_key : bool :=
  bool_decide (refusal (Some "supersecret") (Some "Bearer supersecret") = None).
Definition require_admin_rejects_wrong_key : bool := unauthorized (refusal (Some "supersecret") (Some "Bearer wrong")).
Definition require_admin_rejects_missing_header_when_key_is_set : bool := unauthorized (refusal (Some "supersecret") None).
Definition require_admin_rejects_when_disabled : bool := unauthorized (refusal None None).
Definition require_admin_rejects_empty_string_key : bool := unauthorized (refusal (Some "") None).
Definition require_admin_rejects_empty_string_key_with_any_token : bool :=
  unauthorized (refusal (Some "") (Some "Bearer any-token")).
Definition require_admin_rejects_any_token_when_disabled : bool := unauthorized (refusal None (Some "Bearer any-token")).
Definition require_admin_same_status_for_disabled_and_wrong_key : bool :=
  let disabled := refusal None (Some "Bearer wrong") in
  let enabled := refusal (Some "key") (Some "Bearer wrong") in
  asserts [bool_decide (disabled <> None); bool_decide (disabled = enabled)].
Definition require_admin_rejects_token_with_different_length : bool :=
  forallb (fun guess => unauthorized (refusal (Some "supersecret") (Some ("Bearer " +:+ guess))))
    [""; "a"; sconcat (replicate 64 "x"); "supersecre"].

(** ** [src/policy/mod.rs] *)

(** The YAML texts stand for the bundles the parser makes of them: a missing
    [metadata] is the default, a missing [severity] is ["medium"]. *)
Definition yaml (p : Policy) : result string Policy := from_yaml_str (fun _ => Ok p) "".
Definition no_metadata : PolicyMetadata := mkMetadata None None None None.
Definition bundle (version : Z) (rules : list Rule) : Policy := mkPolicy version no_metadata rules.
Definition yaml_rule (id category severity pattern : string) (action : RuleAction) (placeholder : option string) : Rule :=
  mkPolicyRule id category severity pattern action placeholder None [].
Definition parsed (r : result string Policy) (f : Policy -> bool) : bool := match r with Ok p => f p | Err _ => false end.
Definition refused (r : result string Policy) (message : string) : bool :=
  match r with Err e => contains message e | Ok _ => false end.
Definition email_body : string := "[A-Za-z0-9._%+-]+@[A-Za-z0-9.-]+\.[A-Za-z]{2,}".

Definition block_policy : Policy :=
  bundle 1 [yaml_rule "PI-1" "prompt_injection" "high" "ignore previous instructions" ABlock None;
            yaml_rule "PI-2" "prompt_injection" "medium" "jailbreak" ABlock None;
            yaml_rule "OFF-1" "off_topic" "low" "bitcoin" AFlag None].
Definition merge_appends_keyword_rules_to_buckets : bool := parsed (yaml block_policy) (fun policy =>
  let kw := merge_into_keyword_config policy keyword_default in
  asserts [(length (kc_inline_block kw) =? length (kc_inline_block keyword_default) + 2)%nat;
           bool_decide ("jailbreak" ∈ kc_inline_block kw)]).
Definition redactor_patterns_extracts_redact_regex_rules : bool :=
  parsed (yaml (bundle 1 [yaml_rule "PII-1" "pii" "medium" ("/" +:+ email_body +:+ "/") ARedact (Some "EMAIL");
                          yaml_rule "PII-2" "pii" "critical" "/AKIA[0-9A-Z]{16}/" ARedact (Some "AWS_ACCESS_KEY_ID")]))
  (fun policy => match redactor_patterns_from_policy policy with
                 | [(n0, p0); (n1, _)] => asserts [String.eqb n0 "EMAIL"; contains "@" p0; String.eqb n1 "AWS_ACCESS_KEY_ID"]
                 | _ => false
                 end).
Definition rule_index_lookups : bool := parsed (yaml block_policy) (fun policy =>
  let idx := from_policy policy in
  asserts [bool_decide (meta_id <$> lookup_literal idx "ignore previous instructions" = Some "PI-1");
           bool_decide (meta_id <$> lookup_literal idx "JAILBREAK" = Some "PI-2");
           bool_decide (meta_id <$> lookup_literal idx "not in policy" = None)]).
Definition parses_minimal_policy : bool :=
  parsed (yaml (bundle 1 [yaml_rule "PI-001" "prompt_injection" "high" "ignore previous instructions" ABlock None]))
  (fun p => asserts [(policy_version p =? 1)%Z; (length (policy_rules p) =? 1)%nat;
                     bool_decide (rule_action <$> policy_rules p !! 0%nat = Some ABlock)]).
Definition parses_redact_rule_with_placeholder : bool :=
  parsed (yaml (bundle 1 [yaml_rule "PII-001" "pii" "medium" ("/" +:+ email_body +:+ "/") ARedact (Some "EMAIL")]))
  (fun p => bool_decide (rule_placeholder <$> policy_rules p !! 0%nat = Some (Some "EMAIL"))).
Definition rejects_unknown_version : bool := refused (yaml (bundle 99 [])) "unsupported policy version".
Definition rejects_duplicate_rule_ids : bool :=
  refused (yaml (bundle 1 [yaml_rule "A" "x" "medium" "foo" ABlock None; yaml_rule "A" "x" "medium" "bar" ABlock None]))
    "duplicate rule id".
Definition rejects_redact_without_placeholder : bool :=
  refused (yaml (bundle 1 [yaml_rule "PII-X" "pii" "medium" "/foo/" ARedact None])) "requires `placeholder`".
Definition detects_regex_vs_literal : bool :=
  asserts [is_regex_pattern "/foo/"; negb (is_regex_pattern "foo"); bool_decide (regex_body "/abc/" = Some "abc");
           bool_decide (regex_body "abc" = None)].

(** ** [src/audit/mod.rs]: the file in memory *)

Definition sample_entry : AuditEntry :=
  mkEntry "test-req" "2026-05-17T00:00:00Z" "alice" "llama3.2" "deadbeef" Allow None None None None [] 42.
Definition fresh_log (fsync : bool) : AuditLog := log_open "" true fsync.
Definition read_lines (log : AuditLog) : list string := lines (contents (al_file log)).
Definition line_has (line k x : string) : bool :=
  match read_json line with Ok v => is_str x (key k v) | Err _ => false end.

Definition write_appends_jsonl_to_tempfile : bool :=
  let ls := read_lines (write (write (fresh_log false) sample_entry) sample_entry) in
  asserts [(length ls =? 2)%nat; forallb (fun l => line_has l "verdict" "allow" && line_has l "api_key" "alice") ls].
Definition write_recovers_from_poisoned_lock : bool :=
  let log := poison (fresh_log false) in
  let log' := write (write (write log sample_entry) sample_entry) sample_entry in
  asserts [al_poisoned log; negb (al_poison_logged log); al_poison_logged log'; (length (read_lines log') =? 3)%nat].
Definition fsync_every_write_setting_is_honored : bool :=
  let log := fresh_log true in
  asserts [al_fsync log; (length (read_lines (write log sample_entry)) =? 1)%nat].
(** [assert!(ids.insert(id))] for each id of the loop. *)
Fixpoint all_inserted (ids : gmap string unit) (new : list string) : bool :=
  match new with
  | [] => true
  | id :: rest => match ids !! id with Some _ => false | None => all_inserted (<[id := tt]> ids) rest end
  end.
(** The clock stands still: the counter alone keeps the ids apart. *)
Definition new_request_id_is_unique_under_tight_loop : bool := all_inserted ∅ (mint_ids 0 (replicate 10000 7%N)).
Definition write_reload_emits_reload_verdict : bool :=
  let log := write_reload (write_reload (fresh_log false) "r1" "now" true None 1234) "r2" "now" false (Some "boom") 5678 in
  match read_lines log with
  | [ok; fail] => asserts [line_has ok "verdict" "reload_ok"; line_has fail "verdict" "reload_failed";
                           line_has fail "error" "boom"]
  | _ => false
  end.

Lemma all_inserted_NoDup new : forall ids,
  NoDup new -> (forall id, id ∈ new -> ids !! id = None) -> all_inserted ids new = true.
Proof.
  induction new as [|id new IH]; [done|]. intros ids [Hid Hnew]%NoDup_cons Hfree. cbn [all_inserted].
  rewrite (Hfree id) by set_solver. apply IH; [done|]. intros id' Hid'.
  rewrite lookup_insert_ne by congruence. apply Hfree. set_solver.
Qed.
(** The ten thousand ids of the loop are distinct by the uniqueness of minted
    ids: no need to run it. *)
Example new_request_id_test_passes : new_request_id_is_unique_under_tight_loop = true.
Proof. apply all_inserted_NoDup; [|done]. apply request_ids_unique. rewrite length_replicate. vm_compute. discriminate. Qed.

(** ** The others *)

Definition auth_tests : list bool :=
  [miss_on_unknown_prefix; insert_then_get_returns_the_entry; invalidate_removes_the_entry; ttl_expires_entries;
   capacity_caps_the_cache; eviction_prefers_lru_when_no_expired_entry; eviction_prefers_expired_over_lru;
   insert_on_existing_key_refreshes_ttl_in_place;
   open_creates_the_table_and_reports_disabled_by_default; with_conn_can_read_and_write_via_store;
   config_values_are_exposed; open_rejects_non_alphanumeric_env_marker; open_accepts_valid_env_markers;
   lookup_caches_first_hit_and_serves_second_without_db; invalidate_cached_forces_db_reread;
   lookup_miss_does_not_pollute_cache;
   extract_bearer_happy_path; extract_bearer_rejects_wrong_scheme; extract_bearer_rejects_missing_space;
   extract_bearer_handles_none; is_past_returns_true_for_past_timestamps; is_past_returns_false_for_future_timestamps;
   is_past_returns_false_for_malformed_strings; token_lookup_via_handle_finds_inserted_row;
   require_admin_accepts_valid_key; require_admin_rejects_wrong_key; require_admin_rejects_missing_header_when_key_is_set;
   require_admin_rejects_when_disabled; require_admin_rejects_empty_string_key;
   require_admin_rejects_empty_string_key_with_any_token; require_admin_rejects_any_token_when_disabled;
   require_admin_same_status_for_disabled_and_wrong_key; require_admin_rejects_token_with_different_length;
   merge_appends_keyword_rules_to_buckets; redactor_patterns_extracts_redact_regex_rules; rule_index_lookups;
   parses_minimal_policy; parses_redact_rule_with_placeholder; rejects_unknown_version; rejects_duplicate_rule_ids;
   rejects_redact_without_placeholder; detects_regex_vs_literal;
   write_appends_jsonl_to_tempfile; write_recovers_from_poisoned_lock; fsync_every_write_setting_is_honored;
   write_reload_emits_reload_verdict].
Example auth_tests_pass : asserts auth_tests = true.
Proof. vm_compute. reflexivity. Qed.
