(* ===== verification/ConsoleTests.v ===== *)
(** * The console's tests, run on the model

    The unit tests of [src/console/{audit,auth,edit,handlers,reload}.rs] and of
    [src/reload.rs], evaluated on the console's model with files in memory, the
    JSON of [JsonText] and the regular expressions of [RegexRef].  The tests of
    what the cookie and Argon2 crates do, and of the random generator, have no
    counterpart. *)

From S2P Require Import Prelude RustStr Json Regex Matcher Schema Routing Policy ClientAuth Budget AuditTrail Proxy Admin Config Reload RustFs ConsoleDb ConsoleApi ConsoleEdit ConsoleViews ConsoleRuns EditRuns ServeRuns RegexSyntax RegexRef JsonText GuardTests.

#[local] Existing Instances demo_unicode demo_sha mem_disk demo_time demo_argon demo_cookie mem_fs exact_secs
  ref_struct ref_serde ref_engine ref_schema demo_ac demo_iword.

(** ** [src/console/audit.rs] *)

Definition mutation (actor : string) (actor_id : Z) (action : string) (target : option string) (before after : option value)
    (summary : string) : MutationRecord :=
  mkMutation (new_request_id 7 0).1 "2026-05-17T00:00:00Z" actor (show_Z actor_id) action target before after summary.
Definition line_of (log : @disk mem_disk) : value := match read_json (trim log) with Ok v => v | Err _ => Null end.
Definition has (k : string) (v : value) : bool := match get k v with Some _ => true | None => false end.

Definition writes_edit_record : bool :=
  let '(r, log) := write_edit "" (mkEditRecord "2026-05-17T00:00:00Z" "admin" "edit" "dicts/test.txt" "abc" "def" "added 2 rules") in
  asserts [is_ok r; contains "admin" log; contains "dicts/test.txt" log].
Definition writes_mutation_record_with_full_envelope : bool :=
  let models s := obj [("allowed_models", Str (quoted s))] in
  let '(r, log) := write_mutation "" (mutation "alice" 7 "user_update" (Some "carol") (Some (models "['X']"))
                                        (Some (models "['X', 'Y']")) "changed allowed_models") in
  let v := line_of log in
  asserts [is_ok r; is_str "alice" (key "actor" v); is_str "7" (key "actor_id" v); is_str "user_update" (key "action" v);
           is_str "carol" (key "target" v); is_str (quoted "['X']") (key "allowed_models" (key "before" v));
           is_str (quoted "['X', 'Y']") (key "allowed_models" (key "after" v));
           str_test (fun s => String.length s =? 48)%nat (key "request_id" v);
           str_test (contains "T") (key "timestamp" v)].
Definition mutation_record_omits_unset_fields : bool :=
  let v := line_of (write_mutation "" (mutation "bob" 3 "login" None None None "bob logged in")).2 in
  asserts [is_str "login" (key "action" v); negb (has "target" v); negb (has "before" v); negb (has "after" v)].
Definition record_mutation_swallows_io_failure : bool :=
  let log := record_mutation (record_mutation "" (mutation "a" 1 "login" None None None "ok"))
               (mutation "a" 1 "logout" None None None "ok") in
  (length (lines log) =? 2)%nat.

(** ** [src/console/auth.rs] *)

Definition byte_vec (n : nat) (b : N) : string := sconcat (replicate n (bytes [b])).
Definition csrf_token_roundtrip : bool :=
  let raw := byte_vec 32 200 in
  asserts [(String.length raw =? 32)%nat; bool_decide (decode_csrf_token (encode_csrf_token raw) = Some raw)].
Definition csrf_tokens_match_accepts_equal_and_rejects_diffs : bool :=
  let a := byte_vec 32 7 in
  asserts [csrf_tokens_match a (byte_vec 32 7); negb (csrf_tokens_match a (byte_vec 32 8));
           negb (csrf_tokens_match a (byte_vec 16 7))].
Definition csrf_decode_rejects_garbage : bool :=
  asserts [bool_decide (decode_csrf_token "not-hex" = None); bool_decide (decode_csrf_token "" = Some "")].
Definition common_password_rejects_known_weak_passwords : bool :=
  asserts [is_common_password "password123456"; is_common_password "PASSWORD123456";
           negb (is_common_password "uncommon-horse-battery-99")].

(** The state of the extractor tests: one user with one session that ends in
    2099; the session id and the token are drawn. *)
Definition test_config (secret : string) (idle : option Z) : ConsoleConfig :=
  mkConsole (co_enabled console_default) (co_listen console_default) secret (co_session_ttl_hours console_default)
    (co_audit_path console_default) (co_backup_limit console_default) idle (co_max_login_attempts console_default)
    (co_lockout_duration_minutes console_default) (co_auth console_default).
Definition csrf_config : ConsoleConfig := test_config "test-secret-for-csrf-tests-zzzzz" None.
Definition sid : string := byte_vec 32 1.
Definition csrf : string := byte_vec 32 2.
Definition in_2099 : string := to_rfc3339 4102444799000000000.
Definition user_table (username : string) (display_name : option string) (role : string) (hash : option string) : Z * ConsoleDb :=
  match insert_user (mkConsoleDb [] [] [] []) (to_rfc3339 T0) username display_name None role hash with
  | Ok r => r
  | Err _ => (0%Z, mkConsoleDb [] [] [] [])
  end.
Definition test_state : Z * ConsoleDb :=
  let '(uid, d) := user_table "alice" (Some "Alice") "admin" (Some "fake-hash") in
  (uid, match create_session d T0 sid uid in_2099 None None csrf with Ok d' => d' | Err _ => d end).
Definition cookie_header (c : ConsoleConfig) : option string := Some (build_session_cookie sid (co_session_secret c) false).
Definition extract (d : ConsoleDb) (csrf_header : option string) : result (Z * string) (User * string) :=
  (mutating_user csrf_config T0 (cookie_header csrf_config) csrf_header d).1.
Definition rejects_with {A} (status : Z) (r : result (Z * string) A) : bool :=
  match r with Err (s, _) => (s =? status)%Z | Ok _ => false end.

Definition mutating_user_rejects_missing_csrf_header : bool := rejects_with 403 (extract test_state.2 None).
Definition mutating_user_rejects_mismatched_csrf : bool :=
  rejects_with 403 (extract test_state.2 (Some (encode_csrf_token (byte_vec 32 170)))).
Definition mutating_user_accepts_valid_csrf : bool :=
  let '(uid, d) := test_state in
  match extract d (Some (encode_csrf_token csrf)) with
  | Ok (user, session_id) => asserts [(us_id user =? uid)%Z; String.eqb session_id sid]
  | Err _ => false
  end.
Definition rotate_csrf_token_changes_stored_value : bool :=
  let new_raw := byte_vec 32 3 in
  let '(n, d) := rotate_csrf_token test_state.2 sid new_raw in
  asserts [(n =? 1)%Z;
           bool_decide (session_by_id d sid ≫= se_csrf_token = Some new_raw);
           negb (bool_decide (session_by_id d sid ≫= se_csrf_token = Some csrf));
           rejects_with 403 (extract d (Some (encode_csrf_token csrf)));
           is_ok (extract d (Some (encode_csrf_token new_raw)))].
Definition current_user_rejects_idle_session : bool :=
  let c := test_config "test-secret-for-idle-tests-zzzzz" (Some 1%Z) in
  let '(uid, d) := user_table "idle_alice" None "user" None in
  let old_last_seen := to_rfc3339 (T0 - hours 2) in
  let d := with_sessions [mkSession sid uid old_last_seen (to_rfc3339 (T0 + hours 24)) old_last_seen None None (Some csrf)] d in
  rejects_with 401 (current_user c T0 (cookie_header c) d).1.

(** ** [src/console/edit.rs] *)

(** A dictionary line of fields, and a file system that holds one file. *)
Definition fields (l : list string) : string := match l with [] => "" | x :: r => foldl (fun acc f => acc +:+ one tab +:+ f) x r end.
Definition dict_line (word : string) : string := fields [word; "0"; "1.0"] +:+ one nl.
Definition test_path : string := "/tmp/edit-test/test.txt".
Definition holding (content : string) : fs := (write_file ([] : fs) 0 test_path content).2.
(** The k-th write happens k ticks of fifteen milliseconds in. *)
Definition tick (k : nat) : EditDraw :=
  let t := (15000000 * (1 + Z.of_nat k))%Z in mkEditDraw 7 (Z.of_nat k) t ("20260517T00000" +:+ show_Z (Z.of_nat k)) t.
Definition write_at (k : nat) (content : string) (limit : nat) : io (string * string) :=
  atomic_write_with_limit quote (tick k) test_path content validate_dict limit.
Definition fails_with {A} (message : string) (r : result (list string) A * fs) : bool :=
  match r.1 with Err causes => existsb (contains message) causes | Ok _ => false end.
Definition file_is (s : fs) (content : string) : bool := 
  match read_to_string s test_path with Ok c => String.eqb c content | Err _ => false end.
(** Write [line0], [line1], ... over the file. *)
Definition rewrites (n limit : nat) : fs :=
  foldl (fun s i => (write_at i (dict_line ("line" +:+ show_Z (Z.of_nat i))) limit s).2) (holding (dict_line "seed")) (seq 0 n).

Definition atomic_write_creates_file : bool :=
  let content := dict_line "hello world" in
  match atomic_write quote (tick 0) test_path content validate_dict [] with
  | (Ok (_, after), s) => asserts [String.eqb after (hash_content content); file_is s content]
  | (Err _, _) => false
  end.
Definition atomic_write_rejects_invalid_dict : bool :=
  fails_with "unsupported key" (atomic_write quote (tick 0) test_path (fields ["badline"; "99"]) validate_dict []).
Definition atomic_write_rejects_invalid_regex_in_dict : bool :=
  negb (is_ok (atomic_write quote (tick 0) test_path (fields ["/[invalid(/"; "0"]) validate_dict []).1).
Definition atomic_write_creates_backup : bool :=
  let '(r, s) := atomic_write quote (tick 0) test_path (dict_line "updated") validate_dict (holding (dict_line "original")) in
  match list_backups s test_path with
  | b :: _ => asserts [is_ok r; starts_with "test.bak." (bi_name b)]
  | [] => false
  end.
Definition revert_restores_backup : bool :=
  let s := (atomic_write quote (tick 0) test_path (dict_line "updated") validate_dict (holding (dict_line "original"))).2 in
  match list_backups s test_path with
  | b :: _ =>
      match revert_to_backup quote (tick 1) test_path (bi_name b) s with
      | (Ok content, s') => asserts [String.eqb content (dict_line "original"); file_is s' (dict_line "original")]
      | (Err _, _) => false
      end
  | [] => false
  end.
Definition atomic_write_respects_backup_limit : bool := (length (list_backups (rewrites 5 2) test_path) =? 2)%nat.
Definition atomic_write_zero_limit_disables_pruning : bool := (length (list_backups (rewrites 3 0) test_path) =? 3)%nat.
(** The YAML parser refuses the text. *)
Definition validate_policy_catches_bad_yaml : bool := negb (vr_valid (validate_policy no_yaml "not: valid: yaml: [")).
Definition validate_dict_accepts_valid : bool :=
  vr_valid (validate_dict (fields ["ignore previous instructions"; "0"; "10.0"] +:+ one nl)).
Definition validate_pii_dict_accepts_valid_regex : bool :=
  vr_valid (validate_pii_dict (fields ["/[A-Za-z0-9]+/"; "EMAIL"] +:+ one nl)).
Definition validate_pii_dict_rejects_invalid_regex : bool :=
  negb (vr_valid (validate_pii_dict (fields ["/[invalid(/"; "EMAIL"] +:+ one nl))).

(** ** [src/console/handlers.rs] *)

Definition line (action actor target : string) : string :=
  write_json (obj [("request_id", Str "deadbeef"); ("timestamp", Str "2026-05-17T00:00:00Z"); ("actor", Str actor);
    ("actor_id", Str "1"); ("action", Str action); ("target", Str target);
    ("summary", Str (actor +:+ " " +:+ action +:+ " " +:+ target))]).
Definition legacy_edit_line (file actor : string) : string :=
  write_json (obj [("timestamp", Str "2026-05-17T00:00:00Z"); ("actor", Str actor); ("action", Str "edit"); ("file", Str file);
    ("before_hash", Str "aa"); ("after_hash", Str "bb"); ("summary", Str "legacy edit")]).
Definition at_key (l : list value) (i : nat) (k want : string) : bool := is_str want (key k (default Null (l !! i))).

Definition filter_returns_tail_first_without_filters : bool :=
  let content := unlines [line "login" "alice" "alice"; line "user_create" "alice" "carol"; line "logout" "alice" "alice"] in
  let out := filter_console_audit_entries content None None None 10 in
  asserts [(length out =? 3)%nat; at_key out 0 "action" "logout"; at_key out 2 "action" "login"].
Definition filter_by_actor_returns_only_that_actor : bool :=
  let content := unlines [line "login" "alice" "alice"; line "login" "bob" "bob"; line "logout" "alice" "alice"] in
  let out := filter_console_audit_entries content None (Some "alice") None 10 in
  asserts [(length out =? 2)%nat; forallb (fun e => is_str "alice" (key "actor" e)) out].
Definition filter_by_target_matches_target_or_legacy_file_field : bool :=
  let content := unlines [line "user_update" "alice" "carol"; legacy_edit_line "dicts/test.txt" "alice";
                          line "user_update" "alice" "dave"] in
  let by_target := filter_console_audit_entries content None None (Some "carol") 10 in
  let by_file := filter_console_audit_entries content None None (Some "dicts/test.txt") 10 in
  asserts [(length by_target =? 1)%nat; at_key by_target 0 "target" "carol"; (length by_file =? 1)%nat;
           at_key by_file 0 "file" "dicts/test.txt"].
Definition filter_by_action_and_actor_combines_with_and_semantics : bool :=
  let content := unlines [line "login" "alice" "alice"; line "token_create" "alice" "alice"; line "token_create" "bob" "bob"] in
  let out := filter_console_audit_entries content (Some "token_create") (Some "alice") None 10 in
  asserts [(length out =? 1)%nat; at_key out 0 "actor" "alice"; at_key out 0 "action" "token_create"].
Definition filter_respects_limit_and_skips_blank_and_malformed_lines : bool :=
  let content := unlines (concat (map (fun i => [line "login" "alice" ("u" +:+ show_Z (Z.of_nat i)); ""; "{not-json}"]) (seq 0 50))) in
  let out := filter_console_audit_entries content (Some "login") None None 5 in
  asserts [(length out =? 5)%nat; at_key out 0 "target" "u49"].

(** ** [src/console/reload.rs] *)

(** A line of the proxy's log; the time stamp is written as the clock's text. *)
Definition reload_entry (at_ : Z) (verdict : string) : string :=
  write_json (obj [("timestamp", Str (to_rfc3339 at_)); ("verdict", Str verdict)]).
Definition poll_reload_status_finds_ok : bool :=
  bool_decide (poll_reload_status (LogText (unlines [reload_entry 1577836800000000000 "reload_ok";
    reload_entry 1780000000000000001 "reload_failed"])) 1780000000000000000 10 = Some false).
Definition poll_reload_status_ignores_old_entries : bool :=
  bool_decide (poll_reload_status (LogText (unlines [reload_entry 1577836800000000000 "reload_ok"])) 1780000000000000000 10 = None).
Definition parses_pid (content : string) : bool := match parse_i32 (trim content) with Ok pid => (0 <? pid)%Z | Err _ => false end.
Definition trigger_via_pid_file_with_valid_pid : bool := parses_pid ("4711" +:+ one nl).
Definition error_mentions (r : result string unit) (message : string) : bool :=
  match r with Err e => contains message e | Ok _ => false end.
Definition trigger_via_pid_file_missing_file : bool :=
  error_mentions (trigger_via_pid_file no_kill no_pid "/nonexistent/path/proxy.pid") "reading pid file".
Definition trigger_via_pid_file_invalid_content : bool :=
  error_mentions (trigger_via_pid_file no_kill (fun _ => Ok ("not-a-pid" +:+ one nl)) "/tmp/proxy.pid") "parsing PID".
(** The responder thread: it insists on the command and gives a fixed answer. *)
Definition responder (answer : string) (_ payload : string) : result string string :=
  if String.eqb (trim payload) "RELOAD" then Ok (answer +:+ one nl) else Err "assertion failed".
Definition trigger_via_socket_happy_path : bool := is_ok (trigger_via_socket (responder "OK") "/tmp/ng.sock" "RELOAD").
Definition trigger_via_socket_err_response : bool :=
  error_mentions (trigger_via_socket (responder "ERR something_broken") "/tmp/ng.sock" "RELOAD") "something_broken".

(** ** [src/reload.rs] *)

(** A process with default settings and one legacy backend; the reload then
    reads the environment, which has neither a configuration file nor
    variables. *)
Definition socket_config : Config :=
  mkConfig server_default (Some (mkBackend "ollama" "http://localhost:11434" None None)) ∅ routing_default input_default
    output_default budget_default audit_default tools_default policies_default auth_default
    (test_config "test-secret-for-unit-tests-only-do-not-use" None) reload_default.
Definition socket_answer (sent : string) : option string :=
  match pool (pool_config socket_config) with
  | Ok (pool_view, _) =>
      let runtime := mkHandles (runtime_build pool_view) None None None in
      match build_app_state no_yaml bare_env socket_config runtime with
      | Ok state => Some (socket_command no_yaml (fun _ => Err "expected an equals") (fun _ => []) bare_env runtime false demo_clock
                            (Ok sent) (mkProcess (B := SqliteBudget) state (mkHeap ∅ ∅ ∅) [])).1
      | Err _ => None
      end
  | Err _ => None
  end.
Definition socket_reload_responds_ok_or_err : bool :=
  match socket_answer ("RELOAD" +:+ one nl) with Some resp => starts_with "OK" resp || starts_with "ERR" resp | None => false end.
Definition socket_reload_rejects_invalid_command : bool :=
  match socket_answer ("PING" +:+ one nl) with Some resp => starts_with "ERR expected RELOAD" resp | None => false end.

(** ** All of them *)

Definition console_tests : list bool :=
  [writes_edit_record; writes_mutation_record_with_full_envelope; mutation_record_omits_unset_fields;
   record_mutation_swallows_io_failure;
   csrf_token_roundtrip; csrf_tokens_match_accepts_equal_and_rejects_diffs; csrf_decode_rejects_garbage;
   common_password_rejects_known_weak_passwords; mutating_user_rejects_missing_csrf_header;
   mutating_user_rejects_mismatched_csrf; mutating_user_accepts_valid_csrf; rotate_csrf_token_changes_stored_value;
   current_user_rejects_idle_session;
   atomic_write_creates_file; atomic_write_rejects_invalid_dict; atomic_write_rejects_invalid_regex_in_dict;
   atomic_write_creates_backup; revert_restores_backup; atomic_write_respects_backup_limit;
   atomic_write_zero_limit_disables_pruning; validate_policy_catches_bad_yaml; validate_dict_accepts_valid;
   validate_pii_dict_accepts_valid_regex; validate_pii_dict_rejects_invalid_regex;
   filter_returns_tail_first_without_filters; filter_by_actor_returns_only_that_actor;
   filter_by_target_matches_target_or_legacy_file_field; filter_by_action_and_actor_combines_with_and_semantics;
   filter_respects_limit_and_skips_blank_and_malformed_lines;
   poll_reload_status_finds_ok; poll_reload_status_ignores_old_entries; trigger_via_pid_file_with_valid_pid;
   trigger_via_pid_file_missing_file; trigger_via_pid_file_invalid_content; trigger_via_socket_happy_path;
   trigger_via_socket_err_response;
   socket_reload_responds_ok_or_err; socket_reload_rejects_invalid_command].
Example console_tests_pass : asserts console_tests = true.
Proof. vm_compute. reflexivity. Qed.
